(* ===== verification/_CoqProject ===== *)
-Q . S2P
Prelude.v
Util.v
Proto.v
BpfSm.v
Path.v
BpfSmThms.v
LbaCache.v
LbaCacheThms.v
Cmdbuf.v
Vm.v
Prp.v
NvmeBase.v
Xcow.v
XcowInv.v
XcowOps.v
XcowSnaps.v
XcowFormat.v
XcowReads.v
XcowTx.v
XcowThms.v
XcowCtl.v
BlkIter.v
Uring.v
Crypto.v
Aio.v
Sender.v
Encryptor.v
Enclave.v
EncryptorAio.v
Worker.v
Sgx.v
Multi.v
NvmeXcow.v
XcowSrv.v
CowRuns.v
XcowSrvThms.v
XcowSrvInv.v
Disk.v
EncSystem.v
ReplSystem.v
CowSystem.v
CowPaths.v
CowSystemInv.v
CowSystemRuns.v
CowSystemSteps.v
CowSystemThms.v
CowSystemGaps.v
XcowMain.v
RepoTests.v
Machine.v
Writerand.v
