(* ===== verification/Prelude.v ===== *)
(** * NVMetro userspace I/O functions: a verification library

    NVMetro routes the NVMe commands of a virtual machine. A classifier in the
    kernel sends each command to the device, or to a user-space function that
    answers it or hands it back with an address. This library models the
    user-space functions of src/mdev-client (C++), the classifier that ships
    with the copy-on-write one, the enclave of the SGX encryptors in
    src/encryptor-sgx, and the part of the kernel module that runs a classifier
    (src/patches-v5.10.66). All other paths below are under src/mdev-client/.

    ** How the parts work together

    A guest's command is first seen by the classifier (include/lbacache.hpp),
    run by the kernel module at hooks along the command's way, whose cache
    knows where some clusters of a copy-on-write disk are. What the cache does
    not know goes through a shared-memory ring (include/cmdbuf.hpp)
    to a worker loop (replicator.cpp, encryptor-mt.cpp, replicator-aio.cpp,
    encryptor-aio.cpp, encryptor-multi.cpp, xcowsrv.cpp), which hands it to a
    controller (nvme/nvme_*.cpp). Two programs (encryptor-sgx.cpp,
    encryptor-sgx-aio.cpp) keep the key and the cipher in an enclave that they
    call. Controllers read the command's data through its PRP lists
    (include/prp.hpp, include/nvme.hpp) in guest memory (include/vm.hpp, mapped by util/mdev.cpp), encrypt it (crypto/), and reach
    the disk by system calls or a ring of the kernel (util/uring.cpp). The
    copy-on-write controller (nvme/nvme_xcow.cpp) translates addresses by the
    tables of an image file (xcow/), which it copies, allocates and snapshots.
    Answers go back through a completion ring, with auxiliary words from which
    the classifier fills its cache.

    ** Modelling conventions

    Machine integers are [Z] with their wrap-around written out ([u16], [u32],
    [u64], [s32], [s64]); release builds are modelled, so [assert] is not
    evaluated (but it is in the enclave, whose build does not turn assertions
    off). An operation that may throw is a function of the monad [eff]
    below: the state, with what was written before the throw, and an outcome.
    [Eub] is an outcome of its own for steps the language leaves undefined
    (indexing past an end, an empty optional), so a theorem that a call returns
    says that none is reached. Loops are [Fixpoint]s on the data they run over,
    or carry fuel with a distinct outcome [Efuel]; the fuel is a bound on the
    number of turns (the bytes of a transfer plus one, the blocks of a command
    plus one, the entries of a table plus one, the work waiting plus one), and
    the theorems prove that calls return, so it suffices. Objects that are
    shared or outlive a call (tickets, waiting work, ring entries, the words of
    the image file) are in an explicit store under their addresses. What is not
    under src/ is a parameter: the ciphers of the crypto libraries (with the
    law that decryption undoes encryption), the results of system calls and
    ioctls, the bytes of fresh memory, the room of the kernel's ring, and the
    order in which an unordered container gives elements under one key, and the
    SDK of the enclave (which ranges are outside of it, which calls it enters).

    ** Files

    - [Prelude]: integers, the monad, arrays, bit lemmas, tactics, hints.
    - [Util]: util/time.cpp (differences of times), [cleanup] of
      include/util.hpp and [FileDescriptor] of include/fildes.hpp (ownership:
      each resource is given back at most once, and is not lost by a move).
    - [Proto]: command words, status codes, routing actions, auxiliary words
      and request tags (include/linux/*.h, include/tagging.hpp).
    - [LbaCache], [LbaCacheThms]: the classifier. State [cache] is the three
      maps; [lba_lookup], [lba_update], [lba_flush_range],
      [lba_clear_flag_all] and [nvme_run_bpf] are the functions of the same
      names. The helper [bpf_arraymap_elem_band] exists twice in the
      repository, with different results: [Polyfill] is the one of
      include/lbacache-polyfill.hpp that the tests use, [Kernel] that of the
      kernel patch. All definitions from here to [CowSystem] take one of them
      as an argument, and the theorems hold for either. The maps are per CPU
      in the kernel; [cache] is those of one CPU, and [run_bpf_on] the
      classifier on a map from CPUs to them. C11-C12: refinement of an abstract
      map, and revocation by a snapshot; also replacement, the use of an
      installed address, a range the flush misses, the refusal of every
      snapshot by the kernel's helper ([kernel_refuses_snapshot]) and the
      entries that a snapshot leaves on other CPUs
      ([snapshot_spares_other_cpus]).
    - [BpfSm], [BpfSmThms]: what the kernel module does with the classifier's
      answers (bpf_sm.c, io.c, notifyfd.c of the patches): the word of state of
      a command, its three occasions to move, and the classifiers of the other
      programs. C7-C10: every command ends once if no send fails, errors that
      are dropped, replicated writes, and what sends that fail do.
    - [Cmdbuf]: the rings, as whole operations and as the single accesses of
      producer and consumer interleaved. C13-C14: first in, first out.
    - [Vm], [Prp], [NvmeBase]: guest memory, PRP chains, identification caches
      and the iterators over a command. C15-C18: termination, exactness on
      the layouts of the standard, the blocks visited, and the size check; an
      unchecked second pointer is [prp2_offset_overrun], a list of one entry
      [one_entry_list_overrun]. The functions named [_raw] read on past a list,
      as the compiled code does, to show what can follow.
    - [Xcow]: the image (xcow/*.cpp, include/xcow/*.hpp) word by word; [XcowInv]
      its invariant; [XcowOps], [XcowSnaps], [XcowFormat], [XcowReads] the
      execution of the operations on well-formed images; [XcowTx] the steps of
      a transaction and the data clusters; [XcowThms] C19-C25: formatting,
      reopening, writes, isolation of snapshots, transactions,
      peeling, and the deviations found in them ([large_disk_overruns] is a
      disk that is too large for the one cluster of root table that is mapped). [XcowCtl]: the operations of
      xcowctl.cpp and what xcowdump.cpp prints. C26: [snap-recreate] is a
      rollback, unless the mapping file is full; [snap_list_exact] and
      [dump_snaps_exact] are the two ways of listing snapshots.
    - [BlkIter]: include/xcow/blk_iter.hpp. C27: the pieces are exact.
    - [Uring], [Crypto], [Aio]: ring entries and buffer vectors, cipher
      engines, tickets; the class [Controller] with its laws is what a worker
      loop relies on, and the controllers are its instances.
    - [Sender], [Encryptor], [EncryptorAio]: the controllers. C28-C31: what
      reaches the disk and the guest, block by block, and what an asynchronous
      write of zeroes really writes.
    - [Enclave]: encryptor-sgx/Enclave: the key, the three calls that encrypt
      and decrypt, and the enclave's copies of the iterators, with the checks
      its build adds. C32: no call reaches memory it has not checked.
    - [Sgx]: the two SGX encryptors, synchronous on the state of [Encryptor]
      and asynchronous as another [Controller]. C33-C35: a write is that of the
      encryptor without an enclave, a write of zeroes of any size is not one,
      and one bad pointer of a guest ends the service; [sgx_read_exact] is the read.
    - [Worker]: the loops of four programs against [Controller], and the
      dealing of queues. The argument [log] is whether the loop prints failed
      completions, for which encryptor-aio.cpp reads a ticket that it has
      freed. C36-C37: every command is answered exactly once and in its queue
      (but for that read), passes end for any controller that takes the
      commands of its queues, queues are dealt out completely
      ([poll_sync_exact] for the synchronous ones).
    - [Multi]: encryptor-multi.cpp, with its rings shared between threads.
    - [NvmeXcow], [XcowSrv]: the copy-on-write controller and server.
      [CowRuns]: the handlers and passes of the server on the requests of one
      cluster. [XcowSrvThms] C38-C39: an allocation as a transaction from the
      request to the completion, reads of one cluster; [XcowSrvInv] C40: cluster locks and
      the tickets that own them, at every reachable state.
    - [XcowMain]: the controller's constructor, and main's dealing of queues.
    - [Path]: the way of one command through classifier, kernel module, server
      and disk, as a function ([run_command]) and in any order of the answers
      ([runs]). [Disk]: requests and answers, the plain disk [disk_run] that
      the systems are compared with, the pages of a command and their blocks.
    - [EncSystem]: the encrypted disk composed of its classifier, [Encryptor]
      and the disk. C2: it is a plain disk, and what lies on the disk behind it
      is the encryption of every block. [ReplSystem]: the replicated one, with
      [Sender]. C3: it is a plain disk in any order of the answers, and the
      replica is a copy when it takes what it is given.
    - [CowSystem]: classifier, kernel module, server, image and data disk
      composed ([serve]), and the plain disk they are compared with; the disk
      and the kernel's ring are the class [Device] with its laws. [CowPaths]:
      what [serve] is on each path. [CowSystemInv], [CowSystemRuns],
      [CowSystemSteps]: data clusters and cache against the disk, one command,
      the invariant [sys_inv]. [CowSystemThms] C1: the system is a disk.
      [CowSystemGaps] C4-C6: snapshots that change (made by [XcowCtl], then the
      server restarted), writes that are lost.
    - [RepoTests]: the sections of test-lbacache.cpp and test-xcow.cpp, run on
      the model with the helper they are compiled with ([Polyfill]).
    - [Machine]: util/mdev.cpp, how guest memory and host memory buffers are
      mapped.
    - [Writerand]: writerand.cpp, threads that fill a disk from one counter:
      in any order each chunk is taken once and the threads end
      ([writerand_exact]), but by default nothing is written.

    ** Bounds

    Cluster sizes are those [make_hdr] accepts, up to 2^24 bytes; theorems
    about images carry them in the record [image]. Block sizes are between 1
    byte and a page. A busy-polling loop makes 20 turns, a burst is 16 commands
    and a window 128 completions, as in the sources. The whole system is for
    the classifier's cluster size, 64 KiB, blocks of 512 bytes, requests inside
    of one cluster, a device that does not fail and the maps of one CPU; a command
    moves at most twice on its way and takes two passes of the server.

    ** Not modelled

    Option parsing, opening of files and devices, [poll], thread creation,
    msync and prefetch hints, logging (but for the objects it reads); the mmap of a ring's regions; the creation
    of an enclave, the SDK's messages, and changes that the host makes to
    guest memory while a call of the enclave runs; the format of
    what the image tools print; allocators; a client that answers without
    a disk and is not built (mdev-client-fd.cpp); vendored
    and generated files; the other parts of the kernel patches (queues,
    translation of commands for the disk, memory, administration). Memory models weaker than
    sequential consistency are not considered for the rings: the accesses are
    interleaved in program order. Threads share nothing but what [Multi] says;
    one pass of one thread is a step. [CowSystem], [EncSystem] and [ReplSystem] serve one command after
    another; commands under way together are in [XcowSrvInv]. *)
From stdpp Require Export base tactics numbers option list gmap.
From Stdlib Require Export ZArith Lia.

#[global] Open Scope Z_scope.

(** ** Machine integers

    A w-bit unsigned integer is a [Z]; the wrap-around of an operation is
    written out with [wrap]. *)

Definition wrap (w x : Z) : Z := x mod 2 ^ w.
Definition u16 (x : Z) : Z := wrap 16 x.
Definition u32 (x : Z) : Z := wrap 32 x.
Definition u64 (x : Z) : Z := wrap 64 x.

(** Two's complement reading of the low 32 bits ([int], with -fwrapv). *)
Definition s32 (x : Z) : Z :=
  let y := u32 x in if y <? 2 ^ 31 then y else y - 2 ^ 32.

Definition s64 (x : Z) : Z :=
  let y := u64 x in if y <? 2 ^ 63 then y else y - 2 ^ 64.

(** Bitwise complement of a 32-bit operand. *)
Definition not32 (x : Z) : Z := u32 (Z.lnot x).
Definition not64 (x : Z) : Z := u64 (Z.lnot x).

(** C's truth value of an integer. *)
Definition truthy (x : Z) : bool := negb (x =? 0).

Definition U64_MAX : Z := 2 ^ 64 - 1.

(** ** Outcomes, exceptions and the effect monad

    A C++ operation either returns or throws, and what it wrote before the
    throw stays written: an operation on a state [S] is a function from [S] to
    an outcome and the state it leaves. [Eub] marks the point where the code
    would read or write outside of a span, dereference an empty optional or
    otherwise leave the defined behaviour of the language; [Eassert] a failed
    [assert]; [Econtract] the exception of a span that checks its accesses;
    [Efuel] the exhaustion of the fuel given to a loop. *)

Inductive exn : Type :=
  | Eruntime
  | Elogic
  | Eout_of_range
  | Einvalid_argument
  | Esystem
  | Ehwm
  | Edisk_hwm
  | Envme (code : Z)
  | Eassert
  | Econtract
  | Eub
  | Efuel.

#[global] Instance exn_eq_dec : EqDecision exn.
Proof. solve_decision. Defined.

Inductive outcome (A : Type) : Type :=
  | Ret (a : A)
  | Throw (e : exn).
Arguments Ret {A} a.
Arguments Throw {A} e.

#[global] Instance outcome_eq_dec {A} `{EqDecision A} : EqDecision (outcome A).
Proof. solve_decision. Defined.

#[global] Instance outcome_ret : MRet outcome := λ A a, Ret a.
#[global] Instance outcome_bind : MBind outcome := λ A B f m,
  match m with Ret a => f a | Throw e => Throw e end.

Definition eff (S A : Type) : Type := S → outcome A * S.

#[global] Instance eff_ret S : MRet (eff S) := λ A a s, (Ret a, s).
#[global] Instance eff_bind S : MBind (eff S) := λ A B f m s,
  match m s with
  | (Ret a, s') => f a s'
  | (Throw e, s') => (Throw e, s')
  end.

Definition throw {S A} (e : exn) : eff S A := λ s, (Throw e, s).
Definition get {S} : eff S S := λ s, (Ret s, s).
Definition put {S} (s : S) : eff S unit := λ _, (Ret tt, s).
Definition gets {S A} (f : S → A) : eff S A := λ s, (Ret (f s), s).
Definition modify {S} (f : S → S) : eff S unit := λ s, (Ret tt, f s).
Definition ensure {S} (b : bool) (e : exn) : eff S unit :=
  if b then mret tt else throw e.
Definition lift {S A} (o : outcome A) : eff S A := λ s, (o, s).

(** Run an operation on a part of the state. *)
Definition zoom {S T A} (view : S → T) (upd : T → S → S) (m : eff T A) : eff S A :=
  λ s, let '(o, t) := m (view s) in (o, upd t s).

(** A [try] block with one handler for the exceptions it covers. *)
Definition catch {S A} (m : eff S A) (h : exn → eff S A) : eff S A := λ s,
  match m s with
  | (Throw e, s') => h e s'
  | r => r
  end.

(** ** Arrays

    A fixed-size array of machine words indexed by [Z]: a finite map whose
    absent keys read as the zero the array was initialised with. *)

Abbreviation arr := (gmap Z Z).
Definition aget (a : arr) (i : Z) : Z := default 0 (a !! i).
Definition aset (a : arr) (i x : Z) : arr := <[i := x]> a.

(** ** Loop helpers *)

(** The first index of [l] that satisfies [p]: a search loop with [break]. *)
Fixpoint find_first (p : Z → bool) (l : list Z) : option Z :=
  match l with
  | [] => None
  | i :: l' => if p i then Some i else find_first p l'
  end.

(** ** Generic lemmas *)

Create HintDb nvm.
Create Rewrite HintDb nvm.

Lemma wrap_range w x : 0 <= w → 0 <= wrap w x < 2 ^ w.
Proof. intros. apply Z.mod_pos_bound. lia. Qed.

Lemma wrap_small w x : 0 <= x < 2 ^ w → wrap w x = x.
Proof. apply Z.mod_small. Qed.

Lemma u16_range x : 0 <= u16 x < 2 ^ 16.
Proof. by apply wrap_range. Qed.
Lemma u32_range x : 0 <= u32 x < 2 ^ 32.
Proof. by apply wrap_range. Qed.
Lemma u64_range x : 0 <= u64 x < 2 ^ 64.
Proof. by apply wrap_range. Qed.
Lemma u16_small x : 0 <= x < 2 ^ 16 → u16 x = x.
Proof. apply wrap_small. Qed.
Lemma u32_small x : 0 <= x < 2 ^ 32 → u32 x = x.
Proof. apply wrap_small. Qed.
Lemma u64_small x : 0 <= x < 2 ^ 64 → u64 x = x.
Proof. apply wrap_small. Qed.

Lemma s64_small x : - 2 ^ 63 <= x < 2 ^ 63 → s64 x = x.
Proof.
  intros Hx. unfold s64, u64, wrap. destruct (Z.le_gt_cases 0 x).
  - rewrite Z.mod_small by lia. by replace (x <? 2 ^ 63) with true by lia.
  - replace (x mod 2 ^ 64) with (x + 2 ^ 64)
      by (rewrite <- (Z.mod_small (x + 2 ^ 64) (2 ^ 64)) by lia;
          rewrite <- (Z.mul_1_l (2 ^ 64)) at 1; by rewrite Z.mod_add by lia).
    replace (x + 2 ^ 64 <? 2 ^ 63) with false by lia. lia.
Qed.

#[export] Hint Resolve u16_range u32_range u64_range : nvm.
#[export] Hint Rewrite u16_small u32_small u64_small using lia : nvm.

(** *** Bits *)

Lemma testbit_wrap w x k : 0 <= w → 0 <= k →
  Z.testbit (wrap w x) k = (k <? w) && Z.testbit x k.
Proof.
  intros Hw Hk. unfold wrap. destruct (Z.ltb_spec k w).
  - by rewrite Z.mod_pow2_bits_low by lia.
  - by rewrite Z.mod_pow2_bits_high by lia.
Qed.

Lemma testbit_u32 x k : 0 <= k →
  Z.testbit (u32 x) k = (k <? 32) && Z.testbit x k.
Proof. by apply testbit_wrap. Qed.

Lemma not32_bit x k : 0 <= k →
  Z.testbit (not32 x) k = (k <? 32) && negb (Z.testbit x k).
Proof. intros. unfold not32. by rewrite testbit_u32, Z.lnot_spec by lia. Qed.

Lemma testbit_shl a n k : 0 <= n → 0 <= k →
  Z.testbit (Z.shiftl a n) k = (n <=? k) && Z.testbit a (k - n).
Proof.
  intros Hn Hk. rewrite Z.shiftl_spec by done.
  destruct (Z.leb_spec n k); [done|]. by rewrite Z.testbit_neg_r by lia.
Qed.

Lemma testbit_above x n k : 0 <= x < 2 ^ n → n <= k → Z.testbit x k = false.
Proof.
  intros Hx Hk. destruct (decide (0 <= n)).
  - rewrite <- (Z.mod_small x (2 ^ n)) by lia. apply Z.mod_pow2_bits_high. lia.
  - rewrite (Z.pow_neg_r 2 n) in Hx by lia. lia.
Qed.

Lemma testbit_pow2 n k : 0 <= n → Z.testbit (2 ^ n) k = (k =? n).
Proof.
  intros Hn. destruct (Z.eqb_spec k n) as [->|Hne].
  - by apply Z.pow2_bits_true.
  - by apply Z.pow2_bits_false.
Qed.

Lemma shiftl_1 n : 0 <= n → Z.shiftl 1 n = 2 ^ n.
Proof. intros. rewrite Z.shiftl_mul_pow2 by done. lia. Qed.

(** Testing one bit with a mask is [Z.testbit]. *)
Lemma truthy_land_pow2 m n : 0 <= n →
  truthy (Z.land m (2 ^ n)) = Z.testbit m n.
Proof.
  intros Hn. unfold truthy. destruct (Z.testbit m n) eqn:E.
  - destruct (Z.eqb_spec (Z.land m (2 ^ n)) 0) as [H|]; [|done].
    apply (f_equal (λ x, Z.testbit x n)) in H.
    rewrite Z.land_spec, E, Z.pow2_bits_true, Z.bits_0 in H by done. done.
  - replace (Z.land m (2 ^ n)) with 0; [done|].
    apply Z.bits_inj'. intros k Hk.
    rewrite Z.bits_0, Z.land_spec, testbit_pow2 by done.
    destruct (Z.eqb_spec k n) as [->|]; [by rewrite E|by rewrite andb_false_r].
Qed.

(** A number with no bit at or above [n] is below [2 ^ n]. *)
Lemma range_of_bits x n : 0 <= x → 0 <= n →
  (∀ k, n <= k → Z.testbit x k = false) → x < 2 ^ n.
Proof.
  intros Hx Hn Hb. destruct (Z.lt_ge_cases x (2 ^ n)) as [|Hge]; [done|].
  assert (0 < 2 ^ n) by lia.
  assert (n <= Z.log2 x) by (apply Z.log2_le_pow2; lia).
  specialize (Hb _ H0). rewrite Z.bit_log2 in Hb by lia. done.
Qed.

(** *** Searching *)

Lemma find_first_Some p l i :
  find_first p l = Some i → i ∈ l ∧ p i = true.
Proof.
  induction l as [|j l IH]; simpl; [done|]. destruct (p j) eqn:E.
  - intros [= ->]. set_solver.
  - intros H. apply IH in H as [??]. set_solver.
Qed.

Lemma find_first_None p l :
  find_first p l = None ↔ ∀ i, i ∈ l → p i = false.
Proof.
  induction l as [|j l IH]; simpl.
  - split; [set_solver|done].
  - destruct (p j) eqn:E; [split; [done|]|rewrite IH].
    + intros H. rewrite (H j) in E; [done|set_solver].
    + split; intros H; [|set_solver].
      intros i Hi. apply elem_of_cons in Hi as [->|Hi]; eauto.
Qed.

Lemma find_first_ext p q l :
  (∀ i, i ∈ l → p i = q i) → find_first p l = find_first q l.
Proof.
  induction l as [|j l IH]; intros H; simpl; [done|].
  rewrite (H j), IH by set_solver. done.
Qed.

(** A search whose predicate holds of exactly one index finds that one. *)
Lemma find_first_unique p l i :
  i ∈ l → p i = true → (∀ j, j ∈ l → p j = true → j = i) →
  find_first p l = Some i.
Proof.
  intros Hi Hp Hu. destruct (find_first p l) as [j|] eqn:E.
  - apply find_first_Some in E as [Hj Hpj]. f_equal. eauto.
  - rewrite find_first_None in E. rewrite E in Hp; done.
Qed.

#[global] Arguments find_first : simpl never.

(** *** Arrays *)

Lemma aget_aset_eq a i x : aget (aset a i x) i = x.
Proof. unfold aget, aset. by rewrite lookup_insert_eq. Qed.
Lemma aget_aset_ne a i j x : i ≠ j → aget (aset a i x) j = aget a j.
Proof. intros. unfold aget, aset. by rewrite lookup_insert_ne. Qed.
Lemma aget_aset a i j x :
  aget (aset a i x) j = if decide (i = j) then x else aget a j.
Proof.
  case_decide; subst; [apply aget_aset_eq|by apply aget_aset_ne].
Qed.
#[export] Hint Rewrite aget_aset_eq : nvm.

(** *** The effect monad *)

(** Execution of a [bind] whose first part is known, and its inversion. *)
Lemma bind_Ret {S A B} (m : eff S A) (f : A → eff S B) s a s' :
  m s = (Ret a, s') → (m ≫= f) s = f a s'.
Proof. intros H. unfold mbind, eff_bind. by rewrite H. Qed.

Lemma bind_Throw {S A B} (m : eff S A) (f : A → eff S B) s e s' :
  m s = (Throw e, s') → (m ≫= f) s = (Throw e, s').
Proof. intros H. unfold mbind, eff_bind. by rewrite H. Qed.

(** A run of reads. *)
Lemma mapM_Ret {S A B} (m : A → eff S B) (g : A → B) l s :
  (∀ a, a ∈ l → m a s = (Ret (g a), s)) → mapM m l s = (Ret (g <$> l), s).
Proof.
  induction l as [|a l IH]; intros H; [done|]. cbn [mapM].
  rewrite (bind_Ret _ _ s (g a) s) by (apply H; by left).
  by rewrite (bind_Ret _ _ s (g <$> l) s) by (apply IH; intros b Hb; apply H; by right).
Qed.

Lemma bind_inv {S A B} (m : eff S A) (f : A → eff S B) s b s2 :
  (m ≫= f) s = (Ret b, s2) → ∃ a s1, m s = (Ret a, s1) ∧ f a s1 = (Ret b, s2).
Proof.
  unfold mbind, eff_bind. destruct (m s) as [[a|e] s1]; [|done]. intros H. by exists a, s1.
Qed.

Lemma get_Ret {S} (s : S) : get s = (Ret s, s).
Proof. done. Qed.

(** ** Tactics *)

(** Split the tests a definition makes, turning boolean comparisons into
    propositions, and close the branches arithmetic refutes. *)
Ltac bool_cases :=
  repeat match goal with
  | |- context [Z.eqb ?a ?b] => destruct (Z.eqb_spec a b)
  | |- context [Z.leb ?a ?b] => destruct (Z.leb_spec a b)
  | |- context [Z.ltb ?a ?b] => destruct (Z.ltb_spec a b)
  end; simpl; try lia.

(** Read the boolean comparisons of a hypothesis or goal as propositions. *)
Ltac to_prop :=
  repeat match goal with
  | H : (_ && _) = true |- _ => apply andb_true_iff in H as [??]
  | H : (_ || _) = false |- _ => apply orb_false_iff in H as [??]
  | H : negb _ = true |- _ => apply negb_true_iff in H
  | H : negb _ = false |- _ => apply negb_false_iff in H
  | H : (_ =? _) = true |- _ => apply Z.eqb_eq in H
  | H : (_ =? _) = false |- _ => apply Z.eqb_neq in H
  | H : (_ <? _) = true |- _ => apply Z.ltb_lt in H
  | H : (_ <? _) = false |- _ => apply Z.ltb_ge in H
  | H : (_ <=? _) = true |- _ => apply Z.leb_le in H
  | H : (_ <=? _) = false |- _ => apply Z.leb_gt in H
  end.

(** Run one step of the effect monad in the goal. *)
Ltac run_eff :=
  unfold mbind, mret, eff_bind, eff_ret, throw, get, put, gets, modify, lift
    in *; simpl in *.

(** The same by a known run of its first part. *)
Ltac step H := rewrite (bind_Ret _ _ _ _ _ H); cbv beta.
