(* ===== verification/Util.v ===== *)
(** * Time differences and owned resources

    util/time.cpp, and the classes that own something: [cleanup] of
    include/util.hpp and [FileDescriptor] of include/fildes.hpp. *)
From S2P Require Import Prelude.

(** ** Time

    A [timespec] or [timeval]: seconds, and nanoseconds or microseconds. *)

Record time : Type := Time { tv_sec : Z; tv_frac : Z }.

(** [operator-]; [unit] fractions are a second. *)
Definition time_sub (unit : Z) (x y : time) : Z :=
  let y :=
    if tv_frac x <? tv_frac y then
      let n := Z.quot (tv_frac y - tv_frac x) unit + 1 in
      Time (tv_sec y + n) (tv_frac y - unit * n)
    else y in
  let y :=
    if unit <? tv_frac x - tv_frac y then
      let n := Z.quot (tv_frac x - tv_frac y) unit in
      Time (tv_sec y - n) (tv_frac y + unit * n)
    else y in
  let d := s64 (unit * (tv_sec x - tv_sec y) + (tv_frac x - tv_frac y)) in
  if tv_sec x <? tv_sec y then s64 (- d) else d.

Definition timeval_sub : time → time → Z := time_sub 1000000.
Definition timespec_sub : time → time → Z := time_sub 1000000000.

(** On normalised times it is the distance, whichever is later. *)
Lemma time_sub_distance unit x y : 0 < unit <= 1000000000 →
  0 <= tv_frac x < unit → 0 <= tv_frac y < unit →
  0 <= tv_sec x < 2 ^ 32 → 0 <= tv_sec y < 2 ^ 32 →
  time_sub unit x y =
    Z.abs ((unit * tv_sec x + tv_frac x) - (unit * tv_sec y + tv_frac y)).
Proof.
  intros Hu Hx Hy Hsx Hsy. destruct x as [sx fx], y as [sy fy]. unfold time_sub. simpl in *.
  destruct (Z.ltb_spec fx fy); simpl.
  - rewrite Z.quot_small by lia. rewrite Z.add_0_l, Z.mul_1_r. simpl.
    replace (unit <? fx - (fy - unit)) with false by lia. simpl.
    rewrite (s64_small (unit * (sx - (sy + 1)) + (fx - (fy - unit)))) by nia.
    destruct (Z.ltb_spec sx (sy + 1)); [rewrite s64_small by nia|]; nia.
  - replace (unit <? fx - fy) with false by lia. simpl.
    rewrite (s64_small (unit * (sx - sy) + (fx - fy))) by nia.
    destruct (Z.ltb_spec sx sy); [rewrite s64_small by nia|]; nia.
Qed.

(** ** Owners

    Variables that own at most one resource each (a function to run once, an
    open file), and the resources given back so far, in order. *)

Record owners : Type := Owners { ow_vars : gmap Z (option Z); ow_done : list Z }.

Definition held (p : Z) (s : owners) : option Z := default None (ow_vars s !! p).
Definition set_var (p : Z) (c : option Z) (s : owners) : owners :=
  Owners (<[p := c]> (ow_vars s)) (ow_done s).

(** [dispose()]: run the function, or close the descriptor, and forget it. *)
Definition dispose (p : Z) (s : owners) : owners :=
  match held p s with
  | Some c => Owners (<[p := None]> (ow_vars s)) (ow_done s ++ [c])
  | None => s
  end.
Definition swap (p q : Z) (s : owners) : owners :=
  set_var q (held p s) (set_var p (held q s) s).

(** Construction (empty, with a resource, from another owner), assignment and
    destruction, and [neutralize] of [cleanup]. *)
Inductive owner_op : Type :=
  | OpEmpty (p : Z)
  | OpMake (p c : Z)
  | OpMoveNew (p q : Z)
  | OpMove (p q : Z)
  | OpNeutralize (p : Z)
  | OpDestroy (p : Z).

Definition owner_run (op : owner_op) (s : owners) : owners :=
  match op with
  | OpEmpty p => set_var p None s
  | OpMake p c => set_var p (Some c) s
  | OpMoveNew p q => swap p q (set_var p None s)
  | OpMove p q => if p =? q then s else swap p q (dispose p s)
  | OpNeutralize p => set_var p None s
  | OpDestroy p => let s := dispose p s in Owners (delete p (ow_vars s)) (ow_done s)
  end.

(** The language constructs a variable before it is used, and not twice. *)
Definition op_ok (op : owner_op) (s : owners) : Prop :=
  match op with
  | OpEmpty p | OpMake p _ => ow_vars s !! p = None
  | OpMoveNew p q => ow_vars s !! p = None ∧ is_Some (ow_vars s !! q)
  | OpMove p q => is_Some (ow_vars s !! p) ∧ is_Some (ow_vars s !! q)
  | OpNeutralize p | OpDestroy p => is_Some (ow_vars s !! p)
  end.

(** Every resource has one owner or has been given back once. *)
Record owners_ok (s : owners) : Prop := {
  oo_unique p q c : held p s = Some c → held q s = Some c → p = q;
  oo_once : NoDup (ow_done s);
  oo_done p c : held p s = Some c → c ∉ ow_done s;
}.

Definition made (op : owner_op) : list Z := match op with OpMake _ c => [c] | _ => [] end.

Lemma held_set p q c s : held q (set_var p c s) = if decide (p = q) then c else held q s.
Proof.
  unfold held, set_var. simpl. case_decide as H; [subst; by rewrite lookup_insert_eq|].
  by rewrite lookup_insert_ne.
Qed.

Lemma held_dispose p q s : held q (dispose p s) = if decide (p = q) then None else held q s.
Proof.
  unfold dispose. destruct (held p s) as [c|] eqn:E.
  - apply (held_set p q None).
  - case_decide; by subst.
Qed.

(** Moving the resources of a state among variables, or dropping some. *)
Lemma owners_ok_moved s s' (f : Z → Z) : owners_ok s → ow_done s' = ow_done s →
  (∀ p c, held p s' = Some c → held (f p) s = Some c) →
  (∀ p q c, held p s' = Some c → held q s' = Some c → f p = f q → p = q) → owners_ok s'.
Proof.
  intros [H1 H2 H3] Hd Hf Hi. split; rewrite ?Hd; [|done|].
  - intros p q c Hp Hq. apply (Hi p q c Hp Hq). by apply (H1 _ _ c); apply Hf.
  - intros p c Hp. apply (H3 (f p)). by apply Hf.
Qed.

Lemma owners_ok_dispose p s : owners_ok s → owners_ok (dispose p s).
Proof.
  intros Hs. unfold dispose. destruct (held p s) as [c|] eqn:E; [|done].
  pose proof Hs as [H1 H2 H3]. split; simpl.
  - intros q r d. change (Owners _ _) with (set_var p None (Owners (ow_vars s) (ow_done s ++ [c]))).
    rewrite !held_set. do 2 case_decide; try done. apply H1.
  - apply NoDup_app. split_and!; [done| |apply NoDup_singleton].
    intros d Hd Hc%list_elem_of_singleton. subst d. by apply (H3 p c).
  - intros q d. change (Owners _ _) with (set_var p None (Owners (ow_vars s) (ow_done s ++ [c]))).
    rewrite held_set. case_decide; [done|]. intros Hq Hin.
    apply elem_of_app in Hin as [Hin|Hin%list_elem_of_singleton]; [by apply (H3 q d)|].
    subst d. apply H. by apply (H1 p q c).
Qed.

Lemma owners_ok_swap p q s : owners_ok s → owners_ok (swap p q s).
Proof.
  intros Hs. apply (owners_ok_moved s _ (λ r, if decide (r = p) then q else if decide (r = q) then p else r));
    [done|done| |].
  - intros r c. unfold swap. rewrite !held_set. repeat case_decide; congruence.
  - intros r r' c _ _. repeat case_decide; congruence.
Qed.

(** Every operation keeps it, when what is made is new. *)
Lemma owner_run_ok op s : owners_ok s → op_ok op s →
  (∀ c, c ∈ made op → c ∉ ow_done s ∧ ∀ p, held p s ≠ Some c) → owners_ok (owner_run op s).
Proof.
  intros Hs Hop Hm. assert (∀ p, owners_ok (set_var p None s)) as Hnone.
  { intros p. apply (owners_ok_moved s _ id); [done|done| |done].
    intros q c. rewrite held_set. by case_decide. }
  destruct op as [p|p c|p q|p q|p|p]; simpl in *.
  - apply Hnone.
  - destruct (Hm c) as [Hc1 Hc2]; [by left|]. pose proof Hs as [H1 H2 H3]. split; [|done|].
    + intros q r d. rewrite !held_set. do 2 case_decide; try congruence. apply H1.
    + intros q d. rewrite held_set. case_decide; [by intros [= <-]|apply H3].
  - apply owners_ok_swap, Hnone.
  - destruct (p =? q); [done|]. by apply owners_ok_swap, owners_ok_dispose.
  - apply Hnone.
  - apply (owners_ok_moved (dispose p s) _ id); [by apply owners_ok_dispose|done| |done].
    intros q c. unfold held at 1. simpl. destruct (decide (p = q)) as [->|Hne].
    + by rewrite lookup_delete_eq.
    + by rewrite lookup_delete_ne.
Qed.

(** Moving and destroying lose nothing: a resource is held, or given back. *)
Lemma owner_run_keeps op s p c : op_ok op s → held p s = Some c → op ≠ OpNeutralize p →
  c ∈ ow_done (owner_run op s) ∨ ∃ q, held q (owner_run op s) = Some c.
Proof.
  intros Hop Hp Hn. destruct op as [q|q d|q r|q r|q|q]; simpl in *.
  - right. exists p. rewrite held_set, decide_False; [done|]. intros ->. unfold held in Hp.
    by rewrite Hop in Hp.
  - right. exists p. rewrite held_set, decide_False; [done|]. intros ->. unfold held in Hp.
    by rewrite Hop in Hp.
  - destruct Hop as [Hq _]. assert (q ≠ p) as Hqp.
    { intros ->. unfold held in Hp. by rewrite Hq in Hp. }
    right. destruct (decide (r = p)) as [->|Hr].
    + exists q. unfold swap. rewrite !held_set. by repeat (case_decide; try congruence).
    + exists p. unfold swap. rewrite !held_set. by repeat (case_decide; try congruence).
  - destruct (Z.eqb_spec q r) as [->|Hqr]; [right; by exists p|].
    destruct (decide (q = p)) as [->|Hqp].
    + left. unfold swap, dispose. rewrite Hp. simpl. set_solver.
    + right. destruct (decide (r = p)) as [->|Hr].
      * exists q. unfold swap. rewrite !held_set, !held_dispose. by repeat (case_decide; try congruence).
      * exists p. unfold swap. rewrite !held_set, !held_dispose. by repeat (case_decide; try congruence).
  - right. exists p. rewrite held_set, decide_False; [done|]. by intros ->.
  - destruct (decide (q = p)) as [->|Hqp].
    + left. unfold dispose. rewrite Hp. simpl. set_solver.
    + right. exists p. unfold held. simpl. rewrite lookup_delete_ne by done.
      pose proof (held_dispose q p s) as Hd. rewrite decide_False in Hd by done.
      unfold held in Hd at 1. by rewrite Hd.
Qed.
