(* ===== verification/Proto.v ===== *)
(** * NVMe commands, status codes and the request-routing protocol

    The command layout of include/linux/nvme.h, the actions and hooks of
    include/linux/bpf_nvme_mdev.h, the auxiliary words of
    include/xcow/proto.hpp and nvme_xcow.hpp, and the request tags of
    include/tagging.hpp. *)
From S2P Require Import Prelude.

(** ** nvme_command

    [struct nvme_common_command]; [rw] is another view of the same words. *)

Record nvme_command : Type := NvmeCommand {
  opcode : Z;
  flags : Z;
  command_id : Z;
  nsid : Z;
  cdw2_0 : Z;
  cdw2_1 : Z;
  metadata : Z;
  prp1 : Z;
  prp2 : Z;
  cdw10 : Z;
  cdw11 : Z;
  cdw12 : Z;
  cdw13 : Z;
  cdw14 : Z;
  cdw15 : Z;
}.

#[global] Instance nvme_command_eq_dec : EqDecision nvme_command.
Proof. solve_decision. Defined.

(** [cmd.rw.slba], [cmd.rw.length] and [cmd.rw.control]: the 64 bits of cdw10
    and cdw11, and the halves of cdw12. *)
Definition slba (c : nvme_command) : Z :=
  Z.lor (cdw10 c) (Z.shiftl (cdw11 c) 32).
Definition length0 (c : nvme_command) : Z := Z.land (cdw12 c) 0xffff.
Definition control (c : nvme_command) : Z := Z.shiftr (cdw12 c) 16.

Definition set_slba (v : Z) (c : nvme_command) : nvme_command :=
  NvmeCommand (opcode c) (flags c) (command_id c) (nsid c) (cdw2_0 c) (cdw2_1 c)
    (metadata c) (prp1 c) (prp2 c) (u32 v) (u32 (Z.shiftr v 32))
    (cdw12 c) (cdw13 c) (cdw14 c) (cdw15 c).

(** A command whose words have the width of their fields. *)
Record command_ok (c : nvme_command) : Prop := {
  ok_cdw10 : 0 <= cdw10 c < 2 ^ 32;
  ok_cdw11 : 0 <= cdw11 c < 2 ^ 32;
  ok_cdw12 : 0 <= cdw12 c < 2 ^ 32;
  ok_prp1 : 0 <= prp1 c < 2 ^ 64;
  ok_prp2 : 0 <= prp2 c < 2 ^ 64;
  ok_cid : 0 <= command_id c < 2 ^ 16;
}.

(** ** Opcodes, flags and status codes *)

Definition nvme_cmd_flush : Z := 0x00.
Definition nvme_cmd_write : Z := 0x01.
Definition nvme_cmd_read : Z := 0x02.
Definition nvme_cmd_write_zeroes : Z := 0x08.
Definition nvme_cmd_snapshot : Z := 0x81.

Definition NVME_CMD_SGL_ALL : Z := Z.lor (Z.shiftl 1 6) (Z.shiftl 1 7).
Definition NVME_RW_FUA : Z := Z.shiftl 1 14.

Definition NVME_SC_SUCCESS : Z := 0x0.
Definition NVME_SC_INVALID_OPCODE : Z := 0x1.
Definition NVME_SC_INVALID_FIELD : Z := 0x2.
Definition NVME_SC_INTERNAL : Z := 0x6.
Definition NVME_SC_INVALID_NS : Z := 0xb.
Definition NVME_SC_LBA_RANGE : Z := 0x80.
Definition NVME_SC_CAP_EXCEEDED : Z := 0x81.
Definition NVME_SC_DNR : Z := 0x4000.

(** ** Pages *)

Definition NVME_PAGE_SHIFT : Z := 12.
Definition NVME_PAGE_SIZE : Z := Z.shiftl 1 NVME_PAGE_SHIFT.

(** ** Routing actions of the classifier (enum nmbpf_actions) *)

Definition NMBPF_SEND_SHIFT : Z := 22.
Definition NMBPF_COMPLETE_SHIFT : Z := 28.
Definition NMBPF_HOOK_VSQ : Z := Z.shiftl 1 16.
Definition NMBPF_HOOK_HCQ : Z := Z.shiftl 1 17.
Definition NMBPF_HOOK_NFD_WRITE : Z := Z.shiftl 1 18.
Definition NMBPF_HOOK_PRE_VCQ : Z := Z.shiftl 1 19.
Definition NMBPF_SEND_HQ : Z := Z.shiftl 1 (NMBPF_SEND_SHIFT + 0).
Definition NMBPF_SEND_FD : Z := Z.shiftl 1 (NMBPF_SEND_SHIFT + 1).
Definition NMBPF_COMPLETE : Z := Z.shiftl 0 NMBPF_COMPLETE_SHIFT.
Definition NMBPF_WILL_COMPLETE_HQ : Z := Z.shiftl 1 NMBPF_COMPLETE_SHIFT.
Definition NMBPF_WILL_COMPLETE_FD : Z := Z.shiftl 2 NMBPF_COMPLETE_SHIFT.
Definition NMBPF_WAIT_FOR_HOOK : Z := Z.shiftl 7 NMBPF_COMPLETE_SHIFT.

(** ** Auxiliary words of a response *)

Definition AUXBITS_VALID : Z := 0x1.
Definition AUXBITS_WRITABLE : Z := 0x2.
Definition AUXCMD_KEEP : Z := 0x40000000.
Definition AUXCMD_FORWARD : Z := 0x20000000.
Definition AUX_CMD_MASK : Z := 0x70000000.
Definition AUX_MASK : Z := 0x3.
Definition AUX_SHIFT : Z := 3.
Definition AUX_MAX_ASSOC : Z := 8.

(** [nmntfy_aux]: [__u32 aux[3]]. *)
Record nmntfy_aux : Type := NmntfyAux { aux0 : Z; aux1 : Z; aux2 : Z }.

#[global] Instance nmntfy_aux_eq_dec : EqDecision nmntfy_aux.
Proof. solve_decision. Defined.

Definition no_aux : nmntfy_aux := NmntfyAux 0 0 0.

(** [set_aux(aux, paddr, aux0)]: the control word, then the address in two
    halves. *)
Definition set_aux_paddr (paddr a0 : Z) : nmntfy_aux :=
  NmntfyAux a0 (Z.land paddr 0xffffffff) (u32 (Z.shiftr paddr 32)).

(** ** The classifier's context (struct bpf_io_ctx)

    [sqid] and [iostate] are not read by the classifier in this repository. *)

Record bpf_io_ctx : Type := BpfIoCtx {
  ctx_cmd : nvme_command;
  current_hook : Z;
  ctx_data : Z;
  ctx_aux : nmntfy_aux;
}.

Definition set_ctx_cmd (c : nvme_command) (x : bpf_io_ctx) : bpf_io_ctx :=
  BpfIoCtx c (current_hook x) (ctx_data x) (ctx_aux x).

(** ** Request tags *)

Definition make_tag (qi ucid : Z) : Z := Z.lor (u32 (Z.shiftl qi 16)) ucid.
Definition unmake_tag (tag : Z) : Z * Z :=
  (u16 (Z.shiftr tag 16), u16 (Z.land tag 0xffff)).

Definition qi_invalid : Z := 0xffff.
Definition qi_admin : Z := 0xfffe.
Definition busy_tag : Z := make_tag qi_invalid 0xffff.
Definition noop_tag : Z := make_tag qi_invalid 0xfffe.

(** A completion's status word from the signed result of an asynchronous
    operation. *)
Definition translate_uring_status (us : Z) : Z :=
  if us <? 0 then Z.lor NVME_SC_DNR NVME_SC_INTERNAL else NVME_SC_SUCCESS.

(** ** Lemmas *)

Lemma slba_range c : command_ok c → 0 <= slba c < 2 ^ 64.
Proof.
  intros H. unfold slba.
  destruct (ok_cdw10 _ H), (ok_cdw11 _ H).
  assert (0 <= Z.shiftl (cdw11 c) 32) by (apply Z.shiftl_nonneg; lia).
  assert (0 <= Z.lor (cdw10 c) (Z.shiftl (cdw11 c) 32))
    by (apply Z.lor_nonneg; lia).
  split; [done|]. apply range_of_bits; [done|lia|].
  intros k Hk. rewrite Z.lor_spec, testbit_shl by lia.
  rewrite (testbit_above (cdw10 c) 32), (testbit_above (cdw11 c) 32) by lia.
  by rewrite andb_false_r.
Qed.

Lemma length0_range c : 0 <= length0 c < 2 ^ 16.
Proof.
  unfold length0. change 0xffff with (Z.ones 16).
  rewrite Z.land_ones by lia. apply Z.mod_pos_bound. lia.
Qed.
#[export] Hint Resolve slba_range length0_range : nvm.

(** Splitting a 64-bit word in two 32-bit halves loses nothing. *)
Lemma halves_u64 v : 0 <= v < 2 ^ 64 →
  Z.lor (u32 v) (Z.shiftl (u32 (Z.shiftr v 32)) 32) = v.
Proof.
  intros Hv. apply Z.bits_inj'. intros k Hk.
  rewrite Z.lor_spec, testbit_shl, testbit_u32 by lia.
  destruct (Z.ltb_spec k 32), (Z.leb_spec 32 k); simpl; try lia.
  - by rewrite orb_false_r.
  - rewrite testbit_u32, Z.shiftr_spec by lia.
    replace (k - 32 + 32) with k by lia.
    destruct (Z.ltb_spec (k - 32) 32); simpl; [done|].
    symmetry. apply (testbit_above v 64); lia.
Qed.

Lemma set_slba_slba v c : 0 <= v < 2 ^ 64 → slba (set_slba v c) = v.
Proof. apply halves_u64. Qed.
#[export] Hint Rewrite set_slba_slba using lia : nvm.

Lemma land_ones32 v : Z.land v 0xffffffff = u32 v.
Proof. change 0xffffffff with (Z.ones 32). by rewrite Z.land_ones by lia. Qed.

(** The address the classifier rebuilds from the two halves is the address
    the server stored. *)
Lemma set_aux_paddr_val p a0 : 0 <= p < 2 ^ 64 →
  Z.lor (aux1 (set_aux_paddr p a0)) (Z.shiftl (aux2 (set_aux_paddr p a0)) 32) = p.
Proof. intros. simpl. rewrite land_ones32. by apply halves_u64. Qed.

(** *** Tags *)

Lemma unmake_make_tag qi ucid :
  0 <= qi < 2 ^ 16 → 0 <= ucid < 2 ^ 16 →
  unmake_tag (make_tag qi ucid) = (qi, ucid).
Proof.
  intros Hq Hu. unfold unmake_tag, make_tag. f_equal; apply Z.bits_inj'; intros k Hk.
  - unfold u16. rewrite testbit_wrap, Z.shiftr_spec, Z.lor_spec, testbit_u32,
      testbit_shl by lia.
    rewrite (testbit_above ucid 16) by lia.
    replace (k + 16 - 16) with k by lia. bool_cases.
    + by rewrite orb_false_r.
    + symmetry. apply (testbit_above qi 16); lia.
  - unfold u16. rewrite testbit_wrap, Z.land_spec, Z.lor_spec, testbit_u32,
      testbit_shl by lia.
    change 0xffff with (Z.ones 16).
    destruct (Z.ltb_spec k 16).
    + rewrite Z.ones_spec_low, (proj2 (Z.leb_gt 16 k)), andb_true_r by lia.
      by rewrite !andb_false_r.
    + symmetry. apply (testbit_above ucid 16); lia.
Qed.
