(* ===== verification/BpfSm.v ===== *)
(** * The life of a command in the kernel

    The part of the kernel module that runs the classifier (the patches under
    src/patches-v5.10.66, drivers/nvme/mdev/bpf_sm.c, io.c and notifyfd.c): the
    word of state every command has, what the classifier's answers do to it,
    and when the guest is told that the command has ended. The update loops
    around atomic_cmpxchg are single steps. *)
From S2P Require Import Prelude Proto.

(** ** Data *)

Definition NMBPF_STATUS_MASK : Z := 0xFFFF.
Definition NMBPF_HOOK_MASK : Z := 0x3F0000.
Definition NMBPF_SEND_MASK : Z := 0xFC00000.
Definition NMBPF_COMPLETION_MASK : Z := 0x70000000.
Definition WILL_COMPLETE_TO_SEND (cmpl_type : Z) : Z :=
  Z.shiftl 1 (Z.shiftr cmpl_type NMBPF_COMPLETE_SHIFT + NMBPF_SEND_SHIFT - 1).

(** [vsq->ctx_data[ucid]]. *)
Record vsq_ctx : Type := VsqCtx { iostate : Z; saved_cmd : nvme_command }.

(** The command and the state of the [bpf_io_ctx] that the callers go on with. *)
Record bctx : Type := Bctx { bx_cmd : nvme_command; bx_iostate : Z }.

(** What the module does for a command: send it to the server, send it to the
    disk, tell the guest. *)
Inductive event : Type :=
  | ToFd (cmd : nvme_command)
  | ToHq (cmd : nvme_command)
  | Completed (status : Z).

(** ** The state of a command *)

Definition bpfsm_get (ios : Z) : bool := truthy (Z.land ios NMBPF_COMPLETION_MASK).

Definition bpfsm_set (cur bpf_ret : Z) : Z :=
  if truthy (Z.land cur NMBPF_COMPLETION_MASK) then
    Z.lor (Z.land cur NMBPF_STATUS_MASK)
      (Z.land bpf_ret (Z.lor (Z.lor NMBPF_HOOK_MASK NMBPF_SEND_MASK) NMBPF_COMPLETION_MASK))
  else bpf_ret.

(** The value returned, and the state. *)
Definition bpfsm_update (cur status cmpl_type : Z) : Z * Z :=
  let send_type := WILL_COMPLETE_TO_SEND cmpl_type in
  if negb (truthy (Z.land cur NMBPF_COMPLETION_MASK)) then (0, cur)
  else if negb (truthy (Z.land cur send_type)) then (cur, cur)
  else
    let next := Z.land cur (not32 send_type) in
    let next := if Z.land next NMBPF_COMPLETION_MASK =? cmpl_type
                then Z.lor (Z.land next (not32 NMBPF_STATUS_MASK)) status else next in
    let next := if negb (truthy (Z.land next NMBPF_SEND_MASK))
                then Z.lor (Z.land next (not32 NMBPF_COMPLETION_MASK)) NMBPF_COMPLETE else next in
    (next, next).

Section module.
Context {C : Type}.
(** The classifier, if one is attached; its state is that of its maps. *)
Context (prog : option (C → bpf_io_ctx → Z * bpf_io_ctx * C)).
(** The results of handing a command to the server's ring and to the disk's
    queue: nothing, or the status of the failure. *)
Context (fd_send hq_submit : nvme_command → option Z).

(** A null pointer for [aux] leaves the words of an earlier request, which the
    classifiers of the repository read at the hook for responses only. *)
Definition bpfsm_runhook (hook data : Z) (aux : nmntfy_aux) (b : bctx) (cd : vsq_ctx) (c : C)
    : bool * bctx * vsq_ctx * C :=
  let cmd := if hook =? NMBPF_HOOK_VSQ then bx_cmd b else saved_cmd cd in
  let ios := if hook =? NMBPF_HOOK_VSQ then 0 else iostate cd in
  if negb (hook =? NMBPF_HOOK_VSQ) &&
     (negb (bpfsm_get (iostate cd)) || negb (truthy (Z.land ios hook)))
  then (false, Bctx cmd ios, cd, c)
  else
    let ios := if hook =? NMBPF_HOOK_HCQ then Z.land ios (not32 NMBPF_SEND_HQ)
               else if hook =? NMBPF_HOOK_NFD_WRITE then Z.land ios (not32 NMBPF_SEND_FD)
               else ios in
    if truthy (Z.land ios NMBPF_SEND_MASK) then (false, Bctx cmd ios, cd, c)
    else
      match prog with
      | None => (false, Bctx cmd ios, cd, c)
      | Some prog =>
        let '(bpf_ret, ctx, c) := prog c (BpfIoCtx cmd hook data aux) in
        let ios := bpfsm_set (iostate cd) bpf_ret in
        (true, Bctx (ctx_cmd ctx) ios, VsqCtx ios (saved_cmd cd), c)
      end.

Definition nvme_mdev_io_passthrough (cmd : nvme_command) : list event * option Z :=
  match hq_submit cmd with
  | None => ([ToHq cmd], None)
  | Some ret => ([Completed ret], Some ret)
  end.

(** The sends of [nvme_mdev_io_act]. *)
Definition io_send (b : bctx) (cd : vsq_ctx) : list event * bctx * vsq_ctx :=
  let '(ev, b, cd, failed) :=
    if truthy (Z.land (bx_iostate b) NMBPF_SEND_FD) then
      match fd_send (bx_cmd b) with
      | None => ([ToFd (bx_cmd b)], b, cd, false)
      | Some ret =>
        let '(v, ios) := bpfsm_update (iostate cd) ret NMBPF_WILL_COMPLETE_FD in
        ([], Bctx (bx_cmd b) v, VsqCtx ios (saved_cmd cd), true)
      end
    else ([], b, cd, false) in
  if negb failed && truthy (Z.land (bx_iostate b) NMBPF_SEND_HQ) then
    match nvme_mdev_io_passthrough (bx_cmd b) with
    | (ev2, None) => (ev ++ ev2, b, cd)
    | (ev2, Some ret) =>
      let '(v, ios) := bpfsm_update (iostate cd) ret NMBPF_WILL_COMPLETE_HQ in
      (ev ++ ev2, Bctx (bx_cmd b) v, VsqCtx ios (saved_cmd cd))
    end
  else (ev, b, cd).

Fixpoint nvme_mdev_io_act (fuel : nat) (needs_react : bool) (b : bctx) (cd : vsq_ctx) (c : C)
    : list event * vsq_ctx * C :=
  match fuel with
  | O => ([], cd, c)
  | S fuel =>
    let '(ev, b, cd) := if needs_react then io_send b cd else ([], b, cd) in
    if Z.land (bx_iostate b) NMBPF_COMPLETION_MASK =? NMBPF_COMPLETE then
      let '(ran, b, cd, c) := bpfsm_runhook NMBPF_HOOK_PRE_VCQ 0 no_aux b cd c in
      if ran then
        let '(ev2, cd, c) := nvme_mdev_io_act fuel true b cd c in (ev ++ ev2, cd, c)
      else (ev ++ [Completed (Z.land (bx_iostate b) NMBPF_STATUS_MASK)], cd, c)
    else (ev, cd, c)
  end.

(** ** The three occasions on which a command moves

    The turns of [nvme_mdev_io_act]; the hook before the completion never
    runs, so it takes one (lemma [io_act_fuel]). *)
Definition act_fuel : nat := 1.

(** The guest submits it. *)
Definition nvme_mdev_io_process_sq (cmd : nvme_command) (c : C) : list event * vsq_ctx * C :=
  let cd := VsqCtx 0 cmd in
  let '(ran, b, cd, c) := bpfsm_runhook NMBPF_HOOK_VSQ 0 no_aux (Bctx cmd 0) cd c in
  let '(b, ios) :=
    if ran then (b, iostate cd)
    else let ios := bpfsm_set (iostate cd) (Z.lor NMBPF_SEND_HQ NMBPF_WILL_COMPLETE_HQ) in
         (Bctx (bx_cmd b) ios, ios) in
  nvme_mdev_io_act act_fuel true b (VsqCtx ios (bx_cmd b)) c.

(** The server responds. *)
Definition notifyfd_runhook (ustatus : Z) (aux : nmntfy_aux) (cd : vsq_ctx) (c : C)
    : list event * vsq_ctx * C :=
  let '(ran, b, cd, c) :=
    bpfsm_runhook NMBPF_HOOK_NFD_WRITE ustatus aux (Bctx (saved_cmd cd) 0) cd c in
  if ran then nvme_mdev_io_act act_fuel true b cd c
  else
    let '(v, ios) := bpfsm_update (iostate cd) ustatus NMBPF_WILL_COMPLETE_FD in
    nvme_mdev_io_act act_fuel false (Bctx (bx_cmd b) v) (VsqCtx ios (saved_cmd cd)) c.

(** The disk responds. *)
Definition nvme_mdev_io_process_hwq (status : Z) (cd : vsq_ctx) (c : C)
    : list event * vsq_ctx * C :=
  let '(ran, b, cd, c) :=
    bpfsm_runhook NMBPF_HOOK_HCQ status no_aux (Bctx (saved_cmd cd) 0) cd c in
  if ran then nvme_mdev_io_act act_fuel true b cd c
  else
    let '(v, ios) := bpfsm_update (iostate cd) status NMBPF_WILL_COMPLETE_HQ in
    nvme_mdev_io_act act_fuel false (Bctx (bx_cmd b) v) (VsqCtx ios (saved_cmd cd)) c.
End module.

(** ** The classifiers of the other programs (samples/bpf) *)

Definition nmbpf_passthrough (_ : unit) (ctx : bpf_io_ctx) : Z * bpf_io_ctx * unit :=
  (Z.lor NMBPF_SEND_HQ NMBPF_WILL_COMPLETE_HQ, ctx, tt).

Definition nmbpf_replicate (_ : unit) (ctx : bpf_io_ctx) : Z * bpf_io_ctx * unit :=
  let op := opcode (ctx_cmd ctx) in
  (if (op =? nvme_cmd_write) || (op =? nvme_cmd_write_zeroes)
   then Z.lor (Z.lor NMBPF_SEND_HQ NMBPF_SEND_FD) NMBPF_WILL_COMPLETE_HQ
   else Z.lor NMBPF_SEND_HQ NMBPF_WILL_COMPLETE_HQ, ctx, tt).

Definition nmbpf_encrypt_vsq (op : Z) : Z :=
  if op =? nvme_cmd_read
  then Z.lor (Z.lor NMBPF_SEND_HQ NMBPF_HOOK_HCQ) NMBPF_WAIT_FOR_HOOK
  else if op =? nvme_cmd_write then Z.lor NMBPF_SEND_FD NMBPF_WILL_COMPLETE_FD
  else if op =? nvme_cmd_write_zeroes then Z.lor NMBPF_SEND_FD NMBPF_WILL_COMPLETE_FD
  else Z.lor NMBPF_SEND_HQ NMBPF_WILL_COMPLETE_HQ.
Definition nmbpf_encrypt (_ : unit) (ctx : bpf_io_ctx) : Z * bpf_io_ctx * unit :=
  (if current_hook ctx =? NMBPF_HOOK_VSQ then nmbpf_encrypt_vsq (opcode (ctx_cmd ctx))
   else if current_hook ctx =? NMBPF_HOOK_HCQ then
     if truthy (ctx_data ctx) then Z.lor (ctx_data ctx) NMBPF_COMPLETE
     else Z.lor NMBPF_SEND_FD NMBPF_WILL_COMPLETE_FD
   else Z.lor NMBPF_SEND_HQ NMBPF_WILL_COMPLETE_HQ, ctx, tt).

Definition nmbpf_encrypt_ip_vsq (op : Z) : Z :=
  if op =? nvme_cmd_read
  then Z.lor (Z.lor NMBPF_SEND_HQ NMBPF_HOOK_HCQ) NMBPF_WAIT_FOR_HOOK
  else if op =? nvme_cmd_write
  then Z.lor (Z.lor NMBPF_SEND_FD NMBPF_HOOK_NFD_WRITE) NMBPF_WAIT_FOR_HOOK
  else if op =? nvme_cmd_write_zeroes then Z.lor NMBPF_SEND_FD NMBPF_WILL_COMPLETE_FD
  else Z.lor NMBPF_SEND_HQ NMBPF_WILL_COMPLETE_HQ.
Definition nmbpf_encrypt_ip (_ : unit) (ctx : bpf_io_ctx) : Z * bpf_io_ctx * unit :=
  (if current_hook ctx =? NMBPF_HOOK_VSQ then nmbpf_encrypt_ip_vsq (opcode (ctx_cmd ctx))
   else if current_hook ctx =? NMBPF_HOOK_HCQ then
     if truthy (ctx_data ctx) then Z.lor (ctx_data ctx) NMBPF_COMPLETE
     else Z.lor NMBPF_SEND_FD NMBPF_WILL_COMPLETE_FD
   else if current_hook ctx =? NMBPF_HOOK_NFD_WRITE then
     if truthy (ctx_data ctx) then Z.lor (ctx_data ctx) NMBPF_COMPLETE
     else Z.lor NMBPF_SEND_HQ NMBPF_WILL_COMPLETE_HQ
   else Z.lor NMBPF_SEND_HQ NMBPF_WILL_COMPLETE_HQ, ctx, tt).

(** ** Lemmas: the bits of the state *)

Lemma field_bit lo n k : 0 <= lo → 0 <= n → 0 <= k →
  Z.testbit (Z.shiftl (Z.ones n) lo) k = (lo <=? k) && (k <? lo + n).
Proof.
  intros. rewrite testbit_shl by lia. destruct (Z.leb_spec lo k); [|done]. simpl.
  rewrite Z.testbit_ones by lia. destruct (Z.ltb_spec k (lo + n)); lia.
Qed.

Lemma status_bit k : 0 <= k → Z.testbit NMBPF_STATUS_MASK k = (k <? 16).
Proof. intros. change NMBPF_STATUS_MASK with (Z.shiftl (Z.ones 16) 0). rewrite field_bit by lia. lia. Qed.
Lemma hook_bit k : 0 <= k → Z.testbit NMBPF_HOOK_MASK k = (16 <=? k) && (k <? 22).
Proof. intros. change NMBPF_HOOK_MASK with (Z.shiftl (Z.ones 6) 16). by rewrite field_bit by lia. Qed.
Lemma send_bit k : 0 <= k → Z.testbit NMBPF_SEND_MASK k = (22 <=? k) && (k <? 28).
Proof. intros. change NMBPF_SEND_MASK with (Z.shiftl (Z.ones 6) 22). by rewrite field_bit by lia. Qed.
Lemma compl_bit k : 0 <= k → Z.testbit NMBPF_COMPLETION_MASK k = (28 <=? k) && (k <? 31).
Proof. intros. change NMBPF_COMPLETION_MASK with (Z.shiftl (Z.ones 3) 28). by rewrite field_bit by lia. Qed.
(** The bits of an expression on both sides of an equation. *)
Ltac mask_bits :=
  apply Z.bits_inj'; intros k Hk;
  repeat first [rewrite Z.lor_spec | rewrite Z.land_spec | rewrite not32_bit by lia];
  rewrite ?send_bit, ?compl_bit, ?hook_bit, ?status_bit, ?testbit_pow2, ?Z.bits_0 by lia.

(** An answer of a classifier, or the state of a command: 31 bits, no path but
    the two of the module, and an ending exactly when something was sent. *)
Record ret_ok (r : Z) : Prop := {
  ret_range : 0 <= r < 2 ^ 31;
  ret_paths : Z.land r NMBPF_SEND_MASK = Z.land r (Z.lor NMBPF_SEND_HQ NMBPF_SEND_FD);
  ret_ends : truthy (Z.land r NMBPF_COMPLETION_MASK) = truthy (Z.land r NMBPF_SEND_MASK);
}.

(** The bit of a path. *)
Definition path (p : Z) : Prop := p = 22 ∨ p = 23.
Definition cmpl_of (p : Z) : Z := Z.shiftl (p - 21) NMBPF_COMPLETE_SHIFT.

Lemma set_high cur ret m lo n : 0 <= ret < 2 ^ 31 → bpfsm_get cur = true →
  m = Z.shiftl (Z.ones n) lo → 16 <= lo → 0 <= n → lo + n <= 31 →
  Z.land (bpfsm_set cur ret) m = Z.land ret m.
Proof.
  intros Hr Hg -> Hlo Hn Hh. unfold bpfsm_set. unfold bpfsm_get in Hg. rewrite Hg.
  mask_bits. rewrite field_bit by lia.
  destruct (Z.testbit ret k), (Z.testbit cur k); bool_cases; done.
Qed.

Lemma bit_truthy z n m : 0 <= n → m = 2 ^ n → truthy (Z.land z m) = Z.testbit z n.
Proof. intros Hn ->. by apply truthy_land_pow2. Qed.

Lemma truthy_mask_bit z m n : truthy (Z.land z m) = false → 0 <= n → Z.testbit m n = true →
  Z.testbit z n = false.
Proof.
  unfold truthy. intros E%negb_false_iff%Z.eqb_eq Hn Hm.
  apply (f_equal (λ x, Z.testbit x n)) in E. rewrite Z.land_spec, Hm, Z.bits_0 in E.
  by rewrite andb_true_r in E.
Qed.

(** What the answer of the classifier leaves of the state. *)
Lemma set_ok cur ret : 0 <= cur → ret_ok ret → bpfsm_get cur = true →
  ret_ok (bpfsm_set cur ret) ∧
  (∀ p, path p → Z.testbit (bpfsm_set cur ret) p = Z.testbit ret p).
Proof.
  intros Hc [Hr Hp He] Hg.
  assert (∀ m lo n, m = Z.shiftl (Z.ones n) lo → 16 <= lo → 0 <= n → lo + n <= 31 →
    Z.land (bpfsm_set cur ret) m = Z.land ret m) as Hm by (intros; by eapply set_high).
  assert (∀ p, path p → Z.testbit (bpfsm_set cur ret) p = Z.testbit ret p) as Hb.
  { intros p Hpp. rewrite <- !(bit_truthy _ p (Z.shiftl (Z.ones 1) p)) by
      (destruct Hpp; lia || by subst). f_equal. apply (Hm _ p 1); destruct Hpp; lia || done. }
  split; [|exact Hb]. split.
  - unfold bpfsm_set. unfold bpfsm_get in Hg. rewrite Hg. split.
    + apply Z.lor_nonneg. split; apply Z.land_nonneg; lia.
    + apply range_of_bits; [apply Z.lor_nonneg; split; apply Z.land_nonneg; lia|lia|].
      intros k Hk. rewrite Z.lor_spec, !Z.land_spec, !Z.lor_spec, status_bit, hook_bit, send_bit, compl_bit by lia.
      destruct (Z.testbit cur k), (Z.testbit ret k); bool_cases; done.
  - rewrite (Hm NMBPF_SEND_MASK 22 6) by done.
    rewrite (Hm (Z.lor NMBPF_SEND_HQ NMBPF_SEND_FD) 22 2) by done. done.
  - rewrite (Hm NMBPF_SEND_MASK 22 6), (Hm NMBPF_COMPLETION_MASK 28 3) by done. done.
Qed.

(** Sends and the end of a well-formed state. *)
Lemma ret_sends r : ret_ok r → truthy (Z.land r NMBPF_SEND_MASK) = Z.testbit r 22 || Z.testbit r 23.
Proof.
  intros [_ -> _]. unfold truthy.
  destruct (Z.eqb_spec (Z.land r (Z.lor NMBPF_SEND_HQ NMBPF_SEND_FD)) 0) as [E|E].
  - assert (∀ k, 0 <= k → Z.testbit r k && Z.testbit (Z.lor NMBPF_SEND_HQ NMBPF_SEND_FD) k = false) as H
      by (intros k Hk; by rewrite <- Z.land_spec, E, Z.bits_0).
    pose proof (H 22 ltac:(lia)) as H1. pose proof (H 23 ltac:(lia)) as H2.
    change (Z.testbit (Z.lor NMBPF_SEND_HQ NMBPF_SEND_FD) 22) with true in H1.
    change (Z.testbit (Z.lor NMBPF_SEND_HQ NMBPF_SEND_FD) 23) with true in H2.
    rewrite andb_true_r in H1, H2. by rewrite H1, H2.
  - destruct (Z.testbit r 22) eqn:E1; [done|]. destruct (Z.testbit r 23) eqn:E2; [done|].
    exfalso. apply E. mask_bits.
    change NMBPF_SEND_HQ with (2 ^ 22). change NMBPF_SEND_FD with (2 ^ 23). rewrite !testbit_pow2 by lia.
    destruct (Z.eqb_spec k 22) as [->|]; [by rewrite E1|].
    destruct (Z.eqb_spec k 23) as [->|]; [by rewrite E2|]. by rewrite andb_false_r.
Qed.

Lemma same_bits z z' (P : Z → bool) m : (∀ k, 0 <= k → P k = true → Z.testbit z k = Z.testbit z' k) →
  (∀ k, 0 <= k → Z.testbit m k = true → P k = true) → Z.land z m = Z.land z' m.
Proof.
  intros H1 H2. apply Z.bits_inj'. intros k Hk. rewrite !Z.land_spec.
  destruct (Z.testbit m k) eqn:E; [|by rewrite !andb_false_r]. by rewrite (H1 k Hk (H2 k Hk E)).
Qed.

(** The state after the response of a path: its bit is cleared, its status kept
    if it is the path that completes the command, and the command ended if it
    was the last. *)
Definition answered1 (cur p : Z) : Z := Z.land cur (not32 (2 ^ p)).
Definition answered2 (cur st p : Z) : Z :=
  if Z.land (answered1 cur p) NMBPF_COMPLETION_MASK =? cmpl_of p
  then Z.lor (Z.land (answered1 cur p) (not32 NMBPF_STATUS_MASK)) st else answered1 cur p.
Definition answered (cur st p : Z) : Z :=
  if negb (truthy (Z.land (answered2 cur st p) NMBPF_SEND_MASK))
  then Z.lor (Z.land (answered2 cur st p) (not32 NMBPF_COMPLETION_MASK)) NMBPF_COMPLETE
  else answered2 cur st p.

Section update.
Context (cur st p : Z) (Hp : path p) (Hok : ret_ok cur) (Hst : 0 <= st < 2 ^ 16).
Context (Hbit : Z.testbit cur p = true).
Abbreviation n1 := (answered1 cur p).
Abbreviation n2 := (answered2 cur st p).
Abbreviation n3 := (answered cur st p).

Lemma cur_pending : bpfsm_get cur = true.
Proof using Hp Hok Hbit.
  unfold bpfsm_get. rewrite (ret_ends _ Hok), (ret_sends _ Hok). destruct Hp as [-> | ->]; by rewrite Hbit, ?orb_true_r.
Qed.

Lemma update_eq : bpfsm_update cur st (cmpl_of p) = (n3, n3).
Proof using Hp Hok Hbit.
  pose proof cur_pending as Hg. unfold bpfsm_get in Hg. unfold bpfsm_update. rewrite Hg.
  assert (WILL_COMPLETE_TO_SEND (cmpl_of p) = 2 ^ p) as -> by (destruct Hp as [-> | ->]; done).
  rewrite truthy_land_pow2, Hbit by (destruct Hp; lia). done.
Qed.

Lemma n1_bit k : 0 <= k → Z.testbit n1 k = Z.testbit cur k && negb (k =? p).
Proof using All.
  intros Hk. unfold answered1. rewrite Z.land_spec, not32_bit, testbit_pow2 by (destruct Hp; lia).
  destruct (Z.ltb_spec k 32); [done|]. by rewrite (testbit_above cur 31) by (apply Hok || lia).
Qed.

Lemma n2_bit k : 16 <= k → Z.testbit n2 k = Z.testbit cur k && negb (k =? p).
Proof using All.
  intros Hk. rewrite <- n1_bit by lia. unfold answered2. case_match; [|done].
  rewrite Z.lor_spec, Z.land_spec, not32_bit, status_bit, (testbit_above st 16) by lia.
  rewrite orb_false_r. replace (k <? 16) with false by lia. rewrite andb_true_r.
  destruct (Z.ltb_spec k 32); [by rewrite andb_true_r|].
  rewrite n1_bit, (testbit_above cur 31) by (apply Hok || lia). done.
Qed.

Lemma n3_bit k : 16 <= k < 28 ∨ 31 <= k → Z.testbit n3 k = Z.testbit cur k && negb (k =? p).
Proof using All.
  intros Hk. rewrite <- n2_bit by lia. unfold answered. case_match; [|done].
  change NMBPF_COMPLETE with 0. rewrite Z.lor_0_r, Z.land_spec, not32_bit, compl_bit by lia.
  replace ((28 <=? k) && (k <? 31)) with false by lia. rewrite andb_true_r.
  destruct (Z.ltb_spec k 32); [by rewrite andb_true_r|].
  rewrite n2_bit, (testbit_above cur 31) by (apply Hok || lia). done.
Qed.

Lemma n_nonneg : 0 <= n1 ∧ 0 <= n2 ∧ 0 <= n3.
Proof using All.
  assert (0 <= n1) as H1 by (apply Z.land_nonneg; left; apply Hok).
  assert (0 <= n2) as H2.
  { unfold answered2. case_match; [|done]. apply Z.lor_nonneg. split; [apply Z.land_nonneg; by left|lia]. }
  split; [done|]. split; [done|]. unfold answered. case_match; [|done].
  apply Z.lor_nonneg. split; [apply Z.land_nonneg; by left|done].
Qed.

Lemma n3_sends : Z.land n3 NMBPF_SEND_MASK = Z.land n2 NMBPF_SEND_MASK.
Proof using All.
  apply (same_bits _ _ (λ k, (22 <=? k) && (k <? 28))).
  - intros k Hk H. by rewrite n3_bit, n2_bit by lia.
  - intros k Hk. by rewrite send_bit.
Qed.

Lemma update_ok : ret_ok n3 ∧ ∀ q, path q → Z.testbit n3 q = Z.testbit cur q && negb (q =? p).
Proof using All.
  destruct n_nonneg as (_ & _ & H3). split.
  2:{ intros q Hq. apply n3_bit. destruct Hq; lia. }
  split.
  - split; [done|]. apply range_of_bits; [done|lia|]. intros k Hk.
    rewrite n3_bit by lia. by rewrite (testbit_above cur 31) by (apply Hok || lia).
  - pose proof (ret_paths _ Hok) as E. apply Z.bits_inj'. intros k Hk.
    apply (f_equal (λ x, Z.testbit x k)) in E. rewrite !Z.land_spec in *.
    rewrite send_bit in * by lia.
    change (Z.testbit (Z.lor NMBPF_SEND_HQ NMBPF_SEND_FD) k) with (Z.testbit (Z.lor (2 ^ 22) (2 ^ 23)) k) in *.
    rewrite Z.lor_spec, !testbit_pow2 in * by lia.
    destruct (Z.leb_spec 22 k), (Z.ltb_spec k 28); simpl in *; rewrite ?andb_false_r, ?andb_true_r in *;
      try (replace (k =? 22) with false by lia; replace (k =? 23) with false by lia; by rewrite andb_false_r).
    rewrite n3_bit by lia. destruct ((k =? 22) || (k =? 23)); [by rewrite !andb_true_r|].
    rewrite andb_false_r in E. by rewrite E.
  - rewrite n3_sends. unfold answered. destruct (truthy (Z.land n2 NMBPF_SEND_MASK)) eqn:Es; simpl.
    + assert (Z.land n2 NMBPF_COMPLETION_MASK = Z.land cur NMBPF_COMPLETION_MASK) as ->; [|apply cur_pending].
      apply (same_bits _ _ (λ k, (28 <=? k) && (k <? 31))).
      * intros k Hk H. rewrite n2_bit by lia. replace (k =? p) with false by (destruct Hp; lia). by rewrite andb_true_r.
      * intros k Hk. by rewrite compl_bit.
    + change NMBPF_COMPLETE with 0. rewrite Z.lor_0_r, <- Z.land_assoc.
      change (Z.land (not32 NMBPF_COMPLETION_MASK) NMBPF_COMPLETION_MASK) with 0. by rewrite Z.land_0_r.
Qed.

Lemma answered1_compl : Z.land n1 NMBPF_COMPLETION_MASK = Z.land cur NMBPF_COMPLETION_MASK.
Proof using All.
  apply (same_bits _ _ (λ k, 28 <=? k)); [|intros k Hk; rewrite compl_bit by lia; lia].
  intros k Hk H. rewrite n1_bit by lia. replace (k =? p) with false by (destruct Hp; lia). by rewrite andb_true_r.
Qed.
Lemma answered_compl : bpfsm_get n3 = true →
  Z.land n3 NMBPF_COMPLETION_MASK = Z.land cur NMBPF_COMPLETION_MASK.
Proof using All.
  unfold bpfsm_get, answered. destruct (truthy (Z.land n2 NMBPF_SEND_MASK)); simpl.
  - intros _. apply (same_bits _ _ (λ k, 28 <=? k)); [|intros k Hk; rewrite compl_bit by lia; lia].
    intros k Hk H. rewrite n2_bit by lia. replace (k =? p) with false by (destruct Hp; lia). by rewrite andb_true_r.
  - change NMBPF_COMPLETE with 0. rewrite Z.lor_0_r, <- Z.land_assoc.
    change (Z.land (not32 NMBPF_COMPLETION_MASK) NMBPF_COMPLETION_MASK) with 0. by rewrite Z.land_0_r.
Qed.

Lemma answered_status : Z.land n3 NMBPF_STATUS_MASK =
  if Z.land n1 NMBPF_COMPLETION_MASK =? cmpl_of p then st else Z.land cur NMBPF_STATUS_MASK.
Proof using All.
  assert (Z.land n3 NMBPF_STATUS_MASK = Z.land n2 NMBPF_STATUS_MASK) as ->.
  { apply (same_bits _ _ (λ k, k <? 16)); [|intros k Hk; by rewrite status_bit].
    intros k Hk Hlt. unfold answered. case_match; [|done]. change NMBPF_COMPLETE with 0.
    rewrite Z.lor_0_r, Z.land_spec, not32_bit, compl_bit by lia.
    replace (k <? 32) with true by lia. replace (28 <=? k) with false by lia. by rewrite andb_true_r. }
  unfold answered2. case_match; apply Z.bits_inj'; intros k Hk; rewrite Z.land_spec, status_bit by lia.
  - rewrite Z.lor_spec, Z.land_spec, not32_bit, status_bit by lia.
    destruct (Z.ltb_spec k 16); simpl; rewrite ?andb_false_r, ?andb_true_r; [done|].
    by rewrite (testbit_above st 16) by lia.
  - rewrite n1_bit, Z.land_spec, status_bit by lia. destruct (Z.ltb_spec k 16); [|by rewrite !andb_false_r].
    replace (k =? p) with false by (destruct Hp; lia). by rewrite andb_true_r.
Qed.
End update.

(** A status only. *)
Lemma low_mask st m : 0 <= st < 2 ^ 16 → (∀ k, 0 <= k < 16 → Z.testbit m k = false) → Z.land st m = 0.
Proof.
  intros Hst Hm. apply Z.bits_inj'. intros k Hk. rewrite Z.land_spec, Z.bits_0.
  destruct (Z.lt_ge_cases k 16); [by rewrite Hm, andb_false_r by lia|]. by rewrite (testbit_above st 16) by lia.
Qed.
Lemma status_send st : 0 <= st < 2 ^ 16 → Z.land st NMBPF_SEND_MASK = 0.
Proof. intros H. apply low_mask; [done|]. intros k Hk. rewrite send_bit by lia. lia. Qed.
Lemma status_compl st : 0 <= st < 2 ^ 16 → Z.land st NMBPF_COMPLETION_MASK = 0.
Proof. intros H. apply low_mask; [done|]. intros k Hk. rewrite compl_bit by lia. lia. Qed.
Lemma status_hook st : 0 <= st < 2 ^ 16 → Z.land st NMBPF_HOOK_MASK = 0.
Proof. intros H. apply low_mask; [done|]. intros k Hk. rewrite hook_bit by lia. lia. Qed.

(** ** Lemmas: the operations when the sends succeed *)

Section sends.
Context {C : Type} (prog : option (C → bpf_io_ctx → Z * bpf_io_ctx * C)).
Context (fd_send hq_submit : nvme_command → option Z).

Definition sends_of (ios : Z) (cmd : nvme_command) : list event :=
  (if Z.testbit ios 23 then [ToFd cmd] else []) ++ (if Z.testbit ios 22 then [ToHq cmd] else []).
Definition end_of (ios : Z) : list event :=
  if bpfsm_get ios then [] else [Completed (Z.land ios NMBPF_STATUS_MASK)].

(** The hook before the completion never runs: it needs an ending to wait for,
    and is tried only when there is none. *)
Lemma pre_vcq_dead b cd c : bx_iostate b = iostate cd →
  Z.land (bx_iostate b) NMBPF_COMPLETION_MASK = NMBPF_COMPLETE →
  ∃ cmd, bpfsm_runhook prog NMBPF_HOOK_PRE_VCQ 0 no_aux b cd c = (false, Bctx cmd (bx_iostate b), cd, c).
Proof.
  intros E H. rewrite E in *. unfold bpfsm_runhook.
  change (NMBPF_HOOK_PRE_VCQ =? NMBPF_HOOK_VSQ) with false. cbv iota.
  assert (bpfsm_get (iostate cd) = false) as -> by (unfold bpfsm_get; by rewrite H). simpl. eauto.
Qed.

Lemma act_end (needs : bool) fuel b cd c ev b' cd' :
  (if needs then io_send fd_send hq_submit b cd else ([], b, cd)) = (ev, b', cd') →
  bx_iostate b' = iostate cd' →
  nvme_mdev_io_act prog fd_send hq_submit (S fuel) needs b cd c = (ev ++ end_of (iostate cd'), cd', c).
Proof.
  intros Es E. cbn [nvme_mdev_io_act]. rewrite Es. unfold end_of. destruct (bpfsm_get (iostate cd')) eqn:Hg.
  - replace (_ =? NMBPF_COMPLETE) with false; [by rewrite app_nil_r|]. symmetry. apply Z.eqb_neq.
    unfold bpfsm_get, truthy in Hg. rewrite E. intros H. by rewrite H in Hg.
  - assert (Z.land (bx_iostate b') NMBPF_COMPLETION_MASK = NMBPF_COMPLETE) as H.
    { unfold bpfsm_get, truthy in Hg. apply negb_false_iff, Z.eqb_eq in Hg. by rewrite E. }
    rewrite H, Z.eqb_refl. destruct (pre_vcq_dead b' cd' c E H) as [cmd ->]. cbn [bx_iostate]. by rewrite E.
Qed.

Lemma io_send_ok b cd : bx_iostate b = iostate cd → fd_send (bx_cmd b) = None →
  hq_submit (bx_cmd b) = None →
  io_send fd_send hq_submit b cd = (sends_of (iostate cd) (bx_cmd b), b, cd).
Proof.
  intros E Hf Hh. unfold io_send, sends_of. rewrite Hf, E.
  rewrite (bit_truthy _ 23 NMBPF_SEND_FD) by done.
  destruct (Z.testbit (iostate cd) 23); cbn [negb andb]; rewrite E, (bit_truthy _ 22 NMBPF_SEND_HQ) by done;
    unfold nvme_mdev_io_passthrough; rewrite Hh; by destruct (Z.testbit (iostate cd) 22).
Qed.

(** *** A response *)

(** The hook does not run for the response of a path: the state is updated. *)
Definition hook_of (p : Z) : Z := if p =? 22 then NMBPF_HOOK_HCQ else NMBPF_HOOK_NFD_WRITE.
Definition respond (p st : Z) (aux : nmntfy_aux) (cd : vsq_ctx) (c : C) : list event * vsq_ctx * C :=
  if p =? 22 then nvme_mdev_io_process_hwq prog fd_send hq_submit st cd c
  else notifyfd_runhook prog fd_send hq_submit st aux cd c.

Definition aux_of (p : Z) (aux : nmntfy_aux) : nmntfy_aux := if p =? 22 then no_aux else aux.
Lemma respond_eq p st aux cd c : path p →
  respond p st aux cd c =
    let '(ran, b, cd, c) :=
      bpfsm_runhook prog (hook_of p) st (aux_of p aux) (Bctx (saved_cmd cd) 0) cd c in
    if ran then nvme_mdev_io_act prog fd_send hq_submit act_fuel true b cd c
    else
      let '(v, ios) := bpfsm_update (iostate cd) st (cmpl_of p) in
      nvme_mdev_io_act prog fd_send hq_submit act_fuel false (Bctx (bx_cmd b) v)
        (VsqCtx ios (saved_cmd cd)) c.
Proof. by intros [-> | ->]. Qed.

(** The module goes on without the classifier: the path has no hook, or is not
    the last that is under way. *)
Lemma respond_update p st aux cd c : path p → ret_ok (iostate cd) → 0 <= st < 2 ^ 16 →
  Z.testbit (iostate cd) p = true →
  truthy (Z.land (iostate cd) (hook_of p)) = false ∨
    (∃ q, path q ∧ q ≠ p ∧ Z.testbit (iostate cd) q = true) →
  respond p st aux cd c =
    (end_of (answered (iostate cd) st p), VsqCtx (answered (iostate cd) st p) (saved_cmd cd), c).
Proof.
  intros Hp Hok Hst Hbit Hno. rewrite (respond_eq p st aux cd c Hp).
  assert (∃ cmd ios, bpfsm_runhook prog (hook_of p) st (aux_of p aux) (Bctx (saved_cmd cd) 0) cd c =
    (false, Bctx cmd ios, cd, c)) as (cmd & ios & ->).
  { unfold bpfsm_runhook.
    assert ((hook_of p =? NMBPF_HOOK_VSQ) = false) as -> by (by destruct Hp as [-> | ->]).
    rewrite (cur_pending _ _ Hp Hok Hbit). cbn [negb andb orb].
    destruct (truthy (Z.land (iostate cd) (hook_of p))); cbn [negb]; [|by eauto].
    destruct Hno as [?|(q & Hq & Hne & Hqb)]; [done|].
    set (ios := if hook_of p =? NMBPF_HOOK_HCQ then _ else _).
    assert (ios = Z.land (iostate cd) (not32 (2 ^ p))) as Ei by (unfold ios; by destruct Hp as [-> | ->]).
    destruct (truthy (Z.land ios NMBPF_SEND_MASK)) eqn:Es; [by eauto|]. exfalso.
    apply (truthy_mask_bit _ _ q) in Es; [|destruct Hq; lia|by destruct Hq as [-> | ->]].
    rewrite Ei, Z.land_spec, not32_bit, testbit_pow2, Hqb in Es by (destruct Hp, Hq; lia).
    replace (q =? p) with false in Es by lia. by destruct Hq as [-> | ->]. }
  rewrite (update_eq _ st p Hp Hok Hbit). unfold act_fuel.
  by rewrite (act_end false 0 _ _ _ [] (Bctx cmd (answered (iostate cd) st p))
    (VsqCtx (answered (iostate cd) st p) (saved_cmd cd))).
Qed.

(** The classifier runs. *)
Lemma respond_hook pr p st aux cd c r x c1 : prog = Some pr → path p →
  ret_ok (iostate cd) → Z.testbit (iostate cd) p = true →
  (∀ q, path q → q ≠ p → Z.testbit (iostate cd) q = false) →
  truthy (Z.land (iostate cd) (hook_of p)) = true →
  pr c (BpfIoCtx (saved_cmd cd) (hook_of p) st (aux_of p aux)) = (r, x, c1) →
  fd_send (ctx_cmd x) = None → hq_submit (ctx_cmd x) = None →
  let ios := bpfsm_set (iostate cd) r in
  respond p st aux cd c = (sends_of ios (ctx_cmd x) ++ end_of ios, VsqCtx ios (saved_cmd cd), c1).
Proof.
  intros Epr Hp Hok Hbit Hother Hhook Er Hf Hh ios. rewrite (respond_eq p st aux cd c Hp).
  unfold bpfsm_runhook.
  assert ((hook_of p =? NMBPF_HOOK_VSQ) = false) as -> by (by destruct Hp as [-> | ->]).
  rewrite (cur_pending _ _ Hp Hok Hbit), Hhook. cbn [negb andb orb].
  set (i1 := if hook_of p =? NMBPF_HOOK_HCQ then _ else _).
  assert (i1 = Z.land (iostate cd) (not32 (2 ^ p))) as Ei by (unfold i1; by destruct Hp as [-> | ->]).
  assert (truthy (Z.land i1 NMBPF_SEND_MASK) = false) as ->.
  { unfold truthy. apply negb_false_iff, Z.eqb_eq. rewrite Ei.
    pose proof (ret_paths _ Hok) as E. apply Z.bits_inj'. intros k Hk.
    apply (f_equal (λ x, Z.testbit x k)) in E. rewrite !Z.land_spec, Z.lor_spec in *.
    change NMBPF_SEND_HQ with (2 ^ 22) in E. change NMBPF_SEND_FD with (2 ^ 23) in E.
    rewrite !testbit_pow2, not32_bit, testbit_pow2, Z.bits_0 in * by (destruct Hp; lia).
    destruct (Z.eqb_spec k p) as [->|Hne]; [by rewrite !andb_false_r|]. rewrite !andb_true_r.
    destruct (k <? 32); [|by rewrite andb_false_r]. rewrite andb_true_r, E.
    destruct (Z.eqb_spec k 22) as [E22|]; [by rewrite (Hother k (or_introl E22) Hne)|].
    destruct (Z.eqb_spec k 23) as [E23|]; [by rewrite (Hother k (or_intror E23) Hne)|]. by rewrite andb_false_r. }
  rewrite Epr, Er. unfold act_fuel. fold ios. cbv beta iota. rewrite <- Epr.
  by rewrite (act_end true 0 _ _ _ (sends_of ios (ctx_cmd x)) (Bctx (ctx_cmd x) ios) (VsqCtx ios (saved_cmd cd)))
    by (done || by apply io_send_ok).
Qed.

(** The submission. *)
Lemma vsq_hook pr cmd c r x c1 : prog = Some pr →
  pr c (BpfIoCtx cmd NMBPF_HOOK_VSQ 0 no_aux) = (r, x, c1) →
  bpfsm_runhook prog NMBPF_HOOK_VSQ 0 no_aux (Bctx cmd 0) (VsqCtx 0 cmd) c =
    (true, Bctx (ctx_cmd x) r, VsqCtx r cmd, c1).
Proof.
  intros -> Er. unfold bpfsm_runhook.
  change (NMBPF_HOOK_VSQ =? NMBPF_HOOK_VSQ) with true. cbn [negb andb].
  change (NMBPF_HOOK_VSQ =? NMBPF_HOOK_HCQ) with false.
  change (NMBPF_HOOK_VSQ =? NMBPF_HOOK_NFD_WRITE) with false. cbv iota.
  change (truthy (Z.land 0 NMBPF_SEND_MASK)) with false. cbv iota. cbn [bx_cmd iostate].
  rewrite Er. by assert (bpfsm_set 0 r = r) as -> by done.
Qed.

Lemma submit_hook pr cmd c r x c1 : prog = Some pr →
  pr c (BpfIoCtx cmd NMBPF_HOOK_VSQ 0 no_aux) = (r, x, c1) →
  fd_send (ctx_cmd x) = None → hq_submit (ctx_cmd x) = None →
  nvme_mdev_io_process_sq prog fd_send hq_submit cmd c =
    (sends_of r (ctx_cmd x) ++ end_of r, VsqCtx r (ctx_cmd x), c1).
Proof.
  intros Epr Er Hf Hh. unfold nvme_mdev_io_process_sq. rewrite (vsq_hook pr cmd c r x c1 Epr Er).
  unfold act_fuel. cbn [iostate bx_cmd].
  by rewrite (act_end true 0 _ _ _ (sends_of r (ctx_cmd x)) (Bctx (ctx_cmd x) r) (VsqCtx r (ctx_cmd x)))
    by (done || by apply io_send_ok).
Qed.

(** A status that a classifier answers after the first hook is not kept. *)
Lemma set_status cur r : bpfsm_get cur = true → 0 <= r < 2 ^ 16 → bpfsm_set cur r = Z.land cur NMBPF_STATUS_MASK.
Proof.
  intros Hg Hr. unfold bpfsm_set. unfold bpfsm_get in Hg. rewrite Hg.
  rewrite (low_mask r) by (done || (intros k Hk; rewrite !Z.lor_spec, hook_bit, send_bit, compl_bit by lia; lia)).
  apply Z.lor_0_r.
Qed.
End sends.

(** ** Every command ends once

    The life of a command from its submission on: what was sent and not
    answered, and what the guest was told. *)

Definition no_fail (_ : nvme_command) : option Z := None.

Definition is_to (p : Z) (e : event) : bool :=
  match e with ToFd _ => p =? 23 | ToHq _ => p =? 22 | Completed _ => false end.
Definition count_to (p : Z) (evs : list event) : nat := length (List.filter (is_to p) evs).
Definition endings (evs : list event) : list Z :=
  omap (λ e, match e with Completed st => Some st | _ => None end) evs.

Section life.
Context {C : Type} (prog : C → bpf_io_ctx → Z * bpf_io_ctx * C).

Record life : Type := Life {
  lf_ctx : vsq_ctx;
  lf_cls : C;
  lf_pending : Z → nat;
  lf_ended : list Z;
}.

(** The life after the events of one occasion. *)
Definition lf_after (evs : list event) (cd : vsq_ctx) (c : C) (pending : Z → nat) (ended : list Z) : life :=
  Life cd c (λ p, (pending p + count_to p evs)%nat) (ended ++ endings evs).

Definition one_less (p : Z) (pending : Z → nat) (q : Z) : nat :=
  if q =? p then (pending q - 1)%nat else pending q.

(** The lives of command [cmd]: responses come for what was sent, in any
    order, with any status and any words. *)
Inductive life_of (cmd : nvme_command) (c0 : C) : life → Prop :=
  | life_submitted evs cd c :
      nvme_mdev_io_process_sq (Some prog) no_fail no_fail cmd c0 = (evs, cd, c) →
      life_of cmd c0 (lf_after evs cd c (λ _, 0%nat) [])
  | life_answered l p st aux evs cd c :
      life_of cmd c0 l → path p → (0 < lf_pending l p)%nat → 0 <= st < 2 ^ 16 →
      respond (Some prog) no_fail no_fail p st aux (lf_ctx l) (lf_cls l) = (evs, cd, c) →
      life_of cmd c0 (lf_after evs cd c (one_less p (lf_pending l)) (lf_ended l)).

Context (Hprog : ∀ c x, 0 <= ctx_data x < 2 ^ 16 → ret_ok (prog c x).1.1).

(** What is pending is in the state, and the end was told when nothing is. *)
Record life_ok (l : life) : Prop := {
  lo_state : ret_ok (iostate (lf_ctx l));
  lo_pending p : path p → lf_pending l p = Nat.b2n (Z.testbit (iostate (lf_ctx l)) p);
  lo_ended : if bpfsm_get (iostate (lf_ctx l)) then lf_ended l = []
             else ∃ st, lf_ended l = [st];
}.

Lemma count_sends p ios cmd : path p → count_to p (sends_of ios cmd ++ end_of ios) = Nat.b2n (Z.testbit ios p).
Proof.
  unfold count_to, sends_of, end_of.
  intros [-> | ->]; destruct (Z.testbit ios 22), (Z.testbit ios 23), (bpfsm_get ios); done.
Qed.
Lemma endings_sends ios cmd : endings (sends_of ios cmd ++ end_of ios) = endings (end_of ios).
Proof.
  unfold sends_of, end_of. destruct (Z.testbit ios 22), (Z.testbit ios 23), (bpfsm_get ios); done.
Qed.
Lemma count_end p ios : count_to p (end_of ios) = 0%nat.
Proof. unfold end_of. by destruct (bpfsm_get ios). Qed.
Lemma endings_end ios : if bpfsm_get ios then endings (end_of ios) = []
  else ∃ st, endings (end_of ios) = [st].
Proof. unfold end_of. destruct (bpfsm_get ios); [done|]. eexists. reflexivity. Qed.

Lemma life_submitted_ok cmd c0 evs cd c :
  nvme_mdev_io_process_sq (Some prog) no_fail no_fail cmd c0 = (evs, cd, c) →
  life_ok (lf_after evs cd c (λ _, 0%nat) []).
Proof using Hprog.
  pose proof (Hprog c0 (BpfIoCtx cmd NMBPF_HOOK_VSQ 0 no_aux) ltac:(simpl; lia)) as Hr.
  destruct (prog c0 _) as [[r x] c1] eqn:E. cbn [fst] in Hr.
  rewrite (submit_hook (Some prog) no_fail no_fail prog cmd c0 r x c1) by done.
  intros [= <- <- <-]. split; cbn [lf_after lf_ctx lf_pending lf_ended iostate].
  - done.
  - intros p Hp. by rewrite count_sends.
  - rewrite app_nil_l, endings_sends. apply endings_end.
Qed.

(** The hook for the response of path [p] runs when nothing else is pending. *)
Lemma runhook_cases hook st aux cmd0 cd c p : path p → hook = hook_of p → ret_ok (iostate cd) →
  bpfsm_get (iostate cd) = true →
  (∃ cmd ios, bpfsm_runhook (Some prog) hook st aux (Bctx cmd0 0) cd c = (false, Bctx cmd ios, cd, c)) ∨
  ∃ r x c1, prog c (BpfIoCtx (saved_cmd cd) hook st aux) = (r, x, c1) ∧
    (∀ q, path q → q ≠ p → Z.testbit (iostate cd) q = false) ∧
    bpfsm_runhook (Some prog) hook st aux (Bctx cmd0 0) cd c =
      (true, Bctx (ctx_cmd x) (bpfsm_set (iostate cd) r),
       VsqCtx (bpfsm_set (iostate cd) r) (saved_cmd cd), c1).
Proof using Type.
  intros Hp -> Hok Hg. unfold bpfsm_runhook.
  assert ((hook_of p =? NMBPF_HOOK_VSQ) = false) as -> by (by destruct Hp as [-> | ->]).
  rewrite Hg. cbn [negb andb orb].
  destruct (truthy (Z.land (iostate cd) (hook_of p))); cbn [negb]; [|by left; eauto].
  set (ios := if hook_of p =? NMBPF_HOOK_HCQ then _ else _).
  destruct (truthy (Z.land ios NMBPF_SEND_MASK)) eqn:Es; [by left; eauto|].
  right. destruct (prog c _) as [[r x] c1] eqn:E. exists r, x, c1. split; [done|]. split; [|done].
  intros q Hq Hne. assert (Z.testbit ios q = Z.testbit (iostate cd) q) as <-.
  { assert (ios = Z.land (iostate cd) (not32 (2 ^ p))) as -> by (unfold ios; by destruct Hp as [-> | ->]).
    rewrite Z.land_spec, not32_bit, testbit_pow2 by (destruct Hp, Hq; lia).
    replace (q =? p) with false by lia. replace (q <? 32) with true by (destruct Hq; lia). by rewrite andb_true_r. }
  apply truthy_mask_bit with (n := q) in Es; [done| |]; destruct Hq as [-> | ->]; done.
Qed.

Lemma life_answered_ok l p st aux evs cd c : life_ok l → path p → (0 < lf_pending l p)%nat → 0 <= st < 2 ^ 16 →
  respond (Some prog) no_fail no_fail p st aux (lf_ctx l) (lf_cls l) = (evs, cd, c) →
  life_ok (lf_after evs cd c (one_less p (lf_pending l)) (lf_ended l)).
Proof using Hprog.
  intros [Hok Hpend Hend] Hp Hpos Hst. set (cur := iostate (lf_ctx l)) in *.
  assert (Z.testbit cur p = true) as Hbit.
  { rewrite (Hpend p Hp) in Hpos. destruct (Z.testbit cur p); [done|]. simpl in Hpos. lia. }
  pose proof (cur_pending cur p Hp Hok Hbit) as Hg. rewrite Hg in Hend.
  rewrite (respond_eq (Some prog) no_fail no_fail p st aux (lf_ctx l) (lf_cls l) Hp).
  destruct (runhook_cases (hook_of p) st (aux_of p aux) (saved_cmd (lf_ctx l)) (lf_ctx l) (lf_cls l) p)
    as [(cmd & ios & ->)|(r & x & c1 & Hc & Hother & ->)]; try done.
  - fold cur. rewrite (update_eq cur st p Hp Hok Hbit). destruct (update_ok cur st p Hp Hok Hst Hbit) as [Hok' Hb'].
    unfold act_fuel. erewrite (act_end _ _ _ false); [|done|done]. cbn [app iostate].
    intros [= <- <- <-]. split; cbn [lf_after lf_ctx lf_pending lf_ended iostate].
    + done.
    + intros q Hq. rewrite count_end, Hb' by done. unfold one_less. rewrite (Hpend q Hq).
      destruct (Z.eqb_spec q p) as [->|]; [by rewrite Hbit|]. rewrite andb_true_r. lia.
    + rewrite Hend. apply endings_end.
  - pose proof (Hprog (lf_cls l) (BpfIoCtx (saved_cmd (lf_ctx l)) (hook_of p) st (aux_of p aux)) Hst) as Hr.
    rewrite Hc in Hr. cbn [fst] in Hr.
    destruct (set_ok cur r (proj1 (ret_range _ Hok)) Hr Hg) as [Hok' Hb'].
    unfold act_fuel. erewrite (act_end _ _ _ true); [|by apply io_send_ok|done].
    cbn [iostate bx_cmd]. intros [= <- <- <-]. split; cbn [lf_after lf_ctx lf_pending lf_ended iostate].
    + done.
    + intros q Hq. rewrite count_sends by done. unfold one_less. rewrite (Hpend q Hq).
      fold cur in Hother. destruct (Z.eqb_spec q p) as [->|Hne]; [by rewrite Hbit|].
      by rewrite (Hother q Hq Hne).
    + rewrite Hend, app_nil_l, endings_sends. apply endings_end.
Qed.

Lemma life_inv cmd c0 l : life_of cmd c0 l → life_ok l.
Proof using Hprog.
  induction 1 as [evs cd c E|l p st aux evs cd c _ IH Hp Hpos Hst E].
  - by eapply life_submitted_ok.
  - by eapply life_answered_ok.
Qed.
End life.

(** ** Lemmas: the classifiers' answers *)

Lemma ret_ok_const r : (0 <=? r) && (r <? 2 ^ 31) &&
  (Z.land r NMBPF_SEND_MASK =? Z.land r (Z.lor NMBPF_SEND_HQ NMBPF_SEND_FD)) &&
  Bool.eqb (truthy (Z.land r NMBPF_COMPLETION_MASK)) (truthy (Z.land r NMBPF_SEND_MASK)) = true → ret_ok r.
Proof. intros [[[??]%andb_prop ?]%andb_prop ?%eqb_prop]%andb_prop. split; [lia|lia|done]. Qed.

Lemma ret_ok_status st : 0 <= st < 2 ^ 16 → ret_ok st.
Proof.
  intros H. split; [lia| |by rewrite status_send, status_compl].
  rewrite status_send by done. symmetry. apply low_mask; [done|]. intros k Hk.
  rewrite Z.lor_spec. change NMBPF_SEND_HQ with (2 ^ 22). change NMBPF_SEND_FD with (2 ^ 23).
  rewrite !testbit_pow2 by lia. lia.
Qed.

Lemma nmbpf_replicate_ok u x : ret_ok (nmbpf_replicate u x).1.1.
Proof. unfold nmbpf_replicate. cbn [fst]. case_match; by apply ret_ok_const. Qed.

Lemma nmbpf_encrypt_ip_ok u x : 0 <= ctx_data x < 2 ^ 16 → ret_ok (nmbpf_encrypt_ip u x).1.1.
Proof.
  intros Hx. unfold nmbpf_encrypt_ip, nmbpf_encrypt_ip_vsq. cbn [fst].
  repeat case_match; try (by apply ret_ok_const);
    change NMBPF_COMPLETE with 0; rewrite Z.lor_0_r; by apply ret_ok_status.
Qed.
