(* ===== verification/Path.v ===== *)
(** * The way of a command through the system

    The kernel module (file BpfSm) sends a command to the server and to the
    disk as its classifier says, until the guest is told its end. The systems
    of the files CowSystem, EncSystem and ReplSystem are this with their own
    classifier, server and disk. *)
From S2P Require Import Prelude Proto BpfSm.

Section path.
Context {C S M : Type} (prog : C → bpf_io_ctx → Z * bpf_io_ctx * C).

(** What the server and the disk do with a command: the status they respond
    with, the auxiliary words of the server, and what happens to the guest's
    memory and to their own state. A server may fail to respond. *)
Context (server : nvme_command → M → S → option (Z * nmntfy_aux * M * S)).
Context (disk : nvme_command → M → S → Z * M * S).

(** What was sent is handled in the order in which it was sent; no send fails. *)
Fixpoint drive (fuel : nat) (evs : list event) (cd : vsq_ctx) (m : M) (c : C) (s : S) :
    option (Z * M * C * S) :=
  match fuel, evs with
  | Datatypes.S fuel, Completed st :: _ => Some (st, m, c, s)
  | Datatypes.S fuel, ToHq cmd :: evs =>
    let '(st, m, s) := disk cmd m s in
    let '(more, cd, c) := nvme_mdev_io_process_hwq (Some prog) no_fail no_fail st cd c in
    drive fuel (evs ++ more) cd m c s
  | Datatypes.S fuel, ToFd cmd :: evs =>
    match server cmd m s with
    | None => None
    | Some (st, aux, m, s) =>
      let '(more, cd, c) := notifyfd_runhook (Some prog) no_fail no_fail st aux cd c in
      drive fuel (evs ++ more) cd m c s
    end
  | _, _ => None
  end.

(** A command goes to the server and to the disk at most, and ends. *)
Definition drive_fuel : nat := 3.

Definition run_command (cmd : nvme_command) (m : M) (c : C) (s : S) : option (Z * M * C * S) :=
  let '(evs, cd, c) := nvme_mdev_io_process_sq (Some prog) no_fail no_fail cmd c in
  drive drive_fuel evs cd m c s.

(** The same in any order. *)
Inductive drives : list event → vsq_ctx → M → C → S → Z * M * C * S → Prop :=
  | drives_end st evs cd m c s : drives (Completed st :: evs) cd m c s (st, m, c, s)
  | drives_hq l1 cmd l2 cd m c s st m1 s1 more cd1 c1 x :
      disk cmd m s = (st, m1, s1) →
      nvme_mdev_io_process_hwq (Some prog) no_fail no_fail st cd c = (more, cd1, c1) →
      drives (l1 ++ l2 ++ more) cd1 m1 c1 s1 x → drives (l1 ++ ToHq cmd :: l2) cd m c s x
  | drives_fd l1 cmd l2 cd m c s st aux m1 s1 more cd1 c1 x :
      server cmd m s = Some (st, aux, m1, s1) →
      notifyfd_runhook (Some prog) no_fail no_fail st aux cd c = (more, cd1, c1) →
      drives (l1 ++ l2 ++ more) cd1 m1 c1 s1 x → drives (l1 ++ ToFd cmd :: l2) cd m c s x.

Definition runs (cmd : nvme_command) (m : M) (c : C) (s : S) (x : Z * M * C * S) : Prop :=
  let '(evs, cd, c) := nvme_mdev_io_process_sq (Some prog) no_fail no_fail cmd c in
  drives evs cd m c s x.

Lemma drive_drives fuel : ∀ evs cd m c s x, drive fuel evs cd m c s = Some x →
  drives evs cd m c s x.
Proof.
  induction fuel as [|fuel IH]; intros [|[cmd|cmd|st] evs] cd m c s x E; try done; simpl in E.
  - destruct (server cmd m s) as [[[[st aux] m1] s1]|] eqn:Es; [|done].
    destruct (notifyfd_runhook _ _ _ _ _ _ _) as [[more cd1] c1] eqn:Ef.
    eapply (drives_fd []); [exact Es|exact Ef|]. by apply IH.
  - destruct (disk cmd m s) as [[st m1] s1] eqn:Es.
    destruct (nvme_mdev_io_process_hwq _ _ _ _ _ _) as [[more cd1] c1] eqn:Ef.
    eapply (drives_hq []); [exact Es|exact Ef|]. by apply IH.
  - injection E as <-. constructor.
Qed.

Lemma run_command_runs cmd m c s x : run_command cmd m c s = Some x → runs cmd m c s x.
Proof.
  unfold run_command, runs. destruct (nvme_mdev_io_process_sq _ _ _ _ _) as [[evs cd] c1].
  apply drive_drives.
Qed.

(** ** One response *)

Definition only_hq : Z := Z.lor NMBPF_SEND_HQ NMBPF_WILL_COMPLETE_HQ.
Definition only_fd : Z := Z.lor NMBPF_SEND_FD NMBPF_WILL_COMPLETE_FD.
Definition fd_hooked : Z := Z.lor (Z.lor NMBPF_SEND_FD NMBPF_HOOK_NFD_WRITE) NMBPF_WAIT_FOR_HOOK.
Definition hq_hooked : Z := Z.lor (Z.lor NMBPF_SEND_HQ NMBPF_HOOK_HCQ) NMBPF_WAIT_FOR_HOOK.

(** The answer of a path that was to complete the command. *)
Lemma last_answer p r st : path p → ret_ok r → 0 <= st < 2 ^ 16 →
  Z.testbit r p = true → (∀ q, path q → q ≠ p → Z.testbit r q = false) →
  Z.land r NMBPF_COMPLETION_MASK = cmpl_of p → end_of (answered r st p) = [Completed st].
Proof.
  intros Hp Hok Hst Hbit Hother Hc. destruct (update_ok r st p Hp Hok Hst Hbit) as [Hok2 Hb].
  unfold end_of, bpfsm_get. rewrite (ret_ends _ Hok2), (ret_sends _ Hok2).
  assert (∀ q, path q → Z.testbit (answered r st p) q = false) as H0.
  { intros q Hq. rewrite Hb by done. destruct (Z.eqb_spec q p) as [->|Hne].
    - by rewrite andb_false_r.
    - by rewrite Hother. }
  rewrite !H0 by (by left + by right). cbn [orb].
  by rewrite (answered_status r st p Hp Hok Hst Hbit), (answered1_compl r st p Hp Hok Hst Hbit), Hc, Z.eqb_refl.
Qed.

(** The status of the disk, or of the server, is told to the guest. *)
Lemma drive_only_hq fuel cmd sc m c s st m1 s1 : disk cmd m s = (st, m1, s1) → 0 <= st < 2 ^ 16 →
  drive (2 + fuel) [ToHq cmd] (VsqCtx only_hq sc) m c s = Some (st, m1, c, s1).
Proof.
  intros E Hst. cbn [drive Nat.add]. rewrite E.
  change (nvme_mdev_io_process_hwq (Some prog) no_fail no_fail st) with
    (respond (Some prog) no_fail no_fail 22 st no_aux).
  rewrite respond_update; [|by left|by apply ret_ok_const|done|done|by left].
  cbn [iostate app]. rewrite last_answer; [done|by left|by apply ret_ok_const|done|done| |done].
  intros q [-> | ->]; done.
Qed.

Lemma drive_only_fd fuel cmd sc m c s st aux m1 s1 : server cmd m s = Some (st, aux, m1, s1) →
  0 <= st < 2 ^ 16 →
  drive (2 + fuel) [ToFd cmd] (VsqCtx only_fd sc) m c s = Some (st, m1, c, s1).
Proof.
  intros E Hst. cbn [drive Nat.add]. rewrite E.
  change (notifyfd_runhook (Some prog) no_fail no_fail st aux) with
    (respond (Some prog) no_fail no_fail 23 st aux).
  rewrite respond_update; [|by right|by apply ret_ok_const|done|done|by left].
  cbn [iostate app]. rewrite last_answer; [done|by right|by apply ret_ok_const|done|done| |done].
  intros q [-> | ->]; done.
Qed.

(** *** Both paths at once, the status of the disk to be kept *)

Definition both : Z := Z.lor (Z.lor NMBPF_SEND_HQ NMBPF_SEND_FD) NMBPF_WILL_COMPLETE_HQ.

Section both.
Context (sf sh : Z) (aux : nmntfy_aux) (cmd : nvme_command) (c : C).
Context (Hsf : 0 <= sf < 2 ^ 16) (Hsh : 0 <= sh < 2 ^ 16).
(** The word of state after the first answer. *)
Definition fd_first : Z := answered both sf 23.
Definition hq_first : Z := answered both sh 22.

Lemma path_hq : path 22.
Proof. by left. Qed.
Lemma path_fd : path 23.
Proof. by right. Qed.
Lemma both_ok : ret_ok both.
Proof. by apply ret_ok_const. Qed.
Lemma only_hq_ok : ret_ok only_hq.
Proof. by apply ret_ok_const. Qed.
Lemma fd_first_eq : fd_first = only_hq.
Proof using Hsf. done. Qed.

Lemma ended ios : ret_ok ios → Z.testbit ios 22 = false → Z.testbit ios 23 = false →
  end_of ios = [Completed (Z.land ios NMBPF_STATUS_MASK)].
Proof. intros Hi H1 H2. unfold end_of, bpfsm_get. by rewrite (ret_ends _ Hi), (ret_sends _ Hi), H1, H2. Qed.

Lemma hq_first_bits : ret_ok hq_first ∧ Z.testbit hq_first 22 = false ∧ Z.testbit hq_first 23 = true.
Proof using Hsh.
  destruct (update_ok both sh 22 path_hq both_ok Hsh eq_refl) as [Hok Hb].
  split; [done|]. unfold hq_first. by rewrite !Hb by (by left + by right).
Qed.

Lemma hq_first_waits : bpfsm_get hq_first = true.
Proof using Hsh.
  destruct hq_first_bits as (Hok & H22 & H23).
  unfold bpfsm_get. by rewrite (ret_ends _ Hok), (ret_sends _ Hok), H22, H23.
Qed.

(** The server answers first. *)
Lemma fd_answers_first : notifyfd_runhook (Some prog) no_fail no_fail sf aux (VsqCtx both cmd) c =
  ([], VsqCtx fd_first cmd, c).
Proof using Hsf.
  change (notifyfd_runhook (Some prog) no_fail no_fail sf aux) with
    (respond (Some prog) no_fail no_fail 23 sf aux).
  by rewrite respond_update by (done || apply path_fd || apply both_ok || by left).
Qed.
Lemma hq_answers_last : nvme_mdev_io_process_hwq (Some prog) no_fail no_fail sh (VsqCtx fd_first cmd) c =
  ([Completed sh], VsqCtx (answered only_hq sh 22) cmd, c).
Proof using Hsf Hsh.
  change (nvme_mdev_io_process_hwq (Some prog) no_fail no_fail sh) with
    (respond (Some prog) no_fail no_fail 22 sh no_aux).
  rewrite fd_first_eq, respond_update by (done || apply path_hq || apply only_hq_ok || by left).
  destruct (update_ok only_hq sh 22 path_hq only_hq_ok Hsh eq_refl) as [Hok Hb].
  cbn [iostate]. rewrite ended by (done || (rewrite Hb by (by left + by right); done)).
  by rewrite (answered_status only_hq sh 22 path_hq only_hq_ok Hsh eq_refl).
Qed.

(** The disk answers first. *)
Lemma hq_answers_first : nvme_mdev_io_process_hwq (Some prog) no_fail no_fail sh (VsqCtx both cmd) c =
  ([], VsqCtx hq_first cmd, c).
Proof using Hsh.
  change (nvme_mdev_io_process_hwq (Some prog) no_fail no_fail sh) with
    (respond (Some prog) no_fail no_fail 22 sh no_aux).
  rewrite respond_update by (done || apply path_hq || apply both_ok || by left). cbn [iostate].
  fold hq_first. unfold end_of. by rewrite hq_first_waits.
Qed.
Lemma fd_answers_last : notifyfd_runhook (Some prog) no_fail no_fail sf aux (VsqCtx hq_first cmd) c =
  ([Completed sh], VsqCtx (answered hq_first sf 23) cmd, c).
Proof using Hsf Hsh.
  change (notifyfd_runhook (Some prog) no_fail no_fail sf aux) with
    (respond (Some prog) no_fail no_fail 23 sf aux).
  destruct hq_first_bits as (Hok & H22 & H23).
  destruct (update_ok hq_first sf 23 path_fd Hok Hsf H23) as [Hok4 Hb4].
  rewrite respond_update; [|apply path_fd|done|done|done|]; cbn [iostate].
  - rewrite (ended _ Hok4) by (rewrite Hb4 by (by left + by right); by rewrite ?H22, ?andb_false_r).
    rewrite (answered_status hq_first sf 23 path_fd Hok Hsf H23).
    rewrite (answered1_compl hq_first sf 23 path_fd Hok Hsf H23).
    assert (Z.land hq_first NMBPF_COMPLETION_MASK = Z.land both NMBPF_COMPLETION_MASK) as ->
      by (apply (answered_compl both sh 22 path_hq both_ok Hsh eq_refl), hq_first_waits).
    change (Z.land both NMBPF_COMPLETION_MASK =? cmpl_of 23) with false. cbv iota.
    unfold hq_first. by rewrite (answered_status both sh 22 path_hq both_ok Hsh eq_refl).
  - left. change (hook_of 23) with (2 ^ 18). rewrite truthy_land_pow2 by lia.
    unfold hq_first. by rewrite (n3_bit both sh 22 path_hq both_ok Hsh eq_refl) by lia.
Qed.
End both.

(** *** Any order of the answers *)

Lemma drives_inv evs cd m c s x : drives evs cd m c s x →
  (∃ st evs', evs = Completed st :: evs' ∧ x = (st, m, c, s)) ∨
  (∃ l1 cmd l2 st m1 s1 more cd1 c1, evs = l1 ++ ToHq cmd :: l2 ∧ disk cmd m s = (st, m1, s1) ∧
    nvme_mdev_io_process_hwq (Some prog) no_fail no_fail st cd c = (more, cd1, c1) ∧
    drives (l1 ++ l2 ++ more) cd1 m1 c1 s1 x) ∨
  (∃ l1 cmd l2 st aux m1 s1 more cd1 c1, evs = l1 ++ ToFd cmd :: l2 ∧
    server cmd m s = Some (st, aux, m1, s1) ∧
    notifyfd_runhook (Some prog) no_fail no_fail st aux cd c = (more, cd1, c1) ∧
    drives (l1 ++ l2 ++ more) cd1 m1 c1 s1 x).
Proof.
  destruct 1; [left|right; left|right; right]; [by eauto|by eauto 15|].
  eexists l1, cmd, l2, st, aux, m1, s1, more, cd1, c1. done.
Qed.

Lemma one_event {X} (e f : X) l1 l2 : [e] = l1 ++ f :: l2 → e = f ∧ l1 = [] ∧ l2 = [].
Proof. destruct l1 as [|y [|z l1]]; intros [=]; by subst. Qed.

Lemma drives_one_hq cmd cd m c s x st m1 s1 more cd1 c1 : drives [ToHq cmd] cd m c s x →
  disk cmd m s = (st, m1, s1) →
  nvme_mdev_io_process_hwq (Some prog) no_fail no_fail st cd c = (more, cd1, c1) →
  drives more cd1 m1 c1 s1 x.
Proof.
  intros Hd E1 E2. destruct (drives_inv _ _ _ _ _ _ Hd) as
    [(?&?&?&_)|[(l1&cmd'&l2&?&?&?&?&?&?&El&F1&F2&Hd')|(l1&cmd'&l2&?&?&?&?&?&?&?&El&_)]]; [done| |];
    apply one_event in El as (El & -> & ->); [|done].
  injection El as <-. rewrite E1 in F1. injection F1 as <- <- <-. rewrite E2 in F2. by injection F2 as <- <- <-.
Qed.
Lemma drives_one_fd cmd cd m c s x : drives [ToFd cmd] cd m c s x →
  ∃ st aux m1 s1 more cd1 c1, server cmd m s = Some (st, aux, m1, s1) ∧
  notifyfd_runhook (Some prog) no_fail no_fail st aux cd c = (more, cd1, c1) ∧
  drives more cd1 m1 c1 s1 x.
Proof.
  intros Hd. destruct (drives_inv _ _ _ _ _ _ Hd) as
    [(?&?&?&_)|[(l1&cmd'&l2&?&?&?&?&?&?&El&_)|(l1&cmd'&l2&?&?&?&?&?&?&?&El&F1&F2&Hd')]]; [done| |];
    apply one_event in El as (El & -> & ->); [done|].
  injection El as <-. by eauto 10.
Qed.
Lemma drives_end_inv st cd m c s x : drives [Completed st] cd m c s x → x = (st, m, c, s).
Proof.
  intros Hd. destruct (drives_inv _ _ _ _ _ _ Hd) as
    [(?&?&E&->)|[(l1&?&l2&?&?&?&?&?&?&El&_)|(l1&?&l2&?&?&?&?&?&?&?&El&_)]]; [by injection E as <-| |];
    by apply one_event in El as (El & _).
Qed.
Lemma drives_two cmd1 cmd2 cd m c s x : drives [ToFd cmd1; ToHq cmd2] cd m c s x →
  (∃ st aux m1 s1 more cd1 c1, server cmd1 m s = Some (st, aux, m1, s1) ∧
    notifyfd_runhook (Some prog) no_fail no_fail st aux cd c = (more, cd1, c1) ∧
    drives (ToHq cmd2 :: more) cd1 m1 c1 s1 x) ∨
  (∃ st m1 s1 more cd1 c1, disk cmd2 m s = (st, m1, s1) ∧
    nvme_mdev_io_process_hwq (Some prog) no_fail no_fail st cd c = (more, cd1, c1) ∧
    drives (ToFd cmd1 :: more) cd1 m1 c1 s1 x).
Proof.
  intros Hd. destruct (drives_inv _ _ _ _ _ _ Hd) as
    [(?&?&?&_)|[(l1&cmd'&l2&?&?&?&?&?&?&El&F1&F2&Hd')|(l1&cmd'&l2&?&?&?&?&?&?&?&El&F1&F2&Hd')]]; [done| |].
  - right. destruct l1 as [|y l1]; [done|]. injection El as <- El.
    apply one_event in El as (El & -> & ->). injection El as <-. by eauto 10.
  - left. destruct l1 as [|y l1]; [injection El as <- <-; by eauto 10|].
    injection El as <- El. by apply one_event in El as (El & _).
Qed.

Lemma drives_only_hq cmd sc m c s x st m1 s1 : drives [ToHq cmd] (VsqCtx only_hq sc) m c s x →
  disk cmd m s = (st, m1, s1) → 0 <= st < 2 ^ 16 → x = (st, m1, c, s1).
Proof.
  intros Hd E Hst. eapply drives_one_hq in Hd; [|done|exact (hq_answers_last 0 st sc c ltac:(lia) Hst)].
  by apply drives_end_inv in Hd.
Qed.

(** Whoever answers first, when the two do not depend on each other. *)
Section both_orders.
Context (cmd1 cmd2 : nvme_command) (sc : nvme_command) (m : M) (c : C) (s : S).
Context (sf sh : Z) (aux : nmntfy_aux) (m1 m2 m' : M) (s1 s2 s' : S).
Context (Hsf : 0 <= sf < 2 ^ 16) (Hsh : 0 <= sh < 2 ^ 16).
Context (Hf1 : server cmd1 m s = Some (sf, aux, m1, s1)) (Hh1 : disk cmd2 m1 s1 = (sh, m', s')).
Context (Hh2 : disk cmd2 m s = (sh, m2, s2)) (Hf2 : server cmd1 m2 s2 = Some (sf, aux, m', s')).

Lemma drives_both x : drives [ToFd cmd1; ToHq cmd2] (VsqCtx both sc) m c s x → x = (sh, m', c, s').
Proof using All.
  intros Hd. destruct (drives_two _ _ _ _ _ _ _ Hd) as
    [(? & ? & ? & ? & ? & ? & ? & E & A & Hd1)|(? & ? & ? & ? & ? & ? & E & A & Hd1)].
  - rewrite Hf1 in E. injection E as <- <- <- <-. rewrite fd_answers_first in A by done.
    injection A as <- <- <-.
    eapply drives_one_hq in Hd1; [|done|exact (hq_answers_last sf sh sc c Hsf Hsh)].
    by apply drives_end_inv in Hd1.
  - rewrite Hh2 in E. injection E as <- <- <-. rewrite hq_answers_first in A by done.
    injection A as <- <- <-.
    destruct (drives_one_fd _ _ _ _ _ _ Hd1) as (? & ? & ? & ? & ? & ? & ? & E & A & Hd2).
    rewrite Hf2 in E. injection E as <- <- <- <-. rewrite fd_answers_last in A by done.
    injection A as <- <- <-. by apply drives_end_inv in Hd2.
Qed.

Lemma drive_both : drive 3 [ToFd cmd1; ToHq cmd2] (VsqCtx both sc) m c s = Some (sh, m', c, s').
Proof using All.
  cbn [drive]. rewrite Hf1, fd_answers_first by done. cbn [app]. rewrite Hh1.
  by rewrite hq_answers_last by done.
Qed.
End both_orders.

(** ** Whole commands *)

Section command.
Context (cmd : nvme_command) (m : M) (c c1 : C) (s : S) (x : bpf_io_ctx) (r : Z).
Context (Hvsq : prog c (BpfIoCtx cmd NMBPF_HOOK_VSQ 0 no_aux) = (r, x, c1)).

Lemma run_submitted : run_command cmd m c s =
  drive drive_fuel (sends_of r (ctx_cmd x) ++ end_of r) (VsqCtx r (ctx_cmd x)) m c1 s.
Proof using Hvsq.
  unfold run_command. by rewrite (submit_hook _ _ _ prog cmd c r x c1) by done.
Qed.

Lemma runs_submitted y : runs cmd m c s y →
  drives (sends_of r (ctx_cmd x) ++ end_of r) (VsqCtx r (ctx_cmd x)) m c1 s y.
Proof using Hvsq.
  unfold runs. by rewrite (submit_hook _ _ _ prog cmd c r x c1) by done.
Qed.

(** To the disk, which ends it. *)
Lemma run_by_disk st m1 s1 : r = only_hq → disk (ctx_cmd x) m s = (st, m1, s1) →
  0 <= st < 2 ^ 16 → run_command cmd m c s = Some (st, m1, c1, s1).
Proof using Hvsq.
  intros Er Ed Hst. rewrite run_submitted, Er.
  change (sends_of only_hq (ctx_cmd x) ++ end_of only_hq) with [ToHq (ctx_cmd x)].
  by apply (drive_only_hq 1).
Qed.

(** To the server, which ends it. *)
Lemma run_by_server st aux m1 s1 : r = only_fd → server (ctx_cmd x) m s = Some (st, aux, m1, s1) →
  0 <= st < 2 ^ 16 → run_command cmd m c s = Some (st, m1, c1, s1).
Proof using Hvsq.
  intros Er Ed Hst. rewrite run_submitted, Er.
  change (sends_of only_fd (ctx_cmd x) ++ end_of only_fd) with [ToFd (ctx_cmd x)].
  by apply (drive_only_fd 1 _ _ _ _ _ _ aux).
Qed.

(** To the server, whose response goes to the classifier. *)
Section fd_hook.
Context (st : Z) (aux : nmntfy_aux) (m1 : M) (s1 : S) (r2 : Z) (x2 : bpf_io_ctx) (c2 : C).
Context (Er : r = fd_hooked) (Hsrv : server (ctx_cmd x) m s = Some (st, aux, m1, s1)).
Context (Hnfd : prog c1 (BpfIoCtx (ctx_cmd x) NMBPF_HOOK_NFD_WRITE st aux) = (r2, x2, c2)).

Lemma run_fd_hook : run_command cmd m c s =
  let ios := bpfsm_set fd_hooked r2 in
  drive 2 (sends_of ios (ctx_cmd x2) ++ end_of ios) (VsqCtx ios (ctx_cmd x)) m1 c2 s1.
Proof using Hvsq Er Hsrv Hnfd.
  rewrite run_submitted, Er.
  change (sends_of fd_hooked (ctx_cmd x) ++ end_of fd_hooked) with [ToFd (ctx_cmd x)].
  unfold drive_fuel. cbn [drive]. rewrite Hsrv.
  change (notifyfd_runhook (Some prog) no_fail no_fail st aux) with
    (respond (Some prog) no_fail no_fail 23 st aux).
  rewrite (respond_hook _ _ _ prog 23 st aux (VsqCtx fd_hooked (ctx_cmd x)) c1 r2 x2 c2);
    try done; [by right|intros q [-> | ->]; done].
Qed.

(** It goes on to the disk. *)
Lemma run_forwarded st2 m2 s2 : r2 = only_hq → disk (ctx_cmd x2) m1 s1 = (st2, m2, s2) →
  0 <= st2 < 2 ^ 16 → run_command cmd m c s = Some (st2, m2, c2, s2).
Proof using Hvsq Er Hsrv Hnfd.
  intros E2 Ed Hst. rewrite run_fd_hook, E2. cbv zeta. change (bpfsm_set fd_hooked only_hq) with only_hq.
  change (sends_of only_hq (ctx_cmd x2) ++ end_of only_hq) with [ToHq (ctx_cmd x2)].
  by apply (drive_only_hq 0).
Qed.

(** A status ends it, and is dropped. *)
Lemma run_fd_dropped : 0 <= r2 < 2 ^ 16 → run_command cmd m c s = Some (NVME_SC_SUCCESS, m1, c2, s1).
Proof using Hvsq Er Hsrv Hnfd.
  intros Ha. rewrite run_fd_hook, set_status by done. cbv zeta.
  by change (Z.land fd_hooked NMBPF_STATUS_MASK) with 0.
Qed.
End fd_hook.

(** To the disk, whose response goes to the classifier. *)
Section hq_hook.
Context (st : Z) (m1 : M) (s1 : S) (r2 : Z) (x2 : bpf_io_ctx) (c2 : C).
Context (Er : r = hq_hooked) (Hdisk : disk (ctx_cmd x) m s = (st, m1, s1)).
Context (Hhcq : prog c1 (BpfIoCtx (ctx_cmd x) NMBPF_HOOK_HCQ st no_aux) = (r2, x2, c2)).

Lemma run_hq_hook : run_command cmd m c s =
  let ios := bpfsm_set hq_hooked r2 in
  drive 2 (sends_of ios (ctx_cmd x2) ++ end_of ios) (VsqCtx ios (ctx_cmd x)) m1 c2 s1.
Proof using Hvsq Er Hdisk Hhcq.
  rewrite run_submitted, Er.
  change (sends_of hq_hooked (ctx_cmd x) ++ end_of hq_hooked) with [ToHq (ctx_cmd x)].
  unfold drive_fuel. cbn [drive]. rewrite Hdisk.
  change (nvme_mdev_io_process_hwq (Some prog) no_fail no_fail st) with
    (respond (Some prog) no_fail no_fail 22 st no_aux).
  rewrite (respond_hook _ _ _ prog 22 st no_aux (VsqCtx hq_hooked (ctx_cmd x)) c1 r2 x2 c2);
    try done; [by left|intros q [-> | ->]; done].
Qed.

(** It goes on to the server. *)
Lemma run_handed st2 aux m2 s2 : r2 = only_fd → server (ctx_cmd x2) m1 s1 = Some (st2, aux, m2, s2) →
  0 <= st2 < 2 ^ 16 → run_command cmd m c s = Some (st2, m2, c2, s2).
Proof using Hvsq Er Hdisk Hhcq.
  intros E2 Ed Hst. rewrite run_hq_hook, E2. cbv zeta. change (bpfsm_set hq_hooked only_fd) with only_fd.
  change (sends_of only_fd (ctx_cmd x2) ++ end_of only_fd) with [ToFd (ctx_cmd x2)].
  by apply (drive_only_fd 0 _ _ _ _ _ _ aux).
Qed.
End hq_hook.
End command.
End path.
