(* ===== verification/BpfSmThms.v ===== *)
(** * Endings of commands

    What the state of a command (file BpfSm) promises the guest: every command
    ends once, at the right time, with the right status; and where it does not. *)
From S2P Require Import Prelude Proto BpfSm Path.

(** C7. Every command ends exactly once, as long as no send fails ([no_fail]:
    the ring of the server and the queue of the disk take every command; C10
    says what happens when they do not). Whatever classifier is attached, as
    long as each of its answers sends the command somewhere precisely when it
    says what will end it, and whatever order the disk and the server respond
    in, with whatever status: at every time at most one command is under way on
    each path, the guest is told the end at most once, it has been told if
    nothing is under way, and has not while something is. *)
Theorem request_completes_once {C} (prog : C → bpf_io_ctx → Z * bpf_io_ctx * C) cmd c0 l :
  (∀ c x, 0 <= ctx_data x < 2 ^ 16 → ret_ok (prog c x).1.1) →
  life_of prog cmd c0 l →
  (∀ p, path p → (lf_pending l p <= 1)%nat) ∧
  (lf_ended l = [] ∧ (∃ p, path p ∧ lf_pending l p = 1%nat) ∨
   (∃ st, lf_ended l = [st]) ∧ ∀ p, path p → lf_pending l p = 0%nat).
Proof.
  intros Hprog Hl. destruct (life_inv prog Hprog cmd c0 l Hl) as [Hok Hp He].
  set (ios := iostate (lf_ctx l)) in *. split.
  - intros p Hpp. rewrite Hp by done. destruct (Z.testbit ios p); simpl; lia.
  - assert (bpfsm_get ios = Z.testbit ios 22 || Z.testbit ios 23) as Hg
      by (unfold bpfsm_get; by rewrite (ret_ends _ Hok), ret_sends).
    rewrite Hg in He. destruct (Z.testbit ios 22) eqn:E1; [|destruct (Z.testbit ios 23) eqn:E2].
    + left. split; [done|]. exists 22. split; [by left|]. rewrite Hp by by left. by rewrite E1.
    + left. split; [done|]. exists 23. split; [by right|]. rewrite Hp by by right. by rewrite E2.
    + right. split; [done|]. intros p [-> | ->]; rewrite Hp by (by left + by right); by rewrite ?E1, ?E2.
Qed.

(** A write that goes to the disk and to the replica, which answer in turn. *)
Definition demo_wcmd : nvme_command := NvmeCommand nvme_cmd_write 0 7 1 0 0 0 4096 0 8 0 0 0 0 0.
Definition demo_life0 : life :=
  lf_after [ToFd demo_wcmd; ToHq demo_wcmd] (VsqCtx both demo_wcmd) tt (λ _, 0%nat) [].
Definition demo_life1 : life :=
  lf_after [] (VsqCtx only_hq demo_wcmd) tt (one_less 23 (lf_pending demo_life0)) (lf_ended demo_life0).

Lemma request_completes_once_witness :
  (∀ p, path p → (lf_pending demo_life1 p <= 1)%nat) ∧
  (lf_ended demo_life1 = [] ∧ (∃ p, path p ∧ lf_pending demo_life1 p = 1%nat) ∨
   (∃ st, lf_ended demo_life1 = [st]) ∧ ∀ p, path p → lf_pending demo_life1 p = 0%nat).
Proof.
  apply (request_completes_once nmbpf_replicate demo_wcmd tt).
  - intros. apply nmbpf_replicate_ok.
  - apply (life_answered _ _ _ demo_life0 23 0 no_aux).
    + by apply life_submitted.
    + by right.
    + vm_compute. lia.
    + lia.
    + reflexivity.
Defined.

(** C8. Errors of the encryptors are told as success. When the server fails to
    encrypt a write, or the disk fails to read, the classifier answers the
    status together with the end of the command; the module keeps the status of
    the first answer, which is none, and tells the guest that the command
    succeeded. *)
Theorem encryptor_errors_acknowledged cmd st aux : 0 < st < 2 ^ 16 →
  (opcode cmd = nvme_cmd_write → ∃ cd1 cd2,
     nvme_mdev_io_process_sq (Some nmbpf_encrypt_ip) no_fail no_fail cmd tt = ([ToFd cmd], cd1, tt) ∧
     notifyfd_runhook (Some nmbpf_encrypt_ip) no_fail no_fail st aux cd1 tt =
       ([Completed NVME_SC_SUCCESS], cd2, tt)) ∧
  (opcode cmd = nvme_cmd_read → ∀ prog, prog = nmbpf_encrypt ∨ prog = nmbpf_encrypt_ip → ∃ cd1 cd2,
     nvme_mdev_io_process_sq (Some prog) no_fail no_fail cmd tt = ([ToHq cmd], cd1, tt) ∧
     nvme_mdev_io_process_hwq (Some prog) no_fail no_fail st cd1 tt =
       ([Completed NVME_SC_SUCCESS], cd2, tt)).
Proof.
  intros Hst. set (w := Z.lor (Z.lor NMBPF_SEND_FD NMBPF_HOOK_NFD_WRITE) NMBPF_WAIT_FOR_HOOK).
  set (rd := Z.lor (Z.lor NMBPF_SEND_HQ NMBPF_HOOK_HCQ) NMBPF_WAIT_FOR_HOOK).
  assert (truthy st = true) as Ht by (unfold truthy; apply negb_true_iff, Z.eqb_neq; lia).
  assert (Z.lor st NMBPF_COMPLETE = st) as Hc by (apply Z.lor_0_r).
  assert (∀ cur, bpfsm_get cur = true → bpfsm_set cur st = Z.land cur NMBPF_STATUS_MASK) as Hset
    by (intros; apply set_status; [done|lia]).
  split.
  - intros Hop. exists (VsqCtx w cmd), (VsqCtx 0 cmd). split.
    + rewrite (submit_hook _ _ _ nmbpf_encrypt_ip cmd tt w (BpfIoCtx cmd NMBPF_HOOK_VSQ 0 no_aux) tt); try done.
      unfold nmbpf_encrypt_ip, nmbpf_encrypt_ip_vsq. cbn [ctx_cmd current_hook]. by rewrite Hop.
    + change (notifyfd_runhook (Some nmbpf_encrypt_ip) no_fail no_fail st aux) with
        (respond (Some nmbpf_encrypt_ip) no_fail no_fail 23 st aux).
      rewrite (respond_hook _ _ _ nmbpf_encrypt_ip 23 st aux _ _ st (BpfIoCtx cmd NMBPF_HOOK_NFD_WRITE st aux) tt); try done.
      * by rewrite Hset.
      * by right.
      * intros q [-> | ->]; done.
      * unfold nmbpf_encrypt_ip. cbn [ctx_data current_hook]. change (hook_of 23) with NMBPF_HOOK_NFD_WRITE.
        rewrite Ht, Hc. done.
  - intros Hop prog Hpr. exists (VsqCtx rd cmd), (VsqCtx 0 cmd). split.
    + rewrite (submit_hook _ _ _ prog cmd tt rd (BpfIoCtx cmd NMBPF_HOOK_VSQ 0 no_aux) tt); try done.
      destruct Hpr as [-> | ->]; unfold nmbpf_encrypt, nmbpf_encrypt_ip, nmbpf_encrypt_vsq, nmbpf_encrypt_ip_vsq;
        cbn [ctx_cmd current_hook]; by rewrite Hop.
    + change (nvme_mdev_io_process_hwq (Some prog) no_fail no_fail st) with
        (respond (Some prog) no_fail no_fail 22 st no_aux).
      rewrite (respond_hook _ _ _ prog 22 st no_aux _ _ st (BpfIoCtx cmd NMBPF_HOOK_HCQ st no_aux) tt); try done.
      * by rewrite Hset.
      * by left.
      * intros q [-> | ->]; done.
      * destruct Hpr as [-> | ->]; unfold nmbpf_encrypt, nmbpf_encrypt_ip; cbn [ctx_data current_hook];
          change (hook_of 22) with NMBPF_HOOK_HCQ; rewrite Ht, Hc; done.
Qed.

Lemma encryptor_errors_acknowledged_witness : 0 < NVME_SC_INTERNAL < 2 ^ 16 ∧
  (opcode demo_wcmd = nvme_cmd_write → ∃ cd1 cd2,
     nvme_mdev_io_process_sq (Some nmbpf_encrypt_ip) no_fail no_fail demo_wcmd tt = ([ToFd demo_wcmd], cd1, tt) ∧
     notifyfd_runhook (Some nmbpf_encrypt_ip) no_fail no_fail NVME_SC_INTERNAL no_aux cd1 tt =
       ([Completed NVME_SC_SUCCESS], cd2, tt)).
Proof.
  split; [vm_compute; split; congruence|].
  apply (encryptor_errors_acknowledged demo_wcmd NVME_SC_INTERNAL no_aux). vm_compute. split; congruence.
Defined.

(** C9. A replicated write ends when the disk and the replica have both
    answered, in either order, with the status of the disk: nothing is told to
    the guest after the first answer, and the status of the replicator is
    ignored. *)
Theorem replicated_write_waits cmd sf sh aux :
  opcode cmd = nvme_cmd_write ∨ opcode cmd = nvme_cmd_write_zeroes →
  0 <= sf < 2 ^ 16 → 0 <= sh < 2 ^ 16 →
  ∃ cd cd1 cd2 cd3 cd4,
    nvme_mdev_io_process_sq (Some nmbpf_replicate) no_fail no_fail cmd tt = ([ToFd cmd; ToHq cmd], cd, tt) ∧
    notifyfd_runhook (Some nmbpf_replicate) no_fail no_fail sf aux cd tt = ([], cd1, tt) ∧
    nvme_mdev_io_process_hwq (Some nmbpf_replicate) no_fail no_fail sh cd1 tt = ([Completed sh], cd2, tt) ∧
    nvme_mdev_io_process_hwq (Some nmbpf_replicate) no_fail no_fail sh cd tt = ([], cd3, tt) ∧
    notifyfd_runhook (Some nmbpf_replicate) no_fail no_fail sf aux cd3 tt = ([Completed sh], cd4, tt).
Proof.
  intros Hop Hsf Hsh.
  exists (VsqCtx both cmd), (VsqCtx (fd_first sf) cmd), (VsqCtx (answered only_hq sh 22) cmd),
    (VsqCtx (hq_first sh) cmd), (VsqCtx (answered (hq_first sh) sf 23) cmd).
  split_and!; [|by apply fd_answers_first|by apply hq_answers_last|by apply hq_answers_first|
    by apply fd_answers_last].
  rewrite (submit_hook _ _ _ nmbpf_replicate cmd tt both (BpfIoCtx cmd NMBPF_HOOK_VSQ 0 no_aux) tt); try done.
  unfold nmbpf_replicate. cbn [ctx_cmd]. by destruct Hop as [-> | ->].
Qed.

Lemma replicated_write_waits_witness : ∃ cd cd1 cd2 cd3 cd4,
  nvme_mdev_io_process_sq (Some nmbpf_replicate) no_fail no_fail demo_wcmd tt =
    ([ToFd demo_wcmd; ToHq demo_wcmd], cd, tt) ∧
  notifyfd_runhook (Some nmbpf_replicate) no_fail no_fail 6 no_aux cd tt = ([], cd1, tt) ∧
  nvme_mdev_io_process_hwq (Some nmbpf_replicate) no_fail no_fail 0 cd1 tt = ([Completed 0], cd2, tt) ∧
  nvme_mdev_io_process_hwq (Some nmbpf_replicate) no_fail no_fail 0 cd tt = ([], cd3, tt) ∧
  notifyfd_runhook (Some nmbpf_replicate) no_fail no_fail 6 no_aux cd3 tt = ([Completed 0], cd4, tt).
Proof. apply (replicated_write_waits demo_wcmd 6 0 no_aux); [by left|lia|lia]. Defined.

(** *** Sends that fail *)

(** The answer of a path, when it is the only one that is under way. *)
Lemma sole_answer r st p : path p → ret_ok r → 0 <= st < 2 ^ 16 →
  Z.testbit r p = true → (∀ q, path q → q ≠ p → Z.testbit r q = false) →
  end_of (answered r st p) =
    [Completed (if Z.land r NMBPF_COMPLETION_MASK =? cmpl_of p then st else Z.land r NMBPF_STATUS_MASK)].
Proof.
  intros Hp Hok Hst Hbit Hother. destruct (update_ok r st p Hp Hok Hst Hbit) as [Hok2 Hb].
  assert (∀ q, path q → Z.testbit (answered r st p) q = false) as H0.
  { intros q Hq. rewrite Hb by done. destruct (Z.eqb_spec q p) as [->|Hne].
    - by rewrite andb_false_r.
    - by rewrite Hother. }
  rewrite (ended _ Hok2) by (apply H0; by left + by right).
  by rewrite (answered_status r st p Hp Hok Hst Hbit), (answered1_compl r st p Hp Hok Hst Hbit).
Qed.

Section failing.
Context {C : Type} (prog : C → bpf_io_ctx → Z * bpf_io_ctx * C).
Context (cmd : nvme_command) (c c1 : C) (r : Z) (x : bpf_io_ctx) (st : Z).
Context (Hvsq : prog c (BpfIoCtx cmd NMBPF_HOOK_VSQ 0 no_aux) = (r, x, c1)).
Context (Hok : ret_ok r) (Hst : 0 <= st < 2 ^ 16).
Context (fd_send hq_submit : nvme_command → option Z).

Lemma submit_sent ev b' cd' :
  io_send fd_send hq_submit (Bctx (ctx_cmd x) r) (VsqCtx r (ctx_cmd x)) = (ev, b', cd') →
  bx_iostate b' = iostate cd' →
  nvme_mdev_io_process_sq (Some prog) fd_send hq_submit cmd c = (ev ++ end_of (iostate cd'), cd', c1).
Proof using Hvsq.
  intros E1 E2. unfold nvme_mdev_io_process_sq. rewrite (vsq_hook _ prog cmd c r x c1 eq_refl Hvsq).
  cbv beta iota. unfold act_fuel. cbn [iostate bx_cmd].
  by rewrite (act_end _ _ _ true 0 _ _ _ ev b' cd').
Qed.

(** The disk's queue refuses a command that goes nowhere else. *)
Lemma disk_refuses : Z.testbit r 22 = true → Z.testbit r 23 = false →
  hq_submit (ctx_cmd x) = Some st →
  nvme_mdev_io_process_sq (Some prog) fd_send hq_submit cmd c =
    (Completed st :: end_of (answered r st 22), VsqCtx (answered r st 22) (ctx_cmd x), c1).
Proof using All.
  intros H22 H23 Hs. rewrite (submit_sent [Completed st] (Bctx (ctx_cmd x) (answered r st 22))
    (VsqCtx (answered r st 22) (ctx_cmd x))); [done| |done].
  unfold io_send. cbn [bx_iostate iostate bx_cmd saved_cmd].
  rewrite (bit_truthy r 23), H23 by done. cbn [negb andb].
  rewrite (bit_truthy r 22), H22 by done. unfold nvme_mdev_io_passthrough.
  cbn [bx_cmd iostate saved_cmd]. rewrite Hs. cbn [app].
  change NMBPF_WILL_COMPLETE_HQ with (cmpl_of 22). by rewrite (update_eq r st 22 path_hq Hok H22).
Qed.

(** The server's ring refuses a command: it is not sent to the disk either. *)
Lemma server_refuses : Z.testbit r 23 = true → fd_send (ctx_cmd x) = Some st →
  nvme_mdev_io_process_sq (Some prog) fd_send hq_submit cmd c =
    (end_of (answered r st 23), VsqCtx (answered r st 23) (ctx_cmd x), c1).
Proof using All.
  intros H23 Hs. rewrite (submit_sent [] (Bctx (ctx_cmd x) (answered r st 23))
    (VsqCtx (answered r st 23) (ctx_cmd x))); [done| |done].
  unfold io_send. cbn [bx_iostate iostate bx_cmd saved_cmd].
  rewrite (bit_truthy r 23), H23 by done. cbn [bx_cmd]. rewrite Hs.
  change NMBPF_WILL_COMPLETE_FD with (cmpl_of 23). by rewrite (update_eq r st 23 path_fd Hok H23).
Qed.
End failing.

(** C10. What a failed send does, whatever the classifier. (1) A verdict that
    sends the command to the disk only, where the disk's queue refuses it (an
    address out of range, for one): the function that sends it ends it with
    the refusal's status, and its caller ends it again: the guest gets two
    completions. (2) A verdict that sends it to the server and to the disk,
    where the ring of the server stays full until the timeout: it is sent to
    neither and not completed, and the path to the disk counts as under way,
    so no answer will ever end it. (3) A verdict that sends it to the server
    only, which is to complete it: it ends once, with the timeout's status.
    (4) A verdict that sends it to the server only and waits for the hook of
    its response, as the disk classifier's on a miss: it ends once, but with
    the status bits of the verdict, which are 0: the guest is told success. *)
Theorem failed_sends_miscounted {C} (prog : C → bpf_io_ctx → Z * bpf_io_ctx * C) cmd c r x c1 st
    fd_send hq_submit :
  prog c (BpfIoCtx cmd NMBPF_HOOK_VSQ 0 no_aux) = (r, x, c1) → ret_ok r → 0 <= st < 2 ^ 16 →
  let run := nvme_mdev_io_process_sq (Some prog) fd_send hq_submit cmd c in
  let to_disk := Z.testbit r 22 in
  let to_server := Z.testbit r 23 in
  let completer := Z.land r NMBPF_COMPLETION_MASK in
  (to_disk = true → to_server = false → completer = NMBPF_WILL_COMPLETE_HQ →
   hq_submit (ctx_cmd x) = Some st → run.1.1 = [Completed st; Completed st]) ∧
  (to_server = true → fd_send (ctx_cmd x) = Some st →
   (to_disk = true → run.1.1 = [] ∧ Z.testbit (iostate run.1.2) 22 = true ∧ bpfsm_get (iostate run.1.2) = true) ∧
   (to_disk = false → completer = NMBPF_WILL_COMPLETE_FD → run.1.1 = [Completed st]) ∧
   (to_disk = false → completer = NMBPF_WAIT_FOR_HOOK →
    run.1.1 = [Completed (Z.land r NMBPF_STATUS_MASK)])).
Proof.
  intros Hvsq Hok Hst run to_disk to_server completer. unfold run, to_disk, to_server, completer. split.
  - intros H22 H23 Hc Hs. rewrite (disk_refuses prog cmd c c1 r x st Hvsq Hok Hst _ _ H22 H23 Hs).
    cbn [fst]. rewrite (sole_answer r st 22 path_hq Hok Hst H22) by (intros q [-> | ->]; done).
    by rewrite Hc.
  - intros H23 Hs. rewrite (server_refuses prog cmd c c1 r x st Hvsq Hok Hst _ _ H23 Hs).
    cbn [fst snd iostate]. split_and!; intros H22.
    + destruct (update_ok r st 23 path_fd Hok Hst H23) as [Hok2 Hb].
      assert (bpfsm_get (answered r st 23) = true) as Hg
        by (unfold bpfsm_get; by rewrite (ret_ends _ Hok2), (ret_sends _ Hok2), !Hb, H22 by (by left + by right)).
      unfold end_of. rewrite Hg. split_and!; [done| |done]. rewrite Hb by by left. by rewrite H22.
    + intros Hc. rewrite (sole_answer r st 23 path_fd Hok Hst H23) by (intros q [-> | ->]; done).
      by rewrite Hc.
    + intros Hc. rewrite (sole_answer r st 23 path_fd Hok Hst H23) by (intros q [-> | ->]; done).
      by rewrite Hc.
Qed.

(** A write of the replicated disk, whose server's ring is full. *)
Lemma failed_sends_miscounted_witness :
  let run := nvme_mdev_io_process_sq (Some nmbpf_replicate) (λ _, Some NVME_SC_INTERNAL) no_fail demo_wcmd tt in
  run.1.1 = [] ∧ Z.testbit (iostate run.1.2) 22 = true ∧ bpfsm_get (iostate run.1.2) = true.
Proof.
  refine (proj1 (proj2 (failed_sends_miscounted nmbpf_replicate demo_wcmd tt both
    (BpfIoCtx demo_wcmd NMBPF_HOOK_VSQ 0 no_aux) tt NVME_SC_INTERNAL (λ _, Some NVME_SC_INTERNAL) no_fail
    eq_refl (both_ok) _) eq_refl eq_refl) eq_refl).
  vm_compute. split; congruence.
Defined.

(** The four cases, for the sample classifiers and the one of the disk. *)
Abbreviation timeout_of p cmd :=
  (nvme_mdev_io_process_sq (Some p) (λ _, Some NVME_SC_INTERNAL) (λ _, Some NVME_SC_INTERNAL) cmd tt).1.1.
Example failed_sends_of_the_classifiers :
  timeout_of nmbpf_passthrough demo_wcmd = [Completed NVME_SC_INTERNAL; Completed NVME_SC_INTERNAL] ∧
  timeout_of nmbpf_replicate demo_wcmd = [] ∧
  timeout_of nmbpf_encrypt demo_wcmd = [Completed NVME_SC_INTERNAL] ∧
  timeout_of nmbpf_encrypt_ip demo_wcmd = [Completed NVME_SC_SUCCESS].
Proof. vm_compute. done. Qed.
