(* ===== verification/LbaCache.v ===== *)
(** * The address-translation cache of the request classifier

    include/lbacache.hpp with the map accessors of lbacache-polyfill.hpp: a
    four-way set-associative cache from clusters of the virtual disk to
    physical block addresses, with a bit-PLRU replacement policy, and the
    classifier [nvme_run_bpf] that consults it. *)
From S2P Require Import Prelude Proto.

(** ** Geometry *)

Definition CLUSTER_SIZE : Z := 65536.
Definition LBA_SIZE : Z := 512.
Definition CLUSTER_LBAS : Z := CLUSTER_SIZE / LBA_SIZE.
Definition XCACHE_ASSOC : Z := 4.
Definition XCACHE_LINES : Z := 65536.
Definition XCACHE_SIZE : Z := XCACHE_ASSOC * XCACHE_LINES.

Definition META_MRU : Z := 0x1000000.
Definition META_MRU_SHIFT : Z := 24.
Definition META_MRU_MASK : Z :=
  Z.shiftl (Z.shiftl 1 XCACHE_ASSOC - 1) META_MRU_SHIFT.

Definition AUX_IS_VALID (meta i : Z) : bool :=
  truthy (Z.land meta (Z.shiftl AUXBITS_VALID (i * AUX_SHIFT))).
Definition AUX_IS_WRITABLE (meta i : Z) : bool :=
  truthy (Z.land meta (Z.shiftl AUXBITS_WRITABLE (i * AUX_SHIFT))).
Definition AUX_GET (meta i : Z) : Z :=
  Z.land (Z.shiftr meta (i * AUX_SHIFT)) AUX_MASK.

(** [VLBA_RESOLVE]. *)
Definition vblk_of (vlba : Z) : Z := vlba / CLUSTER_LBAS.
Definition off_of (vlba : Z) : Z := vlba mod CLUSTER_LBAS.
Definition tag_of (vlba : Z) : Z := vblk_of vlba / XCACHE_LINES.
Definition idx_of (vlba : Z) : Z := vblk_of vlba mod XCACHE_LINES.

(** ** State *)

Record cache : Type := Cache {
  cache_tag : arr;
  cache_plba : arr;
  cache_meta : arr;
}.

Definition empty_cache : cache := Cache ∅ ∅ ∅.

(** [for (i = 0; i < XCACHE_ASSOC; i++)]. *)
Definition ways : list Z := [0; 1; 2; 3].

(** The map accessors; an index out of range gives no element. *)
Definition bpf_map_lookup_elem (n : Z) (a : arr) (i : Z) : option Z :=
  if (0 <=? i) && (i <? n) then Some (aget a i) else None.
Definition bpf_map_update_elem (n : Z) (a : arr) (i v : Z) : arr :=
  if (0 <=? i) && (i <? n) then aset a i v else a.

(** The helper that masks every element exists twice. The polyfill the tests
    are built with returns the number of elements. The one the kernel patch
    adds, for the classifier [nmbpf_xcow.c] of the same patch, which is this
    classifier, returns 0, or [-EINVAL] for a map that is not a per-CPU array
    of 4 or 8-byte values. *)
Inductive helper : Type := Polyfill | Kernel.

Definition EINVAL : Z := 22.

Definition polyfill_elem_band (n : Z) (a : arr) (v : Z) : Z * arr :=
  (n, (λ x, Z.land x v) <$> a).

Definition kernel_elem_band (percpu : bool) (value_size : Z) (a : arr) (v : Z) :
    Z * arr :=
  if negb percpu then (- EINVAL, a)
  else if (value_size =? 4) || (value_size =? 8)
  then (0, (λ x, Z.land x v) <$> a)
  else (- EINVAL, a).

(** On [cache_meta]: [BPF_MAP_TYPE_PERCPU_ARRAY] of [u32] in the kernel. *)
Definition bpf_arraymap_elem_band (h : helper) (n : Z) (a : arr) (v : Z) : Z * arr :=
  match h with
  | Polyfill => polyfill_elem_band n a v
  | Kernel => kernel_elem_band true 4 a v
  end.

(** Stores through the pointer to the set's meta word. *)
Definition set_meta (c : cache) (idx m : Z) : cache :=
  Cache (cache_tag c) (cache_plba c)
    (bpf_map_update_elem XCACHE_LINES (cache_meta c) idx m).

Definition ci_of (idx i : Z) : Z := u32 (idx * XCACHE_ASSOC + i).

(** [AUX_IS_VALID(meta, i)] and the way's tag is [tag]. *)
Definition way_hit (c : cache) (meta idx tag i : Z) : bool :=
  AUX_IS_VALID meta i &&
  match bpf_map_lookup_elem XCACHE_SIZE (cache_tag c) (ci_of idx i) with
  | Some t => t =? tag
  | None => false
  end.

(** The saturation step of bit-PLRU: when every MRU bit is set, keep only the
    one of the way just used. *)
Definition mru_reset (meta i : Z) : Z :=
  if Z.land meta META_MRU_MASK =? META_MRU_MASK
  then Z.lor (Z.land meta (not32 META_MRU_MASK)) (Z.shiftl META_MRU i)
  else meta.

(** ** Lookup: the address or [U64_MAX], the auxiliary bits, the cache *)

Definition lba_lookup (c : cache) (vlba length0 : Z) : Z * Z * cache :=
  let idx := idx_of vlba in
  let tag := tag_of vlba in
  if negb (vblk_of vlba =? u64 (vlba + length0) / CLUSTER_LBAS)
  then (U64_MAX, 0, c) else
  match bpf_map_lookup_elem XCACHE_LINES (cache_meta c) idx with
  | None => (U64_MAX, 0, c)
  | Some meta =>
    match find_first (way_hit c meta idx tag) ways with
    | None => (U64_MAX, 0, c)
    | Some i =>
      let meta := mru_reset (Z.lor meta (Z.shiftl META_MRU i)) i in
      let c := set_meta c idx meta in
      match bpf_map_lookup_elem XCACHE_SIZE (cache_plba c) (ci_of idx i) with
      | None => (U64_MAX, 0, c)
      | Some plba => (u64 (plba + off_of vlba), AUX_GET meta i, c)
      end
    end
  end.

(** ** Update: choose the way that holds the tag, else an invalid way, else a
    way without its MRU bit, else way 0 *)

Definition choose_way (c : cache) (meta idx tag : Z) : Z :=
  match find_first (way_hit c meta idx tag) ways with
  | Some i => i
  | None =>
    match find_first (λ i, negb (AUX_IS_VALID meta i)) ways with
    | Some i => i
    | None =>
      match find_first
              (λ i, negb (truthy (Z.land meta (Z.shiftl META_MRU i)))) ways with
      | Some i => i
      | None => 0
      end
    end
  end.

Definition meta_store (meta aux i : Z) : Z :=
  mru_reset
    (Z.lor (Z.lor (Z.land meta (not32 (Z.shiftl AUX_MASK (i * AUX_SHIFT))))
                  (u32 (Z.shiftl aux (i * AUX_SHIFT))))
           (Z.shiftl META_MRU i)) i.

Definition lba_update (c : cache) (vlba plba aux : Z) : Z * cache :=
  let idx := idx_of vlba in
  let tag := tag_of vlba in
  match bpf_map_lookup_elem XCACHE_LINES (cache_meta c) idx with
  | None => (U64_MAX, c)
  | Some meta =>
    let i := choose_way c meta idx tag in
    let meta := meta_store meta aux i in
    let ci := ci_of idx i in
    (u64 (plba + off_of vlba),
     Cache (bpf_map_update_elem XCACHE_SIZE (cache_tag c) ci tag)
           (bpf_map_update_elem XCACHE_SIZE (cache_plba c) ci plba)
           (bpf_map_update_elem XCACHE_LINES (cache_meta c) idx meta))
  end.

(** ** Flush *)

(** One way of the inner loop: drop the valid bit when the tag matches. *)
Definition flush_way (c : cache) (idx tag meta i : Z) : Z :=
  if way_hit c meta idx tag i
  then Z.land meta (not32 (Z.shiftl AUXBITS_VALID (i * AUX_SHIFT)))
  else meta.

Definition flush_set (c : cache) (idx tag : Z) : cache :=
  match bpf_map_lookup_elem XCACHE_LINES (cache_meta c) idx with
  | None => c
  | Some meta => set_meta c idx (fold_left (flush_way c idx tag) ways meta)
  end.

(** [while (rest > 0)]; [rest] drops by a cluster per turn. *)
Fixpoint flush_loop (fuel : nat) (c : cache) (tag idx rest : Z) : cache :=
  match fuel with
  | O => c
  | S fuel =>
    if 0 <? rest
    then flush_loop fuel (flush_set c idx tag) tag
           (u32 (idx + 1) mod XCACHE_LINES) (rest - CLUSTER_LBAS)
    else c
  end.

(** [length0] is 16 bits wide: 512 turns are the most the loop can make. *)
Definition flush_fuel : nat := 513.

Definition lba_flush_range (c : cache) (vlba length0 : Z) : cache :=
  if negb (vblk_of vlba =? u64 (vlba + length0) / CLUSTER_LBAS) then c
  else flush_loop flush_fuel c (tag_of vlba) (idx_of vlba) (length0 + 1).

(** ** Snapshot: drop an auxiliary bit everywhere *)

Definition clear_mask (aux : Z) : Z :=
  not32 (fold_left (λ m i, Z.lor m (u32 (Z.shiftl aux (i * AUX_SHIFT))))
           [0; 1; 2; 3; 4; 5; 6; 7] 0).

Definition lba_clear_flag_all (h : helper) (c : cache) (aux : Z) : Z * cache :=
  let '(ret, m) :=
    bpf_arraymap_elem_band h XCACHE_LINES (cache_meta c) (clear_mask aux) in
  (ret, Cache (cache_tag c) (cache_plba c) m).

(** ** The classifier *)

Definition nm_do_rw (c : cache) (ctx : bpf_io_ctx) : Z * bpf_io_ctx * cache :=
  let cmd := ctx_cmd ctx in
  let '(val, aux, c) := lba_lookup c (slba cmd) (length0 cmd) in
  if negb (val =? U64_MAX) &&
     ((opcode cmd =? nvme_cmd_read) || truthy (Z.land aux AUXBITS_WRITABLE))
  then (Z.lor NMBPF_SEND_HQ NMBPF_WILL_COMPLETE_HQ,
        set_ctx_cmd (set_slba val cmd) ctx, c)
  else
    let c := if negb (opcode cmd =? nvme_cmd_read)
             then lba_flush_range c (slba cmd) (length0 cmd) else c in
    (Z.lor (Z.lor NMBPF_SEND_FD NMBPF_HOOK_NFD_WRITE) NMBPF_WAIT_FOR_HOOK, ctx, c).

(** [aux = [ctrl, paddr_lo, paddr_hi]]. *)
Definition nm_on_rw_respond (c : cache) (ctx : bpf_io_ctx) :
    Z * bpf_io_ctx * cache :=
  let cmd := ctx_cmd ctx in
  let aux := ctx_aux ctx in
  if truthy (Z.land (aux0 aux) AUXBITS_VALID) then
    let val := Z.lor (aux1 aux) (Z.shiftl (aux2 aux) 32) in
    let '(plba, c) := lba_update c (slba cmd)
                        (u64 (val / CLUSTER_SIZE * CLUSTER_LBAS))
                        (Z.land (aux0 aux) AUX_MASK) in
    if plba =? U64_MAX then (Z.lor NVME_SC_DNR NVME_SC_INTERNAL, ctx, c)
    else if truthy (Z.land (aux0 aux) AUXCMD_FORWARD)
    then (Z.lor NMBPF_SEND_HQ NMBPF_WILL_COMPLETE_HQ,
          set_ctx_cmd (set_slba plba cmd) ctx, c)
    else (ctx_data ctx, ctx, c)
  else
    let c := if negb (truthy (Z.land (aux0 aux) AUXCMD_KEEP))
             then lba_flush_range c (slba cmd) (length0 cmd) else c in
    (ctx_data ctx, ctx, c).

Definition nvme_run_bpf (h : helper) (c : cache) (ctx : bpf_io_ctx) :
    Z * bpf_io_ctx * cache :=
  let cmd := ctx_cmd ctx in
  if truthy (Z.land (flags cmd) NVME_CMD_SGL_ALL)
  then (Z.lor NVME_SC_DNR NVME_SC_INVALID_OPCODE, ctx, c) else
  if (opcode cmd =? nvme_cmd_read) || (opcode cmd =? nvme_cmd_write) ||
     (opcode cmd =? nvme_cmd_write_zeroes)
  then
    if current_hook ctx =? NMBPF_HOOK_VSQ then nm_do_rw c ctx
    else if current_hook ctx =? NMBPF_HOOK_NFD_WRITE then nm_on_rw_respond c ctx
    else (Z.lor NMBPF_SEND_HQ NMBPF_WILL_COMPLETE_HQ, ctx, c)
  else if opcode cmd =? nvme_cmd_snapshot then
    let '(ret, c) := lba_clear_flag_all h c AUXBITS_WRITABLE in
    if ret <? 0 then (Z.lor NVME_SC_DNR NVME_SC_INTERNAL, ctx, c)
    else if negb (ret =? XCACHE_LINES) then (NVME_SC_INTERNAL, ctx, c)
    else (Z.lor NMBPF_SEND_FD NMBPF_WILL_COMPLETE_FD, ctx, c)
  else (Z.lor NMBPF_SEND_HQ NMBPF_WILL_COMPLETE_HQ, ctx, c).

(** In the kernel the three maps are per-CPU arrays: every access of the
    classifier, the mask of a snapshot too, is to the maps of the CPU it runs
    on. *)
Abbreviation percpu := (gmap nat cache).

Definition cpu_cache (m : percpu) (cpu : nat) : cache := default empty_cache (m !! cpu).

Definition run_bpf_on (h : helper) (cpu : nat) (m : percpu) (ctx : bpf_io_ctx) :
    Z * bpf_io_ctx * percpu :=
  let '(r, ctx, c) := nvme_run_bpf h (cpu_cache m cpu) ctx in
  (r, ctx, <[cpu := c]> m).

(** ** Specification

    What the cache promises: a lossy map from clusters to an address and its
    auxiliary bits. [cache_view] reads the map off the state. *)

Definition cache_view (c : cache) (vblk : Z) : option (Z * Z) :=
  let idx := vblk mod XCACHE_LINES in
  let tag := vblk / XCACHE_LINES in
  let meta := aget (cache_meta c) idx in
  (λ i, (aget (cache_plba c) (ci_of idx i), AUX_GET meta i)) <$>
  find_first (way_hit c meta idx tag) ways.

(** The way of the set [idx] has its MRU bit set. *)
Definition mru (c : cache) (idx i : Z) : bool :=
  Z.testbit (aget (cache_meta c) idx) (META_MRU_SHIFT + i).

(** A set is well formed: its meta word has 32 bits, no two valid ways carry
    the same tag, and some way has its MRU bit clear. *)
Record set_ok (c : cache) (idx : Z) : Prop := {
  meta_width : 0 <= aget (cache_meta c) idx < 2 ^ 32;
  tags_distinct : ∀ i j tag, i ∈ ways → j ∈ ways →
    way_hit c (aget (cache_meta c) idx) idx tag i = true →
    way_hit c (aget (cache_meta c) idx) idx tag j = true → i = j;
  mru_free : ∃ i, i ∈ ways ∧ mru c idx i = false;
}.

Definition cache_ok (c : cache) : Prop :=
  ∀ idx, 0 <= idx < XCACHE_LINES → set_ok c idx.

(** Both ends of a request are in the same cluster. *)
Definition crossing (vlba length0 : Z) : bool :=
  negb (vblk_of vlba =? u64 (vlba + length0) / CLUSTER_LBAS).

(** The addresses the cache holds are block addresses of 64-bit byte offsets;
    no hit can collide with the miss value [U64_MAX]. *)
Definition plba_ok (c : cache) : Prop :=
  ∀ v p a, cache_view c v = Some (p, a) → 0 <= p < 2 ^ 55.

Definition cache_inv (c : cache) : Prop := cache_ok c ∧ plba_ok c.

(** *** What a request may do to the map *)

Definition view_t : Type := Z → option (Z * Z).

Definition same_view (V V' : view_t) : Prop := ∀ w, V' w = V w.

Definition drops (V : view_t) (v : Z) (V' : view_t) : Prop :=
  ∀ w, V' w = if decide (w = v) then None else V w.

(** An entry is installed: at most one other cluster loses its place, and none
    does when the cluster was already cached. *)
Record installs (V : view_t) (v : Z) (e : Z * Z) (V' : view_t) : Prop := {
  inst_self : V' v = Some e;
  inst_others : ∃ victim, ∀ w, w ≠ v →
    V' w = if decide (w = victim) then None else V w;
  inst_update : is_Some (V v) → ∀ w, w ≠ v → V' w = V w;
}.

Definition downgrades (V V' : view_t) : Prop :=
  ∀ w, V' w = (λ pa, (pa.1, Z.land pa.2 AUXBITS_VALID)) <$> V w.

Definition is_rw (cmd : nvme_command) : bool :=
  (opcode cmd =? nvme_cmd_read) || (opcode cmd =? nvme_cmd_write) ||
  (opcode cmd =? nvme_cmd_write_zeroes).

Definition to_hq : Z := Z.lor NMBPF_SEND_HQ NMBPF_WILL_COMPLETE_HQ.
Definition to_server : Z :=
  Z.lor (Z.lor NMBPF_SEND_FD NMBPF_HOOK_NFD_WRITE) NMBPF_WAIT_FOR_HOOK.

(** The request may use the cached entry: it is a read, or the entry is
    writable. *)
Definition permits (cmd : nvme_command) (a : Z) : bool :=
  (opcode cmd =? nvme_cmd_read) || truthy (Z.land a AUXBITS_WRITABLE).

Definition usable (V : view_t) (cmd : nvme_command) : option Z :=
  if crossing (slba cmd) (length0 cmd) then None else
  match V (vblk_of (slba cmd)) with
  | Some (p, a) =>
      if permits cmd a then Some (p + off_of (slba cmd)) else None
  | None => None
  end.

(** The address the server's response carries, in blocks. *)
Definition response_plba (aux : nmntfy_aux) : Z :=
  Z.lor (aux1 aux) (Z.shiftl (aux2 aux) 32) / CLUSTER_SIZE * CLUSTER_LBAS.

(** What the classifier answers a snapshot command: with the polyfill it sends
    it to the server; the kernel's helper returns 0, which is not the number
    of lines the classifier compares it with, and the command ends there. *)
Definition snapshot_verdict (h : helper) : Z :=
  match h with
  | Polyfill => Z.lor NMBPF_SEND_FD NMBPF_WILL_COMPLETE_FD
  | Kernel => NVME_SC_INTERNAL
  end.

Inductive spec_bpf (h : helper) (V : view_t) (ctx : bpf_io_ctx) :
    Z → bpf_io_ctx → view_t → Prop :=
  | spec_sgl V' :
      truthy (Z.land (flags (ctx_cmd ctx)) NVME_CMD_SGL_ALL) = true →
      same_view V V' →
      spec_bpf h V ctx (Z.lor NVME_SC_DNR NVME_SC_INVALID_OPCODE) ctx V'
  | spec_hit V' addr :
      is_rw (ctx_cmd ctx) = true → current_hook ctx = NMBPF_HOOK_VSQ →
      usable V (ctx_cmd ctx) = Some addr → same_view V V' →
      spec_bpf h V ctx to_hq
        (set_ctx_cmd (set_slba addr (ctx_cmd ctx)) ctx) V'
  | spec_miss_read V' :
      opcode (ctx_cmd ctx) = nvme_cmd_read → current_hook ctx = NMBPF_HOOK_VSQ →
      usable V (ctx_cmd ctx) = None → same_view V V' →
      spec_bpf h V ctx to_server ctx V'
  | spec_miss_write V' :
      is_rw (ctx_cmd ctx) = true → opcode (ctx_cmd ctx) ≠ nvme_cmd_read →
      current_hook ctx = NMBPF_HOOK_VSQ →
      usable V (ctx_cmd ctx) = None →
      (if crossing (slba (ctx_cmd ctx)) (length0 (ctx_cmd ctx))
       then same_view V V' else drops V (vblk_of (slba (ctx_cmd ctx))) V') →
      spec_bpf h V ctx to_server ctx V'
  | spec_install r ctx' V' :
      is_rw (ctx_cmd ctx) = true → current_hook ctx = NMBPF_HOOK_NFD_WRITE →
      truthy (Z.land (aux0 (ctx_aux ctx)) AUXBITS_VALID) = true →
      installs V (vblk_of (slba (ctx_cmd ctx)))
        (response_plba (ctx_aux ctx), Z.land (aux0 (ctx_aux ctx)) AUX_MASK) V' →
      (r, ctx') =
        (if truthy (Z.land (aux0 (ctx_aux ctx)) AUXCMD_FORWARD)
         then (to_hq, set_ctx_cmd (set_slba
                 (response_plba (ctx_aux ctx) + off_of (slba (ctx_cmd ctx)))
                 (ctx_cmd ctx)) ctx)
         else (ctx_data ctx, ctx)) →
      spec_bpf h V ctx r ctx' V'
  | spec_respond V' :
      is_rw (ctx_cmd ctx) = true → current_hook ctx = NMBPF_HOOK_NFD_WRITE →
      truthy (Z.land (aux0 (ctx_aux ctx)) AUXBITS_VALID) = false →
      (if truthy (Z.land (aux0 (ctx_aux ctx)) AUXCMD_KEEP) ||
          crossing (slba (ctx_cmd ctx)) (length0 (ctx_cmd ctx))
       then same_view V V' else drops V (vblk_of (slba (ctx_cmd ctx))) V') →
      spec_bpf h V ctx (ctx_data ctx) ctx V'
  | spec_snapshot V' :
      opcode (ctx_cmd ctx) = nvme_cmd_snapshot → downgrades V V' →
      spec_bpf h V ctx (snapshot_verdict h) ctx V'
  | spec_passthrough V' :
      is_rw (ctx_cmd ctx) = false ∨
        (current_hook ctx ≠ NMBPF_HOOK_VSQ ∧
         current_hook ctx ≠ NMBPF_HOOK_NFD_WRITE) →
      opcode (ctx_cmd ctx) ≠ nvme_cmd_snapshot → same_view V V' →
      spec_bpf h V ctx to_hq ctx V'.

(** A context whose words have the width of their fields. *)
Record ctx_ok (ctx : bpf_io_ctx) : Prop := {
  ctx_cmd_ok : command_ok (ctx_cmd ctx);
  ctx_aux1_ok : 0 <= aux1 (ctx_aux ctx) < 2 ^ 32;
  ctx_aux2_ok : 0 <= aux2 (ctx_aux ctx) < 2 ^ 32;
}.

(** The states a sequence of requests can reach from the zeroed maps. *)
Inductive bpf_reachable (h : helper) : cache → Prop :=
  | reach_init : bpf_reachable h empty_cache
  | reach_step c ctx :
      bpf_reachable h c → ctx_ok ctx → bpf_reachable h (nvme_run_bpf h c ctx).2.

(** ** Lemmas: bit fields of the meta word *)

Lemma elem_of_ways i : i ∈ ways ↔ 0 <= i < 4.
Proof. unfold ways. rewrite !elem_of_cons, elem_of_nil. lia. Qed.

Lemma META_MRU_shift i : 0 <= i → Z.shiftl META_MRU i = 2 ^ (24 + i).
Proof.
  intros. change META_MRU with (2 ^ 24).
  rewrite Z.shiftl_mul_pow2, Z.pow_add_r by lia. done.
Qed.

Lemma AUX_IS_VALID_bit m i : 0 <= i → AUX_IS_VALID m i = Z.testbit m (3 * i).
Proof.
  intros. unfold AUX_IS_VALID, AUXBITS_VALID, AUX_SHIFT.
  rewrite shiftl_1, truthy_land_pow2 by lia. f_equal. lia.
Qed.

Lemma AUX_IS_WRITABLE_bit m i :
  0 <= i → AUX_IS_WRITABLE m i = Z.testbit m (3 * i + 1).
Proof.
  intros. unfold AUX_IS_WRITABLE, AUXBITS_WRITABLE, AUX_SHIFT.
  replace (Z.shiftl 2 (i * 3)) with (2 ^ (3 * i + 1)).
  - by rewrite truthy_land_pow2 by lia.
  - rewrite Z.shiftl_mul_pow2, Z.pow_add_r by lia. rewrite (Z.mul_comm i). lia.
Qed.

Lemma AUX_GET_bit m i k : 0 <= i → 0 <= k →
  Z.testbit (AUX_GET m i) k = (k <? 2) && Z.testbit m (3 * i + k).
Proof.
  intros. unfold AUX_GET, AUX_MASK, AUX_SHIFT.
  change 3 with (Z.ones 2) at 2.
  rewrite Z.land_spec, Z.shiftr_spec by lia.
  replace (k + i * 3) with (3 * i + k) by lia.
  destruct (Z.ltb_spec k 2).
  - by rewrite Z.ones_spec_low, andb_true_r by lia.
  - by rewrite Z.ones_spec_high, andb_false_r by lia.
Qed.

Lemma META_MRU_MASK_bit k :
  0 <= k → Z.testbit META_MRU_MASK k = (24 <=? k) && (k <? 28).
Proof.
  intros. change META_MRU_MASK with (Z.shiftl (Z.ones 4) 24).
  rewrite testbit_shl by lia. destruct (Z.leb_spec 24 k); [|done]. simpl.
  destruct (Z.ltb_spec k 28).
  - by rewrite Z.ones_spec_low by lia.
  - by rewrite Z.ones_spec_high by lia.
Qed.

(** The MRU bits are all set exactly when no way is free. *)
Lemma mru_full m :
  Z.land m META_MRU_MASK = META_MRU_MASK ↔
  ∀ i, i ∈ ways → Z.testbit m (24 + i) = true.
Proof.
  split.
  - intros H i Hi. apply elem_of_ways in Hi.
    apply (f_equal (λ x, Z.testbit x (24 + i))) in H.
    rewrite Z.land_spec, META_MRU_MASK_bit in H by lia.
    replace ((24 <=? 24 + i) && (24 + i <? 28)) with true in H
      by (symmetry; apply andb_true_iff; split; lia).
    by rewrite andb_true_r in H.
  - intros H. apply Z.bits_inj'. intros k Hk.
    rewrite Z.land_spec, META_MRU_MASK_bit by lia.
    destruct (Z.leb_spec 24 k), (Z.ltb_spec k 28); simpl;
      rewrite ?andb_false_r, ?andb_true_r; try done.
    replace k with (24 + (k - 24)) by lia. apply H, elem_of_ways. lia.
Qed.

(** [mru_reset] only touches MRU bits, keeps the one of [i] and leaves some
    other way free. *)
Lemma mru_reset_low m i k : 0 <= i → 0 <= k < 24 →
  Z.testbit (mru_reset m i) k = Z.testbit m k.
Proof.
  intros. unfold mru_reset. case_match; [|done].
  rewrite Z.lor_spec, Z.land_spec, not32_bit, META_MRU_shift, testbit_pow2,
    META_MRU_MASK_bit by lia.
  bool_cases. by rewrite andb_true_r, orb_false_r.
Qed.

Lemma mru_reset_width m i : i ∈ ways → 0 <= m < 2 ^ 32 →
  0 <= mru_reset m i < 2 ^ 32.
Proof.
  intros Hi%elem_of_ways Hm. unfold mru_reset. case_match; [|done].
  assert (0 <= Z.lor (Z.land m (not32 META_MRU_MASK)) (Z.shiftl META_MRU i)).
  { apply Z.lor_nonneg. split; [apply Z.land_nonneg; lia|].
    rewrite META_MRU_shift by lia. lia. }
  split; [done|]. apply range_of_bits; [done|lia|]. intros k Hk.
  rewrite Z.lor_spec, Z.land_spec, META_MRU_shift, testbit_pow2 by lia.
  rewrite (testbit_above m 32) by lia. bool_cases.
Qed.

Lemma mru_reset_self m i : i ∈ ways →
  Z.testbit m (24 + i) = true → Z.testbit (mru_reset m i) (24 + i) = true.
Proof.
  intros Hi%elem_of_ways Hm. unfold mru_reset. case_match; [|done].
  rewrite Z.lor_spec, META_MRU_shift, testbit_pow2 by lia.
  bool_cases; apply orb_true_r.
Qed.

Lemma mru_reset_free m i : i ∈ ways →
  ∃ j, j ∈ ways ∧ Z.testbit (mru_reset m i) (24 + j) = false.
Proof.
  intros Hi%elem_of_ways. unfold mru_reset. case_match eqn:E; to_prop.
  - exists ((i + 1) mod 4). pose proof (Z.mod_pos_bound (i + 1) 4).
    split; [apply elem_of_ways; lia|].
    rewrite Z.lor_spec, Z.land_spec, not32_bit, META_MRU_MASK_bit,
      META_MRU_shift, testbit_pow2 by lia.
    assert ((i + 1) mod 4 ≠ i) by (Z.div_mod_to_equations; lia).
    bool_cases; by rewrite andb_false_r.
  - destruct (find_first (λ j, negb (Z.testbit m (24 + j))) ways) as [j|] eqn:F.
    + apply find_first_Some in F as [??]. exists j. by to_prop.
    + destruct E. apply mru_full. intros j Hj.
      rewrite find_first_None in F. specialize (F _ Hj). by to_prop.
Qed.

(** ** Lemmas: sets, ways and the view *)

Definition low_agree (m m' : Z) : Prop :=
  ∀ k, 0 <= k < 24 → Z.testbit m k = Z.testbit m' k.

Lemma ci_of_eq idx i : 0 <= idx < XCACHE_LINES → i ∈ ways →
  ci_of idx i = 4 * idx + i.
Proof.
  unfold ci_of, XCACHE_LINES, XCACHE_ASSOC. intros ? ?%elem_of_ways.
  rewrite u32_small by lia. lia.
Qed.

Lemma ci_of_range idx i : 0 <= idx < XCACHE_LINES → i ∈ ways →
  (0 <=? ci_of idx i) && (ci_of idx i <? XCACHE_SIZE) = true.
Proof.
  intros H Hi. rewrite ci_of_eq by done. apply elem_of_ways in Hi.
  unfold XCACHE_SIZE, XCACHE_LINES, XCACHE_ASSOC in *. lia.
Qed.

Lemma ci_of_inj idx i idx' j : 0 <= idx < XCACHE_LINES → i ∈ ways →
  0 <= idx' < XCACHE_LINES → j ∈ ways →
  ci_of idx i = ci_of idx' j → idx = idx' ∧ i = j.
Proof.
  intros ????. rewrite !ci_of_eq by done.
  rewrite !elem_of_ways in *. lia.
Qed.

Lemma idx_range v : 0 <= v mod XCACHE_LINES < XCACHE_LINES.
Proof. by apply Z.mod_pos_bound. Qed.
#[export] Hint Resolve idx_range : nvm.

Lemma lookup_meta c v :
  bpf_map_lookup_elem XCACHE_LINES (cache_meta c) (v mod XCACHE_LINES)
  = Some (aget (cache_meta c) (v mod XCACHE_LINES)).
Proof.
  unfold bpf_map_lookup_elem. pose proof (idx_range v).
  by replace ((0 <=? v mod XCACHE_LINES) && (v mod XCACHE_LINES <? XCACHE_LINES))
    with true by lia.
Qed.

Lemma lookup_ci n a idx i : n = XCACHE_SIZE →
  0 <= idx < XCACHE_LINES → i ∈ ways →
  bpf_map_lookup_elem n a (ci_of idx i) = Some (aget a (ci_of idx i)).
Proof. intros -> ??. unfold bpf_map_lookup_elem. by rewrite ci_of_range. Qed.

Lemma update_ci a idx i x : 0 <= idx < XCACHE_LINES → i ∈ ways →
  bpf_map_update_elem XCACHE_SIZE a (ci_of idx i) x = aset a (ci_of idx i) x.
Proof. intros. unfold bpf_map_update_elem. by rewrite ci_of_range. Qed.

Lemma update_line a idx x : 0 <= idx < XCACHE_LINES →
  bpf_map_update_elem XCACHE_LINES a idx x = aset a idx x.
Proof.
  intros. unfold bpf_map_update_elem.
  by replace ((0 <=? idx) && (idx <? XCACHE_LINES)) with true by lia.
Qed.

Lemma way_hit_eq c m idx tag i : 0 <= idx < XCACHE_LINES → i ∈ ways →
  way_hit c m idx tag i
  = Z.testbit m (3 * i) && (aget (cache_tag c) (ci_of idx i) =? tag).
Proof.
  intros ? Hi. unfold way_hit. rewrite lookup_ci by done.
  rewrite AUX_IS_VALID_bit by (apply elem_of_ways in Hi; lia). done.
Qed.

Lemma way_hit_low c m m' idx tag i : 0 <= idx < XCACHE_LINES → i ∈ ways →
  low_agree m m' → way_hit c m idx tag i = way_hit c m' idx tag i.
Proof.
  intros ? Hi Hl. rewrite !way_hit_eq by done.
  apply elem_of_ways in Hi. by rewrite Hl by lia.
Qed.

Lemma AUX_GET_low m m' i : i ∈ ways → low_agree m m' → AUX_GET m i = AUX_GET m' i.
Proof.
  intros Hi%elem_of_ways Hl. apply Z.bits_inj'. intros k Hk.
  rewrite !AUX_GET_bit by lia. destruct (Z.ltb_spec k 2); [|done].
  by rewrite Hl by lia.
Qed.

(** Reading the view through the hit way. *)
Lemma cache_view_hit c v i : cache_ok c → i ∈ ways →
  way_hit c (aget (cache_meta c) (v mod XCACHE_LINES)) (v mod XCACHE_LINES)
    (v / XCACHE_LINES) i = true →
  find_first (way_hit c (aget (cache_meta c) (v mod XCACHE_LINES))
    (v mod XCACHE_LINES) (v / XCACHE_LINES)) ways = Some i.
Proof.
  intros Hok Hi Hh. apply find_first_unique; [done..|].
  intros j Hj Hhj. destruct (Hok (v mod XCACHE_LINES) (idx_range v)) as [_ Hd _].
  eapply Hd; eauto.
Qed.

(** Two states whose set words agree on the entry bits have the same view. *)
Lemma cache_view_ext c c' v :
  (∀ i, i ∈ ways →
    let idx := v mod XCACHE_LINES in
    aget (cache_tag c') (ci_of idx i) = aget (cache_tag c) (ci_of idx i) ∧
    aget (cache_plba c') (ci_of idx i) = aget (cache_plba c) (ci_of idx i)) →
  low_agree (aget (cache_meta c') (v mod XCACHE_LINES))
            (aget (cache_meta c) (v mod XCACHE_LINES)) →
  cache_view c' v = cache_view c v.
Proof.
  intros Hw Hl. unfold cache_view. pose proof (idx_range v).
  rewrite (find_first_ext
    (way_hit c' (aget (cache_meta c') (v mod XCACHE_LINES))
       (v mod XCACHE_LINES) (v / XCACHE_LINES))
    (way_hit c (aget (cache_meta c) (v mod XCACHE_LINES))
       (v mod XCACHE_LINES) (v / XCACHE_LINES))).
  - destruct (find_first _ ways) as [i|] eqn:F; simpl; [|done].
    apply find_first_Some in F as [Hi _]. destruct (Hw _ Hi) as [_ ->].
    by rewrite (AUX_GET_low _ _ _ Hi Hl).
  - intros i Hi. rewrite (way_hit_low c' _ _ _ _ _ H Hi Hl), !way_hit_eq by done.
    by destruct (Hw _ Hi) as [-> _].
Qed.

Lemma set_meta_view c idx m v : 0 <= idx < XCACHE_LINES →
  low_agree m (aget (cache_meta c) idx) →
  cache_view (set_meta c idx m) v = cache_view c v.
Proof.
  intros Hidx Hl. apply cache_view_ext; [done|].
  unfold set_meta; simpl. rewrite update_line, aget_aset by done.
  by case_decide as E; [rewrite <- E|].
Qed.

(** The invariant only looks at a set through its own words. *)
Lemma set_ok_ext c c' idx : 0 <= idx < XCACHE_LINES →
  (∀ i, i ∈ ways →
    aget (cache_tag c') (ci_of idx i) = aget (cache_tag c) (ci_of idx i)) →
  aget (cache_meta c') idx = aget (cache_meta c) idx →
  set_ok c idx → set_ok c' idx.
Proof.
  intros Hidx Ht Hm [Hw Hd Hf]. split.
  - by rewrite Hm.
  - intros i j tag Hi Hj. rewrite !way_hit_eq, Hm, !Ht by done.
    rewrite <- !way_hit_eq by done. by apply Hd.
  - unfold mru. by rewrite Hm.
Qed.

(** Storing a word that agrees on the entry bits and leaves a way free. *)
Lemma set_meta_ok c idx m : 0 <= idx < XCACHE_LINES → cache_ok c →
  (∀ i, i ∈ ways → Z.testbit m (3 * i) = true →
     Z.testbit (aget (cache_meta c) idx) (3 * i) = true) →
  0 <= m < 2 ^ 32 →
  (∃ j, j ∈ ways ∧ Z.testbit m (24 + j) = false) →
  cache_ok (set_meta c idx m).
Proof.
  intros Hidx Hok Hv Hw Hf idx' Hidx'. destruct (decide (idx = idx')) as [<-|Hne].
  - assert (aget (cache_meta (set_meta c idx m)) idx = m) as Hm.
    { unfold set_meta; simpl. by rewrite update_line, aget_aset_eq. }
    split; [by rewrite Hm| |].
    + intros i j tag Hi Hj. rewrite Hm. unfold set_meta.
      rewrite !way_hit_eq by done; simpl. intros [??]%andb_prop [??]%andb_prop.
      apply (tags_distinct _ _ (Hok _ Hidx) i j tag); try done;
        rewrite way_hit_eq by done; apply andb_true_iff; auto.
    + destruct Hf as (j & ? & ?). exists j. unfold mru. by rewrite Hm.
  - apply (set_ok_ext c); [done|done| |by apply Hok].
    unfold set_meta; simpl. by rewrite update_line, aget_aset_ne.
Qed.

(** ** Lemmas: lookup *)

(** The meta word a hit in way [i] stores. *)
Definition touch (m i : Z) : Z := mru_reset (Z.lor m (Z.shiftl META_MRU i)) i.

Lemma touch_low m i : i ∈ ways → low_agree (touch m i) m.
Proof.
  intros Hi%elem_of_ways k Hk. unfold touch.
  rewrite mru_reset_low, Z.lor_spec, META_MRU_shift, testbit_pow2 by lia.
  bool_cases; by rewrite orb_false_r.
Qed.

Lemma mru_set_width m i : i ∈ ways → 0 <= m < 2 ^ 32 →
  0 <= Z.lor m (Z.shiftl META_MRU i) < 2 ^ 32.
Proof.
  intros Hi%elem_of_ways Hm. rewrite META_MRU_shift by lia.
  assert (0 <= Z.lor m (2 ^ (24 + i))) by (apply Z.lor_nonneg; lia).
  split; [done|]. apply range_of_bits; [done|lia|]. intros k Hk.
  rewrite Z.lor_spec, testbit_pow2, (testbit_above m 32) by lia. bool_cases.
Qed.

Lemma touch_width m i : i ∈ ways → 0 <= m < 2 ^ 32 → 0 <= touch m i < 2 ^ 32.
Proof. intros. apply mru_reset_width; [done|]. by apply mru_set_width. Qed.

Lemma touch_ok c idx i : 0 <= idx < XCACHE_LINES → i ∈ ways → cache_ok c →
  cache_ok (set_meta c idx (touch (aget (cache_meta c) idx) i)).
Proof.
  intros Hidx Hi Hok. apply set_meta_ok; [done|done| | |].
  - intros j Hj%elem_of_ways. by rewrite touch_low by (done || lia).
  - apply touch_width; [done|]. by apply (meta_width _ _ (Hok _ Hidx)).
  - by apply mru_reset_free.
Qed.

(** The state a lookup leaves: the hit way's MRU bit is set, nothing else. *)
Lemma lba_lookup_eq c vlba len : cache_ok c → crossing vlba len = false →
  lba_lookup c vlba len =
    let idx := idx_of vlba in
    let meta := aget (cache_meta c) idx in
    match find_first (way_hit c meta idx (tag_of vlba)) ways with
    | None => (U64_MAX, 0, c)
    | Some i =>
      (u64 (aget (cache_plba c) (ci_of idx i) + off_of vlba), AUX_GET meta i,
       set_meta c idx (touch meta i))
    end.
Proof.
  intros Hok Hx. unfold lba_lookup. unfold crossing in Hx. rewrite Hx.
  unfold idx_of. rewrite lookup_meta. cbv zeta.
  destruct (find_first _ ways) as [i|] eqn:F; [|done].
  apply find_first_Some in F as [Hi _].
  rewrite lookup_ci by (done || apply idx_range).
  f_equal. f_equal. apply AUX_GET_low; [done|]. by apply touch_low.
Qed.

Lemma lba_lookup_crossing c vlba len :
  crossing vlba len = true → lba_lookup c vlba len = (U64_MAX, 0, c).
Proof. intros H. unfold lba_lookup. unfold crossing in H. by rewrite H. Qed.

Lemma lba_lookup_ok c vlba len : cache_ok c → cache_ok (lba_lookup c vlba len).2.
Proof.
  intros Hok. destruct (crossing vlba len) eqn:Hx.
  - by rewrite lba_lookup_crossing.
  - rewrite lba_lookup_eq by done. cbv zeta.
    destruct (find_first _ ways) as [i|] eqn:F; [|done].
    apply find_first_Some in F as [Hi _]. simpl.
    apply touch_ok; [apply idx_range|done|done].
Qed.

Lemma lba_lookup_view c vlba len v :
  cache_ok c → cache_view (lba_lookup c vlba len).2 v = cache_view c v.
Proof.
  intros Hok. destruct (crossing vlba len) eqn:Hx.
  - by rewrite lba_lookup_crossing.
  - rewrite lba_lookup_eq by done. cbv zeta.
    destruct (find_first _ ways) as [i|] eqn:F; [|done].
    apply find_first_Some in F as [Hi _]. simpl.
    apply set_meta_view; [apply idx_range|by apply touch_low].
Qed.

Lemma lba_lookup_val c vlba len :
  cache_ok c → crossing vlba len = false →
  (lba_lookup c vlba len).1 =
    match cache_view c (vblk_of vlba) with
    | Some (p, a) => (u64 (p + off_of vlba), a)
    | None => (U64_MAX, 0)
    end.
Proof.
  intros Hok Hx. rewrite lba_lookup_eq by done. cbv zeta. unfold cache_view.
  change (vblk_of vlba mod XCACHE_LINES) with (idx_of vlba).
  change (vblk_of vlba / XCACHE_LINES) with (tag_of vlba).
  by destruct (find_first _ ways).
Qed.

(** ** Lemmas: update *)

Lemma choose_way_in c m idx tag : choose_way c m idx tag ∈ ways.
Proof.
  unfold choose_way. repeat case_match;
    try (by match goal with H : find_first _ _ = Some _ |- _ =>
           apply find_first_Some in H as [? _] end).
  apply elem_of_ways. lia.
Qed.
#[local] Hint Resolve choose_way_in : nvm.

(** A way that already holds the tag is the one chosen. *)
Lemma choose_way_hit c idx tag i : 0 <= idx < XCACHE_LINES → cache_ok c →
  i ∈ ways → way_hit c (aget (cache_meta c) idx) idx tag i = true →
  choose_way c (aget (cache_meta c) idx) idx tag = i.
Proof.
  intros Hidx Hok Hi Hh. unfold choose_way.
  rewrite (find_first_unique _ _ i Hi Hh); [done|].
  intros j Hj Hhj. by eapply (tags_distinct _ _ (Hok _ Hidx)).
Qed.

Lemma meta_store_bit m aux i k : i ∈ ways → 0 <= aux < 4 → 0 <= k < 24 →
  Z.testbit (meta_store m aux i) k =
    if (3 * i <=? k) && (k <? 3 * i + 2) then Z.testbit aux (k - 3 * i)
    else Z.testbit m k.
Proof.
  intros Hi%elem_of_ways Ha Hk. unfold meta_store, AUX_MASK, AUX_SHIFT.
  rewrite mru_reset_low, META_MRU_shift, !Z.lor_spec, Z.land_spec, not32_bit,
    testbit_u32, !testbit_shl, testbit_pow2 by lia.
  change 3 with (Z.ones 2) at 2. replace (i * 3) with (3 * i) by lia.
  replace (k <? 32) with true by lia. replace (k =? 24 + i) with false by lia.
  rewrite orb_false_r. simpl. destruct (Z.leb_spec (3 * i) k); simpl.
  - destruct (Z.ltb_spec k (3 * i + 2)).
    + by rewrite Z.ones_spec_low, andb_false_r by lia.
    + rewrite Z.ones_spec_high, (testbit_above aux 2) by lia.
      by rewrite andb_true_r, orb_false_r.
  - by rewrite andb_true_r, orb_false_r.
Qed.

Lemma meta_store_valid m aux i j : i ∈ ways → j ∈ ways → 0 <= aux < 4 →
  Z.testbit (meta_store m aux i) (3 * j) =
    if decide (j = i) then Z.testbit aux 0 else Z.testbit m (3 * j).
Proof.
  intros Hi Hj Ha. assert (Hj' := Hj). assert (Hi' := Hi).
  apply elem_of_ways in Hj', Hi'. rewrite meta_store_bit by (done || lia).
  case_decide as E.
  - rewrite E. replace (3 * i - 3 * i) with 0 by lia. bool_cases; done.
  - bool_cases; done.
Qed.

Lemma meta_store_get m aux i : i ∈ ways → 0 <= aux < 4 →
  AUX_GET (meta_store m aux i) i = aux.
Proof.
  intros Hi Ha. assert (Hi' := Hi). apply elem_of_ways in Hi'.
  apply Z.bits_inj'. intros k Hk. rewrite AUX_GET_bit by lia.
  destruct (Z.ltb_spec k 2); simpl.
  - rewrite meta_store_bit by (done || lia).
    replace (3 * i + k - 3 * i) with k by lia. bool_cases; done.
  - symmetry. apply (testbit_above aux 2); lia.
Qed.

Lemma meta_store_get_ne m aux i j : i ∈ ways → j ∈ ways → j ≠ i → 0 <= aux < 4 →
  AUX_GET (meta_store m aux i) j = AUX_GET m j.
Proof.
  intros Hi Hj Hne Ha. assert (Hi' := Hi). assert (Hj' := Hj).
  apply elem_of_ways in Hi', Hj'.
  apply Z.bits_inj'. intros k Hk. rewrite !AUX_GET_bit by lia.
  destruct (Z.ltb_spec k 2); simpl; [|done].
  rewrite meta_store_bit by (done || lia). bool_cases; done.
Qed.

Lemma meta_store_width m aux i : i ∈ ways → 0 <= m < 2 ^ 32 →
  0 <= meta_store m aux i < 2 ^ 32.
Proof.
  intros Hi Hm. unfold meta_store. apply mru_reset_width; [done|].
  apply mru_set_width; [done|].
  assert (0 <= Z.lor (Z.land m (not32 (Z.shiftl AUX_MASK (i * AUX_SHIFT))))
                (u32 (Z.shiftl aux (i * AUX_SHIFT)))) as H.
  { apply Z.lor_nonneg. split; [apply Z.land_nonneg; lia|].
    apply u32_range. }
  split; [done|]. apply range_of_bits; [done|lia|]. intros k Hk.
  rewrite Z.lor_spec, Z.land_spec, (testbit_above m 32), testbit_u32 by lia.
  by replace (k <? 32) with false by lia.
Qed.

(** The state an update leaves. *)
Definition store (c : cache) (idx tag plba aux i : Z) : cache :=
  Cache (aset (cache_tag c) (ci_of idx i) tag)
        (aset (cache_plba c) (ci_of idx i) plba)
        (aset (cache_meta c) idx (meta_store (aget (cache_meta c) idx) aux i)).

Lemma lba_update_eq c vlba plba aux :
  lba_update c vlba plba aux =
    (u64 (plba + off_of vlba),
     store c (idx_of vlba) (tag_of vlba) plba aux
       (choose_way c (aget (cache_meta c) (idx_of vlba)) (idx_of vlba)
          (tag_of vlba))).
Proof.
  unfold lba_update, store, idx_of. rewrite lookup_meta. cbv zeta.
  pose proof (idx_range (vblk_of vlba)).
  rewrite !update_ci, update_line by (done || apply choose_way_in). done.
Qed.

Section store.
Context (c : cache) (idx tag plba aux i : Z).
Context (Hidx : 0 <= idx < XCACHE_LINES) (Hi : i ∈ ways) (Haux : 0 <= aux < 4).
Let c' := store c idx tag plba aux i.

Lemma store_meta : aget (cache_meta c') idx
  = meta_store (aget (cache_meta c) idx) aux i.
Proof. apply aget_aset_eq. Qed.

Lemma store_tag j : j ∈ ways → aget (cache_tag c') (ci_of idx j) =
  if decide (j = i) then tag else aget (cache_tag c) (ci_of idx j).
Proof.
  intros Hj. unfold c', store; simpl. rewrite aget_aset.
  repeat case_decide; subst; try done.
  edestruct (ci_of_inj idx i idx j); try done; congruence.
Qed.

Lemma store_plba j : j ∈ ways → aget (cache_plba c') (ci_of idx j) =
  if decide (j = i) then plba else aget (cache_plba c) (ci_of idx j).
Proof.
  intros Hj. unfold c', store; simpl. rewrite aget_aset.
  repeat case_decide; subst; try done.
  edestruct (ci_of_inj idx i idx j); try done; congruence.
Qed.

(** After the store way [i] holds the tag; the others are as before. *)
Lemma store_hit t j : j ∈ ways →
  way_hit c' (aget (cache_meta c') idx) idx t j =
    if decide (j = i) then Z.testbit aux 0 && (tag =? t)
    else way_hit c (aget (cache_meta c) idx) idx t j.
Proof.
  intros Hj. rewrite !way_hit_eq, store_meta, store_tag, meta_store_valid by done.
  by case_decide.
Qed.

Lemma store_other_set idx' j : 0 <= idx' < XCACHE_LINES → idx' ≠ idx → j ∈ ways →
  aget (cache_tag c') (ci_of idx' j) = aget (cache_tag c) (ci_of idx' j) ∧
  aget (cache_plba c') (ci_of idx' j) = aget (cache_plba c) (ci_of idx' j) ∧
  aget (cache_meta c') idx' = aget (cache_meta c) idx'.
Proof.
  intros Hidx' Hne Hj. unfold c', store; simpl.
  rewrite !aget_aset_ne; [done..| |]; try congruence;
    intros E; edestruct (ci_of_inj idx i idx' j); done.
Qed.
End store.

Section update.
Context (c : cache) (vlba plba aux : Z).
Context (Hok : cache_ok c) (Haux : 0 <= aux < 4) (Hvalid : Z.testbit aux 0 = true).
Let idx := idx_of vlba.
Let tag := tag_of vlba.
Let i := choose_way c (aget (cache_meta c) idx) idx tag.
Let c' := (lba_update c vlba plba aux).2.

Lemma upd_idx : 0 <= idx < XCACHE_LINES.
Proof. apply idx_range. Qed.
Lemma upd_way : i ∈ ways.
Proof. apply choose_way_in. Qed.
#[local] Hint Resolve upd_idx upd_way : core.

Lemma upd_state : c' = store c idx tag plba aux i.
Proof. unfold c'. by rewrite lba_update_eq. Qed.

(** Only way [i] can hold the tag before the update. *)
Lemma upd_only j : j ∈ ways →
  way_hit c (aget (cache_meta c) idx) idx tag j = true → j = i.
Proof. intros Hj Hh. unfold i. by rewrite (choose_way_hit _ _ _ j). Qed.

Lemma lba_update_ok : cache_ok c'.
Proof.
  rewrite upd_state. intros idx' Hidx'. destruct (decide (idx' = idx)) as [->|Hne].
  - destruct (Hok idx upd_idx) as [Hw Hd Hf]. split.
    + rewrite store_meta. by apply meta_store_width.
    + intros j k t Hj Hk. rewrite !store_hit by auto.
      repeat case_decide; subst; try done; [| |by apply Hd].
      * intros [? ?]%andb_prop Hh; to_prop; subst. symmetry. by apply upd_only.
      * intros Hh [? ?]%andb_prop; to_prop; subst. by apply upd_only.
    + unfold mru. rewrite store_meta. by apply mru_reset_free.
  - apply (set_ok_ext c); [done| | |by apply Hok].
    + intros j Hj. by apply store_other_set.
    + apply (store_other_set _ _ _ _ _ _ upd_idx upd_way _ 0); [done..|].
      apply elem_of_ways. lia.
Qed.

Lemma lba_update_view_self : cache_view c' (vblk_of vlba) = Some (plba, aux).
Proof.
  unfold cache_view. change (vblk_of vlba mod XCACHE_LINES) with idx.
  change (vblk_of vlba / XCACHE_LINES) with tag. rewrite upd_state.
  rewrite (find_first_unique _ _ i); [| auto | |];
    cbv [fmap option_fmap option_map].
  - rewrite store_meta, store_plba, meta_store_get by auto. by case_decide.
  - rewrite store_hit by auto. case_decide; [|done].
    by rewrite Hvalid, Z.eqb_refl.
  - intros j Hj. rewrite store_hit by auto. case_decide; [done|].
    by apply upd_only.
Qed.

(** The cluster that loses its place: it shares the set and its tag is in
    the way being overwritten. *)
Definition evicted (w : Z) : bool :=
  (w mod XCACHE_LINES =? idx) &&
  way_hit c (aget (cache_meta c) idx) idx (w / XCACHE_LINES) i.

Lemma lba_update_view_other w : w ≠ vblk_of vlba →
  cache_view c' w = if evicted w then None else cache_view c w.
Proof.
  intros Hw. rewrite upd_state. unfold evicted.
  destruct (Z.eqb_spec (w mod XCACHE_LINES) idx) as [Hs|Hs]; simpl.
  - assert (w / XCACHE_LINES ≠ tag) as Ht.
    { intros Ht. apply Hw. unfold idx, tag, idx_of, tag_of in *.
      rewrite (Z_div_mod_eq_full w XCACHE_LINES), Hs, Ht.
      symmetry. apply Z_div_mod_eq_full. }
    unfold cache_view. rewrite Hs. set (t := w / XCACHE_LINES) in *.
    assert (∀ j, j ∈ ways → way_hit (store c idx tag plba aux i)
        (aget (cache_meta (store c idx tag plba aux i)) idx) idx t j =
      negb (bool_decide (j = i)) && way_hit c (aget (cache_meta c) idx) idx t j)
      as Hh.
    { intros j Hj. rewrite store_hit by auto. case_decide; simpl.
      - rewrite (proj2 (Z.eqb_neq tag t)) by done.
        by rewrite andb_false_r, bool_decide_true by done.
      - by rewrite bool_decide_false by done. }
    destruct (way_hit c _ idx t i) eqn:Hi.
    + rewrite (proj2 (find_first_None _ _)); [done|].
      intros j Hj. rewrite Hh by done. case_bool_decide as E; [done|].
      destruct (way_hit c _ idx t j) eqn:Hj'; [|done]. destruct E.
      by apply (tags_distinct _ _ (Hok _ upd_idx) j i t).
    + rewrite (find_first_ext _ (way_hit c (aget (cache_meta c) idx) idx t)).
      * destruct (find_first _ ways) as [j|] eqn:F;
          cbv [fmap option_fmap option_map]; [|done].
        apply find_first_Some in F as [Hj Hjh].
        assert (j ≠ i) by congruence.
        rewrite store_meta, store_plba, meta_store_get_ne by auto.
        by rewrite decide_False by done.
      * intros j Hj. rewrite Hh by done. case_bool_decide; subst; [|done].
        by rewrite Hi.
  - apply cache_view_ext.
    + intros j Hj. edestruct (store_other_set c idx tag plba aux i upd_idx upd_way
        (w mod XCACHE_LINES) j) as (? & ? & ?); auto using idx_range.
    + edestruct (store_other_set c idx tag plba aux i upd_idx upd_way
        (w mod XCACHE_LINES) 0) as (? & ? & E); auto using idx_range.
      { apply elem_of_ways. lia. }
      by rewrite E.
Qed.
End update.

(** ** Lemmas: flush *)

Lemma flush_way_bit c idx tag m i k : 0 <= idx < XCACHE_LINES → i ∈ ways →
  0 <= k < 32 →
  Z.testbit (flush_way c idx tag m i) k =
    Z.testbit m k && negb ((k =? 3 * i) && way_hit c m idx tag i).
Proof.
  intros Hidx Hi Hk. assert (Hi' := Hi). apply elem_of_ways in Hi'.
  unfold flush_way, AUXBITS_VALID, AUX_SHIFT. destruct (way_hit c m idx tag i).
  - rewrite Z.land_spec, not32_bit, shiftl_1, testbit_pow2 by lia.
    replace (k <? 32) with true by lia. rewrite andb_true_r. simpl.
    by replace (i * 3) with (3 * i) by lia.
  - by rewrite andb_false_r, andb_true_r.
Qed.

(** The words reached by the inner loop: only valid bits of hit ways drop. *)
Lemma flush_fold_bit c idx tag l m k :
  0 <= idx < XCACHE_LINES → NoDup l → (∀ i, i ∈ l → i ∈ ways) → 0 <= k < 32 →
  Z.testbit (fold_left (flush_way c idx tag) l m) k =
    Z.testbit m k && negb (existsb (λ i, (k =? 3 * i) && way_hit c m idx tag i) l).
Proof.
  intros Hidx. revert m. induction l as [|i l IH]; intros m Hnd Hl Hk; simpl.
  { by rewrite andb_true_r. }
  apply NoDup_cons in Hnd as [Hni Hnd].
  rewrite IH, flush_way_bit by (done || set_solver).
  rewrite negb_orb, andb_assoc. f_equal. f_equal.
  assert (∀ j, j ∈ l → way_hit c (flush_way c idx tag m i) idx tag j
                       = way_hit c m idx tag j) as E.
  { intros j Hj. assert (j ∈ ways) as Hj' by set_solver.
    assert (j ≠ i) by congruence. rewrite !way_hit_eq by done.
    assert (i ∈ ways) as Hi by set_solver.
    rewrite flush_way_bit by (done || apply elem_of_ways in Hj'; lia).
    by rewrite (proj2 (Z.eqb_neq (3 * j) (3 * i))), andb_true_r by lia. }
  clear -E. induction l as [|j l IH]; simpl; [done|].
  rewrite E, IH by set_solver. done.
Qed.

Definition flushed (c : cache) (idx tag : Z) : Z :=
  fold_left (flush_way c idx tag) ways (aget (cache_meta c) idx).

Lemma ways_NoDup : NoDup ways.
Proof. by apply (bool_decide_unpack _). Qed.

Lemma existsb_way (p : Z → bool) j : j ∈ ways →
  existsb (λ i, (3 * j =? 3 * i) && p i) ways = p j.
Proof.
  intros Hj%elem_of_ways. simpl.
  assert (j = 0 ∨ j = 1 ∨ j = 2 ∨ j = 3) as [->|[->|[->| ->]]] by lia;
    simpl; by rewrite ?orb_false_r.
Qed.

Lemma existsb_no_way (p : Z → bool) k : (∀ i, i ∈ ways → k ≠ 3 * i) →
  existsb (λ i, (k =? 3 * i) && p i) ways = false.
Proof.
  intros H. apply not_true_iff_false. intros [i [Hi E]]%existsb_exists.
  apply andb_prop in E as [E _]. to_prop. apply (H i); [|done].
  by apply list_elem_of_In.
Qed.

Section flush.
Context (c : cache) (idx tag : Z).
Context (Hidx : 0 <= idx < XCACHE_LINES) (Hok : cache_ok c).
Let m := aget (cache_meta c) idx.

Lemma flushed_valid j : j ∈ ways → Z.testbit (flushed c idx tag) (3 * j)
  = Z.testbit m (3 * j) && negb (way_hit c m idx tag j).
Proof.
  intros Hj. assert (Hj' := Hj). apply elem_of_ways in Hj'.
  unfold flushed. rewrite flush_fold_bit; [|done|apply ways_NoDup|done|lia].
  by rewrite existsb_way.
Qed.

Lemma flushed_bit k : (∀ i, i ∈ ways → k ≠ 3 * i) → 0 <= k < 32 →
  Z.testbit (flushed c idx tag) k = Z.testbit m k.
Proof.
  intros Hk ?. unfold flushed.
  rewrite flush_fold_bit; [|done|apply ways_NoDup|done|lia].
  rewrite existsb_no_way by done. apply andb_true_r.
Qed.

Lemma flushed_width : 0 <= flushed c idx tag < 2 ^ 32.
Proof.
  pose proof (meta_width _ _ (Hok _ Hidx)) as Hm. unfold flushed.
  assert (∀ l x, 0 <= x < 2 ^ 32 →
    0 <= fold_left (flush_way c idx tag) l x < 2 ^ 32) as H; [|by apply H].
  induction l as [|i l IH]; intros x Hx; simpl; [done|].
  apply IH. unfold flush_way. case_match; [|done].
  assert (0 <= Z.land x (not32 (Z.shiftl AUXBITS_VALID (i * AUX_SHIFT)))) as H0
    by (apply Z.land_nonneg; lia).
  split; [done|]. apply range_of_bits; [done|lia|]. intros k Hk.
  by rewrite Z.land_spec, (testbit_above x 32) by lia.
Qed.

Lemma flush_set_eq : flush_set c idx tag = set_meta c idx (flushed c idx tag).
Proof.
  unfold flush_set. replace idx with (idx mod XCACHE_LINES) at 1
    by (apply Z.mod_small; done).
  rewrite lookup_meta. by rewrite Z.mod_small by done.
Qed.

Lemma flush_set_ok : cache_ok (flush_set c idx tag).
Proof.
  rewrite flush_set_eq. apply set_meta_ok; [done|done| | |].
  - intros i Hi. rewrite flushed_valid by done. by intros [? _]%andb_prop.
  - apply flushed_width.
  - destruct (mru_free _ _ (Hok _ Hidx)) as (j & Hj & Hf). exists j.
    split; [done|]. apply elem_of_ways in Hj.
    rewrite flushed_bit; [done| |lia]. intros i Hi%elem_of_ways. lia.
Qed.

Lemma flush_set_hit t j : j ∈ ways →
  way_hit (flush_set c idx tag) (aget (cache_meta (flush_set c idx tag)) idx) idx t j
  = negb (tag =? t) && way_hit c m idx t j.
Proof.
  intros Hj. rewrite flush_set_eq. unfold set_meta; simpl.
  rewrite update_line, aget_aset_eq by done.
  rewrite !way_hit_eq by done; simpl. rewrite flushed_valid, way_hit_eq by done.
  destruct (Z.testbit m (3 * j)); simpl; [|by rewrite andb_false_r].
  destruct (Z.eqb_spec (aget (cache_tag c) (ci_of idx j)) tag),
    (Z.eqb_spec (aget (cache_tag c) (ci_of idx j)) t), (Z.eqb_spec tag t);
    simpl; congruence.
Qed.

(** Exactly the cluster with this set and tag loses its entry. *)
Lemma flush_set_view w :
  cache_view (flush_set c idx tag) w =
    if (w mod XCACHE_LINES =? idx) && (w / XCACHE_LINES =? tag)
    then None else cache_view c w.
Proof.
  destruct (Z.eqb_spec (w mod XCACHE_LINES) idx) as [Hs|Hs]; simpl.
  - unfold cache_view. rewrite Hs.
    rewrite (find_first_ext _ (λ j, negb (tag =? w / XCACHE_LINES) &&
      way_hit c m idx (w / XCACHE_LINES) j)) by (intros; by apply flush_set_hit).
    rewrite (Z.eqb_sym tag). destruct (Z.eqb_spec (w / XCACHE_LINES) tag); simpl.
    + done.
    + rewrite (find_first_ext _ (way_hit c m idx (w / XCACHE_LINES))) by done.
      fold m. destruct (find_first _ ways) as [j|] eqn:F;
        cbv [fmap option_fmap option_map]; [|done].
      apply find_first_Some in F as [Hj Hjh].
      assert (way_hit c m idx tag j = false) as Hnt.
      { rewrite way_hit_eq in * by done. apply andb_prop in Hjh as [_ Hjh].
        apply andb_false_iff. right. to_prop. apply Z.eqb_neq. congruence. }
      rewrite flush_set_eq. unfold set_meta; simpl.
      rewrite update_line, aget_aset_eq by done. f_equal. f_equal.
      apply Z.bits_inj'. intros k Hk. assert (Hj' := Hj). apply elem_of_ways in Hj'.
      rewrite !AUX_GET_bit by lia. destruct (Z.ltb_spec k 2); [simpl|done].
      destruct (Z.eqb_spec k 0) as [->|].
      * by rewrite Z.add_0_r, flushed_valid, Hnt, andb_true_r by done.
      * apply flushed_bit; [|lia]. intros i Hi%elem_of_ways. lia.
  - apply cache_view_ext.
    + intros j Hj. by rewrite flush_set_eq.
    + rewrite flush_set_eq. unfold set_meta; simpl.
      by rewrite update_line, aget_aset_ne by done.
Qed.
End flush.

Lemma not_crossing vlba len : 0 <= vlba < 2 ^ 64 → 0 <= len < 2 ^ 16 →
  crossing vlba len = false →
  vlba + len < 2 ^ 64 ∧ vblk_of (vlba + len) = vblk_of vlba ∧
  off_of vlba + len < CLUSTER_LBAS.
Proof.
  unfold crossing, vblk_of, off_of, u64, wrap.
  change CLUSTER_LBAS with 128. intros Hv Hl H. to_prop.
  assert (vlba + len < 2 ^ 64).
  { destruct (Z.lt_ge_cases (vlba + len) (2 ^ 64)) as [|Hge]; [done|].
    rewrite (Zmod_eq_full (vlba + len)) in H by done.
    assert ((vlba + len) / 2 ^ 64 = 1) as E.
    { symmetry. apply (Z.div_unique _ _ 1 (vlba + len - 2 ^ 64)); lia. }
    rewrite E in H. Z.div_mod_to_equations. lia. }
  rewrite Z.mod_small in H by lia. repeat split; [done|done|].
  Z.div_mod_to_equations. lia.
Qed.

Lemma flush_loop_S fuel c tag idx rest :
  flush_loop (S fuel) c tag idx rest =
    if 0 <? rest
    then flush_loop fuel (flush_set c idx tag) tag
           (u32 (idx + 1) mod XCACHE_LINES) (rest - CLUSTER_LBAS)
    else c.
Proof. done. Qed.

Lemma flush_loop_done fuel c tag idx rest :
  rest <= 0 → flush_loop fuel c tag idx rest = c.
Proof.
  intros. destruct fuel; [done|]. rewrite flush_loop_S.
  by replace (0 <? rest) with false by lia.
Qed.

(** More fuel than turns changes nothing. *)
Lemma flush_loop_fuel n m c tag idx rest :
  rest <= CLUSTER_LBAS * Z.of_nat n → (n <= m)%nat →
  flush_loop m c tag idx rest = flush_loop n c tag idx rest.
Proof.
  change CLUSTER_LBAS with 128. revert m c idx rest.
  induction n as [|n IH]; intros m c idx rest Hr Hm.
  - by rewrite !flush_loop_done by lia.
  - destruct m as [|m]; [lia|]. rewrite !flush_loop_S.
    destruct (0 <? rest); [|done].
    apply IH; change CLUSTER_LBAS with 128; lia.
Qed.

(** Within a cluster the loop makes one turn. *)
Lemma lba_flush_eq c vlba len : 0 <= vlba < 2 ^ 64 → 0 <= len < 2 ^ 16 →
  lba_flush_range c vlba len =
    if crossing vlba len then c else flush_set c (idx_of vlba) (tag_of vlba).
Proof.
  intros Hv Hl. unfold lba_flush_range. fold (crossing vlba len).
  destruct (crossing vlba len) eqn:Hx; [done|].
  apply not_crossing in Hx as (_ & _ & Hx); [|done..].
  assert (0 <= off_of vlba < CLUSTER_LBAS) by (by apply Z.mod_pos_bound).
  unfold flush_fuel. rewrite flush_loop_S.
  change CLUSTER_LBAS with 128 in *.
  replace (0 <? len + 1) with true by lia. by rewrite flush_loop_done by lia.
Qed.

Lemma lba_flush_ok c vlba len : 0 <= vlba < 2 ^ 64 → 0 <= len < 2 ^ 16 →
  cache_ok c → cache_ok (lba_flush_range c vlba len).
Proof.
  intros Hv Hl Hok. rewrite lba_flush_eq by done. case_match; [done|].
  apply flush_set_ok; [apply idx_range|done].
Qed.

Lemma vblk_of_split w vlba :
  (w mod XCACHE_LINES =? idx_of vlba) && (w / XCACHE_LINES =? tag_of vlba)
  = bool_decide (w = vblk_of vlba).
Proof.
  unfold idx_of, tag_of. case_bool_decide as E.
  - by rewrite E, !Z.eqb_refl.
  - apply not_true_iff_false. intros [H1 H2]%andb_prop. to_prop.
    apply E. rewrite (Z_div_mod_eq_full w XCACHE_LINES), H1, H2.
    symmetry. apply Z_div_mod_eq_full.
Qed.

Lemma lba_flush_view c vlba len w : 0 <= vlba < 2 ^ 64 → 0 <= len < 2 ^ 16 →
  cache_ok c →
  cache_view (lba_flush_range c vlba len) w =
    if negb (crossing vlba len) && bool_decide (w = vblk_of vlba)
    then None else cache_view c w.
Proof.
  intros Hv Hl Hok. rewrite lba_flush_eq by done.
  destruct (crossing vlba len); simpl; [done|].
  rewrite flush_set_view by (done || apply idx_range).
  by rewrite vblk_of_split.
Qed.

(** ** Lemmas: clearing an auxiliary bit *)


(** ** Lemmas: clearing the writable bit *)

Lemma clear_mask_bit k : 0 <= k < 32 →
  Z.testbit (clear_mask AUXBITS_WRITABLE) k = (24 <=? k) || negb (k mod 3 =? 1).
Proof.
  intros Hk.
  assert (forallb (λ k, Bool.eqb (Z.testbit (clear_mask AUXBITS_WRITABLE) k)
            ((24 <=? k) || negb (k mod 3 =? 1))) (seqZ 0 32) = true) as H
    by (vm_compute; done).
  rewrite forallb_forall in H. apply eqb_prop, H, list_elem_of_In.
  apply elem_of_seqZ. lia.
Qed.

Lemma aget_fmap f (a : arr) i : f 0 = 0 → aget (f <$> a) i = f (aget a i).
Proof.
  intros Hf. unfold aget. rewrite lookup_fmap. by destruct (a !! i).
Qed.

(** The cache after a snapshot command, whichever the helper. *)
Definition cleared (c : cache) : cache :=
  (lba_clear_flag_all Polyfill c AUXBITS_WRITABLE).2.

Lemma lba_clear_flag_all_eq h c :
  lba_clear_flag_all h c AUXBITS_WRITABLE =
    (match h with Polyfill => XCACHE_LINES | Kernel => 0 end, cleared c).
Proof. by destruct h. Qed.

Lemma cleared_meta c idx :
  aget (cache_meta (cleared c)) idx =
    Z.land (aget (cache_meta c) idx) (clear_mask AUXBITS_WRITABLE).
Proof.
  unfold cleared. cbn -[clear_mask]. by rewrite (aget_fmap (λ x, Z.land x _)).
Qed.

Lemma cleared_bit c idx k : 0 <= k < 32 →
  Z.testbit (aget (cache_meta (cleared c)) idx) k =
    Z.testbit (aget (cache_meta c) idx) k && ((24 <=? k) || negb (k mod 3 =? 1)).
Proof. intros. by rewrite cleared_meta, Z.land_spec, clear_mask_bit. Qed.

Lemma cleared_hit c idx tag i : 0 <= idx < XCACHE_LINES → i ∈ ways →
  way_hit (cleared c) (aget (cache_meta (cleared c)) idx) idx tag i
  = way_hit c (aget (cache_meta c) idx) idx tag i.
Proof.
  intros Hidx Hi. assert (Hi' := Hi). apply elem_of_ways in Hi'.
  rewrite !way_hit_eq by done. f_equal. rewrite cleared_bit by lia.
  replace (3 * i mod 3) with 0 by (rewrite Z.mul_comm; symmetry; apply Z.mod_mul; lia).
  by rewrite orb_true_r, andb_true_r.
Qed.

Lemma cleared_ok c : cache_ok c → cache_ok (cleared c).
Proof.
  intros Hok idx Hidx. destruct (Hok _ Hidx) as [Hw Hd (j & Hj & Hf)]. split.
  - rewrite cleared_meta.
    assert (0 <= Z.land (aget (cache_meta c) idx) (clear_mask AUXBITS_WRITABLE))
      by (apply Z.land_nonneg; lia).
    split; [done|]. apply range_of_bits; [done|lia|]. intros k Hk.
    by rewrite Z.land_spec, (testbit_above (aget _ _) 32) by lia.
  - intros i k tag Hi Hk. rewrite !cleared_hit by done. by apply Hd.
  - exists j. split; [done|]. unfold mru in *. apply elem_of_ways in Hj.
    change META_MRU_SHIFT with 24 in *. rewrite cleared_bit, Hf by lia. done.
Qed.

Lemma cleared_view c v :
  cache_view (cleared c) v =
    (λ pa, (pa.1, Z.land pa.2 AUXBITS_VALID)) <$> cache_view c v.
Proof.
  unfold cache_view. pose proof (idx_range v) as Hidx.
  rewrite (find_first_ext _ (way_hit c (aget (cache_meta c) (v mod XCACHE_LINES))
    (v mod XCACHE_LINES) (v / XCACHE_LINES)))
    by (intros; by apply cleared_hit).
  destruct (find_first _ ways) as [i|] eqn:F; [|done].
  apply find_first_Some in F as [Hi%elem_of_ways _].
  cbv [fmap option_fmap option_map fst snd]. f_equal. f_equal.
  apply Z.bits_inj'. intros k Hk. unfold AUXBITS_VALID.
  change 1 with (2 ^ 0). rewrite Z.land_spec, testbit_pow2, !AUX_GET_bit by lia.
  destruct (Z.ltb_spec k 2); [|done]. rewrite cleared_bit by lia.
  assert (k = 0 ∨ k = 1) as [->| ->] by lia; simpl.
  - rewrite Z.add_0_r.
    replace (3 * i mod 3) with 0 by (rewrite Z.mul_comm; symmetry; apply Z.mod_mul; lia).
    by rewrite orb_true_r.
  - replace ((3 * i + 1) mod 3) with 1
      by (rewrite (Z.mul_comm 3), Z.add_comm, Z.mod_add; done).
    by replace (24 <=? 3 * i + 1) with false by lia.
Qed.

Lemma empty_cache_ok : cache_ok empty_cache.
Proof.
  intros idx Hidx. split.
  - done.
  - intros i j tag Hi Hj. rewrite way_hit_eq by done.
    change (aget (cache_meta empty_cache) idx) with 0. by rewrite Z.bits_0.
  - exists 0. split; [apply elem_of_ways; lia|done].
Qed.

Lemma empty_cache_view v : cache_view empty_cache v = None.
Proof.
  unfold cache_view. rewrite (proj2 (find_first_None _ _)); [done|].
  intros i Hi. rewrite way_hit_eq by (done || apply idx_range).
  change (aget (cache_meta empty_cache) _) with 0. by rewrite Z.bits_0.
Qed.

(** ** Lemmas: refinement, operation by operation *)

Lemma evicted_hit c vlba w : cache_ok c → w ≠ vblk_of vlba →
  is_Some (cache_view c (vblk_of vlba)) → evicted c vlba w = false.
Proof.
  intros Hok Hw [x Hx]. unfold evicted.
  destruct (Z.eqb_spec (w mod XCACHE_LINES) (idx_of vlba)) as [Hs|]; [|done].
  simpl. unfold cache_view in Hx.
  change (vblk_of vlba mod XCACHE_LINES) with (idx_of vlba) in Hx.
  change (vblk_of vlba / XCACHE_LINES) with (tag_of vlba) in Hx.
  destruct (find_first _ ways) as [i|] eqn:F; [|done].
  apply find_first_Some in F as [Hi Hh].
  assert (0 <= idx_of vlba < XCACHE_LINES) as Hidx by apply idx_range.
  rewrite (choose_way_hit _ _ _ i) by done.
  rewrite way_hit_eq in Hh |- * by done. apply andb_prop in Hh as [-> Hh].
  to_prop. apply Z.eqb_neq. rewrite Hh. intros Ht. apply Hw.
  rewrite (Z_div_mod_eq_full w XCACHE_LINES), Hs, <- Ht.
  symmetry. apply Z_div_mod_eq_full.
Qed.

Lemma lba_update_installs c vlba plba aux :
  cache_ok c → 0 <= aux < 4 → Z.testbit aux 0 = true →
  installs (cache_view c) (vblk_of vlba) (plba, aux)
    (cache_view (lba_update c vlba plba aux).2).
Proof.
  intros Hok Ha Hv. split.
  - by apply lba_update_view_self.
  - set (i := choose_way c (aget (cache_meta c) (idx_of vlba)) (idx_of vlba)
      (tag_of vlba)).
    assert (i ∈ ways) by apply choose_way_in.
    assert (0 <= idx_of vlba < XCACHE_LINES) as Hidx by apply idx_range.
    destruct (Z.testbit (aget (cache_meta c) (idx_of vlba)) (3 * i)) eqn:Hb.
    + exists (XCACHE_LINES * aget (cache_tag c) (ci_of (idx_of vlba) i) + idx_of vlba).
      intros w Hw. rewrite lba_update_view_other by done. unfold evicted. fold i.
      rewrite way_hit_eq, Hb by done. rewrite andb_true_l.
      case_decide as E.
      * rewrite E, Z.mul_comm, Z.add_comm, Z.mod_add, Z.div_add by done.
        by rewrite Z.mod_small, Z.div_small, !Z.eqb_refl by done.
      * case_match eqn:E'; [|done]. exfalso. to_prop. apply E.
        rewrite (Z_div_mod_eq_full w XCACHE_LINES). congruence.
    + exists (vblk_of vlba). intros w Hw.
      rewrite lba_update_view_other, decide_False by done.
      unfold evicted. fold i. rewrite way_hit_eq, Hb by done.
      by rewrite andb_false_l, andb_false_r.
  - intros Hs w Hw. rewrite lba_update_view_other by done.
    by rewrite evicted_hit.
Qed.

Lemma installs_plba_ok c c' v p a :
  plba_ok c → 0 <= p < 2 ^ 55 → installs (cache_view c) v (p, a) (cache_view c') →
  plba_ok c'.
Proof.
  intros Hp Hr [Hs [victim Ho] _] w q b Hq. destruct (decide (w = v)) as [->|Hne].
  - rewrite Hs in Hq. by injection Hq as <- <-.
  - rewrite Ho in Hq by done. case_decide; [done|]. by eapply Hp.
Qed.

Lemma same_plba_ok c c' :
  plba_ok c → same_view (cache_view c) (cache_view c') → plba_ok c'.
Proof. intros Hp Hs w q b. rewrite Hs. apply Hp. Qed.

Lemma drops_plba_ok c c' v :
  plba_ok c → drops (cache_view c) v (cache_view c') → plba_ok c'.
Proof. intros Hp Hs w q b. rewrite Hs. case_decide; [done|]. apply Hp. Qed.

Lemma downgrades_plba_ok c c' :
  plba_ok c → downgrades (cache_view c) (cache_view c') → plba_ok c'.
Proof.
  intros Hp Hs w q b. rewrite Hs.
  destruct (cache_view c w) as [[p a]|] eqn:E; simpl; [|done].
  intros [= <- <-]. by eapply Hp.
Qed.

Lemma lba_flush_drops c vlba len : cache_ok c →
  0 <= vlba < 2 ^ 64 → 0 <= len < 2 ^ 16 →
  if crossing vlba len then same_view (cache_view c) (cache_view (lba_flush_range c vlba len))
  else drops (cache_view c) (vblk_of vlba) (cache_view (lba_flush_range c vlba len)).
Proof.
  intros Hok Hv Hl. pose proof (lba_flush_view c vlba len) as H.
  destruct (crossing vlba len); intros w; rewrite H by done; simpl; [done|].
  by case_bool_decide; case_decide.
Qed.

(** A lookup in terms of the map: the miss value is never an address. *)
Lemma lba_lookup_usable c cmd : cache_inv c → command_ok cmd →
  let '(val, aux, _) := lba_lookup c (slba cmd) (length0 cmd) in
  if negb (val =? U64_MAX) && permits cmd aux
  then usable (cache_view c) cmd = Some val
  else usable (cache_view c) cmd = None.
Proof.
  intros [Hok Hp] Hc. unfold usable.
  destruct (crossing (slba cmd) (length0 cmd)) eqn:Hx.
  { by rewrite lba_lookup_crossing. }
  pose proof (lba_lookup_val c (slba cmd) (length0 cmd) Hok Hx) as Hval.
  destruct (lba_lookup c (slba cmd) (length0 cmd)) as [[val aux] c'].
  simpl in Hval. destruct (cache_view c (vblk_of (slba cmd))) as [[p a]|] eqn:Hv.
  - injection Hval as -> ->. apply Hp in Hv.
    assert (0 <= off_of (slba cmd) < 128) by (by apply Z.mod_pos_bound).
    rewrite u64_small by lia. unfold U64_MAX.
    replace (p + off_of (slba cmd) =? 2 ^ 64 - 1) with false by lia. simpl.
    by destruct (permits cmd a).
  - injection Hval as -> ->. done.
Qed.

Lemma nm_do_rw_refines h c ctx : cache_inv c → ctx_ok ctx →
  truthy (Z.land (flags (ctx_cmd ctx)) NVME_CMD_SGL_ALL) = false →
  is_rw (ctx_cmd ctx) = true → current_hook ctx = NMBPF_HOOK_VSQ →
  let '(r, ctx', c') := nm_do_rw c ctx in
  cache_inv c' ∧ spec_bpf h (cache_view c) ctx r ctx' (cache_view c').
Proof.
  intros [Hok Hp] [Hc _ _] _ Hrw Hh. unfold nm_do_rw.
  pose proof (lba_lookup_usable c (ctx_cmd ctx) (conj Hok Hp) Hc) as Hu.
  pose proof (lba_lookup_ok c (slba (ctx_cmd ctx)) (length0 (ctx_cmd ctx)) Hok) as Hok'.
  pose proof (lba_lookup_view c (slba (ctx_cmd ctx)) (length0 (ctx_cmd ctx))) as Hv.
  destruct (lba_lookup c _ _) as [[val aux] c1]. simpl in *. fold (permits (ctx_cmd ctx) aux).
  assert (same_view (cache_view c) (cache_view c1)) as Hs by (intros w; by apply Hv).
  assert (plba_ok c1) as Hp1 by by eapply same_plba_ok.
  destruct (negb (val =? U64_MAX) && permits (ctx_cmd ctx) aux) eqn:E.
  - split; [done|]. by eapply spec_hit.
  - pose proof (slba_range _ Hc). pose proof (length0_range (ctx_cmd ctx)).
    destruct (Z.eqb_spec (opcode (ctx_cmd ctx)) nvme_cmd_read); simpl.
    + split; [done|]. by eapply spec_miss_read.
    + pose proof (lba_flush_drops c1 (slba (ctx_cmd ctx)) (length0 (ctx_cmd ctx)) Hok' H H0) as Hd.
      split; [split; [by apply lba_flush_ok|]|eapply spec_miss_write; try done].
      * destruct (crossing _ _); [by eapply same_plba_ok|by eapply drops_plba_ok].
      * destruct (crossing _ _); intros w; by rewrite Hd, !Hs.
Qed.

Lemma response_plba_range ctx : ctx_ok ctx → 0 <= response_plba (ctx_aux ctx) < 2 ^ 55.
Proof.
  intros [_ H1 H2]. unfold response_plba.
  change CLUSTER_SIZE with 65536. change CLUSTER_LBAS with 128.
  set (v := Z.lor _ _).
  assert (0 <= v < 2 ^ 64) as Hv.
  { unfold v. assert (0 <= Z.shiftl (aux2 (ctx_aux ctx)) 32)
      by (apply Z.shiftl_nonneg; lia).
    assert (0 <= Z.lor (aux1 (ctx_aux ctx)) (Z.shiftl (aux2 (ctx_aux ctx)) 32))
      by (apply Z.lor_nonneg; lia).
    split; [done|]. apply range_of_bits; [done|lia|]. intros k Hk.
    rewrite Z.lor_spec, testbit_shl by lia.
    rewrite (testbit_above (aux1 _) 32), (testbit_above (aux2 _) 32) by lia.
    by rewrite andb_false_r. }
  clearbody v. Z.div_mod_to_equations. lia.
Qed.

Lemma nm_on_rw_respond_refines h c ctx : cache_inv c → ctx_ok ctx →
  truthy (Z.land (flags (ctx_cmd ctx)) NVME_CMD_SGL_ALL) = false →
  is_rw (ctx_cmd ctx) = true → current_hook ctx = NMBPF_HOOK_NFD_WRITE →
  let '(r, ctx', c') := nm_on_rw_respond c ctx in
  cache_inv c' ∧ spec_bpf h (cache_view c) ctx r ctx' (cache_view c').
Proof.
  intros [Hok Hp] Hctx _ Hrw Hh. pose proof (response_plba_range _ Hctx) as Hr.
  pose proof (ctx_cmd_ok _ Hctx) as Hc. pose proof (slba_range _ Hc) as Hsl.
  pose proof (length0_range (ctx_cmd ctx)) as Hlen.
  unfold nm_on_rw_respond. fold (response_plba (ctx_aux ctx)).
  destruct (truthy (Z.land (aux0 (ctx_aux ctx)) AUXBITS_VALID)) eqn:Hvalid.
  - rewrite u64_small by lia. set (a := Z.land (aux0 (ctx_aux ctx)) AUX_MASK).
    assert (0 <= a < 4) as Ha.
    { unfold a, AUX_MASK. change 3 with (Z.ones 2). rewrite Z.land_ones by lia.
      by apply Z.mod_pos_bound. }
    assert (Z.testbit a 0 = true) as Hb.
    { unfold a. rewrite Z.land_spec. change (AUXBITS_VALID) with (2 ^ 0) in Hvalid.
      rewrite truthy_land_pow2 in Hvalid by lia. by rewrite Hvalid. }
    pose proof (lba_update_ok c (slba (ctx_cmd ctx))
      (response_plba (ctx_aux ctx)) a Hok Ha) as Hok'.
    pose proof (lba_update_installs c (slba (ctx_cmd ctx))
      (response_plba (ctx_aux ctx)) a Hok Ha Hb) as Hi.
    assert ((lba_update c (slba (ctx_cmd ctx)) (response_plba (ctx_aux ctx)) a).1 =
      response_plba (ctx_aux ctx) + off_of (slba (ctx_cmd ctx))) as Hval.
    { rewrite lba_update_eq. simpl. apply u64_small.
      assert (0 <= off_of (slba (ctx_cmd ctx)) < 128) by (by apply Z.mod_pos_bound).
      lia. }
    destruct (lba_update _ _ _ a) as [plba c']. simpl in *. subst plba.
    assert (0 <= off_of (slba (ctx_cmd ctx)) < 128) by (by apply Z.mod_pos_bound).
    unfold U64_MAX. replace (_ =? _) with false by lia.
    assert (plba_ok c') as Hp' by by eapply installs_plba_ok.
    destruct (truthy (Z.land (aux0 (ctx_aux ctx)) AUXCMD_FORWARD)) eqn:Hf;
      (split; [done|]); (eapply spec_install; [done|done|done|done|by rewrite Hf]).
  - pose proof (lba_flush_drops c (slba (ctx_cmd ctx)) (length0 (ctx_cmd ctx)) Hok) as Hd.
    destruct (truthy (Z.land (aux0 (ctx_aux ctx)) AUXCMD_KEEP)) eqn:Hk; simpl.
    + split; [done|]. eapply spec_respond; try done. by rewrite Hk.
    + specialize (Hd Hsl Hlen).
      split; [split; [by apply lba_flush_ok|]|].
      * destruct (crossing _ _); [by eapply same_plba_ok|by eapply drops_plba_ok].
      * eapply spec_respond; try done. rewrite Hk. simpl. done.
Qed.

(** Every request, on every branch of the classifier. *)
Lemma nvme_run_bpf_step h c ctx : cache_inv c → ctx_ok ctx →
  let '(r, ctx', c') := nvme_run_bpf h c ctx in
  cache_inv c' ∧ spec_bpf h (cache_view c) ctx r ctx' (cache_view c').
Proof.
  intros [Hok Hp] Hctx. unfold nvme_run_bpf.
  destruct (truthy (Z.land (flags _) NVME_CMD_SGL_ALL)) eqn:Hsgl.
  { split; [done|]. by apply spec_sgl. }
  fold (is_rw (ctx_cmd ctx)). destruct (is_rw (ctx_cmd ctx)) eqn:Hrw.
  - destruct (Z.eqb_spec (current_hook ctx) NMBPF_HOOK_VSQ).
    { by apply nm_do_rw_refines. }
    destruct (Z.eqb_spec (current_hook ctx) NMBPF_HOOK_NFD_WRITE).
    { by apply nm_on_rw_respond_refines. }
    split; [done|]. apply spec_passthrough; [by right| |done].
    intros E. unfold is_rw in Hrw. by rewrite E in Hrw.
  - destruct (Z.eqb_spec (opcode (ctx_cmd ctx)) nvme_cmd_snapshot).
    + pose proof (cleared_ok _ Hok) as Hok'.
      assert (downgrades (cache_view c) (cache_view (cleared c))) as Hd
        by (intros w; apply cleared_view).
      assert (cache_inv (cleared c)) by (split; [done|]; by eapply downgrades_plba_ok).
      rewrite lba_clear_flag_all_eq.
      destruct h; (split; [done|]);
        [by apply (spec_snapshot Polyfill)|by apply (spec_snapshot Kernel)].
    + split; [done|]. apply spec_passthrough; [by left|done|done].
Qed.

Lemma empty_cache_inv : cache_inv empty_cache.
Proof.
  split; [apply empty_cache_ok|]. intros v p a. by rewrite empty_cache_view.
Qed.

Lemma bpf_reachable_inv h c : bpf_reachable h c → cache_inv c.
Proof.
  induction 1 as [|c ctx _ IH Hctx]; [apply empty_cache_inv|].
  pose proof (nvme_run_bpf_step h c ctx IH Hctx) as H.
  destruct (nvme_run_bpf h c ctx) as [[? ?] ?]. by destruct H.
Qed.
