(* ===== verification/LbaCacheThms.v ===== *)
(** * Properties of the request classifier and its cache

    The theorems about [LbaCache]: the classifier implements the lossy-map
    specification, its replacement policy protects what was just used, a
    snapshot revokes write permission everywhere, and a request that spans two
    clusters invalidates neither. *)
From S2P Require Import Prelude Proto LbaCache.

(** ** Sequences of requests *)

(** The cache after a sequence of requests and responses. *)
Definition run_bpf_all (h : helper) (c : cache) (l : list bpf_io_ctx) : cache :=
  fold_left (λ c ctx, (nvme_run_bpf h c ctx).2) l c.

(** The context carries a response that installs a writable entry. *)
Definition installs_writable (ctx : bpf_io_ctx) : bool :=
  (current_hook ctx =? NMBPF_HOOK_NFD_WRITE) &&
  truthy (Z.land (aux0 (ctx_aux ctx)) AUXBITS_VALID) &&
  truthy (Z.land (aux0 (ctx_aux ctx)) AUXBITS_WRITABLE).

Definition no_writable (V : view_t) : Prop :=
  ∀ v p a, V v = Some (p, a) → truthy (Z.land a AUXBITS_WRITABLE) = false.

Lemma land_mask_writable x :
  truthy (Z.land (Z.land x AUX_MASK) AUXBITS_WRITABLE)
  = truthy (Z.land x AUXBITS_WRITABLE).
Proof. by rewrite <- Z.land_assoc. Qed.

(** One request keeps the map free of writable entries unless its response
    carries the writable bit. *)
Lemma spec_bpf_no_writable h V ctx r ctx' V' :
  spec_bpf h V ctx r ctx' V' → installs_writable ctx = false →
  no_writable V → no_writable V'.
Proof.
  assert (∀ v V V', drops V v V' → no_writable V → no_writable V') as Hdrop.
  { intros v W W' Hs HV w p a. rewrite Hs. case_decide; [done|]. apply HV. }
  assert (∀ V V', same_view V V' → no_writable V → no_writable V') as Hsame.
  { intros W W' Hs HV w p a. rewrite Hs. apply HV. }
  intros Hstep Hni HV. destruct Hstep; eauto; try by (case_match; eauto).
  - unfold installs_writable in Hni. rewrite H0, H1, Z.eqb_refl in Hni. simpl in Hni.
    intros w p a. destruct H2 as [Hs [victim Ho] _].
    destruct (decide (w = vblk_of (slba (ctx_cmd ctx)))) as [->|Hne].
    + rewrite Hs. intros [= <- <-]. by rewrite land_mask_writable.
    + rewrite Ho by done. case_decide; [done|]. apply HV.
  - intros w p a. rewrite H0. destruct (V w) as [[q b]|] eqn:E; simpl; [|done].
    intros [= <- <-]. apply HV in E.
    replace (Z.land (Z.land b AUXBITS_VALID) AUXBITS_WRITABLE) with 0; [done|].
    rewrite <- Z.land_assoc. change (Z.land AUXBITS_VALID AUXBITS_WRITABLE) with 0.
    by rewrite Z.land_0_r.
Qed.

Lemma run_bpf_all_no_writable h l c :
  cache_inv c → Forall ctx_ok l → Forall (λ x, installs_writable x = false) l →
  no_writable (cache_view c) →
  cache_inv (run_bpf_all h c l) ∧ no_writable (cache_view (run_bpf_all h c l)).
Proof.
  revert c. induction l as [|ctx l IH]; intros c Hc Hok Hni HV; [done|].
  inversion_clear Hok. inversion_clear Hni.
  pose proof (nvme_run_bpf_step h c ctx Hc) as Hs. simpl.
  destruct (nvme_run_bpf h c ctx) as [[r ctx'] c'].
  destruct Hs as [Hc' Hs]; [done|]. apply IH; try done.
  by eapply spec_bpf_no_writable.
Qed.

Lemma snapshot_state h c ctx :
  truthy (Z.land (flags (ctx_cmd ctx)) NVME_CMD_SGL_ALL) = false →
  opcode (ctx_cmd ctx) = nvme_cmd_snapshot →
  (nvme_run_bpf h c ctx).2 = cleared c.
Proof.
  intros Hf Ho. unfold nvme_run_bpf. rewrite Hf, Ho. simpl.
  rewrite lba_clear_flag_all_eq. by destruct h.
Qed.

Lemma cleared_no_writable c : no_writable (cache_view (cleared c)).
Proof.
  intros w p a. rewrite cleared_view.
  destruct (cache_view c w) as [[q b]|] eqn:E; simpl; [|done].
  intros [= <- <-]. rewrite <- Z.land_assoc.
  change (Z.land AUXBITS_VALID AUXBITS_WRITABLE) with 0. by rewrite Z.land_0_r.
Qed.

Lemma cleared_inv c : cache_inv c → cache_inv (cleared c).
Proof.
  intros [Hok Hp]. split; [by apply cleared_ok|].
  apply (downgrades_plba_ok c); [done|]. intros w. apply cleared_view.
Qed.

(** ** Lemmas: reading the specification backwards *)

Section inversion.
Context (h : helper) (V V' : view_t) (ctx ctx' : bpf_io_ctx) (r : Z).
Context (Hstep : spec_bpf h V ctx r ctx' V').
Context (Hsgl : truthy (Z.land (flags (ctx_cmd ctx)) NVME_CMD_SGL_ALL) = false).
Context (Hrw : is_rw (ctx_cmd ctx) = true).

Lemma rw_not_snapshot : opcode (ctx_cmd ctx) ≠ nvme_cmd_snapshot.
Proof using Hrw. intros E. unfold is_rw in Hrw. by rewrite E in Hrw. Qed.

Lemma spec_respond_valid :
  current_hook ctx = NMBPF_HOOK_NFD_WRITE →
  truthy (Z.land (aux0 (ctx_aux ctx)) AUXBITS_VALID) = true →
  installs V (vblk_of (slba (ctx_cmd ctx)))
    (response_plba (ctx_aux ctx), Z.land (aux0 (ctx_aux ctx)) AUX_MASK) V' ∧
  (r, ctx') =
    (if truthy (Z.land (aux0 (ctx_aux ctx)) AUXCMD_FORWARD)
     then (to_hq, set_ctx_cmd (set_slba
             (response_plba (ctx_aux ctx) + off_of (slba (ctx_cmd ctx)))
             (ctx_cmd ctx)) ctx)
     else (ctx_data ctx, ctx)).
Proof using All.
  intros Hh Hv. pose proof rw_not_snapshot as Hn.
  destruct Hstep as [| | | | | | |? [?|[??]]]; try congruence;
    try (by rewrite Hh in *); done.
Qed.

(** A request of the guest is routed by what the map lets it use. *)
Lemma spec_vsq :
  current_hook ctx = NMBPF_HOOK_VSQ →
  (r, ctx') = match usable V (ctx_cmd ctx) with
              | Some addr => (to_hq, set_ctx_cmd (set_slba addr (ctx_cmd ctx)) ctx)
              | None => (to_server, ctx)
              end.
Proof using All.
  intros Hh. pose proof rw_not_snapshot as Hn.
  destruct Hstep as [|? ? ? ? E| ? ? ? E|? ? ? ? E| | | |? [?|[??]]];
    try congruence; try (by rewrite Hh in *); by rewrite E.
Qed.
End inversion.

(** ** Lemmas: the replacement policy *)

(** A way with its MRU bit set that holds another tag is never the one an
    update overwrites. *)
Lemma choose_way_spares c idx tag i t :
  0 <= idx < XCACHE_LINES → set_ok c idx → i ∈ ways →
  way_hit c (aget (cache_meta c) idx) idx t i = true → t ≠ tag →
  mru c idx i = true →
  choose_way c (aget (cache_meta c) idx) idx tag ≠ i.
Proof.
  intros Hidx [Hw Hd (j & Hj & Hf)] Hi Hh Ht Hm. unfold choose_way.
  rewrite way_hit_eq in Hh by done. apply andb_prop in Hh as [Hv Htag]. to_prop.
  destruct (find_first (way_hit _ _ _ _) ways) as [k|] eqn:F1.
  { intros ->. apply find_first_Some in F1 as [_ F1].
    rewrite way_hit_eq in F1 by done. to_prop. congruence. }
  destruct (find_first (λ i, negb (AUX_IS_VALID _ i)) ways) as [k|] eqn:F2.
  { intros ->. apply find_first_Some in F2 as [_ F2].
    apply elem_of_ways in Hi. rewrite AUX_IS_VALID_bit, Hv in F2 by lia. done. }
  destruct (find_first (λ i, negb (truthy _)) ways) as [k|] eqn:F3.
  - intros ->. apply find_first_Some in F3 as [_ F3]. apply elem_of_ways in Hi.
    rewrite META_MRU_shift, truthy_land_pow2 in F3 by lia.
    unfold mru in Hm. change META_MRU_SHIFT with 24 in Hm. by rewrite Hm in F3.
  - rewrite find_first_None in F3. specialize (F3 _ Hj). apply elem_of_ways in Hj.
    rewrite META_MRU_shift, truthy_land_pow2 in F3 by lia.
    unfold mru in Hf. change META_MRU_SHIFT with 24 in Hf. by rewrite Hf in F3.
Qed.

(** An update of another cluster keeps an entry whose way has its MRU bit. *)
Lemma lba_update_spares c v w p a i :
  cache_ok c → 0 <= a < 4 → Z.testbit a 0 = true → w ≠ v → i ∈ ways →
  way_hit c (aget (cache_meta c) (v mod XCACHE_LINES)) (v mod XCACHE_LINES)
    (v / XCACHE_LINES) i = true →
  mru c (v mod XCACHE_LINES) i = true → ∀ vlba, vblk_of vlba = w →
  cache_view (lba_update c vlba p a).2 v = cache_view c v.
Proof.
  intros Hok Ha Hb Hne Hi Hh Hm vlba <-.
  rewrite lba_update_view_other by (done || congruence). unfold evicted.
  destruct (Z.eqb_spec (v mod XCACHE_LINES) (idx_of vlba)) as [E|]; [|done].
  destruct (way_hit _ _ _ _ (choose_way _ _ _ _)) eqn:Hev; [|done].
  exfalso. rewrite E in *.
  assert (0 <= idx_of vlba < XCACHE_LINES) as Hidx by apply idx_range.
  apply (choose_way_spares c (idx_of vlba) (tag_of vlba) i (v / XCACHE_LINES));
    try done; [by apply Hok| |].
  - intros Ht. apply Hne. rewrite (Z_div_mod_eq_full v XCACHE_LINES), E, Ht.
    apply Z_div_mod_eq_full.
  - apply (tags_distinct _ _ (Hok _ Hidx) _ _ (v / XCACHE_LINES));
      [apply choose_way_in|done|done|done].
Qed.

(** After a hit, the way that was hit has its MRU bit. *)
Lemma lba_lookup_mru c vlba len i : cache_ok c → crossing vlba len = false →
  find_first (way_hit c (aget (cache_meta c) (idx_of vlba)) (idx_of vlba)
    (tag_of vlba)) ways = Some i →
  let c' := (lba_lookup c vlba len).2 in
  i ∈ ways ∧ mru c' (idx_of vlba) i = true ∧
  way_hit c' (aget (cache_meta c') (idx_of vlba)) (idx_of vlba)
    (tag_of vlba) i = true.
Proof.
  intros Hok Hx F. assert (0 <= idx_of vlba < XCACHE_LINES) as Hidx by apply idx_range.
  rewrite lba_lookup_eq by done. cbv zeta. rewrite F. cbn [snd].
  apply find_first_Some in F as [Hi Hh]. split; [done|].
  assert (aget (cache_meta (set_meta c (idx_of vlba)
    (touch (aget (cache_meta c) (idx_of vlba)) i))) (idx_of vlba)
    = touch (aget (cache_meta c) (idx_of vlba)) i) as Hm.
  { cbn [set_meta cache_meta]. by rewrite update_line, aget_aset_eq. }
  split.
  - unfold mru. rewrite Hm. unfold touch. change META_MRU_SHIFT with 24.
    apply mru_reset_self; [done|]. apply elem_of_ways in Hi.
    rewrite Z.lor_spec, META_MRU_shift, testbit_pow2 by lia.
    rewrite Z.eqb_refl. apply orb_true_r.
  - rewrite Hm. rewrite (way_hit_low _ _ (aget (cache_meta c) (idx_of vlba)));
      [|done|done|by apply touch_low].
    rewrite way_hit_eq in Hh |- * by done. done.
Qed.

Lemma cache_view_way c vlba e : cache_view c (vblk_of vlba) = Some e →
  ∃ i, find_first (way_hit c (aget (cache_meta c) (idx_of vlba)) (idx_of vlba)
    (tag_of vlba)) ways = Some i.
Proof.
  unfold cache_view. change (vblk_of vlba mod XCACHE_LINES) with (idx_of vlba).
  change (vblk_of vlba / XCACHE_LINES) with (tag_of vlba).
  destruct (find_first _ ways) as [i|]; [by eauto|done].
Qed.

(** ** The test's requests *)

Definition zero_cmd : nvme_command :=
  NvmeCommand 0 0 0 1 0 0 0 0 0 0 0 0 0 0 0.
Definition rw_cmd (op lba len0 : Z) : nvme_command :=
  NvmeCommand op 0 0 1 0 0 0 0 0 (u32 lba) (u32 (Z.shiftr lba 32)) len0 0 0 0.
Definition vsq (cmd : nvme_command) : bpf_io_ctx :=
  BpfIoCtx cmd NMBPF_HOOK_VSQ 0 no_aux.
Definition respond (cmd : nvme_command) (paddr a0 : Z) : bpf_io_ctx :=
  BpfIoCtx cmd NMBPF_HOOK_NFD_WRITE 0 (set_aux_paddr paddr a0).

(** [simple_ctx] decides [ctx_ok]. *)
Definition ctx_okb (ctx : bpf_io_ctx) : bool :=
  let c := ctx_cmd ctx in
  forallb (λ x, (0 <=? x.1) && (x.1 <? x.2))
    [(cdw10 c, 2 ^ 32); (cdw11 c, 2 ^ 32); (cdw12 c, 2 ^ 32);
     (prp1 c, 2 ^ 64); (prp2 c, 2 ^ 64); (command_id c, 2 ^ 16);
     (aux1 (ctx_aux ctx), 2 ^ 32); (aux2 (ctx_aux ctx), 2 ^ 32)].

Lemma ctx_okb_ok ctx : ctx_okb ctx = true → ctx_ok ctx.
Proof.
  unfold ctx_okb. cbn [forallb fst snd]. intros H.
  repeat (apply andb_prop in H as [? H]). to_prop.
  by repeat split.
Qed.

(** ** Properties *)

(** C11. The classifier implements its specification on every branch and in
    every state the driver can bring it to: whatever requests and responses
    came before, the next one changes the cache's map and is routed as
    [spec_bpf] says (hit and translated, miss, install with at most one
    eviction, drop, snapshot, pass-through), and leaves a well-formed cache. A
    snapshot goes to the server with the helper of lbacache-polyfill.hpp and is
    answered with [NVME_SC_INTERNAL] with that of the kernel patch. The cache
    is the one of the CPU the classifier runs on. *)
Theorem nvme_run_bpf_refines h c ctx :
  bpf_reachable h c → ctx_ok ctx →
  let '(r, ctx', c') := nvme_run_bpf h c ctx in
  cache_inv c' ∧ spec_bpf h (cache_view c) ctx r ctx' (cache_view c').
Proof. intros Hr Hc. apply nvme_run_bpf_step; [by apply (bpf_reachable_inv h)|done]. Qed.

Lemma nvme_run_bpf_refines_witness :
  let ctx := vsq (rw_cmd nvme_cmd_read 555 3) in
  let '(r, ctx', c') := nvme_run_bpf Kernel empty_cache ctx in
  cache_inv c' ∧ spec_bpf Kernel (cache_view empty_cache) ctx r ctx' (cache_view c').
Proof.
  apply (nvme_run_bpf_refines Kernel empty_cache (vsq (rw_cmd nvme_cmd_read 555 3))).
  - apply reach_init.
  - apply ctx_okb_ok. reflexivity.
Defined.

(** C12. Snapshots revoke write permission on the CPU the classifier runs on
    (for the others see [snapshot_spares_other_cpus]), and with either helper,
    also when the snapshot itself is refused: after a snapshot command, whatever
    requests and responses follow, as long as none of the responses carries
    the writable bit, every write and write-zeroes from the guest is sent to
    the server with its address unchanged, never directly to the device. *)
Theorem snapshot_revokes_writes h c snap l w :
  cache_inv c → ctx_ok snap →
  truthy (Z.land (flags (ctx_cmd snap)) NVME_CMD_SGL_ALL) = false →
  opcode (ctx_cmd snap) = nvme_cmd_snapshot →
  Forall ctx_ok l → Forall (λ x, installs_writable x = false) l →
  ctx_ok w → truthy (Z.land (flags (ctx_cmd w)) NVME_CMD_SGL_ALL) = false →
  is_rw (ctx_cmd w) = true → opcode (ctx_cmd w) ≠ nvme_cmd_read →
  current_hook w = NMBPF_HOOK_VSQ →
  (nvme_run_bpf h (run_bpf_all h c (snap :: l)) w).1 = (to_server, w).
Proof.
  intros Hc Hs Hf Ho Hl Hni Hw Hwf Hrw Hnr Hh. simpl.
  rewrite snapshot_state by done.
  destruct (run_bpf_all_no_writable h l (cleared c)) as [Hinv HV];
    [by apply cleared_inv|done|done|apply cleared_no_writable|].
  unfold run_bpf_all in *.
  pose proof (nvme_run_bpf_step h _ w Hinv Hw) as Hstep.
  destruct (nvme_run_bpf h _ w) as [[r w'] c']. destruct Hstep as [_ Hstep].
  pose proof (spec_vsq _ _ _ _ _ _ Hstep Hwf Hrw Hh) as E.
  unfold usable in E. destruct (crossing _ _); [by simplify_eq|].
  destruct (cache_view _ _) as [[p a]|] eqn:Ev; [|by simplify_eq].
  apply HV in Ev. unfold permits in E.
  rewrite Ev, (proj2 (Z.eqb_neq _ _) Hnr) in E. by simplify_eq.
Qed.

Lemma snapshot_revokes_writes_witness :
  let w := vsq (rw_cmd nvme_cmd_write 560 3) in
  let snap := vsq (rw_cmd nvme_cmd_snapshot 0 0) in
  let l := [respond (rw_cmd nvme_cmd_read 555 3) 0x5000000
              (Z.lor AUXBITS_VALID AUXCMD_FORWARD)] in
  (nvme_run_bpf Kernel (run_bpf_all Kernel empty_cache (snap :: l)) w).1 = (to_server, w).
Proof.
  apply (snapshot_revokes_writes Kernel empty_cache (vsq (rw_cmd nvme_cmd_snapshot 0 0))
    [respond (rw_cmd nvme_cmd_read 555 3) 0x5000000
       (Z.lor AUXBITS_VALID AUXCMD_FORWARD)]
    (vsq (rw_cmd nvme_cmd_write 560 3)));
    try reflexivity; try (by apply ctx_okb_ok).
  - apply empty_cache_inv.
  - repeat constructor; by apply ctx_okb_ok.
  - repeat constructor.
  - discriminate.
Defined.

(** The kernel's helper answers 0, not [XCACHE_LINES]: every snapshot command
    is answered with [NVME_SC_INTERNAL] by the classifier and never reaches
    the server, although the writable bits are gone. *)
Theorem kernel_refuses_snapshot c ctx :
  truthy (Z.land (flags (ctx_cmd ctx)) NVME_CMD_SGL_ALL) = false →
  opcode (ctx_cmd ctx) = nvme_cmd_snapshot →
  nvme_run_bpf Kernel c ctx = (NVME_SC_INTERNAL, ctx, cleared c) ∧
  nvme_run_bpf Polyfill c ctx =
    (Z.lor NMBPF_SEND_FD NMBPF_WILL_COMPLETE_FD, ctx, cleared c).
Proof.
  intros Hf Ho. unfold nvme_run_bpf. by rewrite Hf, Ho.
Qed.

(** The maps are per CPU: a snapshot command handled on one CPU leaves every
    other CPU's cache as it was, writable entries included. A controller is
    served by one I/O thread at a time, but [iothread_idx_store] moves it to
    a thread of another CPU. *)
Theorem snapshot_spares_other_cpus h p q m ctx : p ≠ q →
  cpu_cache (run_bpf_on h p m ctx).2 q = cpu_cache m q.
Proof.
  intros Hpq. unfold run_bpf_on, cpu_cache.
  destruct (nvme_run_bpf h _ ctx) as [[r x] c]. simpl.
  by rewrite (lookup_insert_ne (M := gmap nat)).
Qed.

(** A write cached as writable on CPU 1, a snapshot on CPU 0: back on CPU 1
    the same write is still sent straight to the device. *)
Example moved_controller_keeps_writable h :
  let c1 := (lba_update empty_cache 555 1000
               (Z.lor AUXBITS_VALID AUXBITS_WRITABLE)).2 in
  let m := (run_bpf_on h 0 {[ 1%nat := c1 ]} (vsq (rw_cmd nvme_cmd_snapshot 0 0))).2 in
  (run_bpf_on h 1 m (vsq (rw_cmd nvme_cmd_write 555 3))).1.1 = to_hq.
Proof. destruct h; vm_compute; reflexivity. Qed.

(** The replacement policy protects the entry just used: after a lookup
    hits a cluster, installing any other cluster's address, in the same set or
    not, leaves the hit entry in the cache with its address and its bits. *)
Theorem recently_hit_survives c vlba len e vlba' p a :
  cache_ok c → crossing vlba len = false →
  cache_view c (vblk_of vlba) = Some e →
  vblk_of vlba' ≠ vblk_of vlba → 0 <= a < 4 → Z.testbit a 0 = true →
  cache_view (lba_update (lba_lookup c vlba len).2 vlba' p a).2 (vblk_of vlba)
  = Some e.
Proof.
  intros Hok Hx He Hne Ha Hb.
  destruct (cache_view_way _ _ _ He) as [i Fi].
  destruct (lba_lookup_mru c vlba len i Hok Hx Fi) as (Hi & Hm & Hh).
  rewrite (lba_update_spares _ (vblk_of vlba) (vblk_of vlba') p a i);
    try done; [|by apply lba_lookup_ok].
  by rewrite lba_lookup_view.
Qed.

Lemma recently_hit_survives_witness :
  let c := (lba_update empty_cache 555 1000 1).2 in
  cache_view (lba_update (lba_lookup c 555 3).2 (555 + 128 * 65536) 7 1).2
    (vblk_of 555) = Some (1000, 1).
Proof.
  apply (recently_hit_survives (lba_update empty_cache 555 1000 1).2 555 3
    (1000, 1) (555 + 128 * 65536) 7 1); try reflexivity; try discriminate.
  - apply lba_update_ok; [apply empty_cache_ok|lia].
  - lia.
Defined.

(** A response that carries a valid address with the forward command is
    resolved by the cache from then on: the request itself and the next read
    in the same cluster both go to the device, at the response's cluster plus
    their own offset in it. *)
Theorem installed_address_is_used h c rsp rd :
  cache_inv c → ctx_ok rsp → ctx_ok rd →
  truthy (Z.land (flags (ctx_cmd rsp)) NVME_CMD_SGL_ALL) = false →
  is_rw (ctx_cmd rsp) = true → current_hook rsp = NMBPF_HOOK_NFD_WRITE →
  truthy (Z.land (aux0 (ctx_aux rsp)) AUXBITS_VALID) = true →
  truthy (Z.land (aux0 (ctx_aux rsp)) AUXCMD_FORWARD) = true →
  truthy (Z.land (flags (ctx_cmd rd)) NVME_CMD_SGL_ALL) = false →
  opcode (ctx_cmd rd) = nvme_cmd_read → current_hook rd = NMBPF_HOOK_VSQ →
  crossing (slba (ctx_cmd rd)) (length0 (ctx_cmd rd)) = false →
  vblk_of (slba (ctx_cmd rd)) = vblk_of (slba (ctx_cmd rsp)) →
  let '(r1, x1, c1) := nvme_run_bpf h c rsp in
  let '(r2, x2, _) := nvme_run_bpf h c1 rd in
  r1 = to_hq ∧ r2 = to_hq ∧
  slba (ctx_cmd x1) = response_plba (ctx_aux rsp) + off_of (slba (ctx_cmd rsp)) ∧
  slba (ctx_cmd x2) = response_plba (ctx_aux rsp) + off_of (slba (ctx_cmd rd)).
Proof.
  intros Hc Hr Hd Hf1 Hrw Hh1 Hv Hfw Hf2 Ho Hh2 Hx Hblk.
  pose proof (nvme_run_bpf_step h c rsp Hc Hr) as H1.
  destruct (nvme_run_bpf h c rsp) as [[r1 x1] c1]. destruct H1 as [Hc1 H1].
  pose proof (nvme_run_bpf_step h c1 rd Hc1 Hd) as H2.
  destruct (nvme_run_bpf h c1 rd) as [[r2 x2] c2]. destruct H2 as [_ H2].
  pose proof (response_plba_range _ Hr) as Hp.
  assert (is_rw (ctx_cmd rd) = true) as Hrw2 by (unfold is_rw; by rewrite Ho).
  destruct (spec_respond_valid _ _ _ _ _ _ H1 Hf1 Hrw Hh1 Hv) as [[Hs _ _] E1].
  rewrite Hfw in E1. injection E1 as -> ->.
  pose proof (spec_vsq _ _ _ _ _ _ H2 Hf2 Hrw2 Hh2) as E2.
  unfold usable, permits in E2. rewrite Hx, Hblk, Hs, Ho in E2. simpl in E2.
  injection E2 as -> ->. simpl.
  assert (∀ v, 0 <= off_of v < 128) as Hoff by (intros v; by apply Z.mod_pos_bound).
  pose proof (Hoff (slba (ctx_cmd rsp))). pose proof (Hoff (slba (ctx_cmd rd))).
  by rewrite !set_slba_slba by lia.
Qed.

Lemma installed_address_is_used_witness :
  let '(r1, x1, c1) := nvme_run_bpf Polyfill empty_cache
    (respond (rw_cmd nvme_cmd_read 555 3) (768 * CLUSTER_SIZE)
       (Z.lor AUXBITS_VALID AUXCMD_FORWARD)) in
  let '(r2, x2, _) := nvme_run_bpf Polyfill c1 (vsq (rw_cmd nvme_cmd_read 559 3)) in
  r1 = to_hq ∧ r2 = to_hq ∧
  slba (ctx_cmd x1) = 768 * CLUSTER_LBAS + 555 mod CLUSTER_LBAS ∧
  slba (ctx_cmd x2) = 768 * CLUSTER_LBAS + 559 mod CLUSTER_LBAS.
Proof.
  apply (installed_address_is_used Polyfill empty_cache
    (respond (rw_cmd nvme_cmd_read 555 3) (768 * CLUSTER_SIZE)
       (Z.lor AUXBITS_VALID AUXCMD_FORWARD))
    (vsq (rw_cmd nvme_cmd_read 559 3)));
    try reflexivity; try (by apply ctx_okb_ok).
  apply empty_cache_inv.
Defined.

(** A request that spans two clusters never invalidates what is cached:
    whatever is cached for the clusters a multi-cluster write covers is still
    there after the write was sent to the server and after the server
    answered that its address may not be cached, so the next read within one
    of the clusters is sent straight to the address that was cached before
    the write. *)
Theorem crossing_write_keeps_stale_entries h c w rsp v :
  cache_inv c → ctx_ok w → ctx_ok rsp →
  current_hook w = NMBPF_HOOK_VSQ → is_rw (ctx_cmd w) = true →
  opcode (ctx_cmd w) ≠ nvme_cmd_snapshot →
  crossing (slba (ctx_cmd w)) (length0 (ctx_cmd w)) = true →
  current_hook rsp = NMBPF_HOOK_NFD_WRITE → ctx_cmd rsp = ctx_cmd w →
  truthy (Z.land (aux0 (ctx_aux rsp)) AUXBITS_VALID) = false →
  cache_view (run_bpf_all h c [w; rsp]) v = cache_view c v.
Proof.
  intros Hc Hw Hr Hh Hrw Hns Hx Hh' E Hv. simpl.
  pose proof (nvme_run_bpf_step h c w Hc Hw) as H1.
  destruct (nvme_run_bpf h c w) as [[r1 x1] c1]. destruct H1 as [Hc1 H1]. simpl.
  assert (same_view (cache_view c) (cache_view c1)) as S1.
  { destruct H1; try done; try (by rewrite Hx in *); by rewrite Hh in *. }
  pose proof (nvme_run_bpf_step h c1 rsp Hc1 Hr) as H2.
  destruct (nvme_run_bpf h c1 rsp) as [[r2 x2] c2]. destruct H2 as [_ H2]. simpl.
  rewrite <- S1. destruct H2; try done; try (by rewrite Hh' in *);
    try (by rewrite Hv in *); try (by rewrite E in *).
  rewrite E, Hx, orb_true_r in *. done.
Qed.

Lemma crossing_write_keeps_stale_entries_witness :
  let c := (lba_update empty_cache 128 1000 1).2 in
  let w := vsq (rw_cmd nvme_cmd_write 120 15) in
  let rsp := respond (rw_cmd nvme_cmd_write 120 15) 0 0 in
  cache_view (run_bpf_all Polyfill c [w; rsp]) 1 = Some (1000, 1).
Proof.
  change (Some (1000, 1)) with (cache_view (lba_update empty_cache 128 1000 1).2 1).
  apply (crossing_write_keeps_stale_entries Polyfill _ (vsq (rw_cmd nvme_cmd_write 120 15))
    (respond (rw_cmd nvme_cmd_write 120 15) 0 0));
    try reflexivity; try (by apply ctx_okb_ok); try discriminate.
  split; [apply lba_update_ok; [apply empty_cache_ok|lia]|].
  apply (installs_plba_ok empty_cache _ (vblk_of 128) 1000 1).
  - apply empty_cache_inv.
  - lia.
  - apply (lba_update_installs empty_cache 128 1000 1); [apply empty_cache_ok|lia|reflexivity].
Defined.
