(* ===== verification/Cmdbuf.v ===== *)
(** * The shared-memory command rings

    include/cmdbuf.hpp: a single-producer single-consumer circular buffer
    whose slots, head and tail live in three shared mappings. The sequential
    operations are functions on the shared words; a step relation over the
    atomic accesses of the two parties gives their interleavings. The enclave
    has the same operations on pointers it is given
    (encryptor-sgx/Enclave/include/cmdbuf_en.hpp). *)
From S2P Require Import Prelude Proto.

(** ** Ring arithmetic (linux/circ_buf.h) *)

Definition circ_cnt (head tail size : Z) : Z :=
  s32 (Z.land (s32 (head - tail)) (size - 1)).
Definition circ_space (head tail size : Z) : Z :=
  circ_cnt tail (s32 (head + 1)) size.

(** [(i + 1) & (count - 1)]. *)
Definition ring_next (count i : Z) : Z := Z.land (i + 1) (count - 1).

Section ring.
Context {T : Type}.

(** ** The shared words *)

Record shared : Type := Shared {
  sh_buf : list T;
  sh_head : Z;
  sh_tail : Z;
}.

(** A slot access; an index outside of the mapping is undefined. *)
Definition slot_read (b : list T) (i : Z) : outcome T :=
  if i <? 0 then Throw Eub else
  match b !! Z.to_nat i with Some x => Ret x | None => Throw Eub end.
Definition slot_write (b : list T) (i : Z) (x : T) : outcome (list T) :=
  if (i <? 0) || (Z.of_nat (length b) <=? i) then Throw Eub
  else Ret (<[Z.to_nat i := x]> b).

Context (count : Z).

(** ** Producer *)

(** The space and the head it was computed from. *)
Definition peek_space (s : shared) : Z * Z :=
  (circ_space (sh_head s) (sh_tail s) count, sh_head s).

(** The copy loop: the slots and the head after writing [in]. *)
Fixpoint produce_slots (b : list T) (head : Z) (in_ : list T) :
    outcome (list T * Z) :=
  match in_ with
  | [] => Ret (b, head)
  | x :: in_ =>
    b ← slot_write b head x;
    produce_slots b (ring_next count head) in_
  end.

(** [to_produce] is at most the length of the span [in]. *)
Definition produce_raw (s : shared) (in_ : list T) (head to_produce : Z) :
    outcome shared :=
  if 1 <=? to_produce then
    '(b, head) ← produce_slots (sh_buf s) head (take (Z.to_nat to_produce) in_);
    Ret (Shared b head (sh_tail s))
  else Ret s.

Definition produce (s : shared) (in_ : list T) : outcome (Z * shared) :=
  let '(space, head) := peek_space s in
  let to_produce := Z.min (s32 (Z.of_nat (length in_))) space in
  s ← produce_raw s in_ head to_produce;
  Ret (to_produce, s).

(** ** Consumer *)

Definition peek_items (s : shared) : Z * Z :=
  (circ_cnt (sh_head s) (sh_tail s) count, sh_tail s).

Fixpoint consume_slots (b : list T) (tail : Z) (n : nat) : outcome (list T * Z) :=
  match n with
  | O => Ret ([], tail)
  | S n =>
    x ← slot_read b tail;
    '(out, tail) ← consume_slots b (ring_next count tail) n;
    Ret (x :: out, tail)
  end.

Definition consume_raw (s : shared) (tail to_consume : Z) :
    outcome (list T * shared) :=
  if 1 <=? to_consume then
    '(out, tail) ← consume_slots (sh_buf s) tail (Z.to_nat to_consume);
    Ret (out, Shared (sh_buf s) (sh_head s) tail)
  else Ret ([], s).

(** [out_size] is the length of the span the items are copied to. *)
Definition consume (s : shared) (out_size : Z) : outcome (Z * list T * shared) :=
  let '(items, tail) := peek_items s in
  let to_consume := Z.min (s32 out_size) items in
  '(out, s) ← consume_raw s tail to_consume;
  Ret (to_consume, out, s).

(** [cq_produce_one]: the loop retries while [produce] returns 0. Each turn
    reads a tail the consumer may have moved: [tails] are the values the
    turns observe, and the loop goes on when they are used up. *)
Fixpoint cq_produce_one (tails : list Z) (s : shared) (resp : T) :
    outcome (option shared) :=
  match tails with
  | [] => Ret None
  | t :: tails =>
    '(n, s') ← produce (Shared (sh_buf s) (sh_head s) t) [resp];
    if n =? 0 then cq_produce_one tails s' resp else Ret (Some s')
  end.

(** ** The two parties, access by access

    [PWriting]: between the loads of [peek_space] and the store of [_head];
    [CReading]: between the loads of [peek_items] and the store of [_tail].
    [sent] lists the items published so far and [got] the items handed to the
    consumer's callers: they are not part of the program. *)

Inductive producer : Type :=
  | PIdle
  | PWriting (done todo : list T) (head : Z).
Inductive consumer : Type :=
  | CIdle
  | CReading (out : list T) (rest : nat) (tail : Z).

Record system : Type := System {
  sys_sh : shared;
  sys_p : producer;
  sys_c : consumer;
  sent : list T;
  got : list T;
}.

Inductive ring_step : system → system → Prop :=
  | step_peek_space sh c sn gt in_ space head n :
      peek_space sh = (space, head) →
      n = Z.min (s32 (Z.of_nat (length in_))) space → 1 <= n →
      ring_step (System sh PIdle c sn gt)
        (System sh (PWriting [] (take (Z.to_nat n) in_) head) c sn gt)
  | step_write b b' h t c sn gt done x todo head :
      slot_write b head x = Ret b' →
      ring_step (System (Shared b h t) (PWriting done (x :: todo) head) c sn gt)
        (System (Shared b' h t)
           (PWriting (done ++ [x]) todo (ring_next count head)) c sn gt)
  | step_publish b h t c sn gt done head :
      ring_step (System (Shared b h t) (PWriting done [] head) c sn gt)
        (System (Shared b head t) PIdle c (sn ++ done) gt)
  | step_peek_items sh p sn gt size items tail n :
      peek_items sh = (items, tail) →
      n = Z.min (s32 size) items → 1 <= n →
      ring_step (System sh p CIdle sn gt)
        (System sh p (CReading [] (Z.to_nat n) tail) sn gt)
  | step_read b h t p sn gt out n x tail :
      slot_read b tail = Ret x →
      ring_step (System (Shared b h t) p (CReading out (S n) tail) sn gt)
        (System (Shared b h t) p
           (CReading (out ++ [x]) n (ring_next count tail)) sn gt)
  | step_release b h t p sn gt out tail :
      ring_step (System (Shared b h t) p (CReading out 0 tail) sn gt)
        (System (Shared b h tail) p CIdle sn (gt ++ out)).

Inductive ring_reachable (b0 : list T) : system → Prop :=
  | ring_init : ring_reachable b0 (System (Shared b0 0 0) PIdle CIdle [] [])
  | ring_next_state s s' :
      ring_reachable b0 s → ring_step s s' → ring_reachable b0 s'.

(** ** The abstract queue

    The ring holds [q]: its slots from the tail on are [q], and the head is
    right behind them. *)

Definition slot (i k : Z) : Z := (i + k) mod count.

Record holds (b : list T) (head tail : Z) (q : list T) : Prop := {
  holds_size : Z.of_nat (length b) = count;
  holds_tail : 0 <= tail < count;
  holds_head : head = slot tail (Z.of_nat (length q));
  holds_room : Z.of_nat (length q) < count;
  holds_slots : ∀ k, (k < length q)%nat →
    b !! Z.to_nat (slot tail (Z.of_nat k)) = q !! k;
}.

(** The state invariant: the published and not yet released items are in the
    ring; the producer's unpublished items follow them; the consumer has read
    a prefix of them. *)
Record ring_inv (s : system) : Prop := RingInv {
  inv_queue : ∃ q, holds (sh_buf (sys_sh s)) (sh_head (sys_sh s))
                (sh_tail (sys_sh s)) q ∧
    sent s = got s ++ q ∧
    match sys_p s with
    | PIdle => True
    | PWriting done todo head =>
        holds (sh_buf (sys_sh s)) head (sh_tail (sys_sh s)) (q ++ done) ∧
        Z.of_nat (length q + length done + length todo) < count
    end ∧
    match sys_c s with
    | CIdle => True
    | CReading out n tail =>
        out `prefix_of` q ∧ (length out + n <= length q)%nat ∧
        tail = slot (sh_tail (sys_sh s)) (Z.of_nat (length out))
    end;
}.

End ring.
Arguments shared : clear implicits.
Arguments system : clear implicits.
Arguments producer : clear implicits.
Arguments consumer : clear implicits.

(** ** Lemmas: ring arithmetic *)

Lemma s32_small x : - 2 ^ 31 <= x < 2 ^ 31 → s32 x = x.
Proof.
  intros H. unfold s32, u32, wrap. destruct (Z.lt_ge_cases x 0).
  - assert (x mod 2 ^ 32 = x + 2 ^ 32) as ->.
    { symmetry. apply (Z.mod_unique _ _ (-1)); lia. }
    bool_cases.
  - rewrite Z.mod_small by lia. bool_cases.
Qed.

Section arith.
Context (k count : Z) (Hk : 0 <= k < 31) (Hcount : count = 2 ^ k).

Lemma count_pos : 0 < count < 2 ^ 31.
Proof using All.
  rewrite Hcount. split; [apply Z.pow_pos_nonneg; lia|].
  apply Z.pow_lt_mono_r; lia.
Qed.

Lemma land_count x : Z.land x (count - 1) = x mod count.
Proof using All.
  rewrite Hcount, <- Z.land_ones by lia. f_equal. rewrite Z.ones_equiv. lia.
Qed.

Lemma ring_next_eq i : ring_next count i = (i + 1) mod count.
Proof using All. apply land_count. Qed.

Lemma circ_cnt_eq head tail : 0 <= head < count → 0 <= tail < 2 ^ 31 →
  circ_cnt head tail count = (head - tail) mod count.
Proof using All.
  intros. pose proof count_pos. unfold circ_cnt.
  rewrite land_count. pose proof (Z.mod_pos_bound (s32 (head - tail)) count).
  rewrite (s32_small (_ mod _)), s32_small by lia. done.
Qed.

Lemma circ_space_eq head tail : 0 <= head < count → 0 <= tail < count →
  circ_space head tail count = (tail - head - 1) mod count.
Proof using All.
  intros. pose proof count_pos. unfold circ_space.
  destruct (Z.eq_dec (head + 1) (2 ^ 31)) as [E|].
  - exfalso. lia.
  - rewrite s32_small by lia. rewrite circ_cnt_eq by lia. f_equal. lia.
Qed.
Let Hpos : 0 < count < 2 ^ 31 := count_pos.

Lemma slot_range i j : 0 <= slot count i j < count.
Proof using All. apply Z.mod_pos_bound. lia. Qed.

Lemma slot_0 i : 0 <= i < count → slot count i 0 = i.
Proof using All. intros. unfold slot. rewrite Z.add_0_r. by apply Z.mod_small. Qed.

Lemma slot_slot i j l : slot count (slot count i j) l = slot count i (j + l).
Proof using All.
  unfold slot. rewrite Zplus_mod_idemp_l. f_equal. lia.
Qed.

Lemma ring_next_slot i j : ring_next count (slot count i j) = slot count i (j + 1).
Proof using All. rewrite ring_next_eq. by rewrite <- slot_slot. Qed.

Lemma slot_inj i j l : 0 <= j < count → 0 <= l < count →
  slot count i j = slot count i l → j = l.
Proof using All.
  unfold slot. intros Hj Hl E.
  assert ((j - l) mod count = 0) as H.
  { replace (j - l) with ((i + j) - (i + l)) by lia.
    rewrite Zminus_mod, E, Z.sub_diag. done. }
  apply Z.mod_divide in H; [|lia]. destruct H as [z Hz].
  assert (z = 0) by nia. lia.
Qed.

End arith.

(** ** Lemmas: slots *)

Section slots.
Context {T : Type} (k count : Z) (Hk : 0 <= k < 31) (Hcount : count = 2 ^ k).
Implicit Types (b q : list T).

Let Hpos : 0 < count < 2 ^ 31 := count_pos k count Hk Hcount.

(** The distance from the tail to the head is the length of the queue. *)
Lemma holds_cnt b head tail q : holds count b head tail q →
  circ_cnt head tail count = Z.of_nat (length q).
Proof using All.
  intros [_ Ht -> Hr _]. pose proof (slot_range k count Hk Hcount tail (Z.of_nat (length q))).
  rewrite (circ_cnt_eq k) by (done || lia). unfold slot.
  rewrite Zminus_mod_idemp_l.
  replace (tail + Z.of_nat (length q) - tail) with (Z.of_nat (length q)) by lia.
  apply Z.mod_small. lia.
Qed.

Lemma holds_space b head tail q : holds count b head tail q →
  circ_space head tail count = count - 1 - Z.of_nat (length q).
Proof using All.
  intros [_ Ht -> Hr _]. pose proof (slot_range k count Hk Hcount tail (Z.of_nat (length q))).
  rewrite (circ_space_eq k) by (done || lia). unfold slot.
  replace (tail - (tail + Z.of_nat (length q)) mod count - 1)
    with (tail - 1 - (tail + Z.of_nat (length q)) mod count) by lia.
  rewrite Zminus_mod_idemp_r.
  replace (tail - 1 - (tail + Z.of_nat (length q)))
    with (count - 1 - Z.of_nat (length q) + (-1) * count) by lia.
  rewrite Z.mod_add by lia. apply Z.mod_small. lia.
Qed.

(** Writing the slot at the head appends to the queue. *)
Lemma holds_snoc b head tail q x : holds count b head tail q →
  Z.of_nat (length q) + 1 < count →
  ∃ b', slot_write b head x = Ret b' ∧
    holds count b' (ring_next count head) tail (q ++ [x]) ∧
    (∀ head' q', holds count b head' tail q' → q' `prefix_of` q →
       holds count b' head' tail q').
Proof using All.
  intros [Hsz Ht -> Hr Hs] Hroom.
  pose proof (slot_range k count Hk Hcount tail (Z.of_nat (length q))) as Hh.
  unfold slot_write.
  replace ((slot count tail _ <? 0) || _) with false by lia.
  eexists; split; [done|]. split.
  - split; [by rewrite length_insert|done| | |].
    + rewrite (ring_next_slot k), length_app by done. simpl. f_equal. lia.
    + rewrite length_app. simpl. lia.
    + intros j Hj. rewrite length_app in Hj. simpl in Hj.
      destruct (decide (j = length q)) as [->|Hne].
      * rewrite list_lookup_insert_eq by lia.
        by rewrite lookup_app_r, Nat.sub_diag by lia.
      * pose proof (slot_range k count Hk Hcount tail (Z.of_nat j)).
        rewrite list_lookup_insert_ne.
        2:{ intros E. apply Hne.
            assert (Z.of_nat (length q) = Z.of_nat j); [|lia].
            apply (slot_inj k count Hk Hcount tail); lia. }
        rewrite lookup_app_l by lia. apply Hs. lia.
  - intros head' q' [Hsz' _ Hh' Hr' Hs'] Hpre.
    apply prefix_length in Hpre as Hlen.
    split; [by rewrite length_insert|done|done|done|].
    intros j Hj. pose proof (slot_range k count Hk Hcount tail (Z.of_nat j)).
    rewrite list_lookup_insert_ne; [by apply Hs'|].
    intros E. assert (Z.of_nat (length q) = Z.of_nat j); [|lia].
    apply (slot_inj k count Hk Hcount tail); lia.
Qed.

(** Reading [n] slots on from the tail. *)
Lemma holds_read b head tail q j : holds count b head tail q → (j < length q)%nat →
  ∃ x, q !! j = Some x ∧ slot_read b (slot count tail (Z.of_nat j)) = Ret x.
Proof using All.
  intros [Hsz Ht _ Hr Hs] Hj. pose proof (slot_range k count Hk Hcount tail (Z.of_nat j)).
  destruct (lookup_lt_is_Some_2 q j Hj) as [x Hx]. exists x. split; [done|].
  unfold slot_read. replace (_ <? 0) with false by lia. by rewrite Hs, Hx.
Qed.

(** Moving the tail on drops a prefix of the queue. *)
Lemma holds_drop b head tail q n : holds count b head tail q → (n <= length q)%nat →
  holds count b head (slot count tail (Z.of_nat n)) (drop n q).
Proof using All.
  intros [Hsz Ht Hh Hr Hs] Hn.
  split; [done|by apply (slot_range k)| | |]; rewrite ?length_drop.
  - rewrite Hh, (slot_slot k) by done. f_equal. lia.
  - lia.
  - intros j Hj. rewrite (slot_slot k), lookup_drop by done.
    rewrite <- Hs by lia. do 3 f_equal. lia.
Qed.
End slots.

(** ** Lemmas: the copy loops *)

Section loops.
Context {T : Type} (k count : Z) (Hk : 0 <= k < 31) (Hcount : count = 2 ^ k).
Implicit Types (b q l : list T).

Let Hpos : 0 < count < 2 ^ 31 := count_pos k count Hk Hcount.

Lemma produce_slots_holds b head tail q l : holds count b head tail q →
  Z.of_nat (length q + length l) < count →
  ∃ b' head', produce_slots count b head l = Ret (b', head') ∧
    holds count b' head' tail (q ++ l).
Proof using All.
  revert b head q. induction l as [|x l IH]; intros b head q Hq Hroom; simpl in *.
  - rewrite app_nil_r. by eexists _, _.
  - destruct (holds_snoc k count Hk Hcount b head tail q x) as (b' & Hw & Hq' & _);
      [done|lia|].
    rewrite Hw. cbn [mbind outcome_bind].
    destruct (IH b' (ring_next count head) (q ++ [x])) as (b'' & h'' & Hp & Hh);
      [done|rewrite length_app; simpl; lia|].
    exists b'', h''. split; [done|]. by rewrite <- app_assoc in Hh.
Qed.

Lemma consume_slots_holds b head tail q j n : holds count b head tail q →
  (j + n <= length q)%nat →
  consume_slots count b (slot count tail (Z.of_nat j)) n =
    Ret (take n (drop j q), slot count tail (Z.of_nat (j + n))).
Proof using All.
  revert j. induction n as [|n IH]; intros j Hq Hn; simpl.
  - by rewrite Nat.add_0_r.
  - destruct (holds_read k count Hk Hcount b head tail q j) as (x & Hx & ->);
      [done|lia|]. cbn [mbind outcome_bind].
    rewrite (ring_next_slot k count Hk Hcount).
    replace (Z.of_nat j + 1) with (Z.of_nat (S j)) by lia.
    rewrite IH by (done || lia). cbn [mbind outcome_bind].
    rewrite (drop_S q x j) by done. simpl. do 3 f_equal. lia.
Qed.
End loops.

(** ** Lemmas: the interleavings *)

Section interleaving.
Context {T : Type} (k count : Z) (Hk : 0 <= k < 31) (Hcount : count = 2 ^ k).
Implicit Types (s : system T) (b q sn gt out : list T) (sh : shared T)
  (p : producer T) (c : consumer T).

Let Hpos : 0 < count < 2 ^ 31 := count_pos k count Hk Hcount.

Lemma s32_le n : s32 (Z.of_nat n) <= Z.of_nat n.
Proof.
  unfold s32, u32, wrap. pose proof (Z.mod_le (Z.of_nat n) (2 ^ 32)).
  destruct (_ <? _); lia.
Qed.

Lemma ring_inv_init (b0 : list T) : Z.of_nat (length b0) = count →
  ring_inv count (System (Shared b0 0 0) PIdle CIdle [] []).
Proof using All.
  intros Hb. split. exists []. repeat split; simpl; try done; try lia.
Qed.

Lemma ring_inv_peek_space sh c sn gt in_ space head n :
  ring_inv count (System sh PIdle c sn gt) →
  peek_space count sh = (space, head) →
  n = Z.min (s32 (Z.of_nat (length in_))) space → 1 <= n →
  ring_inv count
    (System sh (PWriting [] (take (Z.to_nat n) in_) head) c sn gt).
Proof using All.
  intros [(q & Hq & Hs & _ & Hc)] [= <- <-] -> Hn. split. exists q. simpl in *.
  rewrite (holds_space k count Hk Hcount _ _ _ q) in * by done.
  pose proof (s32_le (length in_)).
  rewrite app_nil_r, length_take. split_and!; try done. simpl. lia.
Qed.

Lemma ring_inv_write b b' h t c sn gt done_ x todo head :
  slot_write b head x = Ret b' →
  ring_inv count (System (Shared b h t) (PWriting done_ (x :: todo) head) c sn gt) →
  ring_inv count (System (Shared b' h t)
    (PWriting (done_ ++ [x]) todo (ring_next count head)) c sn gt).
Proof using All.
  intros Hw [(q & Hq & Hs & [Hd Hroom] & Hc)]. simpl in *.
  destruct (holds_snoc k count Hk Hcount b head t (q ++ done_) x)
    as (b'' & Hw' & Hd' & Hpre); [done|rewrite length_app; lia|].
  rewrite Hw in Hw'. injection Hw' as <-. split. exists q. simpl.
  split_and!; try done.
  - apply Hpre; [done|]. by eexists.
  - by rewrite app_assoc.
  - rewrite length_app. simpl. lia.
Qed.

Lemma ring_inv_publish b h t c sn gt done_ head :
  ring_inv count (System (Shared b h t) (PWriting done_ [] head) c sn gt) →
  ring_inv count (System (Shared b head t) PIdle c (sn ++ done_) gt).
Proof using All.
  intros [(q & Hq & Hs & [Hd Hroom] & Hc)]. simpl in *.
  split. exists (q ++ done_). simpl. split_and!; try done.
  - rewrite Hs. by rewrite app_assoc.
  - destruct c as [|out n tail]; [done|]. destruct Hc as (Hp & Hn & Ht).
    split_and!; [by apply prefix_app_r|rewrite length_app; lia|done].
Qed.

Lemma ring_inv_peek_items sh p sn gt size items tail n :
  ring_inv count (System sh p CIdle sn gt) →
  peek_items count sh = (items, tail) →
  n = Z.min (s32 size) items → 1 <= n →
  ring_inv count (System sh p (CReading [] (Z.to_nat n) tail) sn gt).
Proof using All.
  intros [(q & Hq & Hs & Hp & _)] [= <- <-] -> Hn. split. exists q. simpl in *.
  rewrite (holds_cnt k count Hk Hcount _ _ _ q) in * by done.
  split_and!; try done; simpl.
  - by eexists.
  - lia.
  - rewrite (slot_0 k) by (done || apply Hq). done.
Qed.

Lemma ring_inv_read b h t p sn gt out n x tail :
  slot_read b tail = Ret x →
  ring_inv count (System (Shared b h t) p (CReading out (S n) tail) sn gt) →
  ring_inv count (System (Shared b h t) p
    (CReading (out ++ [x]) n (ring_next count tail)) sn gt).
Proof using All.
  intros Hr [(q & Hq & Hs & Hp & Ho & Hn & Ht)]. simpl in *. subst tail.
  destruct (holds_read k count Hk Hcount b h t q (length out))
    as (y & Hy & Hr'); [done|lia|].
  rewrite Hr in Hr'. injection Hr' as <-. split. exists q. simpl.
  split_and!; try done.
  - destruct Ho as [r ->]. rewrite lookup_app_r, Nat.sub_diag in Hy by lia.
    destruct r as [|z r]; [done|]. injection Hy as ->.
    exists r. by rewrite <- app_assoc.
  - rewrite length_app. simpl. lia.
  - rewrite (ring_next_slot k) by done. rewrite length_app. simpl. f_equal. lia.
Qed.

Lemma ring_inv_release b h t p sn gt out tail :
  ring_inv count (System (Shared b h t) p (CReading out 0 tail) sn gt) →
  ring_inv count (System (Shared b h tail) p CIdle sn (gt ++ out)).
Proof using All.
  intros [(q & Hq & Hs & Hp & Ho & Hn & Ht)]. simpl in *. subst tail.
  destruct Ho as [r ->]. split. exists r. simpl.
  rewrite length_app in *.
  assert (∀ l, drop (length out) ((out ++ r) ++ l) = r ++ l) as Hdrop.
  { intros l. rewrite <- app_assoc. by rewrite drop_app_length. }
  pose proof (holds_drop k count Hk Hcount _ _ _ _ (length out) Hq) as Hq'.
  rewrite drop_app_length in Hq'.
  split_and!; try apply Hq'; rewrite ?length_app; try lia; try done.
  - rewrite Hs. by rewrite app_assoc.
  - destruct p as [|d todo head]; [done|]. destruct Hp as [Hd Hroom].
    pose proof (holds_drop k count Hk Hcount _ _ _ _ (length out) Hd) as Hd'.
    rewrite Hdrop in Hd'. rewrite !length_app in Hd'.
    split; [apply Hd'; lia|lia].
Qed.

Lemma ring_inv_step s s' : ring_inv count s → ring_step count s s' → ring_inv count s'.
Proof using All.
  intros Hinv Hs. destruct Hs; eauto using ring_inv_peek_space, ring_inv_write,
    ring_inv_publish, ring_inv_peek_items, ring_inv_read, ring_inv_release.
Qed.

Lemma ring_reachable_inv b0 s : Z.of_nat (length b0) = count →
  ring_reachable count b0 s → ring_inv count s.
Proof using All.
  intros Hb. induction 1; [by apply ring_inv_init|by eapply ring_inv_step].
Qed.

(** A party in the middle of its copy can make its next access. *)
Lemma ring_inv_writer_steps b h t d x todo head c sn gt :
  ring_inv count (System (Shared b h t) (PWriting d (x :: todo) head) c sn gt) →
  ∃ b', slot_write b head x = Ret b'.
Proof using All.
  intros [(q & Hq & Hs & [Hd Hroom] & Hc)]. simpl in *.
  destruct (holds_snoc k count Hk Hcount b head t (q ++ d) x)
    as (b' & ? & _); [done|rewrite length_app; lia|]. by eexists.
Qed.

Lemma ring_inv_reader_steps b h t p out n tail sn gt :
  ring_inv count (System (Shared b h t) p (CReading out (S n) tail) sn gt) →
  ∃ x, slot_read b tail = Ret x.
Proof using All.
  intros [(q & Hq & Hs & Hp & Ho & Hn & ->)]. simpl in *.
  destruct (holds_read k count Hk Hcount b h t q (length out)) as (y & _ & ?);
    [done|lia|]. by eexists.
Qed.
End interleaving.

(** ** Properties *)

(** C13. Lock-free FIFO: however the accesses of the producer and the consumer
    interleave on a ring of a power-of-two number of slots, the items the
    consumer's callers received are a prefix, in order, of the items that were
    published; at most [count - 1] items are in flight; and neither party is
    ever about to touch a slot outside of the mapping. *)
Theorem ring_fifo {T} (k count : Z) (b0 : list T) s :
  0 <= k < 31 → count = 2 ^ k → Z.of_nat (length b0) = count →
  ring_reachable count b0 s →
  got s `prefix_of` sent s ∧
  Z.of_nat (length (sent s)) - Z.of_nat (length (got s)) <= count - 1 ∧
  match sys_p s with
  | PWriting _ (x :: _) head => ∃ b, slot_write (sh_buf (sys_sh s)) head x = Ret b
  | _ => True
  end ∧
  match sys_c s with
  | CReading _ (S _) tail => ∃ x, slot_read (sh_buf (sys_sh s)) tail = Ret x
  | _ => True
  end.
Proof.
  intros Hk Hc Hb Hr. pose proof (ring_reachable_inv k count Hk Hc b0 s Hb Hr) as Hinv.
  destruct s as [[b h t] p c sn gt]. simpl.
  destruct Hinv as [(q & Hq & Hs & Hp & Hcs)] eqn:E; simpl in *. clear E.
  assert (ring_inv count (System (Shared b h t) p c sn gt)) as Hinv'.
  { split. by exists q. }
  repeat split.
  - rewrite Hs. by apply prefix_app_r.
  - rewrite Hs, length_app. destruct Hq. lia.
  - destruct p as [|d [|x todo] head]; try done. by eapply ring_inv_writer_steps.
  - destruct c as [|out [|n] tail]; try done. by eapply ring_inv_reader_steps.
Qed.

(** One item goes through a ring of two slots. *)
Lemma ring_fifo_witness :
  got (System (Shared [7; 0] 1 1) PIdle CIdle [7] [7]) `prefix_of` [7] ∧
  ring_reachable 2 [0; 0] (System (Shared [7; 0] 1 1) PIdle CIdle [7] [7]).
Proof.
  assert (ring_reachable 2 [0; 0]
    (System (Shared [7; 0] 1 1) PIdle CIdle [7] [7])) as H.
  { eapply ring_next_state; [eapply ring_next_state; [eapply ring_next_state;
      [eapply ring_next_state; [eapply ring_next_state;
        [eapply ring_next_state; [apply ring_init|]|]|]|]|]|].
    - apply (step_peek_space 2 _ _ _ _ [7] 1 0 1); [reflexivity|reflexivity|lia].
    - apply (step_write 2 [0; 0] [7; 0] 0 0 _ _ _ [] 7 [] 0). reflexivity.
    - apply (step_publish 2 [7; 0] 0 0 _ _ _ [7] 1).
    - apply (step_peek_items 2 _ _ _ _ 1 1 0 1); [reflexivity|reflexivity|lia].
    - apply (step_read 2 [7; 0] 1 0 _ _ _ [] 0 7 0). reflexivity.
    - exact (step_release 2 [7; 0] 1 0 PIdle [7] [] [7] 1). }
  split; [|exact H].
  apply (ring_fifo 1 2 [0; 0] (System (Shared [7; 0] 1 1) PIdle CIdle [7] [7]));
    [lia|reflexivity|reflexivity|exact H].
Defined.

(** C14. One call of [produce] on a ring that holds [q] appends as much of its
    argument as there is room for and says how much that was; one call of
    [consume] takes the oldest items, as many as it has room for, and leaves
    the rest: the two are the enqueue and dequeue of a bounded queue. *)
Theorem produce_consume_queue {T} (k count : Z) b head tail (q l : list T) n :
  0 <= k < 31 → count = 2 ^ k → holds count b head tail q →
  Z.of_nat (length l) < 2 ^ 31 → 0 <= n < 2 ^ 31 →
  (let m := Z.min (Z.of_nat (length l)) (count - 1 - Z.of_nat (length q)) in
   ∃ b' head', produce count (Shared b head tail) l = Ret (m, Shared b' head' tail) ∧
     holds count b' head' tail (q ++ take (Z.to_nat m) l)) ∧
  (let m := Z.min n (Z.of_nat (length q)) in
   ∃ tail', consume count (Shared b head tail) n =
       Ret (m, take (Z.to_nat m) q, Shared b head tail') ∧
     holds count b head tail' (drop (Z.to_nat m) q)).
Proof.
  intros Hk Hc Hq Hl Hn. split; intros m.
  - unfold produce, peek_space, produce_raw. simpl.
    rewrite (holds_space k count Hk Hc _ _ _ q), s32_small by (done || lia).
    fold m. destruct (Z.leb_spec 1 m).
    + destruct (produce_slots_holds k count Hk Hc b head tail q
        (take (Z.to_nat m) l)) as (b' & h' & -> & Hh); [done| |].
      { rewrite length_take. lia. }
      by exists b', h'.
    + exists b, head. split; [done|]. replace (Z.to_nat m) with 0%nat by lia.
      by rewrite app_nil_r.
  - unfold consume, peek_items, consume_raw. simpl.
    rewrite (holds_cnt k count Hk Hc _ _ _ q), s32_small by (done || lia).
    fold m. pose proof (holds_tail _ _ _ _ _ Hq). destruct (Z.leb_spec 1 m).
    + pose proof (consume_slots_holds k count Hk Hc b head tail q 0 (Z.to_nat m) Hq) as E.
      simpl in E. rewrite (slot_0 k) in E by done.
      rewrite E by lia. cbn [mbind outcome_bind].
      exists (slot count tail (Z.of_nat (Z.to_nat m))).
      split; [done|]. apply (holds_drop k); [done|done|done|lia].
    + exists tail. replace (Z.to_nat m) with 0%nat by lia.
      replace m with 0 by lia. done.
Qed.

Lemma produce_consume_queue_witness :
  (∃ b' head', produce 4 (Shared [1; 2; 0; 0] 2 0) [3; 4] = Ret (1, Shared b' head' 0) ∧
     holds 4 b' head' 0 [1; 2; 3]) ∧
  (∃ tail', consume 4 (Shared [1; 2; 0; 0] 2 0) 1 =
       Ret (1, [1], Shared [1; 2; 0; 0] 2 tail') ∧
     holds 4 [1; 2; 0; 0] 2 tail' [2]).
Proof.
  apply (produce_consume_queue 2 4 [1; 2; 0; 0] 2 0 [1; 2] [3; 4] 1);
    [lia|reflexivity| |reflexivity|lia].
  split; [reflexivity|lia|reflexivity|reflexivity|].
  intros [|[|j]] Hj; [reflexivity|reflexivity|simpl in Hj; lia].
Defined.
