(* ===== verification/Vm.v ===== *)
(** * Guest memory

    include/vm.hpp and nvme/vm.cpp (and the enclave's copy of both): a span of
    mapped guest memory with bounds-checked views. A view is an offset and a
    length into the mapping; what it reads is read through it. *)
From S2P Require Import Prelude Proto.

(** ** State: the bytes by offset, and the size of the span *)

Record mapping : Type := Mapping {
  vm_bytes : arr;
  vm_size : Z;
}.

(** ** Bounds checks

    [__builtin_add_overflow] on 64-bit operands, then the comparison. *)
Definition check_span (span_size offset size : Z) : bool :=
  negb ((2 ^ 64 <=? offset + size) || (span_size <? offset + size)).

(** Little-endian loads of [n] bytes. *)
Fixpoint load_le (m : arr) (off : Z) (n : nat) : Z :=
  match n with
  | O => 0
  | S n => aget m off + 256 * load_le m (off + 1) n
  end.
Definition load64 (vm : mapping) (off : Z) : Z := load_le (vm_bytes vm) off 8.

(** The view of 64-bit words from [offset] to the end of its page. *)
Definition get_page (vm : mapping) (offset : Z) : outcome (Z * Z) :=
  if negb (check_span (vm_size vm) offset NVME_PAGE_SIZE) then Throw Eout_of_range else
  let poff := Z.land offset (NVME_PAGE_SIZE - 1) in
  if truthy (Z.land poff (8 - 1)) then Throw Einvalid_argument else
  Ret (offset, (NVME_PAGE_SIZE - poff) / 8).

Definition get_u64 (vm : mapping) (offset : Z) : outcome Z :=
  if negb (check_span (vm_size vm) offset 8) then Throw Eout_of_range
  else Ret (load64 vm offset).

Definition get_span (vm : mapping) (offset size : Z) : outcome (Z * Z) :=
  if negb (check_span (vm_size vm) offset size) then Throw Eout_of_range
  else Ret (offset, size).

(** ** Writing bytes

    What [std::copy] and [std::fill] do through a view. *)
Fixpoint store_bytes (m : arr) (off : Z) (l : list Z) : arr :=
  match l with
  | [] => m
  | x :: l => store_bytes (aset m off x) (off + 1) l
  end.
Fixpoint load_bytes (m : arr) (off : Z) (n : nat) : list Z :=
  match n with
  | O => []
  | S n => aget m off :: load_bytes m (off + 1) n
  end.

(** The bytes of a word, low byte first. *)
Fixpoint bytes_of (n : nat) (x : Z) : list Z :=
  match n with
  | O => []
  | S n => x mod 256 :: bytes_of n (x / 256)
  end.

Definition store64 (vm : mapping) (off x : Z) : mapping :=
  Mapping (store_bytes (vm_bytes vm) off (bytes_of 8 x)) (vm_size vm).

(** ** Lemmas *)

Lemma check_span_spec sz off n : 0 <= off → 0 <= n → sz < 2 ^ 64 →
  check_span sz off n = true ↔ off + n <= sz.
Proof. intros. unfold check_span. rewrite negb_true_iff, orb_false_iff. lia. Qed.

Lemma land_page x : Z.land x (NVME_PAGE_SIZE - 1) = x mod 4096.
Proof.
  change (NVME_PAGE_SIZE - 1) with (Z.ones 12). by rewrite Z.land_ones by lia.
Qed.

Lemma land_page' x : Z.land x 4095 = x mod 4096.
Proof. change 4095 with (Z.ones 12). by rewrite Z.land_ones by lia. Qed.

(** A successful view is inside of the mapping and ends at its page's end. *)
Lemma get_page_Ret vm off o n : get_page vm off = Ret (o, n) → 0 <= off →
  o = off ∧ off + 4096 <= vm_size vm ∧ off mod 8 = 0 ∧
  1 <= n <= 512 ∧ 8 * n = 4096 - off mod 4096.
Proof.
  unfold get_page. rewrite land_page. change NVME_PAGE_SIZE with 4096.
  intros H Hoff. unfold check_span, truthy in H.
  change (8 - 1) with (Z.ones 3) in H. rewrite Z.land_ones in H by lia.
  change (2 ^ 3) with 8 in H.
  repeat case_match; try done. to_prop. simplify_eq.
  repeat match goal with H : _ || _ = true |- _ => clear H end.
  Z.div_mod_to_equations. lia.
Qed.

Lemma get_page_aligned vm off : 0 <= off → off mod 4096 = 0 →
  off + 4096 <= vm_size vm → vm_size vm < 2 ^ 64 → get_page vm off = Ret (off, 512).
Proof.
  intros H0 Ha Hs Hv. unfold get_page. rewrite land_page, Ha.
  assert (check_span (vm_size vm) off NVME_PAGE_SIZE = true) as ->; [|done].
  apply check_span_spec; [done|done|done|]. by change NVME_PAGE_SIZE with 4096.
Qed.

Lemma get_span_Ret vm off n : 0 <= off → 0 <= n → vm_size vm < 2 ^ 64 →
  get_span vm off n =
    if decide (off + n <= vm_size vm) then Ret (off, n) else Throw Eout_of_range.
Proof.
  intros. unfold get_span. case_decide as E.
  - by rewrite (proj2 (check_span_spec _ _ _ H H0 H1)).
  - destruct (check_span _ _ _) eqn:C; [|done].
    apply check_span_spec in C; done.
Qed.

(** *** Bytes *)

Lemma length_bytes_of n x : length (bytes_of n x) = n.
Proof. revert x. induction n; intros; simpl; auto. Qed.

Lemma length_load_bytes m off n : length (load_bytes m off n) = n.
Proof. revert off. induction n; intros; simpl; auto. Qed.

Lemma aget_store_out m off l i : i < off ∨ off + Z.of_nat (length l) <= i →
  aget (store_bytes m off l) i = aget m i.
Proof.
  revert m off. induction l as [|x l IH]; intros m off H; simpl in *; [done|].
  rewrite IH by lia. rewrite aget_aset_ne by lia. done.
Qed.

Lemma aget_store_in m off l (i : nat) x : l !! i = Some x →
  aget (store_bytes m off l) (off + Z.of_nat i) = x.
Proof.
  revert m off i. induction l as [|y l IH]; intros m off i H; [done|].
  destruct i as [|i]; simpl in *.
  - injection H as ->. rewrite Z.add_0_r, aget_store_out by lia.
    apply aget_aset_eq.
  - replace (off + Z.of_nat (S i)) with (off + 1 + Z.of_nat i) by lia. by apply IH.
Qed.

Lemma load_store_bytes m off l :
  load_bytes (store_bytes m off l) off (length l) = l.
Proof.
  revert m off. induction l as [|x l IH]; intros m off; simpl; [done|].
  rewrite IH, aget_store_out, aget_aset_eq by lia. done.
Qed.

Lemma load_store_bytes_out m off l off' n :
  off' + Z.of_nat n <= off ∨ off + Z.of_nat (length l) <= off' →
  load_bytes (store_bytes m off l) off' n = load_bytes m off' n.
Proof.
  revert off'. induction n as [|n IH]; intros off' H; simpl; [done|].
  rewrite aget_store_out, IH by lia. done.
Qed.

Lemma load_le_bytes m off n :
  load_le m off n = foldr (λ b x, b + 256 * x) 0 (load_bytes m off n).
Proof. revert off. induction n as [|n IH]; intros; simpl; [done|]. by rewrite IH. Qed.

Lemma bytes_of_value n x : 0 <= x < 2 ^ (8 * Z.of_nat n) →
  foldr (λ b x, b + 256 * x) 0 (bytes_of n x) = x.
Proof.
  revert x. induction n as [|n IH]; intros x Hx; simpl.
  - change (2 ^ (8 * Z.of_nat 0)) with 1 in Hx. lia.
  - rewrite IH.
    + pose proof (Z_div_mod_eq_full x 256). lia.
    + replace (8 * Z.of_nat (S n)) with (8 + 8 * Z.of_nat n) in Hx by lia.
      rewrite Z.pow_add_r in Hx by lia. change (2 ^ 8) with 256 in Hx.
      split; [apply Z.div_pos; lia|]. apply Z.div_lt_upper_bound; lia.
Qed.

Lemma load_store64 vm off x : 0 <= x < 2 ^ 64 → load64 (store64 vm off x) off = x.
Proof.
  intros Hx. unfold load64, store64. cbn [vm_bytes].
  rewrite load_le_bytes.
  pose proof (load_store_bytes (vm_bytes vm) off (bytes_of 8 x)) as E.
  rewrite length_bytes_of in E. rewrite E. by apply bytes_of_value.
Qed.

Lemma load_store64_ne vm off off' x : off' + 8 <= off ∨ off + 8 <= off' →
  load64 (store64 vm off x) off' = load64 vm off'.
Proof.
  intros H. unfold load64, store64. cbn [vm_bytes].
  rewrite !load_le_bytes, load_store_bytes_out; [done|].
  rewrite length_bytes_of. lia.
Qed.

Lemma load64_agree m m' sz sz' off : (∀ i, off <= i < off + 8 → aget m' i = aget m i) →
  load64 (Mapping m' sz') off = load64 (Mapping m sz) off.
Proof. intros H. unfold load64. simpl. by rewrite !H by lia. Qed.

(** A word read from memory whose bytes are bytes. *)
Definition bytes_ok (m : arr) : Prop := ∀ i, 0 <= aget m i < 256.

Lemma load_le_range m off n : bytes_ok m → 0 <= load_le m off n < 2 ^ (8 * Z.of_nat n).
Proof.
  intros Hm. revert off. induction n as [|n IH]; intros off; simpl load_le.
  - done.
  - specialize (IH (off + 1)). pose proof (Hm off).
    replace (8 * Z.of_nat (S n)) with (8 + 8 * Z.of_nat n) by lia.
    rewrite Z.pow_add_r by lia. change (2 ^ 8) with 256. lia.
Qed.

Lemma load64_range vm off : bytes_ok (vm_bytes vm) → 0 <= load64 vm off < 2 ^ 64.
Proof. apply load_le_range. Qed.
