(* ===== verification/Prp.v ===== *)
(** * Walking a command's PRP chain

    include/prp.hpp and nvme/prp.cpp (the enclave's copies are the same code):
    the data pointers of a command are a chain of lists of page addresses; the
    iterator yields one page segment after the other. *)
From S2P Require Import Prelude Proto Vm.

(** ** Data *)

(** [std::span<const uint64_t>]: the two words of the command, or a view of
    guest memory. *)
Inductive prp_list : Type :=
  | CmdList (p1 p2 : Z)
  | PageList (off n : Z).

Definition prpl_size (l : prp_list) : Z :=
  match l with CmdList _ _ => 2 | PageList _ n => n end.

(** [_prpl[i]]: an index past the span is undefined. *)
Definition prpl_get (vm : mapping) (l : prp_list) (i : Z) : outcome Z :=
  match l with
  | CmdList p1 p2 =>
    if i =? 0 then Ret p1 else if i =? 1 then Ret p2 else Throw Eub
  | PageList off n =>
    if (0 <=? i) && (i <? n) then Ret (load64 vm (off + 8 * i)) else Throw Eub
  end.

Record prp_chain_iter : Type := PrpIter {
  prpl : prp_list;
  prpi : Z;
  nbytes : Z;
}.

(** ** Operations *)

Definition prp_at_end (it : prp_chain_iter) : bool := negb (truthy (nbytes it)).

Definition is_data (it : prp_chain_iter) : bool :=
  (prpi it <? u64 (prpl_size (prpl it) - 1)) || (nbytes it <=? NVME_PAGE_SIZE).

Definition prp_this_nbytes (vm : mapping) (it : prp_chain_iter) : outcome Z :=
  e ← prpl_get vm (prpl it) (prpi it);
  let poff := Z.land e (NVME_PAGE_SIZE - 1) in
  Ret (if is_data it then Z.min (NVME_PAGE_SIZE - poff) (nbytes it) else 0).

Definition prp_deref (vm : mapping) (it : prp_chain_iter) : outcome Z :=
  if prp_at_end it then Throw Eruntime else prpl_get vm (prpl it) (prpi it).

(** [operator++]; the assertions are compiled out of a release build. *)
Definition prp_incr (vm : mapping) (it : prp_chain_iter) : outcome prp_chain_iter :=
  if prp_at_end it then Throw Eruntime else
  n ← prp_this_nbytes vm it;
  let it := PrpIter (prpl it) (prpi it + 1) (u64 (nbytes it - n)) in
  if negb (is_data it) then
    next_prpl ← prp_deref vm it;
    '(off, n) ← get_page vm next_prpl;
    Ret (PrpIter (PageList off n) 0 (nbytes it))
  else Ret it.

(** [for (it; !it.at_end(); it++)]: the segments [*it, this_nbytes()]. *)
Fixpoint prp_walk (fuel : nat) (vm : mapping) (it : prp_chain_iter) :
    outcome (list (Z * Z)) :=
  match fuel with
  | O => Throw Efuel
  | S fuel =>
    if prp_at_end it then Ret [] else
    a ← prp_deref vm it;
    n ← prp_this_nbytes vm it;
    it ← prp_incr vm it;
    l ← prp_walk fuel vm it;
    Ret ((a, n) :: l)
  end.

(** The same in a build without assertions, where an index past a view of guest
    memory reads the next word of it. *)
Definition prpl_get_raw (vm : mapping) (l : prp_list) (i : Z) : outcome Z :=
  match l with
  | CmdList _ _ => prpl_get vm l i
  | PageList off _ =>
    if check_span (vm_size vm) (off + 8 * i) 8 then Ret (load64 vm (off + 8 * i)) else Throw Eub
  end.
Definition prp_this_nbytes_raw (vm : mapping) (it : prp_chain_iter) : outcome Z :=
  e ← prpl_get_raw vm (prpl it) (prpi it);
  let poff := Z.land e (NVME_PAGE_SIZE - 1) in
  Ret (if is_data it then Z.min (NVME_PAGE_SIZE - poff) (nbytes it) else 0).
Definition prp_incr_raw (vm : mapping) (it : prp_chain_iter) : outcome prp_chain_iter :=
  if prp_at_end it then Throw Eruntime else
  n ← prp_this_nbytes_raw vm it;
  let it := PrpIter (prpl it) (prpi it + 1) (u64 (nbytes it - n)) in
  if negb (is_data it) then
    next_prpl ← (if prp_at_end it then Throw Eruntime else prpl_get_raw vm (prpl it) (prpi it));
    '(off, n) ← get_page vm next_prpl;
    Ret (PrpIter (PageList off n) 0 (nbytes it))
  else Ret it.

(** Every turn takes at least one byte off. *)
Definition prp_fuel (n : Z) : nat := S (Z.to_nat n).

(** ** Specification *)

Definition page_off (a : Z) : Z := a mod 4096.

(** The segments of a transfer over the data pages [pages], the first one at
    an offset in its page. *)
Fixpoint segments (pages : list Z) (n : Z) : list (Z * Z) :=
  match pages with
  | [] => []
  | a :: pages =>
    if n =? 0 then [] else
    let m := Z.min (4096 - page_off a) n in
    (a, m) :: segments pages (n - m)
  end.

(** How a driver lays the page addresses out in PRP lists: the entry [i] of
    the list of [cnt] entries at [off] and the ones after it describe [n]
    bytes over [pages]. The last entry of a list points to the next list when
    more than a page is left. *)
Inductive list_layout (vm : mapping) (off cnt : Z) : Z → Z → list Z → Prop :=
  | layout_done i n : n = 0 → list_layout vm off cnt i n []
  | layout_entry i n a pages :
      0 < n → 0 <= i < cnt → i + 1 < cnt ∨ n <= 4096 →
      a = load64 vm (off + 8 * i) → page_off a = 0 →
      list_layout vm off cnt (i + 1) (n - Z.min 4096 n) pages →
      list_layout vm off cnt i n (a :: pages)
  | layout_chain i n next cnt' pages :
      4096 < n → i = cnt - 1 → 0 <= i →
      next = load64 vm (off + 8 * i) →
      get_page vm next = Ret (next, cnt') → 1 < cnt' →
      list_layout vm next cnt' 0 n pages →
      list_layout vm off cnt i n pages.

(** The command's two entries. *)
Inductive prp_layout (vm : mapping) (p1 p2 n : Z) : list Z → Prop :=
  | layout_one : 0 < n <= 4096 - page_off p1 → prp_layout vm p1 p2 n [p1]
  | layout_two : 4096 - page_off p1 < n → n - (4096 - page_off p1) <= 4096 →
      page_off p2 = 0 → prp_layout vm p1 p2 n [p1; p2]
  | layout_list cnt pages :
      4096 < n - (4096 - page_off p1) →
      get_page vm p2 = Ret (p2, cnt) → 1 < cnt →
      list_layout vm p2 cnt 0 (n - (4096 - page_off p1)) pages →
      prp_layout vm p1 p2 n (p1 :: pages).

(** The addresses of the words of PRP lists in guest memory that the walk
    reads: the entry of the current segment, and the next one when it is the
    pointer to the next list. *)
Definition word_at (l : prp_list) (i : Z) : list Z :=
  match l with CmdList _ _ => [] | PageList off _ => [off + 8 * i] end.
Definition step_words (vm : mapping) (it : prp_chain_iter) : list Z :=
  word_at (prpl it) (prpi it) ++
  match prp_this_nbytes vm it with
  | Ret n => if is_data (PrpIter (prpl it) (prpi it + 1) (u64 (nbytes it - n)))
             then [] else word_at (prpl it) (prpi it + 1)
  | Throw _ => []
  end.
Inductive reads_word (vm : mapping) (it : prp_chain_iter) (w : Z) : Prop :=
  | reads_here : prp_at_end it = false → w ∈ step_words vm it → reads_word vm it w
  | reads_next it' : prp_incr vm it = Ret it' → reads_word vm it' w → reads_word vm it w.

(** ** Lemmas *)

Lemma get_page_size vm off o n : get_page vm off = Ret (o, n) → 1 <= n <= 512.
Proof.
  unfold get_page. rewrite land_page. change NVME_PAGE_SIZE with 4096.
  change (8 - 1) with (Z.ones 3). rewrite Z.land_ones by lia.
  change (2 ^ 3) with 8. unfold truthy. intros H.
  repeat case_match; try done. to_prop. simplify_eq.
  repeat match goal with H : _ || _ = true |- _ => clear H end.
  Z.div_mod_to_equations. lia.
Qed.

Lemma prpl_get_Ret vm l i a : prpl_get vm l i = Ret a → 0 <= i < prpl_size l.
Proof.
  destruct l; simpl; intros H; repeat case_match; try done; to_prop; lia.
Qed.

(** A step of the iterator depends on the words it reads only. *)
Lemma prpl_get_same vm vm' l i :
  (∀ w, w ∈ word_at l i → load64 vm' w = load64 vm w) → prpl_get vm' l i = prpl_get vm l i.
Proof. intros H. destruct l; [done|]. simpl in *. by rewrite H by set_solver. Qed.

Lemma get_page_same vm vm' off : vm_size vm' = vm_size vm → get_page vm' off = get_page vm off.
Proof. intros H. unfold get_page. by rewrite H. Qed.

Lemma prp_step_same vm vm' it : vm_size vm' = vm_size vm → prp_at_end it = false →
  (∀ w, reads_word vm it w → load64 vm' w = load64 vm w) →
  prp_deref vm' it = prp_deref vm it ∧ prp_this_nbytes vm' it = prp_this_nbytes vm it ∧
  prp_incr vm' it = prp_incr vm it.
Proof.
  intros Hs He Hw.
  assert (∀ w, w ∈ step_words vm it → load64 vm' w = load64 vm w) as Hw'
    by (intros w Hin; by apply Hw, reads_here).
  unfold step_words in Hw'.
  assert (prpl_get vm' (prpl it) (prpi it) = prpl_get vm (prpl it) (prpi it)) as E1.
  { apply prpl_get_same. intros w Hin. apply Hw'. set_solver. }
  assert (prp_this_nbytes vm' it = prp_this_nbytes vm it) as E2
    by (unfold prp_this_nbytes; by rewrite E1).
  split_and!; [unfold prp_deref; by rewrite E1|done|].
  unfold prp_incr. rewrite E2. destruct (prp_at_end it); [done|].
  destruct (prp_this_nbytes vm it) as [n|]; [|done]. cbn [mbind outcome_bind].
  set (it1 := PrpIter _ _ _) in *. destruct (is_data it1) eqn:Hd; [done|]. cbn [negb].
  assert (prp_deref vm' it1 = prp_deref vm it1) as ->.
  { unfold prp_deref. case_match; [done|]. apply prpl_get_same.
    intros w Hin. apply Hw'. apply elem_of_app. by right. }
  destruct (prp_deref vm it1); [|done]. cbn [mbind outcome_bind].
  by rewrite (get_page_same vm vm') by done.
Qed.

(** What the iterator keeps: a list that has entries, a 64-bit count. *)
Definition prp_ok (it : prp_chain_iter) : Prop :=
  0 <= nbytes it < 2 ^ 64 ∧ 1 <= prpl_size (prpl it) <= 512.

(** The second half of [operator++]: go to the next list when the entry is a
    pointer to it. *)
Definition settle (vm : mapping) (it : prp_chain_iter) : outcome prp_chain_iter :=
  if negb (is_data it) then
    next_prpl ← prp_deref vm it;
    '(off, n) ← get_page vm next_prpl;
    Ret (PrpIter (PageList off n) 0 (nbytes it))
  else Ret it.

Lemma is_data_spec it : prp_ok it →
  is_data it = true ↔ prpi it < prpl_size (prpl it) - 1 ∨ nbytes it <= 4096.
Proof.
  intros [H1 H2]. unfold is_data. rewrite u64_small by lia.
  rewrite orb_true_iff, Z.ltb_lt, Z.leb_le. done.
Qed.

Lemma prp_at_end_spec it : prp_at_end it = (nbytes it =? 0).
Proof. unfold prp_at_end, truthy. by rewrite negb_involutive. Qed.

Lemma settle_Ret vm it it' : settle vm it = Ret it' → prp_ok it →
  nbytes it' = nbytes it ∧ prp_ok it'.
Proof.
  unfold settle. intros H Hok. destruct (negb (is_data it)); [|by simplify_eq].
  destruct (prp_deref vm it); [|done]. cbn [mbind outcome_bind] in H.
  destruct (get_page vm _) as [[off m]|] eqn:Hg; [|done].
  apply get_page_size in Hg. cbn [mbind outcome_bind] in H. simplify_eq.
  split; [done|]. split; [apply Hok|done].
Qed.

(** An advance that succeeds takes at least one byte and at most what is left
    of the entry's page. *)
Lemma prp_incr_Ret vm it it' : prp_ok it → prp_incr vm it = Ret it' →
  ∃ a n, prp_deref vm it = Ret a ∧ prp_this_nbytes vm it = Ret n ∧
    0 < n <= 4096 - page_off a ∧ n <= nbytes it ∧
    nbytes it' = nbytes it - n ∧ prp_ok it'.
Proof.
  intros Hok. destruct Hok as [Hn Hs] eqn:Eq. clear Eq. unfold prp_incr.
  destruct (prp_at_end it) eqn:He; [done|]. unfold prp_this_nbytes, prp_deref.
  rewrite He. rewrite prp_at_end_spec in He. to_prop.
  destruct (prpl_get vm (prpl it) (prpi it)) as [a|] eqn:Ha; [|done].
  cbn [mbind outcome_bind]. rewrite land_page. change NVME_PAGE_SIZE with 4096.
  pose proof (Z.mod_pos_bound a 4096 ltac:(lia)) as Hoff.
  pose proof (prpl_get_Ret _ _ _ _ Ha) as Hi.
  destruct (is_data it) eqn:Hd.
  - set (n := Z.min (4096 - a mod 4096) (nbytes it)).
    assert (0 < n <= nbytes it) by lia. rewrite u64_small by lia.
    set (it1 := PrpIter _ _ _).
    assert (prp_ok it1) as Hok1 by (split; simpl; lia).
    intros H'. apply (settle_Ret vm it1) in H' as [Hb Hok']; [|done].
    exists a, n. unfold page_off. split_and!; try done; lia.
  - apply not_true_iff_false in Hd. rewrite is_data_spec in Hd by done.
    rewrite Z.sub_0_r, u64_small by lia. set (it1 := PrpIter _ _ _).
    assert (is_data it1 = false) as ->.
    { apply not_true_iff_false. rewrite is_data_spec by (split; simpl; lia).
      simpl. lia. }
    simpl. unfold prp_at_end, it1; simpl.
    destruct (prpl_get vm (prpl it) (prpi it + 1)) eqn:Hg.
    + apply prpl_get_Ret in Hg. lia.
    + by destruct (negb (truthy (nbytes it))).
Qed.

(** None of the operations runs a loop. *)
Lemma prpl_get_no_fuel vm l i : prpl_get vm l i ≠ Throw Efuel.
Proof. unfold prpl_get. by repeat case_match. Qed.

Lemma prp_deref_no_fuel vm it : prp_deref vm it ≠ Throw Efuel.
Proof. unfold prp_deref. case_match; [done|]. apply prpl_get_no_fuel. Qed.

Lemma prp_this_nbytes_no_fuel vm it : prp_this_nbytes vm it ≠ Throw Efuel.
Proof.
  unfold prp_this_nbytes. pose proof (prpl_get_no_fuel vm (prpl it) (prpi it)) as H.
  destruct (prpl_get _ _ _) as [|e]; cbn [mbind outcome_bind]; congruence.
Qed.

Lemma prp_incr_no_fuel vm it : prp_incr vm it ≠ Throw Efuel.
Proof.
  unfold prp_incr. destruct (prp_at_end it); [done|].
  destruct (prp_this_nbytes vm it) eqn:E; cbn [mbind outcome_bind];
    [|intros [= ->]; by apply prp_this_nbytes_no_fuel in E].
  destruct (negb _); [|done]. set (it1 := PrpIter _ _ _).
  destruct (prp_deref vm it1) as [p|] eqn:E'; cbn [mbind outcome_bind];
    [|intros [= ->]; by apply prp_deref_no_fuel in E'].
  unfold get_page. by repeat case_match.
Qed.

(** The total length of a list of segments. *)
Definition total (l : list (Z * Z)) : Z := foldr (λ s x, s.2 + x) 0 l.

Definition in_page (s : Z * Z) : Prop := 0 < s.2 <= 4096 - page_off s.1.

Lemma prp_walk_spec fuel vm it : prp_ok it → nbytes it < Z.of_nat fuel →
  match prp_walk fuel vm it with
  | Ret l => total l = nbytes it ∧ Forall in_page l
  | Throw e => e ≠ Efuel
  end.
Proof.
  revert it. induction fuel as [|fuel IH]; intros it Hok Hf.
  { destruct Hok. lia. }
  simpl. destruct (prp_at_end it) eqn:He.
  { rewrite prp_at_end_spec in He. to_prop. by rewrite He. }
  destruct (prp_incr vm it) as [it'|e] eqn:Hi.
  - destruct (prp_incr_Ret _ _ _ Hok Hi) as (a & n & -> & -> & Hn & Hle & Hn' & Hok').
    cbn [mbind outcome_bind]. specialize (IH it' Hok' ltac:(lia)).
    destruct (prp_walk fuel vm it') as [l|e]; cbn [mbind outcome_bind]; [|done].
    destruct IH as [Ht Hl]. split; [simpl; lia|by constructor].
  - destruct (prp_deref vm it) as [a|e'] eqn:Hd; cbn [mbind outcome_bind];
      [|intros ->; by apply prp_deref_no_fuel in Hd].
    destruct (prp_this_nbytes vm it) as [n|e'] eqn:Ht; cbn [mbind outcome_bind];
      [|intros ->; by apply prp_this_nbytes_no_fuel in Ht].
    intros ->. by apply prp_incr_no_fuel in Hi.
Qed.

(** Whatever the fuel, the segments of a walk that ends are within pages. *)
Lemma prp_walk_in_page fuel vm it segs :
  prp_ok it → prp_walk fuel vm it = Ret segs → Forall in_page segs.
Proof.
  revert it segs. induction fuel as [|fuel IH]; intros it segs Hok Hw; [done|].
  simpl in Hw. destruct (prp_at_end it); [by simplify_eq|].
  destruct (prp_deref vm it) as [a|] eqn:Ha; [|done].
  destruct (prp_this_nbytes vm it) as [n|] eqn:Hn; [|done].
  destruct (prp_incr vm it) as [it'|] eqn:Hi; [|done].
  destruct (prp_incr_Ret _ _ _ Hok Hi) as (a' & n' & Ha' & Hn' & Hp & _ & _ & Hok').
  cbn [mbind outcome_bind] in Hw. rewrite Ha in Ha'. rewrite Hn in Hn'.
  injection Ha' as <-. injection Hn' as <-.
  destruct (prp_walk fuel vm it') eqn:E; [|done].
  injection Hw as <-. constructor; [done|by eapply IH].
Qed.

(** *** Compliant layouts *)

Lemma prp_incr_settle vm it a : prp_ok it → 0 < nbytes it → is_data it = true →
  prpl_get vm (prpl it) (prpi it) = Ret a →
  prp_deref vm it = Ret a ∧
  prp_this_nbytes vm it = Ret (Z.min (4096 - page_off a) (nbytes it)) ∧
  prp_incr vm it = settle vm (PrpIter (prpl it) (prpi it + 1)
    (nbytes it - Z.min (4096 - page_off a) (nbytes it))).
Proof.
  intros [Hn Hs] Hp Hd Ha. unfold prp_incr, prp_this_nbytes, prp_deref.
  assert (prp_at_end it = false) as -> by (rewrite prp_at_end_spec; lia).
  rewrite Ha. cbn [mbind outcome_bind]. rewrite Hd, land_page.
  change NVME_PAGE_SIZE with 4096. split_and!; [done..|].
  fold (page_off a). assert (0 <= page_off a < 4096) by by apply Z.mod_pos_bound.
  rewrite u64_small by lia. done.
Qed.

(** One turn of the walk on a data entry. *)
Lemma prp_walk_data fuel vm it a : prp_ok it → 0 < nbytes it → is_data it = true →
  prpl_get vm (prpl it) (prpi it) = Ret a →
  let m := Z.min (4096 - page_off a) (nbytes it) in
  prp_walk (S fuel) vm it =
    (it ← settle vm (PrpIter (prpl it) (prpi it + 1) (nbytes it - m));
     l ← prp_walk fuel vm it;
     Ret ((a, m) :: l)).
Proof.
  intros Hok Hp Hd Ha m.
  destruct (prp_incr_settle vm it a Hok Hp Hd Ha) as (E1 & E2 & E3).
  simpl. assert (prp_at_end it = false) as -> by (rewrite prp_at_end_spec; lia).
  by rewrite E1, E2, E3.
Qed.

Lemma prpl_get_page vm off cnt i : 0 <= i < cnt →
  prpl_get vm (PageList off cnt) i = Ret (load64 vm (off + 8 * i)).
Proof.
  intros. simpl. by replace ((0 <=? i) && (i <? cnt)) with true by lia.
Qed.

Lemma settle_data vm it : is_data it = true → settle vm it = Ret it.
Proof. intros H. unfold settle. by rewrite H. Qed.

Lemma is_data_last l i n : prp_ok (PrpIter l i n) → n <= 4096 →
  is_data (PrpIter l i n) = true.
Proof. intros Hok Hn. apply is_data_spec; [done|]. by right. Qed.

Lemma list_layout_walk vm off cnt i n pages : 1 <= cnt <= 512 → 0 <= n < 2 ^ 64 →
  list_layout vm off cnt i n pages → ∀ fuel, n < Z.of_nat fuel →
  (it ← settle vm (PrpIter (PageList off cnt) i n); prp_walk fuel vm it)
  = Ret (segments pages n).
Proof.
  intros Hc Hn Hl. revert Hc Hn.
  induction Hl as [off cnt i n Hn0|off cnt i n a pages Hn0 Hi Hcond Ha Hoff _ IH
    |off cnt i n next cnt' pages Hn0 Hi Hi0 Hnext Hg Hcnt' _ IH];
    intros Hc Hn fuel Hf.
  - subst n. rewrite settle_data by (apply is_data_last; [by split|lia]).
    destruct fuel as [|fuel]; [lia|]. done.
  - destruct fuel as [|fuel]; [lia|].
    assert (prp_ok (PrpIter (PageList off cnt) i n)) as Hok by (split; simpl; lia).
    assert (is_data (PrpIter (PageList off cnt) i n) = true) as Hd
      by (apply is_data_spec; [done|]; simpl; lia).
    rewrite settle_data by done. cbn [mbind outcome_bind].
    rewrite (prp_walk_data fuel vm _ a); [|done|done|done|].
    2:{ cbn [prpl prpi]. rewrite prpl_get_page by lia. by rewrite Ha. }
    cbn [prpl prpi nbytes]. rewrite Hoff, Z.sub_0_r.
    specialize (IH Hc ltac:(lia) fuel ltac:(lia)).
    destruct (settle vm _) as [it'|]; [|done]. cbn [mbind outcome_bind] in *.
    rewrite IH. cbn [mbind outcome_bind segments].
    rewrite Hoff, Z.sub_0_r. by replace (n =? 0) with false by lia.
  - assert (prp_ok (PrpIter (PageList off cnt) i n)) as Hok by (split; simpl; lia).
    assert (is_data (PrpIter (PageList off cnt) i n) = false) as Hd.
    { apply not_true_iff_false. rewrite is_data_spec by done. simpl. lia. }
    unfold settle at 1. rewrite Hd. unfold prp_deref.
    assert (prp_at_end (PrpIter (PageList off cnt) i n) = false) as ->
      by (rewrite prp_at_end_spec; simpl; lia).
    cbn [negb prpl prpi nbytes]. rewrite prpl_get_page by lia. rewrite <- Hnext.
    cbn [mbind outcome_bind]. rewrite Hg. cbn [mbind outcome_bind].
    pose proof (get_page_size _ _ _ _ Hg) as Hsz.
    specialize (IH Hsz Hn fuel Hf).
    rewrite settle_data in IH; [done|]. apply is_data_spec; [by split|]. left. simpl. lia.
Qed.

Lemma prp_layout_walk vm p1 p2 n pages fuel : 0 < n < 2 ^ 64 →
  prp_layout vm p1 p2 n pages → n < Z.of_nat fuel →
  prp_walk fuel vm (PrpIter (CmdList p1 p2) 0 n) = Ret (segments pages n).
Proof.
  intros Hn Hl Hf. destruct fuel as [|fuel]; [lia|].
  assert (∀ i m, 0 <= m < 2 ^ 64 → prp_ok (PrpIter (CmdList p1 p2) i m)) as Hok
    by (intros; split; simpl; lia).
  assert (0 <= page_off p1 < 4096) by by apply Z.mod_pos_bound.
  rewrite (prp_walk_data fuel vm _ p1); [|apply Hok; lia|simpl; lia| |done].
  2:{ apply is_data_spec; [apply Hok; lia|]. simpl. lia. }
  cbn [prpl prpi nbytes].
  destruct Hl as [Hl|Hl1 Hl2 Hp2|cnt pages Hl Hg Hcnt Hlist]; cbn [segments].
  - rewrite Z.min_r, Z.sub_diag by lia.
    rewrite settle_data by (apply is_data_last; [apply Hok|]; lia).
    cbn [mbind outcome_bind]. destruct fuel as [|fuel]; [lia|]. simpl.
    by replace (n =? 0) with false by lia.
  - rewrite Z.min_l by lia. replace (n =? 0) with false by lia.
    rewrite settle_data by (apply is_data_last; [apply Hok|]; lia).
    cbn [mbind outcome_bind]. destruct fuel as [|fuel]; [lia|].
    rewrite (prp_walk_data fuel vm _ p2); [|apply Hok; lia|simpl; lia| |done].
    2:{ apply is_data_last; [apply Hok; lia|lia]. }
    cbn [prpl prpi nbytes].
    rewrite Hp2, Z.sub_0_r. rewrite (Z.min_r 4096) by lia. rewrite Z.sub_diag.
    rewrite settle_data by (apply is_data_last; [apply Hok|]; lia).
    cbn [mbind outcome_bind]. destruct fuel as [|fuel]; [lia|]. simpl.
    by replace (n - (4096 - page_off p1) =? 0) with false by lia.
  - rewrite Z.min_l by lia. replace (n =? 0) with false by lia.
    set (n' := n - (4096 - page_off p1)) in *.
    assert (is_data (PrpIter (CmdList p1 p2) 1 n') = false) as Hd.
    { apply not_true_iff_false. rewrite is_data_spec by (apply Hok; lia). simpl. lia. }
    unfold settle. change (0 + 1) with 1. rewrite Hd. unfold prp_deref.
    assert (prp_at_end (PrpIter (CmdList p1 p2) 1 n') = false) as ->
      by (rewrite prp_at_end_spec; simpl; lia).
    cbn [negb prpl prpi nbytes].
    change (prpl_get vm (CmdList p1 p2) 1) with (Ret p2 : outcome Z).
    cbn [mbind outcome_bind].
    rewrite Hg. cbn [mbind outcome_bind].
    pose proof (list_layout_walk vm p2 cnt 0 n' pages) as IH.
    rewrite settle_data in IH.
    2:{ apply is_data_spec; [|left; simpl; lia].
        apply get_page_size in Hg. split; simpl; lia. }
    cbn [mbind outcome_bind] in IH.
    by rewrite IH by (done || lia || by eapply get_page_size).
Qed.

(** *** Aligned lists *)

(** The words of the lists the walk reads have no offset in their page: data
    pages after the first are whole, and lists begin where pages begin. *)
Definition lists_aligned (vm : mapping) (it : prp_chain_iter) : Prop :=
  ∀ w, reads_word vm it w → page_off (load64 vm w) = 0.

(** The words a step reads, and those of the steps after it. *)
Lemma lists_aligned_step vm it :
  forallb (λ w, page_off (load64 vm w) =? 0) (step_words vm it) = true →
  (∀ it', prp_incr vm it = Ret it' → lists_aligned vm it') → lists_aligned vm it.
Proof.
  intros Hs Hn w [_ Hw|it' E Hw]; [|by eapply Hn].
  rewrite forallb_forall in Hs. apply Z.eqb_eq, Hs. by apply list_elem_of_In.
Qed.
Lemma lists_aligned_end vm it : prp_at_end it = true → lists_aligned vm it.
Proof.
  intros He w [He' _|it' E _]; [congruence|]. unfold prp_incr in E. by rewrite He in E.
Qed.

(** The iterator is at a data entry of a list in guest memory. *)
Definition in_list (it : prp_chain_iter) : Prop :=
  prp_ok it ∧ is_data it = true ∧
  ∃ off cnt, prpl it = PageList off cnt ∧ 0 <= prpi it < cnt.

Lemma get_page_whole vm off : page_off off = 0 →
  get_page vm off = Ret (off, 512) ∨ get_page vm off = Throw Eout_of_range.
Proof.
  unfold page_off. intros H. unfold get_page. rewrite land_page, H. case_match; [by right|]. by left.
Qed.

Lemma get_page_cases vm off :
  (∃ cnt, get_page vm off = Ret (off, cnt) ∧ 1 <= cnt <= 512 ∧ (page_off off ≠ 4088 → 2 <= cnt)) ∨
  get_page vm off = Throw Eout_of_range ∨ get_page vm off = Throw Einvalid_argument ∧ off mod 8 ≠ 0.
Proof.
  destruct (get_page vm off) as [[o c]|e] eqn:E.
  - left. pose proof (get_page_size _ _ _ _ E) as Hs. unfold get_page in E.
    rewrite land_page in E. change NVME_PAGE_SIZE with 4096 in E.
    change (8 - 1) with (Z.ones 3) in E. rewrite Z.land_ones in E by lia. change (2 ^ 3) with 8 in E.
    unfold truthy in E. repeat (case_match; [done|]). injection E as <- <-.
    exists ((4096 - off mod 4096) / 8). split; [done|]. split; [done|]. unfold page_off. to_prop.
    clear Hs. Z.div_mod_to_equations. lia.
  - right. unfold get_page in E. rewrite land_page in E. change NVME_PAGE_SIZE with 4096 in E.
    change (8 - 1) with (Z.ones 3) in E. rewrite Z.land_ones in E by lia. change (2 ^ 3) with 8 in E.
    unfold truthy in E. case_match; [injection E as <-; by left|]. case_match eqn:E2; [|done].
    injection E as <-. right. split; [done|]. to_prop. Z.div_mod_to_equations. lia.
Qed.

(** One turn in a list: it ends, stays in a list, or the next list is outside
    of the guest's memory. *)
Lemma in_list_step vm it : in_list it → 0 < nbytes it → lists_aligned vm it →
  (∃ it', prp_incr vm it = Ret it' ∧ nbytes it' < nbytes it ∧ lists_aligned vm it' ∧
     (nbytes it' = 0 ∨ in_list it')) ∨
  prp_incr vm it = Throw Eout_of_range.
Proof.
  intros (Hok & Hd & off & cnt & El & Hi) Hp Ha. destruct it as [l i n]. simpl in El, Hi, Hp. subst l.
  pose proof Hok as [Hn Hs]. simpl in Hn, Hs.
  set (it := PrpIter (PageList off cnt) i n) in *.
  set (a := load64 vm (off + 8 * i)).
  assert (prp_at_end it = false) as He by (rewrite prp_at_end_spec; simpl; lia).
  assert (page_off a = 0) as Hoff.
  { apply Ha, reads_here; [done|]. unfold step_words. simpl. by left. }
  destruct (prp_incr_settle vm it a Hok Hp Hd (prpl_get_page vm off cnt i Hi)) as (_ & Em & Ei).
  rewrite Hoff, Z.sub_0_r in Em, Ei. cbn [prpl prpi nbytes it] in Em, Ei.
  set (it1 := PrpIter (PageList off cnt) (i + 1) (n - Z.min 4096 n)) in *.
  assert (prp_ok it1) as Hok1 by (split; simpl; lia).
  assert (∀ it', prp_incr vm it = Ret it' → lists_aligned vm it') as Hnext
    by (intros it' E w Hw; by eapply Ha, reads_next).
  assert (0 <= n - Z.min 4096 n < n) as Hless by lia.
  destruct (is_data it1) eqn:Hd1.
  - left. exists it1. rewrite Ei in Hnext |- *. rewrite settle_data in Hnext |- * by done.
    split_and!; [done|simpl; lia|by apply Hnext|]. destruct (Z.eq_dec (nbytes it1) 0); [by left|].
    right. split_and!; [done|done|]. exists off, cnt. split; [done|].
    apply is_data_spec in Hd; [|done]. simpl in *. lia.
  - assert (¬ (i + 1 < cnt - 1 ∨ n - Z.min 4096 n <= 4096)) as Hnd.
    { intros Hx. apply (is_data_spec it1 Hok1) in Hx. congruence. }
    apply is_data_spec in Hd; [|done]. cbn [it prpi nbytes prpl prpl_size] in Hd.
    set (b := load64 vm (off + 8 * (i + 1))).
    assert (page_off b = 0) as Hb.
    { apply Ha, reads_here; [done|]. unfold step_words. rewrite Em. cbn [prpl prpi nbytes it].
      rewrite u64_small by lia. fold it1. rewrite Hd1. simpl. by right; left. }
    assert (settle vm it1 = '(o, c) ← get_page vm b; Ret (PrpIter (PageList o c) 0 (nbytes it1))) as Es.
    { unfold settle, prp_deref. rewrite Hd1.
      assert (prp_at_end it1 = false) as -> by (rewrite prp_at_end_spec; simpl; lia).
      cbn [negb it1 prpl prpi]. by rewrite prpl_get_page by lia. }
    rewrite Es in Ei. destruct (get_page_whole vm b Hb) as [Eg|Eg]; rewrite Eg in Ei; [left|by right].
    eexists. split; [exact Ei|]. split; [simpl; lia|]. split; [by apply Hnext|]. right.
    assert (prp_ok (PrpIter (PageList b 512) 0 (nbytes it1))) as Hok2 by (split; simpl; lia).
    split; [done|]. split; [apply is_data_spec; [done|]; simpl; lia|]. exists b, 512. split; [done|simpl; lia].
Qed.

Lemma in_list_walk fuel vm it : nbytes it < Z.of_nat fuel → nbytes it = 0 ∨ in_list it →
  lists_aligned vm it →
  (∃ l, prp_walk fuel vm it = Ret l) ∨ prp_walk fuel vm it = Throw Eout_of_range.
Proof.
  revert it. induction fuel as [|fuel IH]; intros it Hf Hit Ha.
  { destruct Hit as [H|[[H _] _]]; lia. }
  simpl. rewrite prp_at_end_spec. destruct (Z.eqb_spec (nbytes it) 0) as [|Hne]; [left; by eexists|].
  destruct Hit as [|Hit]; [done|]. pose proof Hit as ([Hn _] & _ & off & cnt & El & Hi).
  assert (∃ a, prp_deref vm it = Ret a ∧ ∃ m, prp_this_nbytes vm it = Ret m) as (a & -> & m & ->).
  { unfold prp_deref, prp_this_nbytes. rewrite prp_at_end_spec, (proj2 (Z.eqb_neq _ _) Hne), El.
    rewrite prpl_get_page by done. by repeat eexists. }
  destruct (in_list_step vm it Hit ltac:(lia) Ha) as [(it' & -> & Hlt & Ha' & Hit')| ->]; [|by right].
  cbn [mbind outcome_bind].
  by destruct (IH it' ltac:(lia) Hit' Ha') as [[l ->]| ->]; [left; eexists|right].
Qed.

(** The first turn, from the words of the command. *)
Lemma first_turn fuel vm p1 p2 n : 0 < n < 2 ^ 64 → let m := Z.min (4096 - page_off p1) n in
  prp_incr vm (PrpIter (CmdList p1 p2) 0 n) = settle vm (PrpIter (CmdList p1 p2) 1 (n - m)) ∧
  prp_walk (S fuel) vm (PrpIter (CmdList p1 p2) 0 n) =
    (it ← settle vm (PrpIter (CmdList p1 p2) 1 (n - m)); l ← prp_walk fuel vm it; Ret ((p1, m) :: l)).
Proof.
  intros Hn m. set (it := PrpIter (CmdList p1 p2) 0 n).
  assert (prp_ok it) as Hok by (split; simpl; lia).
  assert (is_data it = true) as Hd by (apply is_data_spec; [done|]; simpl; lia).
  split.
  - assert (0 < nbytes it) as Hp by (simpl; lia).
    by destruct (prp_incr_settle vm it p1 Hok Hp Hd eq_refl) as (_ & _ & ->).
  - by apply (prp_walk_data fuel vm it p1 Hok); [simpl; lia| |].
Qed.

(** The second word of the command when it is a list. *)
Lemma list_turn vm p1 p2 n : 4096 < n < 2 ^ 64 →
  settle vm (PrpIter (CmdList p1 p2) 1 n) = ('(o, c) ← get_page vm p2; Ret (PrpIter (PageList o c) 0 n)).
Proof.
  intros Hn. set (it := PrpIter (CmdList p1 p2) 1 n).
  assert (prp_ok it) as Hok by (split; simpl; lia).
  assert (is_data it = false) as Hd.
  { apply not_true_iff_false. rewrite is_data_spec by done. simpl. lia. }
  unfold settle, prp_deref. rewrite Hd.
  by assert (prp_at_end it = false) as -> by (rewrite prp_at_end_spec; simpl; lia).
Qed.

(** ** Properties *)

(** C15. The walk over a command's data pointers. (1) Whatever the guest wrote
    in its memory and its command, as long as the walk reads within its lists
    it ends within [nbytes + 1] turns, and if it does not throw, the segments
    it yields add up to the transfer length and each of them lies within one
    page. It can also read past the end of a list ([Throw Eub]), where nothing
    is said about what follows (see [one_entry_list_hangs]). (2) It does not
    when the second word of the command is page aligned where it is a data
    page, is not the last word of its page where it is a list, and the words
    of the lists that the walk reads are page aligned: then it yields the
    segments, or throws because a list is outside of the guest's memory or not
    aligned to words. *)
Theorem prp_walk_terminates vm p1 p2 n : 0 <= n < 2 ^ 64 →
  let it := PrpIter (CmdList p1 p2) 0 n in
  let rest := n - (4096 - page_off p1) in
  match prp_walk (prp_fuel n) vm it with
  | Ret l => total l = n ∧ Forall in_page l
  | Throw e => e ≠ Efuel
  end ∧
  ((0 < rest <= 4096 → page_off p2 = 0) → (4096 < rest → page_off p2 ≠ 4088) → lists_aligned vm it →
   (∃ l, prp_walk (prp_fuel n) vm it = Ret l) ∨
   4096 < rest ∧ (prp_walk (prp_fuel n) vm it = Throw Eout_of_range ∨
                  prp_walk (prp_fuel n) vm it = Throw Einvalid_argument ∧ p2 mod 8 ≠ 0)).
Proof.
  intros Hn it rest. split.
  { apply (prp_walk_spec (prp_fuel n) vm it); [split; simpl; lia|unfold prp_fuel; simpl; lia]. }
  intros Hpage Hlist Ha. assert (0 <= page_off p1 < 4096) by by apply Z.mod_pos_bound.
  destruct (Z.eq_dec n 0) as [->|Hn0]; [left; by eexists|].
  destruct (first_turn (Z.to_nat n) vm p1 p2 n ltac:(lia)) as [Ei Ew].
  unfold prp_fuel, it. rewrite Ew. unfold rest in *.
  destruct (Z.le_gt_cases n (4096 - page_off p1)) as [Hle|Hgt].
  - left. rewrite Z.min_r, Z.sub_diag by lia.
    rewrite settle_data by (apply is_data_last; [by split|lia]).
    destruct (Z.to_nat n) as [|f] eqn:Ef; [lia|]. simpl. by eexists.
  - rewrite Z.min_l in * by lia. set (m := n - (4096 - page_off p1)) in *.
    destruct (Z.le_gt_cases m 4096) as [Hle2|Hgt2].
    + left. specialize (Hpage ltac:(lia)).
      assert (prp_ok (PrpIter (CmdList p1 p2) 1 m)) as Hok by (split; simpl; lia).
      rewrite settle_data by (apply is_data_last; [done|lia]). cbn [mbind outcome_bind].
      destruct (Z.to_nat n) as [|[|f]] eqn:Ef; [lia|lia|].
      rewrite (prp_walk_data _ vm _ p2 Hok); [|simpl; lia|by apply is_data_last|done].
      cbn [prpl prpi nbytes]. rewrite Hpage, Z.sub_0_r, (Z.min_r 4096), Z.sub_diag by lia.
      rewrite settle_data by (apply is_data_last; [by split|lia]). simpl. by eexists.
    + rewrite list_turn in Ei |- * by lia.
      destruct (get_page_cases vm p2) as [(cnt & Eg & Hc & Hc2)|[Eg|[Eg Hmod]]]; rewrite Eg in *;
        [|right; split; [done|]; by left|right; split; [done|]; by right].
      specialize (Hc2 (Hlist Hgt2)). cbn [mbind outcome_bind] in *.
      set (it' := PrpIter (PageList p2 cnt) 0 m) in *.
      assert (prp_ok it') as Hok by (split; simpl; lia).
      assert (in_list it') as Hin.
      { split; [done|]. split; [apply is_data_spec; [done|]; simpl; lia|]. exists p2, cnt. split; [done|simpl; lia]. }
      destruct (in_list_walk (Z.to_nat n) vm it') as [[l ->]| ->];
        [simpl; lia|by right|intros w Hw; by eapply Ha, reads_next|left; by eexists|].
      right. split; [done|by left].
Qed.

(** A list of two pages, in a memory of 16 pages. *)
Definition two_page_vm : mapping := store64 (store64 (Mapping ∅ 65536) 8192 12288) 8200 16384.
Lemma two_page_aligned : lists_aligned two_page_vm (PrpIter (CmdList 100 8192) 0 9000).
Proof.
  do 3 (apply lists_aligned_step; [reflexivity|]; intros it' E; vm_compute in E; injection E as <-).
  by apply lists_aligned_end.
Qed.

Lemma prp_walk_terminates_witness :
  let walk := prp_walk (prp_fuel 9000) two_page_vm (PrpIter (CmdList 100 8192) 0 9000) in
  match walk with
  | Ret l => total l = 9000 ∧ Forall in_page l
  | Throw e => e ≠ Efuel
  end ∧
  ((∃ l, walk = Ret l) ∨
   4096 < 9000 - (4096 - page_off 100) ∧
   (walk = Throw Eout_of_range ∨ walk = Throw Einvalid_argument ∧ 8192 mod 8 ≠ 0)).
Proof.
  destruct (prp_walk_terminates two_page_vm 100 8192 9000 ltac:(lia)) as [H1 H2].
  split; [exact H1|]. apply H2.
  - intros [_ H]. by vm_compute in H.
  - intros _. discriminate.
  - apply two_page_aligned.
Defined.

(** A list that is the last word of its page has one entry, which the walk
    takes for the pointer to the next list although nothing says where that
    is: with more than a page left it reads past the list. *)
Theorem one_entry_list_overrun vm p1 p2 n : n < 2 ^ 64 → 4096 < n - (4096 - page_off p1) →
  page_off p2 = 4088 → check_span (vm_size vm) p2 NVME_PAGE_SIZE = true →
  prp_walk (prp_fuel n) vm (PrpIter (CmdList p1 p2) 0 n) = Throw Eub.
Proof.
  intros Hn Hrest Hp2 Hin. assert (0 <= page_off p1 < 4096) by by apply Z.mod_pos_bound.
  destruct (first_turn (Z.to_nat n) vm p1 p2 n ltac:(lia)) as [_ Ew]. unfold prp_fuel. rewrite Ew.
  rewrite Z.min_l by lia. set (m := n - (4096 - page_off p1)) in *. rewrite list_turn by lia.
  assert (get_page vm p2 = Ret (p2, 1)) as ->
    by (unfold get_page; rewrite Hin, land_page; unfold page_off in Hp2; by rewrite Hp2).
  cbn [mbind outcome_bind]. set (it := PrpIter (PageList p2 1) 0 m).
  destruct (Z.to_nat n) as [|f] eqn:Ef; [lia|]. cbn [prp_walk].
  assert (prp_ok it) as Hok by (split; simpl; lia).
  assert (is_data it = false) as Hd.
  { apply not_true_iff_false. rewrite is_data_spec by done. simpl. lia. }
  assert (prp_at_end it = false) as He by (rewrite prp_at_end_spec; simpl; lia).
  rewrite He. unfold prp_deref, prp_incr, prp_this_nbytes. rewrite He, Hd.
  cbn [it prpl prpi nbytes]. rewrite prpl_get_page by lia. cbn [mbind outcome_bind].
  rewrite Z.sub_0_r, u64_small by lia. set (it1 := PrpIter (PageList p2 1) (0 + 1) m).
  assert (is_data it1 = false) as ->.
  { apply not_true_iff_false. rewrite is_data_spec by (split; simpl; lia). simpl. lia. }
  unfold prp_deref. by assert (prp_at_end it1 = false) as -> by (rewrite prp_at_end_spec; simpl; lia).
Qed.

(** In a build without assertions it is the guest's next word that is read, and
    when that is the address of the list, the loop stays where it is forever,
    yielding segments of no bytes. *)
Example one_entry_list_hangs :
  let vm := store64 (Mapping ∅ 65536) 4096 4088 in
  let it := PrpIter (PageList 4088 1) 0 8192 in
  prp_incr_raw vm (PrpIter (CmdList 8192 4088) 0 12288) = Ret it ∧
  prp_at_end it = false ∧ prp_this_nbytes_raw vm it = Ret 0 ∧ prp_incr_raw vm it = Ret it.
Proof. vm_compute. done. Qed.

(** C16. On the layouts the NVMe specification allows (a data page in the first
    entry, then a second data page or a chain of page-aligned lists whose last
    entry points to the next list while more than a page is left), the walk
    yields exactly the data pages in order, the first from its offset, with
    the lengths that cover the transfer. *)
Theorem prp_walk_layout vm p1 p2 n pages : 0 < n < 2 ^ 64 →
  prp_layout vm p1 p2 n pages →
  prp_walk (prp_fuel n) vm (PrpIter (CmdList p1 p2) 0 n) = Ret (segments pages n).
Proof. intros Hn Hl. apply prp_layout_walk; [done|done|]. unfold prp_fuel. lia. Qed.

(** A list of two entries at the end of a page, chained to a second list. *)
Definition demo_vm : mapping :=
  store64 (store64 (store64 (store64 (Mapping ∅ 262144)
    (4096 + 8 * 510) 0x10000) (4096 + 8 * 511) 0x2000)
    0x2000 0x11000) 0x2008 0x12000.

Lemma prp_walk_layout_witness :
  prp_walk (prp_fuel 12500) demo_vm (PrpIter (CmdList 0x20010 (4096 + 8 * 510)) 0 12500)
  = Ret [(0x20010, 4080); (0x10000, 4096); (0x11000, 4096); (0x12000, 228)].
Proof.
  apply (prp_walk_layout demo_vm 0x20010 (4096 + 8 * 510) 12500
    [0x20010; 0x10000; 0x11000; 0x12000]); [lia|].
  apply (layout_list _ _ _ _ 2); [reflexivity|vm_compute; reflexivity|lia|].
  apply layout_entry; [reflexivity|lia|lia|vm_compute; reflexivity|reflexivity|].
  apply (layout_chain _ _ _ _ _ 0x2000 512);
    [reflexivity|reflexivity|discriminate|vm_compute; reflexivity
    |vm_compute; reflexivity|lia|].
  apply layout_entry; [reflexivity|lia|lia|vm_compute; reflexivity|reflexivity|].
  apply layout_entry; [reflexivity|lia|lia|vm_compute; reflexivity|reflexivity|].
  apply layout_done. reflexivity.
Defined.

(** The offset of the second entry is trusted: when the transfer ends
    within a page of it but the guest gave it an offset that leaves less of
    its page than the transfer needs, the walk reads past the two words of
    the command ([assert]s are compiled out of a release build). *)
Theorem prp2_offset_overrun vm p1 p2 n : 0 < n < 2 ^ 64 →
  4096 - page_off p1 < n → n - (4096 - page_off p1) <= 4096 →
  4096 - page_off p2 < n - (4096 - page_off p1) →
  prp_walk (prp_fuel n) vm (PrpIter (CmdList p1 p2) 0 n) = Throw Eub.
Proof.
  intros Hn H1 H2 H3.
  assert (0 <= page_off p1 < 4096) by by apply Z.mod_pos_bound.
  assert (0 <= page_off p2 < 4096) by by apply Z.mod_pos_bound.
  assert (∀ i m, 0 <= m < 2 ^ 64 → prp_ok (PrpIter (CmdList p1 p2) i m)) as Hok
    by (intros; split; simpl; lia).
  unfold prp_fuel. rewrite (prp_walk_data _ vm _ p1); [|apply Hok; lia|simpl; lia| |done].
  2:{ apply is_data_spec; [apply Hok; lia|]. simpl. lia. }
  cbn [prpl prpi nbytes]. rewrite Z.min_l by lia.
  rewrite settle_data by (apply is_data_last; [apply Hok|]; lia).
  cbn [mbind outcome_bind].
  destruct (Z.to_nat n) as [|[|fuel]] eqn:Hf; [lia|lia|].
  rewrite (prp_walk_data _ vm _ p2); [|apply Hok; lia|simpl; lia| |done].
  2:{ apply is_data_last; [apply Hok; lia|lia]. }
  cbn [prpl prpi nbytes]. rewrite Z.min_l by lia.
  rewrite settle_data by (apply is_data_last; [apply Hok|]; lia).
  cbn [mbind outcome_bind]. simpl. unfold prp_deref.
  rewrite prp_at_end_spec. simpl nbytes.
  by replace (_ =? 0) with false by lia.
Qed.

Lemma prp2_offset_overrun_witness :
  prp_walk (prp_fuel 8192) (Mapping ∅ 65536) (PrpIter (CmdList 4096 8704) 0 8192)
  = Throw Eub.
Proof.
  apply (prp2_offset_overrun (Mapping ∅ 65536) 4096 8704 8192);
    [lia|reflexivity|discriminate|reflexivity].
Defined.
