(* ===== verification/NvmeBase.v ===== *)
(** * The controller base class and its command iterators

    include/nvme.hpp and nvme/nvme.cpp: identification data fetched once and
    cached, the size checks of a command, and the iterators over a command's
    logical blocks and pages. *)
From S2P Require Import Prelude Proto Vm Prp.

(** ** Data *)

Definition MAX_VIRTUAL_NAMESPACES : Z := 16.

(** [struct nvme_id_ns]: the fields the code reads. [lbaf_ds i] is
    [lbaf[i].ds]. *)
Record nvme_id_ns : Type := NvmeIdNs {
  flbas : Z;
  lbaf_ds : list Z;
}.

(** The cached identifications: [_id] (its [mdts]) and [_idns]. *)
Record nvme : Type := Nvme {
  nv_id : option Z;
  nv_idns : gmap Z nvme_id_ns;
}.

Definition no_id : nvme := Nvme None ∅.

(** The block count against the controller's maximum transfer size, in the
    order of the shifts. Shifting by 64 or more is undefined in the language;
    no device reports such an [mdts]. *)
Definition check_nblocks (nblocks mdts lba_shift : Z) : bool :=
  nblocks <=? Z.shiftr (u64 (Z.shiftl (u64 (Z.shiftl 1 mdts)) NVME_PAGE_SHIFT)) lba_shift.

(** [lbaf] has 16 elements, so the index is in range. *)
Definition lba_shift (ns : nvme_id_ns) : Z :=
  default 0 (lbaf_ds ns !! Z.to_nat (Z.land (flbas ns) 0xf)).

Section base.

(** The two identification requests of the notify descriptor: an error number
    or the answer. *)
Context (ioctl_id_vctrl : Z + Z).
Context (ioctl_id_vns : Z → Z + nvme_id_ns).

(** ** Identification *)

Definition do_id_vctrl : eff nvme Z :=
  s ← get;
  match nv_id s with
  | Some _ => mret 0
  | None =>
    match ioctl_id_vctrl with
    | inl errno => mret (- errno)
    | inr mdts => _ ← put (Nvme (Some mdts) (nv_idns s)); mret 0
    end
  end.

Definition do_id_vns (nsid : Z) : eff nvme Z :=
  if (nsid =? 0) || (MAX_VIRTUAL_NAMESPACES <=? nsid) then mret (- 22) else
  s ← get;
  match nv_idns s !! nsid with
  | Some _ => mret 0
  | None =>
    match ioctl_id_vns nsid with
    | inl errno => mret (- errno)
    | inr ns => _ ← put (Nvme (nv_id s) (<[nsid := ns]> (nv_idns s))); mret 0
    end
  end.

Definition id_vctrl : eff nvme (option Z) :=
  s ← get;
  _ ← (match nv_id s with
       | Some _ => mret tt
       | None => r ← do_id_vctrl; ensure (0 <=? r) Eruntime
       end);
  gets nv_id.

Definition invalid_ns : exn := Envme (Z.lor NVME_SC_DNR NVME_SC_INVALID_NS).
Definition invalid_field : exn := Envme (Z.lor NVME_SC_DNR NVME_SC_INVALID_FIELD).

Definition id_vns (nsid : Z) : eff nvme (option nvme_id_ns) :=
  if (nsid =? 0) || (MAX_VIRTUAL_NAMESPACES <=? nsid) then throw invalid_ns else
  s ← get;
  _ ← (match nv_idns s !! nsid with
       | Some _ => mret tt
       | None => r ← do_id_vns nsid; ensure (0 <=? r) invalid_ns
       end);
  gets (λ s, nv_idns s !! nsid).

Definition ns_lba_shift (nsid : Z) : eff nvme Z :=
  idns ← id_vns nsid;
  match idns with
  | None => throw invalid_ns
  | Some ns => mret (lba_shift ns)
  end.

Definition ns_cmd_check_nbytes (nblocks lbas : Z) : eff nvme Z :=
  id ← id_vctrl;
  match id with
  | None => throw invalid_ns
  | Some mdts =>
    if negb (check_nblocks nblocks mdts lbas) then throw invalid_field
    else mret (u64 (Z.shiftl nblocks lbas))
  end.

(** ** Block iterator *)

Record nvme_cmd_lba_iter : Type := LbaIter {
  li_shift : Z;
  li_slba : Z;
  li_nbytes : Z;
  li_prp : prp_chain_iter;
  cli : Z;
  pli : Z;
}.

Definition nblocks_of (cmd : nvme_command) : Z := length0 cmd + 1.

Definition lba_begin (cmd : nvme_command) : eff nvme nvme_cmd_lba_iter :=
  shift ← ns_lba_shift (nsid cmd);
  n ← ns_cmd_check_nbytes (nblocks_of cmd) shift;
  mret (LbaIter shift (slba cmd) n
          (PrpIter (CmdList (prp1 cmd) (prp2 cmd)) 0 n) 0 0).

Definition lba_at_end (it : nvme_cmd_lba_iter) : bool := prp_at_end (li_prp it).

Definition lba_incr (vm : mapping) (it : nvme_cmd_lba_iter) :
    outcome nvme_cmd_lba_iter :=
  let p := pli it + 1 in
  n ← prp_this_nbytes vm (li_prp it);
  if Z.min NVME_PAGE_SIZE n <=? u64 (Z.shiftl p (li_shift it)) then
    prp ← prp_incr vm (li_prp it);
    Ret (LbaIter (li_shift it) (li_slba it) (li_nbytes it) prp (u64 (cli it + p)) 0)
  else Ret (LbaIter (li_shift it) (li_slba it) (li_nbytes it) (li_prp it) (cli it) p).

Definition lba_deref (vm : mapping) (it : nvme_cmd_lba_iter) : outcome (Z * Z) :=
  a ← prp_deref vm (li_prp it);
  get_span vm (u64 (a + Z.shiftl (pli it) (li_shift it))) (Z.shiftl 1 (li_shift it)).

Definition cmd_lba_size (it : nvme_cmd_lba_iter) : Z := Z.shiftl 1 (li_shift it).
Definition command_lba_index (it : nvme_cmd_lba_iter) : Z := u64 (cli it + pli it).
Definition lba (it : nvme_cmd_lba_iter) : Z := u64 (li_slba it + cli it + pli it).

(** [for (it; !it.at_end(); it++)]: the block views with their index. *)
Fixpoint lba_walk (fuel : nat) (vm : mapping) (it : nvme_cmd_lba_iter) :
    outcome (list ((Z * Z) * Z)) :=
  match fuel with
  | O => Throw Efuel
  | S fuel =>
    if lba_at_end it then Ret [] else
    s ← lba_deref vm it;
    let k := command_lba_index it in
    it ← lba_incr vm it;
    l ← lba_walk fuel vm it;
    Ret ((s, k) :: l)
  end.

(** ** Page iterator *)

Record nvme_cmd_page_iter : Type := PageIter {
  pg_shift : Z;
  pg_slba : Z;
  pg_nbytes : Z;
  pg_prp : prp_chain_iter;
  pg_cli : Z;
}.

Definition page_begin (cmd : nvme_command) : eff nvme nvme_cmd_page_iter :=
  shift ← ns_lba_shift (nsid cmd);
  n ← ns_cmd_check_nbytes (nblocks_of cmd) shift;
  mret (PageIter shift (slba cmd) n
          (PrpIter (CmdList (prp1 cmd) (prp2 cmd)) 0 n) 0).

Definition page_at_end (it : nvme_cmd_page_iter) : bool := prp_at_end (pg_prp it).

Definition page_incr (vm : mapping) (it : nvme_cmd_page_iter) :
    outcome nvme_cmd_page_iter :=
  prp ← prp_incr vm (pg_prp it);
  Ret (PageIter (pg_shift it) (pg_slba it) (pg_nbytes it) prp (pg_cli it)).

Definition page_deref (vm : mapping) (it : nvme_cmd_page_iter) : outcome (Z * Z) :=
  a ← prp_deref vm (pg_prp it);
  n ← prp_this_nbytes vm (pg_prp it);
  get_span vm a n.

End base.

(** ** Specification *)

(** The blocks of a segment, the first one with index [k]. *)
Definition seg_blocks (L : Z) (k : Z) (s : Z * Z) : list ((Z * Z) * Z) :=
  (λ j, ((s.1 + Z.of_nat j * L, L), k + Z.of_nat j)) <$> seq 0 (Z.to_nat (s.2 / L)).

Fixpoint blocks (L : Z) (k : Z) (segs : list (Z * Z)) : list ((Z * Z) * Z) :=
  match segs with
  | [] => []
  | s :: segs => seg_blocks L k s ++ blocks L (k + s.2 / L) segs
  end.

(** ** Lemmas *)

Section walk.
Context (sh : Z) (Hsh : 0 <= sh <= 12).
Let L := 2 ^ sh.

Lemma L_pos : 0 < L <= 4096.
Proof using All.
  unfold L. split; [apply Z.pow_pos_nonneg; lia|].
  change 4096 with (2 ^ 12). apply Z.pow_le_mono_r; lia.
Qed.

Lemma shl_L j : Z.shiftl j sh = j * L.
Proof using All. by rewrite Z.shiftl_mul_pow2 by lia. Qed.

Lemma seg_blocks_S k a j m :
  (λ i, ((a + Z.of_nat i * L, L), k + Z.of_nat i)) <$> seq j (S m) =
  ((a + Z.of_nat j * L, L), k + Z.of_nat j) ::
  ((λ i, ((a + Z.of_nat i * L, L), k + Z.of_nat i)) <$> seq (S j) m).
Proof. done. Qed.

(** The blocks of one segment from the in-page index [j] on; then the walk
    goes on with the next segment. *)
Lemma lba_walk_segment vm sl n0 prp prp' a m c (r j : nat) fuel :
  prp_ok prp → vm_size vm < 2 ^ 64 → 0 <= a → a + m <= vm_size vm →
  prp_at_end prp = false → prp_deref vm prp = Ret a →
  prp_this_nbytes vm prp = Ret m → prp_incr vm prp = Ret prp' →
  0 < m <= 4096 → m = Z.of_nat (j + r) * L → (0 < r)%nat →
  0 <= c → c + Z.of_nat (j + r) < 2 ^ 64 →
  lba_walk (r + fuel) vm (LbaIter sh sl n0 prp c (Z.of_nat j)) =
    (l ← lba_walk fuel vm (LbaIter sh sl n0 prp' (c + Z.of_nat (j + r)) 0);
     Ret (((λ i, ((a + Z.of_nat i * L, L), c + Z.of_nat i)) <$> seq j r) ++ l)).
Proof using All.
  intros Hok Hv Ha Hin He Hd Ht Hi Hm. pose proof L_pos as HL.
  revert j. induction r as [|r IH]; intros j Hmj Hr Hc Hcb; [lia|].
  cbn [Nat.add lba_walk]. unfold lba_at_end, lba_deref, lba_incr, command_lba_index.
  cbn [li_prp pli li_shift li_slba li_nbytes cli]. rewrite He, Hd, Ht.
  cbn [mbind outcome_bind]. rewrite !shl_L.
  assert (Z.of_nat j * L + L <= m) as Hjm by nia.
  rewrite (u64_small (a + _)) by lia. rewrite (u64_small (c + _)) by lia.
  rewrite get_span_Ret by lia. rewrite decide_True by lia.
  rewrite Z.mul_1_l. cbn [mbind outcome_bind].
  change NVME_PAGE_SIZE with 4096. rewrite (Z.min_r 4096) by lia.
  assert ((Z.of_nat j + 1) * L <= m) as Hj1 by lia.
  rewrite u64_small by lia.
  destruct (Z.leb_spec m ((Z.of_nat j + 1) * L)) as [Hend|Hmore].
  - assert (r = 0)%nat as -> by nia.
    rewrite Hi. cbn [mbind outcome_bind]. rewrite u64_small by lia.
    replace (c + (Z.of_nat j + 1)) with (c + Z.of_nat (j + 1)) by lia.
    cbn [Nat.add]. by destruct (lba_walk fuel vm _).
  - cbn [mbind outcome_bind].
    replace (Z.of_nat j + 1) with (Z.of_nat (S j)) by lia.
    rewrite IH by lia. rewrite seg_blocks_S.
    replace (S j + r)%nat with (j + S r)%nat by lia.
    by destruct (lba_walk fuel vm _).
Qed.

Definition seg_ok (vm : mapping) (s : Z * Z) : Prop :=
  0 <= s.1 ∧ s.1 + s.2 <= vm_size vm ∧ s.2 mod L = 0.

Lemma total_nonneg segs : Forall in_page segs → 0 <= total segs.
Proof. induction 1 as [|s l [H _] _ IH]; simpl; lia. Qed.

Lemma lba_walk_segments fuel vm sl n0 segs : vm_size vm < 2 ^ 64 → ∀ prp c,
  prp_ok prp → prp_walk fuel vm prp = Ret segs →
  Forall (seg_ok vm) segs → 0 <= c → c + total segs / L < 2 ^ 64 →
  lba_walk (S (Z.to_nat (total segs / L))) vm (LbaIter sh sl n0 prp c 0)
  = Ret (blocks L c segs).
Proof using All.
  intros Hv. pose proof L_pos as HL. revert segs.
  induction fuel as [|fuel IH]; intros segs prp c Hok Hw Hs Hc Hcb; [done|].
  simpl in Hw. destruct (prp_at_end prp) eqn:He.
  { injection Hw as <-. simpl. unfold lba_at_end. simpl. by rewrite He. }
  destruct (prp_deref vm prp) as [a|] eqn:Hd; [|done].
  destruct (prp_this_nbytes vm prp) as [m|] eqn:Ht; [|done].
  destruct (prp_incr vm prp) as [prp'|] eqn:Hi; [|done].
  cbn [mbind outcome_bind] in Hw.
  destruct (prp_walk fuel vm prp') as [segs'|] eqn:Hw'; [|done].
  injection Hw as <-. inversion_clear Hs as [|? ? (Ha & Hin & Hmod) Hs'].
  destruct (prp_incr_Ret _ _ _ Hok Hi) as (a' & m' & Ha' & Hm' & Hm & Hle & Hn' & Hok').
  rewrite Hd in Ha'. rewrite Ht in Hm'. injection Ha' as <-. injection Hm' as <-.
  simpl in Ha, Hin, Hmod.
  assert (0 <= page_off a < 4096) by by apply Z.mod_pos_bound.
  assert (0 <= total segs') as Htot.
  { apply total_nonneg. by eapply prp_walk_in_page. }
  assert (m = m / L * L) as HmL.
  { pose proof (Z_div_mod_eq_full m L). lia. }
  assert (0 < m / L) by nia.
  simpl total in *. assert ((m + total segs') / L = m / L + total segs' / L) as Hdiv.
  { replace (m + total segs') with (total segs' + m / L * L) by lia.
    rewrite Z.div_add by lia. lia. }
  rewrite Hdiv in *. assert (0 <= total segs' / L) by (apply Z.div_pos; lia).
  replace (S (Z.to_nat (m / L + total segs' / L)))
    with (Z.to_nat (m / L) + S (Z.to_nat (total segs' / L)))%nat by lia.
  rewrite (lba_walk_segment vm sl n0 prp prp' a m c (Z.to_nat (m / L)) 0); try done; try lia.
  replace (c + Z.of_nat (0 + Z.to_nat (m / L))) with (c + m / L) by lia.
  rewrite (IH segs') by (done || lia). done.
Qed.
End walk.

Lemma length_seg_blocks L k s : length (seg_blocks L k s) = Z.to_nat (s.2 / L).
Proof. unfold seg_blocks. by rewrite length_fmap, length_seq. Qed.

Lemma blocks_index L k segs i x : 0 < L →
  Forall (λ s : Z * Z, 0 <= s.2 ∧ s.2 mod L = 0) segs →
  blocks L k segs !! i = Some x → x.2 = k + Z.of_nat i.
Proof.
  intros HL Hs. revert k i. induction Hs as [|s segs [H1 H2] _ IH]; intros k i Hi; [done|].
  simpl in Hi. assert (0 <= s.2 / L) by (apply Z.div_pos; lia).
  destruct (decide (i < length (seg_blocks L k s))%nat) as [Hlt|].
  - rewrite lookup_app_l in Hi by done. unfold seg_blocks in Hi.
    rewrite list_lookup_fmap in Hi. rewrite length_seg_blocks in Hlt.
    rewrite lookup_seq_lt in Hi by done. by injection Hi as <-.
  - rewrite lookup_app_r in Hi by lia. apply IH in Hi. rewrite Hi.
    rewrite length_seg_blocks in *. lia.
Qed.

Lemma length_blocks L k segs : 0 < L →
  Forall (λ s : Z * Z, 0 <= s.2 ∧ s.2 mod L = 0) segs →
  length (blocks L k segs) = Z.to_nat (total segs / L).
Proof.
  intros HL Hs. revert k. induction Hs as [|s segs [H1 H2] Hs IH]; intros k; simpl; [done|].
  rewrite length_app, length_seg_blocks, IH.
  assert (0 <= total segs) by (clear -Hs; induction Hs as [|? ? []]; simpl; lia).
  assert (0 <= s.2 / L) by (apply Z.div_pos; lia).
  assert (0 <= total segs / L) by (apply Z.div_pos; lia).
  replace (s.2 + total segs) with (total segs + s.2 / L * L).
  - rewrite Z.div_add by lia. lia.
  - pose proof (Z_div_mod_eq_full s.2 L). lia.
Qed.

Lemma sub_mod0 a b L : a mod L = 0 → b mod L = 0 → (a - b) mod L = 0.
Proof. intros Ha Hb. by rewrite Zminus_mod, Ha, Hb. Qed.

Lemma segments_mod L pages n : 0 < L → 4096 mod L = 0 → 0 <= n → n mod L = 0 →
  Forall (λ a, page_off a mod L = 0) pages →
  Forall (λ s : Z * Z, 0 <= s.2 ∧ s.2 mod L = 0) (segments pages n).
Proof.
  intros HL H4 Hn Hm Hp. revert n Hn Hm.
  induction Hp as [|a pages Ha _ IH]; intros n Hn Hm; simpl; [constructor|].
  destruct (n =? 0); constructor; simpl.
  - assert (0 <= page_off a < 4096) by by apply Z.mod_pos_bound.
    split; [lia|]. destruct (Z.min_spec (4096 - page_off a) n) as [[_ ->]|[_ ->]]; [|done].
    by apply sub_mod0.
  - assert (0 <= page_off a < 4096) by by apply Z.mod_pos_bound.
    apply IH; [lia|].
    destruct (Z.min_spec (4096 - page_off a) n) as [[_ ->]|[_ ->]];
      [|by rewrite Z.sub_diag].
    by repeat apply sub_mod0.
Qed.

Lemma list_layout_aligned vm off cnt i n pages :
  list_layout vm off cnt i n pages → Forall (λ a, page_off a = 0) pages.
Proof. induction 1; auto. Qed.

Lemma prp_layout_aligned vm p1 p2 n pages L : 0 < L → page_off p1 mod L = 0 →
  prp_layout vm p1 p2 n pages → Forall (λ a, page_off a mod L = 0) pages.
Proof.
  intros HL H1 Hl. destruct Hl as [|? ? H3|cnt pages ? ? ? H3];
    repeat constructor; try done.
  - by rewrite H3, Z.mod_0_l by lia.
  - apply list_layout_aligned in H3. eapply Forall_impl; [done|].
    intros a Ha. simpl. by rewrite Ha, Z.mod_0_l by lia.
Qed.

Lemma prp_layout_total vm p1 p2 n pages : 0 < n < 2 ^ 64 →
  prp_layout vm p1 p2 n pages → total (segments pages n) = n.
Proof.
  intros Hn Hl. pose proof (prp_walk_spec (prp_fuel n) vm (PrpIter (CmdList p1 p2) 0 n)) as H.
  rewrite (prp_layout_walk _ _ _ _ pages) in H by (done || unfold prp_fuel; lia).
  apply H; [split; simpl; lia|unfold prp_fuel; simpl; lia].
Qed.

(** Identification from the cache. *)
Lemma ns_lba_shift_cached ioc s nsid ns : 0 < nsid < MAX_VIRTUAL_NAMESPACES →
  nv_idns s !! nsid = Some ns →
  ns_lba_shift ioc nsid s = (Ret (lba_shift ns), s).
Proof.
  intros Hn Hs. unfold ns_lba_shift, id_vns.
  replace ((nsid =? 0) || (MAX_VIRTUAL_NAMESPACES <=? nsid)) with false by lia.
  unfold get, gets, mbind, mret, eff_bind, eff_ret. rewrite Hs. cbv beta iota.
  by rewrite Hs.
Qed.

Lemma ns_cmd_check_cached ioc s mdts nb lbas : nv_id s = Some mdts →
  check_nblocks nb mdts lbas = true →
  ns_cmd_check_nbytes ioc nb lbas s = (Ret (u64 (Z.shiftl nb lbas)), s).
Proof.
  intros Hs Hc. unfold ns_cmd_check_nbytes, id_vctrl, get, gets.
  unfold mbind, mret, eff_bind, eff_ret. rewrite Hs. cbv beta iota.
  by rewrite Hs, Hc.
Qed.

Lemma lba_begin_cached ioc iov s cmd mdts ns : 0 < nsid cmd < MAX_VIRTUAL_NAMESPACES →
  nv_id s = Some mdts → nv_idns s !! nsid cmd = Some ns →
  check_nblocks (nblocks_of cmd) mdts (lba_shift ns) = true →
  lba_begin ioc iov cmd s =
    (Ret (let n := u64 (Z.shiftl (nblocks_of cmd) (lba_shift ns)) in
          LbaIter (lba_shift ns) (slba cmd) n
            (PrpIter (CmdList (prp1 cmd) (prp2 cmd)) 0 n) 0 0), s).
Proof.
  intros Hn Hid Hns Hc. unfold lba_begin, mbind, mret, eff_bind, eff_ret.
  rewrite (ns_lba_shift_cached iov s _ ns) by done.
  by rewrite (ns_cmd_check_cached ioc s mdts) by done.
Qed.

(** A read or write that the code can carry out: a known namespace, a size
    within the controller's limit, a compliant layout of block-aligned data
    inside of guest memory. *)
Definition cmd_bytes (cmd : nvme_command) (ns : nvme_id_ns) : Z :=
  nblocks_of cmd * 2 ^ lba_shift ns.
Record transfer_ok (nv : nvme) (vm : mapping) (cmd : nvme_command)
    (ns : nvme_id_ns) (pages : list Z) : Prop := {
  to_nsid : 0 < nsid cmd < MAX_VIRTUAL_NAMESPACES;
  to_size : ∃ mdts, nv_id nv = Some mdts ∧
    check_nblocks (nblocks_of cmd) mdts (lba_shift ns) = true;
  to_ns : nv_idns nv !! nsid cmd = Some ns;
  to_shift : 0 <= lba_shift ns <= 12;
  to_vm : vm_size vm < 2 ^ 64;
  to_layout : prp_layout vm (prp1 cmd) (prp2 cmd) (cmd_bytes cmd ns) pages;
  to_aligned : page_off (prp1 cmd) mod 2 ^ lba_shift ns = 0;
  to_inside : Forall (λ x : Z * Z, 0 <= x.1 ∧ x.1 + x.2 <= vm_size vm)
    (segments pages (cmd_bytes cmd ns));
}.

(** The views of its blocks. *)
Definition cmd_blocks (cmd : nvme_command) (ns : nvme_id_ns) (pages : list Z) :
    list ((Z * Z) * Z) :=
  blocks (2 ^ lba_shift ns) 0 (segments pages (cmd_bytes cmd ns)).

Lemma nblocks_range cmd : 1 <= nblocks_of cmd <= 2 ^ 16.
Proof. unfold nblocks_of. pose proof (length0_range cmd). lia. Qed.

Lemma cmd_bytes_range cmd ns : 0 <= lba_shift ns <= 12 → 0 < cmd_bytes cmd ns < 2 ^ 64.
Proof.
  intros Hsh. pose proof (nblocks_range cmd). pose proof (L_pos _ Hsh). unfold cmd_bytes. nia.
Qed.

(** Its ranges are whole blocks, and cover it. *)
Lemma transfer_whole nv vm cmd ns pages (n := cmd_bytes cmd ns) : transfer_ok nv vm cmd ns pages →
  total (segments pages n) = n ∧
  Forall (λ s : Z * Z, 0 <= s.2 ∧ s.2 mod 2 ^ lba_shift ns = 0) (segments pages n).
Proof.
  intros [_ _ _ Hsh _ Hl Ha _]. pose proof (cmd_bytes_range cmd ns Hsh) as Hn.
  fold n in Hl, Hn. set (L := 2 ^ lba_shift ns) in *.
  assert (0 < L <= 4096) as HL by by apply L_pos.
  assert (4096 mod L = 0) as H4.
  { unfold L. replace 4096 with (2 ^ (12 - lba_shift ns) * 2 ^ lba_shift ns).
    - apply Z.mod_mul. lia.
    - rewrite <- Z.pow_add_r by lia. replace (12 - _ + _) with 12 by lia. done. }
  split; [by apply (prp_layout_total vm (prp1 cmd) (prp2 cmd))|].
  apply segments_mod; [lia|done|lia|apply Z.mod_mul; lia|].
  by apply (prp_layout_aligned vm (prp1 cmd) (prp2 cmd) n); [lia| |].
Qed.

Lemma transfer_walk ioc iov nv vm cmd ns pages : transfer_ok nv vm cmd ns pages →
  ∃ it, lba_begin ioc iov cmd nv = (Ret it, nv) ∧
    li_slba it = slba cmd ∧ li_shift it = lba_shift ns ∧ li_nbytes it = cmd_bytes cmd ns ∧
    li_prp it = PrpIter (CmdList (prp1 cmd) (prp2 cmd)) 0 (cmd_bytes cmd ns) ∧
    lba_walk (S (Z.to_nat (nblocks_of cmd))) vm it = Ret (cmd_blocks cmd ns pages) ∧
    Z.of_nat (length (cmd_blocks cmd ns pages)) = nblocks_of cmd ∧
    ∀ k x, cmd_blocks cmd ns pages !! k = Some x → x.2 = Z.of_nat k.
Proof.
  intros Hok. destruct (transfer_whole _ _ _ _ _ Hok) as [Ht Hm].
  destruct Hok as [Hnsid (mdts & Hid & Hc) Hns Hsh Hvm Hl Ha Hin].
  unfold cmd_blocks. pose proof (nblocks_range cmd) as Hnb.
  pose proof (cmd_bytes_range cmd ns Hsh) as Hn. unfold cmd_bytes in *.
  set (L := 2 ^ lba_shift ns) in *. set (n := nblocks_of cmd * L) in *.
  assert (0 < L <= 4096) as HL by by apply L_pos.
  assert (n / L = nblocks_of cmd) as Hdiv by (apply Z.div_mul; lia).
  eexists. split; [by apply (lba_begin_cached ioc iov nv cmd mdts ns)|].
  cbv zeta. rewrite Z.shiftl_mul_pow2 by lia. fold L. fold n. rewrite (u64_small n) by lia.
  split_and!; try done.
  - assert (Z.to_nat (nblocks_of cmd) = Z.to_nat (total (segments pages n) / L))
      as -> by (by rewrite Ht, Hdiv).
    apply (lba_walk_segments (lba_shift ns) Hsh (prp_fuel n)); try done; try lia.
    + split; simpl; lia.
    + apply prp_layout_walk; [done|done|]. unfold prp_fuel. lia.
    + rewrite Forall_forall in Hm, Hin |- *. intros x Hx.
      destruct (Hm x Hx), (Hin x Hx). by split_and!.
    + rewrite Ht. fold L. lia.
  - rewrite length_blocks, Ht, Hdiv by (done || lia). lia.
  - intros k x Hx. apply blocks_index in Hx; [lia|lia|done].
Qed.

(** A step of the block iterator depends on the PRP words only, and the steps
    that follow read no others. *)
Lemma lba_step_same vm vm' it : vm_size vm' = vm_size vm → lba_at_end it = false →
  (∀ w, reads_word vm (li_prp it) w → load64 vm' w = load64 vm w) →
  lba_deref vm' it = lba_deref vm it ∧ lba_incr vm' it = lba_incr vm it.
Proof.
  intros Hs He Hw. destruct (prp_step_same vm vm' (li_prp it) Hs He Hw) as (E1 & E2 & E3).
  split; [unfold lba_deref, get_span; by rewrite E1, Hs|].
  unfold lba_incr. by rewrite E2, E3.
Qed.

Lemma lba_incr_reads vm it it' w : lba_incr vm it = Ret it' →
  reads_word vm (li_prp it') w → reads_word vm (li_prp it) w.
Proof.
  unfold lba_incr. destruct (prp_this_nbytes vm (li_prp it)); [|done]. cbn [mbind outcome_bind].
  case_match; [|by intros [= <-]].
  destruct (prp_incr vm (li_prp it)) eqn:E; [|done]. intros [= <-] Hr. by eapply reads_next.
Qed.

(** ** Properties *)

(** C17. The block iterator visits exactly the blocks of the command, in
    order: on a compliant layout of block-aligned data, it yields
    [length + 1] views, the k-th one with index k, each one block long, and
    they are the blocks of the data segments one after the other. *)
Theorem lba_iter_visits_blocks ioc iov s cmd vm mdts ns pages :
  let L := 2 ^ lba_shift ns in
  let n := nblocks_of cmd * L in
  0 < nsid cmd < MAX_VIRTUAL_NAMESPACES →
  nv_id s = Some mdts → nv_idns s !! nsid cmd = Some ns →
  0 <= lba_shift ns <= 12 → vm_size vm < 2 ^ 64 →
  check_nblocks (nblocks_of cmd) mdts (lba_shift ns) = true →
  prp_layout vm (prp1 cmd) (prp2 cmd) n pages → page_off (prp1 cmd) mod L = 0 →
  Forall (λ x : Z * Z, 0 <= x.1 ∧ x.1 + x.2 <= vm_size vm) (segments pages n) →
  ∃ it l, lba_begin ioc iov cmd s = (Ret it, s) ∧
    lba_walk (S (Z.to_nat (nblocks_of cmd))) vm it = Ret l ∧
    l = blocks L 0 (segments pages n) ∧
    Z.of_nat (length l) = nblocks_of cmd ∧
    ∀ k x, l !! k = Some x → x.2 = Z.of_nat k.
Proof.
  intros L n Hnsid Hid Hns Hsh Hvm Hc Hl Ha Hin.
  destruct (transfer_walk ioc iov s vm cmd ns pages) as (it & E1 & _ & _ & _ & _ & E2 & E3 & E4);
    [by econstructor; eauto|]. by exists it, (blocks L 0 (segments pages n)).
Qed.

Definition demo_ns : nvme_id_ns := NvmeIdNs 0 [9].
Definition demo_ctrl : nvme := Nvme (Some 5) {[ 1 := demo_ns ]}.
Definition demo_cmd : nvme_command :=
  NvmeCommand nvme_cmd_write 0 0 1 0 0 0 0x20200 0x10000 8 0 9 0 0 0.

Lemma lba_iter_visits_blocks_witness :
  ∃ it l, lba_begin (inl 5) (λ _, inl 5) demo_cmd demo_ctrl = (Ret it, demo_ctrl) ∧
    lba_walk 11 (Mapping ∅ 262144) it = Ret l ∧
    l = blocks 512 0 (segments [0x20200; 0x10000] 5120) ∧
    Z.of_nat (length l) = 10 ∧ ∀ k x, l !! k = Some x → x.2 = Z.of_nat k.
Proof.
  apply (lba_iter_visits_blocks (inl 5) (λ _, inl 5) demo_ctrl demo_cmd
    (Mapping ∅ 262144) 5 demo_ns [0x20200; 0x10000]).
  - by split.
  - reflexivity.
  - reflexivity.
  - by split.
  - reflexivity.
  - reflexivity.
  - by apply layout_two.
  - reflexivity.
  - repeat constructor; discriminate.
Defined.

(** C18. The transfer-size check is exact and guards the multiplication: a
    command passes it precisely when its bytes fit in the controller's
    maximum of [2 ^ mdts] pages, and then the byte count that is returned is
    the product itself, not a wrapped one; otherwise the answer is an invalid
    field error. The cached identification is not changed. *)
Theorem ns_cmd_check_nbytes_exact ioc s mdts nb lbas :
  nv_id s = Some mdts → 0 <= mdts <= 51 → 0 <= lbas → 0 <= nb →
  ns_cmd_check_nbytes ioc nb lbas s =
    (if decide (nb * 2 ^ lbas <= 2 ^ mdts * 4096)
     then Ret (nb * 2 ^ lbas) else Throw invalid_field, s).
Proof.
  intros Hid Hm Hl Hn.
  assert (2 ^ mdts * 4096 = 2 ^ (mdts + 12)) as E by (rewrite Z.pow_add_r by lia; done).
  assert (0 < 2 ^ lbas) by (apply Z.pow_pos_nonneg; lia).
  assert (2 ^ mdts * 4096 < 2 ^ 64) by (rewrite E; apply Z.pow_lt_mono_r; lia).
  assert (0 < 2 ^ mdts) by (apply Z.pow_pos_nonneg; lia).
  assert (check_nblocks nb mdts lbas = bool_decide (nb * 2 ^ lbas <= 2 ^ mdts * 4096)) as Hc.
  { unfold check_nblocks, NVME_PAGE_SHIFT. rewrite shiftl_1 by lia.
    rewrite (u64_small (2 ^ mdts)) by lia.
    rewrite Z.shiftl_mul_pow2, Z.shiftr_div_pow2 by lia. change (2 ^ 12) with 4096.
    rewrite u64_small by lia. apply eq_true_iff_eq. rewrite Z.leb_le, bool_decide_eq_true.
    split; intros Hle.
    - pose proof (Z.mul_div_le (2 ^ mdts * 4096) (2 ^ lbas)). nia.
    - apply Z.div_le_lower_bound; lia. }
  case_decide as D.
  - rewrite (ns_cmd_check_cached ioc s mdts) by (done || by rewrite Hc, bool_decide_true).
    rewrite Z.shiftl_mul_pow2, u64_small by lia. done.
  - unfold ns_cmd_check_nbytes, id_vctrl, get, gets.
    unfold mbind, mret, eff_bind, eff_ret. rewrite Hid. cbv beta iota.
    by rewrite Hid, Hc, bool_decide_false.
Qed.

Lemma ns_cmd_check_nbytes_exact_witness :
  ns_cmd_check_nbytes (inl 5) 257 9 demo_ctrl = (Throw invalid_field, demo_ctrl).
Proof.
  apply (ns_cmd_check_nbytes_exact (inl 5) demo_ctrl 5 257 9);
    [reflexivity|lia|lia|lia].
Defined.
