(* ===== verification/Xcow.v ===== *)
(** * The copy-on-write image format

    include/xcow/*.hpp, xcow/xcow_file.cpp and xcow/xcow_snap.cpp: the metadata
    file of a virtual disk. It holds a header, a linked list of snapshot tables
    and, for each snapshot, a two-level translation table from clusters of the
    virtual disk to clusters of the data disk. The tables of a snapshot are
    shared with its parent and copied on the first write. *)
From S2P Require Import Prelude Proto.

(** ** The metadata file

    [words] is the mapped file by byte offset of its 64-bit words; the
    [XcowFile] object adds the current snapshot table and the free list. A
    table is the offset of its first byte and its size in bytes. *)

Record span : Type := Span { sp_off : Z; sp_bytes : Z }.

#[global] Instance span_eq_dec : EqDecision span.
Proof. solve_decision. Defined.

Record xfile : Type := XFile {
  words : arr;
  fbytes : Z;
  snaps_tbl : span;
  flist_tbl : span;
}.

Abbreviation xeff := (eff xfile).

Definition set_words (m : arr) (s : xfile) : xfile :=
  XFile m (fbytes s) (snaps_tbl s) (flist_tbl s).
Definition set_snaps (t : span) (s : xfile) : xfile :=
  XFile (words s) (fbytes s) t (flist_tbl s).
Definition set_flist (t : span) (s : xfile) : xfile :=
  XFile (words s) (fbytes s) (snaps_tbl s) t.

(** [deref(off, nbytes)]: a subspan outside of the mapping is undefined. *)
Definition deref (off nbytes : Z) : xeff span :=
  s ← get;
  if (0 <=? off) && (0 <=? nbytes) && (off + nbytes <=? fbytes s)
  then mret (Span off nbytes) else throw Eub.

(** Loads and stores of words; a 32-bit field is a half of its word. *)
Definition word_ok (s : xfile) (off : Z) : bool :=
  (0 <=? off) && (off + 8 <=? fbytes s) && (off mod 8 =? 0).
Definition rd64 (off : Z) : xeff Z :=
  s ← get; if word_ok s off then mret (aget (words s) off) else throw Eub.
Definition wr64 (off x : Z) : xeff unit :=
  s ← get;
  if word_ok s off then put (set_words (aset (words s) off x) s) else throw Eub.
Definition lo32 (x : Z) : Z := u32 x.
Definition hi32 (x : Z) : Z := Z.shiftr x 32.
Definition with_lo32 (x v : Z) : Z := Z.lor (Z.shiftl (hi32 x) 32) (u32 v).
Definition with_hi32 (x v : Z) : Z := Z.lor (Z.shiftl (u32 v) 32) (lo32 x).

(** [std::fill] over [n] words, and the copy loop that masks each word. *)
Fixpoint fill_arr (m : arr) (off : Z) (n : nat) (v : Z) : arr :=
  match n with
  | O => m
  | S n => fill_arr (aset m off v) (off + 8) n v
  end.
Fixpoint copy_arr (mask : Z) (m : arr) (src dst : Z) (n : nat) : arr :=
  match n with
  | O => m
  | S n =>
    copy_arr mask (aset m dst (Z.land (aget m src) mask)) (src + 8) (dst + 8) n
  end.

Definition fill_span (t : span) (v : Z) : xeff unit :=
  modify (λ s, set_words
    (fill_arr (words s) (sp_off t) (Z.to_nat (sp_bytes t / 8)) v) s).

(** ** Header (struct XcowHeader) *)

Definition XCOW_MAGIC : Z := 0x306f7274654d564e.
Definition HDR_BYTES : Z := 56.

Definition hdr_magic : xeff Z := rd64 0.
Definition hdr_fsize : xeff Z := rd64 8.
Definition hdr_cluster_bits : xeff Z := x ← rd64 16; mret (lo32 x).
Definition hdr_hwm_limit : xeff Z := x ← rd64 24; mret (lo32 x).
Definition hdr_hwm : xeff Z := x ← rd64 24; mret (hi32 x).
Definition set_hdr_hwm (v : Z) : xeff unit := x ← rd64 24; wr64 24 (with_hi32 x v).
Definition hdr_disk_hwm_limit : xeff Z := rd64 32.
Definition hdr_snaplist : xeff Z := rd64 40.
Definition set_hdr_snaplist (v : Z) : xeff unit := wr64 40 v.
Definition hdr_freelist : xeff Z := rd64 48.

(** ** References *)

Definition FB_valid : Z := 0x8000000000000000.
Definition FB_decode_mask : Z := not64 FB_valid.
Definition encode_snap_ref (off : Z) : Z := Z.lor off FB_valid.
Definition encode_snap_entry (off disk_hwm : Z) : Z * Z := (Z.lor off FB_valid, disk_hwm).
Definition decode_snap_entry (v : Z) : Z := Z.land v FB_decode_mask.
Definition encode_free_ref (off : Z) : Z := Z.lor off FB_valid.
Definition lt_decode (t : Z) : Z := Z.land t FB_decode_mask.
Definition lt_valid (t : Z) : bool := truthy (Z.land t FB_valid).

Definition XB_valid : Z := 0x8000000000000000.
Definition XB_writable : Z := 0x2.
Definition XB_decode_mask : Z := not64 (Z.lor XB_valid XB_writable).
Definition encode_ref (off : Z) (is_writable : bool) : Z :=
  Z.lor (Z.lor off XB_valid) (if is_writable then XB_writable else 0).
Definition encode_leaf (off : Z) (is_writable : bool) : Z :=
  Z.lor (Z.lor off XB_valid) (if is_writable then XB_writable else 0).
Definition decode_leaf (tl : Z) : Z := Z.land tl XB_decode_mask.
Definition decode_leaf_unsafe (tl : Z) : Z := Z.land tl XB_decode_mask.
Definition nt_decode (t : Z) : Z := Z.land t XB_decode_mask.
Definition nt_valid (t : Z) : bool := truthy (Z.land t XB_valid).
Definition xb_writable (t : Z) : bool := truthy (Z.land t XB_writable).
Definition empty_leaf : Z := 0.
Definition is_empty (tl : Z) : bool := negb (truthy (Z.land tl XB_valid)).
Definition needs_cow (prev : Z) : bool :=
  negb (is_empty prev) && negb (truthy (Z.land prev XB_writable)).
Definition needs_alloc (tl : Z) : bool := is_empty tl || needs_cow tl.

(** ** Linked tables

    A next reference, a count of used entries, then the entries: 16 bytes for
    a snapshot (its root and its data high-water mark), 8 for the free list. *)

Definition LT_META : Z := 16.
Definition SNAP_ENTRY : Z := 16.
Definition FREE_ENTRY : Z := 8.

(** [convert_span]. *)
Definition convert_count (nbytes esz : Z) : outcome Z :=
  if negb (nbytes mod esz =? 0) then Throw Eruntime else Ret (nbytes / esz).

Definition lt_new (esz : Z) (t : span) : xeff span :=
  _ ← lift (convert_count (sp_bytes t - LT_META) esz); mret t.

Definition lt_format (esz : Z) (t : span) : xeff span :=
  _ ← wr64 (sp_off t) 0;
  _ ← wr64 (sp_off t + 8) 0;
  t ← lt_new esz t;
  _ ← fill_span (Span (sp_off t + LT_META) (sp_bytes t - LT_META)) 0;
  mret t.

Definition lt_next_ref (t : span) : xeff Z := rd64 (sp_off t).
Definition lt_end (t : span) : xeff Z := x ← rd64 (sp_off t + 8); mret (lo32 x).
Definition set_lt_end (t : span) (v : Z) : xeff unit :=
  x ← rd64 (sp_off t + 8); wr64 (sp_off t + 8) (with_lo32 x v).
Definition lt_capacity (esz : Z) (t : span) : Z := (sp_bytes t - LT_META) / esz.
Definition lt_entry (esz : Z) (t : span) (i : Z) : Z := sp_off t + LT_META + i * esz.

Definition lt_next (esz : Z) (t : span) : xeff (option span) :=
  r ← lt_next_ref t;
  if negb (lt_valid r) then mret None else
  sp ← deref (lt_decode r) (sp_bytes t);
  t' ← lt_new esz sp;
  mret (Some t').

(** [push_back] and [pop_back] of the snapshot list. *)
Definition snap_push_back (t : span) (e : Z * Z) : xeff bool :=
  end_ ← lt_end t;
  if end_ =? lt_capacity SNAP_ENTRY t then mret false else
  _ ← wr64 (lt_entry SNAP_ENTRY t end_) e.1;
  _ ← wr64 (lt_entry SNAP_ENTRY t end_ + 8) e.2;
  _ ← set_lt_end t (end_ + 1);
  mret true.

Definition snap_pop_back (t : span) : xeff bool :=
  end_ ← lt_end t;
  if end_ =? 0 then throw Elogic else
  _ ← set_lt_end t (end_ - 1);
  _ ← wr64 (lt_entry SNAP_ENTRY t (end_ - 1)) 0;
  _ ← wr64 (lt_entry SNAP_ENTRY t (end_ - 1) + 8) 0;
  mret (end_ - 1 =? 0).

(** The offset of the last used entry; there is none in an empty table. *)
Definition snap_back (t : span) : xeff Z :=
  end_ ← lt_end t;
  if end_ =? 0 then throw Eub else mret (lt_entry SNAP_ENTRY t (end_ - 1)).

(** ** The snapshot iterator (LinkedTableIterator), newest first *)

Record snap_iter : Type := SnapIter { si_table : option span; si_off : Z }.

Definition snaps : xeff snap_iter :=
  s ← get; n ← lt_end (snaps_tbl s); mret (SnapIter (Some (snaps_tbl s)) n).
Definition snap_iter_at_end (it : snap_iter) : bool :=
  match si_table it with None => si_off it =? 0 | Some _ => false end.
Definition snap_iter_incr (it : snap_iter) : xeff snap_iter :=
  let off := u64 (si_off it - 1) in
  if off =? 0 then
    match si_table it with
    | None => throw Eub
    | Some t =>
      t' ← lt_next SNAP_ENTRY t;
      match t' with
      | None => mret (SnapIter None off)
      | Some t' => n ← lt_end t'; mret (SnapIter (Some t') n)
      end
    end
  else mret (SnapIter (si_table it) off).
Definition snap_iter_deref (it : snap_iter) : xeff (Z * Z) :=
  match si_table it with
  | None => throw Eruntime
  | Some t =>
    if (si_off it =? 0) || (lt_capacity SNAP_ENTRY t <? si_off it) then throw Eub else
    v ← rd64 (lt_entry SNAP_ENTRY t (si_off it - 1));
    h ← rd64 (lt_entry SNAP_ENTRY t (si_off it - 1) + 8);
    mret (v, h)
  end.

(** ** Geometry and allocation of metadata clusters *)

Definition cluster_bits : xeff Z := hdr_cluster_bits.
Definition cluster_size : xeff Z := cb ← cluster_bits; mret (u64 (s32 (Z.shiftl 1 cb))).
Definition l0_cover_bits : xeff Z := cb ← cluster_bits; mret (cb * 2 - 3).

(** [1 << bits] is a shift of an [int]: by 32 or more it is undefined, by 31 it
    gives the most negative [int], which widens to a [size_t]. *)
Definition l0_cover_size : xeff Z :=
  b ← l0_cover_bits;
  if 32 <=? b then throw Eub else mret (u64 (s32 (Z.shiftl 1 b))).

Definition l1_clusters : xeff Z :=
  fs ← hdr_fsize;
  cover ← l0_cover_size;
  b ← l0_cover_bits;
  cs ← cluster_size;
  cb ← cluster_bits;
  let l0count := Z.shiftr (u64 (fs + cover - 1)) b in
  mret (Z.shiftr (u64 (l0count * 8 + cs - 1)) cb).

(** [_hdr->hwm << cluster_bits()] is a shift of a 32-bit operand. *)
Definition alloc_meta_clusters (count : Z) : xeff (Z * Z) :=
  hwm ← hdr_hwm;
  limit ← hdr_hwm_limit;
  if limit <? u64 (hwm + count) then throw Ehwm else
  cb ← cluster_bits;
  _ ← set_hdr_hwm (u32 (hwm + count));
  mret (u32 (Z.shiftl hwm cb), u64 (Z.shiftl count cb)).
Definition alloc_meta_cluster : xeff (Z * Z) := alloc_meta_clusters 1.

(** ** Snapshots

    [_root] with its number of entries, and the address of the high-water
    mark of a writable snapshot. *)

Record XcowSnap : Type := Snap {
  root : span;
  disk_hwm_at : option Z;
}.

(** An entry of a translation table; an index past it is undefined. *)
Definition nt_get (t : span) (i : Z) : xeff Z :=
  if i <? sp_bytes t / 8 then rd64 (sp_off t + 8 * i) else throw Eub.
Definition nt_set (t : span) (i v : Z) : xeff unit :=
  if i <? sp_bytes t / 8 then wr64 (sp_off t + 8 * i) v else throw Eub.

(** [NestedTable::next]. *)
Definition nt_next (t : span) (i next_nbytes : Z) : xeff (option span) :=
  e ← nt_get t i;
  if negb (nt_valid e) then mret None else
  sp ← deref (nt_decode e) next_nbytes; mret (Some sp).

(** [addr_in >> l0_cover_bits()] and the index in the level-0 table. *)
Definition l1_index (addr : Z) : xeff Z := b ← l0_cover_bits; mret (Z.shiftr addr b).
Definition l0_index (addr : Z) : xeff Z :=
  cover ← l0_cover_size;
  cb ← cluster_bits;
  mret (Z.shiftr (Z.land addr (cover - 1)) cb).

Definition translate_read (sn : XcowSnap) (addr : Z) : xeff Z :=
  l1_off ← l1_index addr;
  cs ← cluster_size;
  l0 ← nt_next (root sn) l1_off cs;
  match l0 with
  | None => mret empty_leaf
  | Some l0 => l0_off ← l0_index addr; nt_get l0 l0_off
  end.

Definition alloc_data_clusters (sn : XcowSnap) (count : Z) : xeff (Z * Z) :=
  match disk_hwm_at sn with
  | None => throw Eub
  | Some at_ =>
    hwm ← rd64 at_;
    limit ← hdr_disk_hwm_limit;
    if limit <? u64 (hwm + count) then throw Edisk_hwm else
    cb ← cluster_bits;
    _ ← wr64 at_ (u64 (hwm + count));
    mret (u64 (Z.shiftl hwm cb), u64 (Z.shiftl count cb))
  end.

(** The common beginning of [translate_write] and [tx_write_prep]: the level-0
    table of the address, new when there is none, a copy without write
    permissions when it is shared with the parent snapshot. *)
Definition writable_l0 (sn : XcowSnap) (addr : Z) : xeff span :=
  l1_off ← l1_index addr;
  cs ← cluster_size;
  l0 ← nt_next (root sn) l1_off cs;
  match l0 with
  | None =>
    '(off, n) ← alloc_meta_cluster;
    new_l0 ← deref off n;
    _ ← fill_span new_l0 empty_leaf;
    _ ← nt_set (root sn) l1_off (encode_ref off true);
    mret new_l0
  | Some l0 =>
    e ← nt_get (root sn) l1_off;
    if negb (xb_writable e) then
      '(off, n) ← alloc_meta_cluster;
      new_l0 ← deref off n;
      _ ← modify (λ s, set_words
            (copy_arr (not64 XB_writable) (words s) (sp_off l0) (sp_off new_l0)
               (Z.to_nat (sp_bytes l0 / 8))) s);
      _ ← nt_set (root sn) l1_off (encode_ref off true);
      mret new_l0
    else mret l0
  end.

(** The leaf and the leaf it replaced ([prev]). *)
Definition translate_write (sn : XcowSnap) (addr : Z) : xeff (Z * Z) :=
  if negb (bool_decide (is_Some (disk_hwm_at sn))) then throw Elogic else
  l0 ← writable_l0 sn addr;
  l0_off ← l0_index addr;
  entry ← nt_get l0 l0_off;
  if negb (nt_valid entry) || negb (xb_writable entry) then
    '(off, _) ← alloc_data_clusters sn 1;
    _ ← nt_set l0 l0_off (encode_leaf off true);
    entry' ← nt_get l0 l0_off;
    mret (entry', entry)
  else mret (entry, entry).

(** The address of the leaf. *)
Definition tx_write_prep (sn : XcowSnap) (addr : Z) : xeff Z :=
  if negb (bool_decide (is_Some (disk_hwm_at sn))) then throw Elogic else
  l0 ← writable_l0 sn addr;
  l0_off ← l0_index addr;
  if l0_off <? sp_bytes l0 / 8 then mret (sp_off l0 + 8 * l0_off) else throw Eub.

Definition tx_write_commit (ref tl : Z) : xeff (Z * Z) :=
  prev ← rd64 ref;
  _ ← (if negb (nt_valid prev) || negb (xb_writable prev) then wr64 ref tl else mret tt);
  cur ← rd64 ref;
  mret (cur, prev).

Definition erase (sn : XcowSnap) (addr : Z) : xeff unit :=
  l1_off ← l1_index addr;
  cs ← cluster_size;
  l0 ← nt_next (root sn) l1_off cs;
  match l0 with
  | None => mret tt
  | Some l0 => l0_off ← l0_index addr; nt_set l0 l0_off empty_leaf
  end.

(** ** Files *)

(** [make_hdr] and the constructor; [prefetch] is a hint to the kernel. *)
Definition make_hdr : xeff unit :=
  _ ← deref 0 HDR_BYTES;
  magic ← hdr_magic;
  if negb (magic =? XCOW_MAGIC) then throw Eruntime else
  cb ← hdr_cluster_bits;
  if (cb <? 12) || (24 <? cb) then throw Eruntime else mret tt.

Definition xcow_open : xeff unit :=
  _ ← make_hdr;
  cs ← cluster_size;
  sl ← hdr_snaplist;
  st ← deref (lt_decode sl) cs;
  st ← lt_new SNAP_ENTRY st;
  _ ← modify (set_snaps st);
  fl ← hdr_freelist;
  ft ← deref (lt_decode fl) cs;
  ft ← lt_new FREE_ENTRY ft;
  modify (set_flist ft).

Definition format (fsize cbits hwm_limit disk_hwm_limit : Z) : xeff unit :=
  let csize := u64 (s32 (Z.shiftl 1 cbits)) in
  hdr ← deref (Z.shiftl 0 cbits) csize;
  _ ← fill_span hdr 0;
  _ ← wr64 0 XCOW_MAGIC;
  _ ← wr64 8 fsize;
  _ ← wr64 16 (u32 cbits);
  _ ← wr64 24 (u32 hwm_limit);
  _ ← wr64 32 disk_hwm_limit;
  let snapoff := Z.shiftl 1 cbits in
  st ← deref snapoff csize;
  st ← lt_format SNAP_ENTRY st;
  _ ← modify (set_snaps st);
  _ ← wr64 40 (encode_snap_ref snapoff);
  let freeoff := Z.shiftl 2 cbits in
  ft ← deref freeoff csize;
  ft ← lt_format FREE_ENTRY ft;
  _ ← modify (set_flist ft);
  _ ← wr64 48 (encode_free_ref freeoff);
  _ ← set_hdr_hwm 3;
  n ← l1_clusters;
  '(l1_off, l1_nbytes) ← alloc_meta_clusters n;
  s0 ← deref l1_off l1_nbytes;
  _ ← fill_span s0 0;
  _ ← snap_push_back st (encode_snap_entry l1_off 1);
  mret tt.

(** [open_read(snapi)]: [k] counts the entries of [t] the reverse iterator has
    passed. The fuel bounds the turns of the [while]. *)
Fixpoint open_read_loop (fuel : nat) (t : span) (k snapi : Z) : xeff (span * Z) :=
  match fuel with
  | O => throw Efuel
  | S fuel =>
    if 0 <? snapi then
      n ← lt_end t;
      if k =? n then
        s ← get;
        t' ← lt_next SNAP_ENTRY (snaps_tbl s);
        match t' with
        | None => throw Eub
        | Some t' => open_read_loop fuel t' 0 snapi
        end
      else open_read_loop fuel t (k + 1) (snapi - 1)
    else mret (t, k)
  end.

Definition open_read (fuel : nat) (snapi : Z) : xeff XcowSnap :=
  s ← get;
  '(t, k) ← open_read_loop fuel (snaps_tbl s) 0 snapi;
  n ← lt_end t;
  if n <=? k then throw Eub else
  v ← rd64 (lt_entry SNAP_ENTRY t (n - 1 - k));
  cs ← cluster_size;
  r ← deref (decode_snap_entry v) cs;
  mret (Snap r None).

Definition open_write : xeff XcowSnap :=
  s ← get;
  se ← snap_back (snaps_tbl s);
  v ← rd64 se;
  cs ← cluster_size;
  r ← deref (decode_snap_entry v) cs;
  mret (Snap r (Some (se + 8))).

(** The new snapshot, and the source with its high-water mark taken away. *)
Definition snap_create (source : XcowSnap) : xeff (XcowSnap * XcowSnap) :=
  nl1 ← l1_clusters;
  '(l1_off, l1_nbytes) ← alloc_meta_clusters nl1;
  snaproot ← deref l1_off l1_nbytes;
  _ ← ensure (sp_bytes (root source) / 8 <=? sp_bytes snaproot / 8) Eub;
  _ ← modify (λ s, set_words
        (copy_arr (not64 XB_writable) (words s) (sp_off (root source))
           (sp_off snaproot) (Z.to_nat (sp_bytes (root source) / 8))) s);
  s ← get;
  back ← snap_back (snaps_tbl s);
  last_hwm ← rd64 (back + 8);
  res ← snap_push_back (snaps_tbl s) (encode_snap_entry l1_off last_hwm);
  _ ← (if negb res then
         '(st_off, st_nbytes) ← alloc_meta_cluster;
         sp ← deref st_off st_nbytes;
         stnext ← lt_new SNAP_ENTRY sp;
         sl ← hdr_snaplist;
         _ ← wr64 (sp_off stnext) sl;
         _ ← set_hdr_snaplist (encode_snap_ref st_off);
         _ ← modify (set_snaps stnext);
         _ ← snap_push_back stnext (encode_snap_entry l1_off last_hwm);
         mret tt
       else mret tt);
  s ← get;
  back ← snap_back (snaps_tbl s);
  mret (Snap snaproot (Some (back + 8)), Snap (root source) None).

Definition peel (source : XcowSnap) : xeff unit :=
  match disk_hwm_at source with
  | None => throw Elogic
  | Some _ =>
    s ← get;
    let t := snaps_tbl s in
    n ← lt_end t;
    r ← lt_next_ref t;
    if (n =? 1) && negb (lt_valid r) then throw Elogic else
    emptied ← snap_pop_back t;
    if negb emptied then mret tt else
    r ← lt_next_ref t;
    _ ← set_hdr_snaplist r;
    t' ← lt_next SNAP_ENTRY t;
    match t' with
    | None => throw Eub
    | Some t' => modify (set_snaps t')
    end
  end.
