(* ===== verification/XcowInv.v ===== *)
(** * The well-formedness of an image

    The invariant of the metadata file on which the translation theorems rest,
    as a predicate on the words of the file, and what the two kinds of change
    a write makes (a new level-0 table, a new leaf) do to it and to the
    mapping it represents. *)
From S2P Require Import Prelude Proto Xcow.

(** ** References: encoding and decoding *)

Definition addr_ok (off : Z) : Prop := 0 <= off < 2 ^ 63 ∧ Z.testbit off 1 = false.

Lemma XB_valid_bit k : 0 <= k → Z.testbit XB_valid k = (k =? 63).
Proof. intros. change XB_valid with (2 ^ 63). by rewrite testbit_pow2 by lia. Qed.

Lemma XB_writable_bit k : 0 <= k → Z.testbit XB_writable k = (k =? 1).
Proof. intros. change XB_writable with (2 ^ 1). by rewrite testbit_pow2 by lia. Qed.

Lemma not64_bit x k : 0 <= k → Z.testbit (not64 x) k = (k <? 64) && negb (Z.testbit x k).
Proof. intros. unfold not64, u64. by rewrite testbit_wrap, Z.lnot_spec by lia. Qed.

Lemma XB_decode_mask_bit k : 0 <= k →
  Z.testbit XB_decode_mask k = (k <? 64) && negb (k =? 63) && negb (k =? 1).
Proof.
  intros. unfold XB_decode_mask. rewrite not64_bit, Z.lor_spec, XB_valid_bit,
    XB_writable_bit by lia. bool_cases.
Qed.

Lemma nt_valid_bit e : nt_valid e = Z.testbit e 63.
Proof. unfold nt_valid. change XB_valid with (2 ^ 63). by apply truthy_land_pow2. Qed.

Lemma xb_writable_bit e : xb_writable e = Z.testbit e 1.
Proof. unfold xb_writable. change XB_writable with (2 ^ 1). by apply truthy_land_pow2. Qed.

Lemma encode_ref_bit off k : 0 <= k →
  Z.testbit (encode_ref off true) k = Z.testbit off k || (k =? 63) || (k =? 1).
Proof.
  intros. unfold encode_ref. by rewrite !Z.lor_spec, XB_valid_bit, XB_writable_bit.
Qed.

Lemma nt_valid_encode off : nt_valid (encode_ref off true) = true.
Proof. rewrite nt_valid_bit, encode_ref_bit by lia. by rewrite orb_true_r. Qed.

Lemma xb_writable_encode off : xb_writable (encode_ref off true) = true.
Proof. rewrite xb_writable_bit, encode_ref_bit by lia. by rewrite orb_true_r. Qed.

Lemma nt_decode_bit e k : 0 <= k →
  Z.testbit (nt_decode e) k = Z.testbit e k && ((k <? 64) && negb (k =? 63) && negb (k =? 1)).
Proof. intros. unfold nt_decode. by rewrite Z.land_spec, XB_decode_mask_bit. Qed.

Lemma nt_decode_encode off : addr_ok off → nt_decode (encode_ref off true) = off.
Proof.
  intros [Hr Hb]. apply Z.bits_inj'. intros k Hk.
  rewrite nt_decode_bit, encode_ref_bit by lia.
  destruct (Z.ltb_spec k 63).
  - destruct (Z.eqb_spec k 1) as [->|]; [by rewrite Hb|].
    replace (k =? 63) with false by lia. replace (k <? 64) with true by lia.
    simpl. by rewrite !orb_false_r, andb_true_r.
  - rewrite (testbit_above off 63) by lia. bool_cases.
Qed.

Lemma nt_decode_ok e : 0 <= e → addr_ok (nt_decode e).
Proof.
  intros He. assert (0 <= nt_decode e) by (apply Z.land_nonneg; lia).
  split; [split; [done|]|].
  - apply range_of_bits; [done|lia|]. intros k Hk. rewrite nt_decode_bit by lia.
    bool_cases; by rewrite andb_false_r.
  - by rewrite nt_decode_bit, andb_false_r by lia.
Qed.

(** A leaf without its write permission. *)
Definition mask_leaf (e : Z) : Z := Z.land e (not64 XB_writable).

Lemma mask_leaf_bit e k : 0 <= k →
  Z.testbit (mask_leaf e) k = Z.testbit e k && ((k <? 64) && negb (k =? 1)).
Proof. intros. unfold mask_leaf. by rewrite Z.land_spec, not64_bit, XB_writable_bit. Qed.

Lemma mask_leaf_valid e : nt_valid (mask_leaf e) = nt_valid e.
Proof. rewrite !nt_valid_bit, mask_leaf_bit by lia. by rewrite andb_true_r. Qed.
Lemma mask_leaf_writable e : xb_writable (mask_leaf e) = false.
Proof. rewrite xb_writable_bit, mask_leaf_bit by lia. by rewrite andb_false_r. Qed.
Lemma mask_leaf_decode e : nt_decode (mask_leaf e) = nt_decode e.
Proof.
  apply Z.bits_inj'. intros k Hk. rewrite !nt_decode_bit, mask_leaf_bit by lia.
  destruct (k <? 64), (k =? 63), (k =? 1), (Z.testbit e k); done.
Qed.
Lemma mask_leaf_range e : 0 <= e < 2 ^ 64 → 0 <= mask_leaf e < 2 ^ 64.
Proof.
  intros He. assert (0 <= mask_leaf e) by (apply Z.land_nonneg; lia).
  split; [done|]. apply range_of_bits; [done|lia|]. intros k Hk.
  by rewrite mask_leaf_bit, (testbit_above e 64) by lia.
Qed.
Lemma mask_leaf_idem e : mask_leaf (mask_leaf e) = mask_leaf e.
Proof. unfold mask_leaf. by rewrite <- Z.land_assoc. Qed.
Lemma mask_leaf_0 : mask_leaf 0 = 0.
Proof. done. Qed.

Lemma encode_ref_range off : addr_ok off → 0 <= encode_ref off true < 2 ^ 64.
Proof.
  intros [Hr _]. assert (0 <= encode_ref off true).
  { unfold encode_ref. rewrite !Z.lor_nonneg. split; [split; [lia|done]|done]. }
  split; [done|]. apply range_of_bits; [done|lia|]. intros k Hk.
  rewrite encode_ref_bit, (testbit_above off 63) by lia. bool_cases.
Qed.

(** ** The words of a file *)

Record layout : Type := Layout {
  ly_roots : list Z;
  ly_active : Z;
  ly_tables : list Z;
}.

Section winv.
Context (cb : Z) (Hcb : 12 <= cb <= 16).
Definition CS : Z := 2 ^ cb.
Definition ENTS : Z := CS / 8.

(** The table a root's entry refers to, and the leaf of a cluster. *)
Definition l1_ent (w : Z → Z) (r i : Z) : Z := w (r + 8 * i).
Definition leaf_at (w : Z → Z) (r i j : Z) : Z :=
  let e := l1_ent w r i in
  if nt_valid e then w (nt_decode e + 8 * j) else empty_leaf.

(** The path to the leaf and the leaf itself allow writing. *)
Definition eff_writable (w : Z → Z) (r i j : Z) : bool :=
  let e := l1_ent w r i in
  nt_valid e && xb_writable e &&
  nt_valid (leaf_at w r i j) && xb_writable (leaf_at w r i j).

Definition idx_ok (i : Z) : Prop := 0 <= i < ENTS.

(** A cluster of the metadata file below the high-water mark [hwm]. *)
Definition meta_cluster (hwm x : Z) : Prop :=
  CS <= x ∧ x + CS <= hwm * CS ∧ x mod CS = 0.

Record winv (w : Z → Z) (hwm dhwm : Z) (ly : layout) : Prop := {
  wi_range : ∀ x, 0 <= w x < 2 ^ 64;
  wi_hwm : 0 <= hwm ∧ hwm * CS < 2 ^ 63;
  wi_roots : ∀ r, r ∈ ly_roots ly → meta_cluster hwm r;
  wi_tables : ∀ t, t ∈ ly_tables ly → meta_cluster hwm t;
  wi_disjoint : ∀ r, r ∈ ly_roots ly → r ∉ ly_tables ly;
  wi_active : ly_active ly ∈ ly_roots ly;
  wi_refs : ∀ r i, r ∈ ly_roots ly → idx_ok i → nt_valid (l1_ent w r i) = true →
    nt_decode (l1_ent w r i) ∈ ly_tables ly;
  (** a writable reference of the active root is the only one to its table *)
  wi_owned : ∀ i r j, idx_ok i → r ∈ ly_roots ly → idx_ok j →
    nt_valid (l1_ent w (ly_active ly) i) = true →
    xb_writable (l1_ent w (ly_active ly) i) = true →
    nt_valid (l1_ent w r j) = true →
    nt_decode (l1_ent w r j) = nt_decode (l1_ent w (ly_active ly) i) →
    r = ly_active ly ∧ j = i;
  (** leaves point below the data high-water mark *)
  wi_leaves : ∀ t j, t ∈ ly_tables ly → idx_ok j → nt_valid (w (t + 8 * j)) = true →
    0 <= nt_decode (w (t + 8 * j)) < dhwm * CS;
  (** a writable leaf of the active snapshot is the only one to its cluster *)
  wi_leaf_owned : ∀ i j t k, idx_ok i → idx_ok j → t ∈ ly_tables ly → idx_ok k →
    eff_writable w (ly_active ly) i j = true →
    nt_valid (w (t + 8 * k)) = true →
    nt_decode (w (t + 8 * k)) = nt_decode (leaf_at w (ly_active ly) i j) →
    t = nt_decode (l1_ent w (ly_active ly) i) ∧ k = j;
}.

Lemma CS_pos : 4096 <= CS <= 65536.
Proof using Hcb.
  unfold CS. split.
  - change 4096 with (2 ^ 12). apply Z.pow_le_mono_r; lia.
  - change 65536 with (2 ^ 16). apply Z.pow_le_mono_r; lia.
Qed.

Lemma CS_8 : CS = 8 * ENTS ∧ 512 <= ENTS.
Proof using Hcb.
  unfold ENTS. pose proof CS_pos. assert (CS mod 8 = 0) as E.
  { unfold CS. replace cb with (cb - 3 + 3) by lia. rewrite Z.pow_add_r by lia.
    change (2 ^ 3) with 8. apply Z.mod_mul. lia. }
  Z.div_mod_to_equations. lia.
Qed.

(** Cluster-aligned offsets leave the flag bits of a reference alone. *)
Lemma aligned_addr_ok x : 0 <= x < 2 ^ 63 → x mod CS = 0 → addr_ok x.
Proof using Hcb.
  intros Hx Hm. split; [done|].
  assert (x mod 2 ^ cb = 0) as E by done.
  rewrite <- (Z.mod_pow2_bits_low x cb 1) by lia. by rewrite E, Z.bits_0.
Qed.

(** Two different clusters do not overlap. *)
Lemma clusters_apart hwm x y i j : meta_cluster hwm x → meta_cluster hwm y →
  idx_ok i → idx_ok j → x + 8 * i = y + 8 * j → x = y ∧ i = j.
Proof using Hcb.
  intros (? & ? & Hx) (? & ? & Hy) Hi Hj E. unfold idx_ok in *.
  pose proof CS_8 as [H8 _]. pose proof CS_pos.
  apply Z.mod_divide in Hx as [a ->]; [|lia]. apply Z.mod_divide in Hy as [b ->]; [|lia].
  assert (a = b) by nia. subst. lia.
Qed.

Lemma meta_cluster_mono hwm hwm' x : hwm <= hwm' → meta_cluster hwm x → meta_cluster hwm' x.
Proof using Hcb. intros Hle (? & ? & ?). pose proof CS_pos. split_and!; [lia|nia|done]. Qed.

(** *** A new level-0 table for the entry [i] of the active root *)

Section new_table.
Context (w w' : Z → Z) (hwm dhwm i : Z) (ly : layout) (c : Z → Z).
Let A := ly_active ly.
Let N := hwm * CS.
Let ly' := Layout (ly_roots ly) A (N :: ly_tables ly).
Context (Hinv : winv w hwm dhwm ly) (Hi : idx_ok i) (Hhwm : 1 <= hwm).
Context (Hroom : (hwm + 1) * CS < 2 ^ 63).
(** the entry is not one the active root may write through *)
Context (Hnw : nt_valid (l1_ent w A i) && xb_writable (l1_ent w A i) = false).
(** the new table: no leaf is writable, valid ones are known addresses *)
Context (Hc : ∀ j, idx_ok j → xb_writable (c j) = false ∧
  (nt_valid (c j) = true → 0 <= nt_decode (c j) < dhwm * CS ∧
     ∀ k l, idx_ok k → idx_ok l → k ≠ i → eff_writable w A k l = true →
       nt_decode (c j) ≠ nt_decode (leaf_at w A k l))).
(** the new words *)
Context (Hrange : ∀ x, 0 <= w' x < 2 ^ 64).
Context (HwN : ∀ j, idx_ok j → w' (N + 8 * j) = c j).
Context (HwA : w' (A + 8 * i) = encode_ref N true).
Context (Hroots : ∀ r j, r ∈ ly_roots ly → idx_ok j → (r, j) ≠ (A, i) →
  w' (r + 8 * j) = w (r + 8 * j)).
Context (Htables : ∀ t j, t ∈ ly_tables ly → idx_ok j → w' (t + 8 * j) = w (t + 8 * j)).

Lemma N_cluster : meta_cluster (hwm + 1) N.
Proof using All.
  pose proof CS_pos. unfold N. split_and!; [nia|nia|]. apply Z.mod_mul. lia.
Qed.

Lemma N_addr : addr_ok N.
Proof using All.
  destruct N_cluster as (? & ? & ?). pose proof CS_pos.
  apply aligned_addr_ok; [unfold N in *; lia|done].
Qed.

Lemma N_fresh r : r ∈ ly_roots ly ∨ r ∈ ly_tables ly → r ≠ N.
Proof using All.
  intros Hr ->. pose proof CS_pos.
  assert (meta_cluster hwm N) as (? & ? & ?); [|unfold N in *; lia].
  destruct Hr; [by eapply wi_roots|by eapply wi_tables].
Qed.

Lemma l1_ent_other r j : r ∈ ly_roots ly → idx_ok j → (r, j) ≠ (A, i) →
  l1_ent w' r j = l1_ent w r j.
Proof using All. apply Hroots. Qed.

Lemma nt_valid_A : nt_valid (l1_ent w' A i) = true.
Proof using All. unfold l1_ent. rewrite HwA. apply nt_valid_encode. Qed.
Lemma nt_decode_A : nt_decode (l1_ent w' A i) = N.
Proof using All. unfold l1_ent. rewrite HwA. apply nt_decode_encode, N_addr. Qed.

(** A reference other than the new one keeps its value and its table. *)
Lemma leaf_at_other r k j : r ∈ ly_roots ly → idx_ok k → idx_ok j → (r, k) ≠ (A, i) →
  leaf_at w' r k j = leaf_at w r k j.
Proof using All.
  intros Hr Hk Hj Hne. unfold leaf_at. rewrite l1_ent_other by done.
  destruct (nt_valid (l1_ent w r k)) eqn:E; [|done].
  apply Htables; [|done]. by eapply wi_refs.
Qed.

Lemma leaf_at_new j : idx_ok j → leaf_at w' A i j = c j.
Proof using All.
  intros Hj. unfold leaf_at. rewrite nt_valid_A, nt_decode_A. by apply HwN.
Qed.

Lemma eff_writable_other k j : idx_ok k → idx_ok j → k ≠ i →
  eff_writable w' A k j = eff_writable w A k j.
Proof using All.
  intros Hk Hj Hne. unfold eff_writable.
  assert ((A, k) ≠ (A, i)) by congruence.
  assert (A ∈ ly_roots ly) by by eapply wi_active.
  by rewrite leaf_at_other, l1_ent_other by done.
Qed.

Lemma new_table_winv : winv w' (hwm + 1) dhwm ly'.
Proof using All.
  pose proof CS_pos as HCS. assert (A ∈ ly_roots ly) as HA by by eapply wi_active.
  split; simpl; fold A.
  - done.
  - lia.
  - intros r Hr. eapply meta_cluster_mono; [|by eapply wi_roots]. lia.
  - intros t [->|Ht]%elem_of_cons; [apply N_cluster|].
    eapply meta_cluster_mono; [|by eapply wi_tables]. lia.
  - intros r Hr [->|Ht]%elem_of_cons; [by apply (N_fresh N); [left|]|].
    by eapply wi_disjoint.
  - done.
  - intros r j Hr Hj Hv. destruct (decide ((r, j) = (A, i))) as [[= -> ->]|Hne].
    + rewrite nt_decode_A. apply elem_of_cons. by left.
    + rewrite l1_ent_other in * by done. apply elem_of_cons. right. by eapply wi_refs.
  - intros k r j Hk Hr Hj Hv Hw Hv' Hd.
    destruct (decide ((r, j) = (A, i))) as [[= -> ->]|Hne].
    + rewrite nt_decode_A in Hd. destruct (decide (k = i)) as [->|Hk']; [done|].
      exfalso. assert ((A, k) ≠ (A, i)) by congruence.
      rewrite l1_ent_other in Hv, Hd by done.
      apply (N_fresh N); [right|done]. rewrite Hd. by eapply wi_refs.
    + rewrite (l1_ent_other r j) in Hv', Hd by done.
      destruct (decide (k = i)) as [->|Hk'].
      * exfalso. rewrite nt_decode_A in Hd. apply (N_fresh N); [right|done].
        rewrite <- Hd. by eapply wi_refs.
      * assert ((A, k) ≠ (A, i)) by congruence.
        rewrite l1_ent_other in Hv, Hw, Hd by done. by eapply wi_owned.
  - intros t j [->|Ht]%elem_of_cons Hj Hv.
    + rewrite HwN in * by done. by apply Hc.
    + rewrite Htables in * by done. by eapply wi_leaves.
  - intros k j t l Hk Hj Ht Hl Hw Hv Hd.
    destruct (decide (k = i)) as [->|Hk'].
    { exfalso. unfold eff_writable in Hw. rewrite leaf_at_new in Hw by done.
      destruct (Hc j Hj) as [Hf _]. rewrite Hf, !andb_false_r in Hw. done. }
    assert ((A, k) ≠ (A, i)) by congruence.
    rewrite eff_writable_other in Hw by done. rewrite leaf_at_other in Hd by done.
    rewrite l1_ent_other by done.
    apply elem_of_cons in Ht as [->|Ht].
    + exfalso. rewrite HwN in Hv, Hd by done.
      destruct (Hc l Hl) as [_ Hcl]. destruct (Hcl Hv) as [_ Hne].
      exact (Hne k j Hk Hj Hk' Hw Hd).
    + rewrite Htables in Hv, Hd by done. by eapply wi_leaf_owned.
Qed.
End new_table.

(** *** A new leaf in a table the active root owns *)

Section new_leaf.
Context (w w' : Z → Z) (hwm dhwm i j : Z) (ly : layout).
Let A := ly_active ly.
Let T := nt_decode (l1_ent w A i).
Let D := dhwm * CS.
Context (Hinv : winv w hwm dhwm ly) (Hi : idx_ok i) (Hj : idx_ok j).
Context (Hd : 0 <= dhwm) (Hroom : (dhwm + 1) * CS <= 2 ^ 63).
Context (Hv : nt_valid (l1_ent w A i) = true).
Context (Hw : xb_writable (l1_ent w A i) = true).
Context (Hrange : ∀ x, 0 <= w' x < 2 ^ 64).
Context (HwT : w' (T + 8 * j) = encode_leaf D true).
Context (Hroots : ∀ r k, r ∈ ly_roots ly → idx_ok k → w' (r + 8 * k) = w (r + 8 * k)).
Context (Htables : ∀ t k, t ∈ ly_tables ly → idx_ok k → (t, k) ≠ (T, j) →
  w' (t + 8 * k) = w (t + 8 * k)).

Lemma D_addr : addr_ok D.
Proof using All.
  pose proof CS_pos. apply aligned_addr_ok; [unfold D in *; nia|].
  apply Z.mod_mul. lia.
Qed.

Lemma T_table : T ∈ ly_tables ly.
Proof using All. eapply wi_refs; try done. by eapply wi_active. Qed.

Lemma leaf_l1 r k : r ∈ ly_roots ly → idx_ok k → l1_ent w' r k = l1_ent w r k.
Proof using All. apply Hroots. Qed.

Lemma leaf_new : leaf_at w' A i j = encode_leaf D true.
Proof using All.
  unfold leaf_at. rewrite leaf_l1 by (done || by eapply wi_active).
  rewrite Hv. apply HwT.
Qed.

(** Every other path of every snapshot reads what it read before. *)
Lemma leaf_other r k l : r ∈ ly_roots ly → idx_ok k → idx_ok l →
  (r, k, l) ≠ (A, i, j) → leaf_at w' r k l = leaf_at w r k l.
Proof using All.
  intros Hr Hk Hl Hne. unfold leaf_at. rewrite leaf_l1 by done.
  destruct (nt_valid (l1_ent w r k)) eqn:E; [|done].
  apply Htables; [by eapply wi_refs|done|]. intros [= Ht ->].
  apply Hne. destruct (wi_owned _ _ _ _ Hinv i r k Hi Hr Hk Hv Hw E Ht) as [-> ->].
  done.
Qed.

Lemma eff_other k l : idx_ok k → idx_ok l → (k, l) ≠ (i, j) →
  eff_writable w' A k l = eff_writable w A k l.
Proof using All.
  intros Hk Hl Hne. unfold eff_writable.
  rewrite leaf_l1, leaf_other by (done || (by eapply wi_active) || congruence).
  done.
Qed.

Lemma new_leaf_winv : winv w' hwm (dhwm + 1) ly.
Proof using All.
  pose proof CS_pos as HCS. assert (A ∈ ly_roots ly) as HA by by eapply wi_active.
  pose proof T_table as HT.
  assert (nt_decode (encode_leaf D true) = D) as HD by apply nt_decode_encode, D_addr.
  split; try apply Hinv; fold A.
  - done.
  - intros r k Hr Hk. rewrite leaf_l1 by done. by eapply wi_refs.
  - intros k r l Hk Hr Hl. rewrite !leaf_l1 by done. by eapply wi_owned.
  - intros t k Ht Hk. destruct (decide ((t, k) = (T, j))) as [[= -> ->]|Hne].
    + intros _. rewrite HwT, HD. unfold D. lia.
    + rewrite Htables by done. intros Hv'.
      pose proof (wi_leaves _ _ _ _ Hinv t k Ht Hk Hv'). lia.
  - intros k l t m Hk Hl Ht Hm He Hv' Hdec. rewrite leaf_l1 by done.
    destruct (decide ((k, l) = (i, j))) as [[= -> ->]|Hkl].
    + rewrite leaf_new, HD in Hdec.
      destruct (decide ((t, m) = (T, j))) as [[= -> ->]|Hne]; [done|].
      exfalso. rewrite Htables in Hv', Hdec by done.
      pose proof (wi_leaves _ _ _ _ Hinv t m Ht Hm Hv'). unfold D in *. lia.
    + rewrite eff_other in He by done.
      rewrite leaf_other in Hdec by (done || congruence).
      destruct (decide ((t, m) = (T, j))) as [[= -> ->]|Hne].
      * exfalso. rewrite HwT, HD in Hdec.
        assert (nt_valid (leaf_at w A k l) = true) as Hvl.
        { unfold eff_writable in He. by repeat apply andb_prop in He as [He ?]. }
        assert (0 <= nt_decode (leaf_at w A k l) < D); [|lia].
        unfold leaf_at in *. destruct (nt_valid (l1_ent w A k)) eqn:E.
        -- apply (wi_leaves _ _ _ _ Hinv); [by eapply wi_refs|done|done].
        -- done.
      * rewrite Htables in Hv', Hdec by done. by eapply wi_leaf_owned.
Qed.
End new_leaf.

(** *** A new root: a copy of the active one without write permissions *)

Section new_root.
Context (w w' : Z → Z) (hwm dhwm : Z) (ly : layout).
Let A := ly_active ly.
Let N := hwm * CS.
Let ly' := Layout (N :: ly_roots ly) N (ly_tables ly).
Context (Hinv : winv w hwm dhwm ly) (Hhwm : 1 <= hwm).
Context (Hroom : (hwm + 1) * CS < 2 ^ 63).
Context (Hrange : ∀ x, 0 <= w' x < 2 ^ 64).
Context (HwN : ∀ j, idx_ok j → w' (N + 8 * j) = mask_leaf (w (A + 8 * j))).
Context (Hroots : ∀ r k, r ∈ ly_roots ly → idx_ok k → w' (r + 8 * k) = w (r + 8 * k)).
Context (Htables : ∀ t k, t ∈ ly_tables ly → idx_ok k → w' (t + 8 * k) = w (t + 8 * k)).

Lemma root_N_fresh r : r ∈ ly_roots ly ∨ r ∈ ly_tables ly → r ≠ N.
Proof using All.
  intros Hr ->. pose proof CS_pos.
  assert (meta_cluster hwm N) as (? & ? & ?); [|unfold N in *; lia].
  destruct Hr; [by eapply wi_roots|by eapply wi_tables].
Qed.

Lemma root_l1_old r k : r ∈ ly_roots ly → idx_ok k → l1_ent w' r k = l1_ent w r k.
Proof using All. apply Hroots. Qed.

Lemma root_l1_new k : idx_ok k → l1_ent w' N k = mask_leaf (l1_ent w A k).
Proof using All. apply HwN. Qed.

(** The snapshots that were there read what they read before... *)
Lemma root_leaf_old r k l : r ∈ ly_roots ly → idx_ok k → idx_ok l →
  leaf_at w' r k l = leaf_at w r k l.
Proof using All.
  intros Hr Hk Hl. unfold leaf_at. rewrite root_l1_old by done.
  destruct (nt_valid (l1_ent w r k)) eqn:E; [|done].
  apply Htables; [|done]. by eapply wi_refs.
Qed.

(** ... and the new one reads what its parent reads. *)
Lemma root_leaf_new k l : idx_ok k → idx_ok l → leaf_at w' N k l = leaf_at w A k l.
Proof using All.
  intros Hk Hl. unfold leaf_at. rewrite root_l1_new by done.
  rewrite mask_leaf_valid, mask_leaf_decode.
  destruct (nt_valid (l1_ent w A k)) eqn:E; [|done].
  apply Htables; [|done]. eapply wi_refs; try done. by eapply wi_active.
Qed.

Lemma root_not_writable k l : idx_ok k → eff_writable w' N k l = false.
Proof using All.
  intros Hk. unfold eff_writable. rewrite root_l1_new by done.
  by rewrite mask_leaf_writable, andb_false_r.
Qed.

Lemma new_root_winv : winv w' (hwm + 1) dhwm ly'.
Proof using All.
  pose proof CS_pos as HCS. assert (A ∈ ly_roots ly) as HA by by eapply wi_active.
  split; simpl.
  - done.
  - destruct (wi_hwm _ _ _ _ Hinv). lia.
  - intros r [->|Hr]%elem_of_cons.
    + unfold N. split_and!; [nia|nia|]. apply Z.mod_mul. lia.
    + eapply meta_cluster_mono; [|by eapply wi_roots]. lia.
  - intros t Ht. eapply meta_cluster_mono; [|by eapply wi_tables]. lia.
  - intros r [->|Hr]%elem_of_cons Ht; [|by eapply wi_disjoint].
    by apply (root_N_fresh N); [right|].
  - apply elem_of_cons. by left.
  - intros r k [->|Hr]%elem_of_cons Hk.
    + rewrite root_l1_new, mask_leaf_valid, mask_leaf_decode by done.
      by eapply wi_refs.
    + rewrite root_l1_old by done. by eapply wi_refs.
  - intros k r l Hk _ _ _ Hw. by rewrite root_l1_new, mask_leaf_writable in Hw.
  - intros t k Ht Hk. rewrite Htables by done. by eapply wi_leaves.
  - intros k l t m Hk _ _ _ He. by rewrite root_not_writable in He.
Qed.
End new_root.
End winv.
