(* ===== verification/XcowOps.v ===== *)
(** * Symbolic execution of the image operations

    On a well-formed file each operation of [Xcow] is a plain function of the
    words: the lemmas here compute the operations once and for all, so that
    the theorems about them need not unfold the effects again. *)
From S2P Require Import Prelude Proto Xcow XcowInv.

(** ** Words *)

Definition W (s : xfile) (x : Z) : Z := aget (words s) x.

Lemma rd64_Ret s off : word_ok s off = true → rd64 off s = (Ret (W s off), s).
Proof. intros H. unfold rd64. step (get_Ret s). by rewrite H. Qed.

Lemma wr64_Ret s off x : word_ok s off = true →
  wr64 off x s = (Ret tt, set_words (aset (words s) off x) s).
Proof. intros H. unfold wr64. step (get_Ret s). by rewrite H. Qed.

Lemma word_ok_spec s off :
  word_ok s off = true ↔ 0 <= off ∧ off + 8 <= fbytes s ∧ off mod 8 = 0.
Proof. unfold word_ok. rewrite !andb_true_iff. lia. Qed.

Lemma W_aset s off x y : W (set_words (aset (words s) off x) s) y =
  if decide (off = y) then x else W s y.
Proof. apply aget_aset. Qed.

Lemma fill_arr_out m off n v y : y < off ∨ off + 8 * Z.of_nat n <= y →
  aget (fill_arr m off n v) y = aget m y.
Proof.
  revert m off. induction n as [|n IH]; intros m off H; simpl; [done|].
  rewrite IH by lia. by rewrite aget_aset_ne by lia.
Qed.

Lemma fill_arr_in m off n v k : (k < n)%nat →
  aget (fill_arr m off n v) (off + 8 * Z.of_nat k) = v.
Proof.
  revert m off k. induction n as [|n IH]; intros m off k Hk; [lia|]. simpl.
  destruct k as [|k].
  - rewrite Z.add_0_r, fill_arr_out by lia. apply aget_aset_eq.
  - replace (off + 8 * Z.of_nat (S k)) with (off + 8 + 8 * Z.of_nat k) by lia.
    apply IH. lia.
Qed.

Lemma copy_arr_out mask m src dst n y : y < dst ∨ dst + 8 * Z.of_nat n <= y →
  aget (copy_arr mask m src dst n) y = aget m y.
Proof.
  revert m src dst. induction n as [|n IH]; intros m src dst H; simpl; [done|].
  rewrite IH by lia. by rewrite aget_aset_ne by lia.
Qed.

Lemma copy_arr_in mask m src dst n k : (k < n)%nat →
  src + 8 * Z.of_nat n <= dst ∨ dst + 8 * Z.of_nat n <= src →
  aget (copy_arr mask m src dst n) (dst + 8 * Z.of_nat k) =
    Z.land (aget m (src + 8 * Z.of_nat k)) mask.
Proof.
  revert m src dst k. induction n as [|n IH]; intros m src dst k Hk Hd; [lia|]. simpl.
  destruct k as [|k].
  - rewrite !Z.add_0_r, copy_arr_out by lia. apply aget_aset_eq.
  - replace (dst + 8 * Z.of_nat (S k)) with (dst + 8 + 8 * Z.of_nat k) by lia.
    replace (src + 8 * Z.of_nat (S k)) with (src + 8 + 8 * Z.of_nat k) by lia.
    rewrite IH by lia. by rewrite aget_aset_ne by lia.
Qed.

Lemma set_hdr_hwm_eq s v : word_ok s 24 = true →
  set_hdr_hwm v s = (Ret tt, set_words (aset (words s) 24 (with_hi32 (W s 24) v)) s).
Proof.
  intros H. unfold set_hdr_hwm. step (rd64_Ret s 24 H). by apply wr64_Ret.
Qed.

(** *** Halves *)

Lemma hi32_range x : 0 <= x < 2 ^ 64 → 0 <= hi32 x < 2 ^ 32.
Proof.
  intros. unfold hi32. rewrite Z.shiftr_div_pow2 by lia.
  split; [apply Z.div_pos; lia|]. apply Z.div_lt_upper_bound; lia.
Qed.

Lemma hi32_with_hi x v : 0 <= v < 2 ^ 32 → hi32 (with_hi32 x v) = v.
Proof.
  intros. unfold hi32, with_hi32, lo32. apply Z.bits_inj'. intros k Hk.
  rewrite Z.shiftr_spec, Z.lor_spec, testbit_shl, !testbit_u32 by lia.
  replace (k + 32 - 32) with k by lia.
  destruct (Z.ltb_spec k 32).
  - bool_cases. by rewrite orb_false_r.
  - rewrite (testbit_above v 32) by lia. bool_cases.
Qed.

Lemma lo32_with_hi x v : lo32 (with_hi32 x v) = lo32 x.
Proof.
  unfold with_hi32, lo32. apply Z.bits_inj'. intros k Hk.
  rewrite testbit_u32, Z.lor_spec, testbit_shl, (testbit_u32 x) by lia. by bool_cases.
Qed.

Lemma with_hi32_range x v : 0 <= with_hi32 x v < 2 ^ 64.
Proof.
  unfold with_hi32, lo32.
  assert (0 <= Z.shiftl (u32 v) 32) by (apply Z.shiftl_nonneg, u32_range).
  assert (0 <= Z.lor (Z.shiftl (u32 v) 32) (u32 x))
    by (apply Z.lor_nonneg; split; [done|apply u32_range]).
  split; [done|]. apply range_of_bits; [done|lia|]. intros k Hk.
  rewrite Z.lor_spec, testbit_shl, !testbit_u32 by lia. bool_cases.
Qed.

(** ** Well-formed files *)

(** The bytes a level-0 table covers. *)
Definition COVER (cb : Z) : Z := 2 ^ (cb * 2 - 3).

(** The mark of the active snapshot is a word of a snapshot table. *)
Record xinv (cb : Z) (s : xfile) (ly : layout) (hat : Z) : Prop := {
  x_bits : 12 <= cb <= 16 ∧ lo32 (W s 16) = cb;
  x_limit : 3 <= hi32 (W s 24) <= lo32 (W s 24) ∧
    lo32 (W s 24) * CS cb <= fbytes s ∧ fbytes s <= 2 ^ 32;
  x_dlimit : 0 <= W s hat <= W s 32 ∧ W s 32 * CS cb < 2 ^ 63;
  x_winv : winv cb (W s) (hi32 (W s 24)) (W s hat) ly;
  x_hat : hat mod 8 = 0 ∧ CS cb <= hat ∧ hat + 8 <= hi32 (W s 24) * CS cb ∧
    ∀ x, x ∈ ly_roots ly ∨ x ∈ ly_tables ly → hat < x ∨ x + CS cb <= hat;
}.

Section ops.
Context (cb : Z) (s : xfile) (ly : layout) (hat : Z) (Hx : xinv cb s ly hat).
Abbreviation hwm := (hi32 (W s 24)).
Abbreviation A := (ly_active ly).
Abbreviation CSZ := (CS cb).

Lemma cb_range : 12 <= cb <= 16.
Proof using Hx. apply Hx. Qed.

Lemma CSZ_pos : 4096 <= CSZ <= 65536.
Proof using Hx. apply CS_pos, cb_range. Qed.

Lemma fb_big : 3 * CSZ <= fbytes s.
Proof using Hx. destruct (x_limit _ _ _ _ Hx) as (? & ? & _). pose proof CSZ_pos. nia. Qed.

Lemma hdr_word_ok off : 0 <= off <= 48 → off mod 8 = 0 → word_ok s off = true.
Proof using Hx. intros. apply word_ok_spec. pose proof fb_big. pose proof CSZ_pos. lia. Qed.

Lemma cluster_bits_eq : cluster_bits s = (Ret cb, s).
Proof using Hx.
  unfold cluster_bits, hdr_cluster_bits. step (rd64_Ret s 16 (hdr_word_ok 16 ltac:(lia) eq_refl)).
  by rewrite (proj2 (x_bits _ _ _ _ Hx)).
Qed.

Lemma s32_pow n : 0 <= n <= 30 → u64 (s32 (Z.shiftl 1 n)) = 2 ^ n.
Proof.
  intros Hn. rewrite shiftl_1 by lia.
  assert (0 < 2 ^ n) by (apply Z.pow_pos_nonneg; lia).
  assert (2 ^ n <= 2 ^ 30) by (apply Z.pow_le_mono_r; lia).
  unfold s32. rewrite u32_small by lia.
  replace (2 ^ n <? 2 ^ 31) with true by lia. apply u64_small. lia.
Qed.

Lemma cluster_size_eq : cluster_size s = (Ret CSZ, s).
Proof using Hx.
  unfold cluster_size. step cluster_bits_eq. pose proof cb_range.
  by rewrite s32_pow by lia.
Qed.

Lemma l0_cover_bits_eq : l0_cover_bits s = (Ret (cb * 2 - 3), s).
Proof using Hx. unfold l0_cover_bits. by step cluster_bits_eq. Qed.

Lemma l0_cover_size_eq : l0_cover_size s = (Ret (COVER cb), s).
Proof using Hx.
  unfold l0_cover_size. step l0_cover_bits_eq. pose proof cb_range.
  replace (32 <=? cb * 2 - 3) with false by lia. by rewrite s32_pow by lia.
Qed.

Lemma COVER_eq : COVER cb = ENTS cb * CSZ.
Proof using Hx.
  pose proof cb_range. unfold COVER, ENTS, CS.
  replace (cb * 2 - 3) with ((cb - 3) + cb) by lia. rewrite Z.pow_add_r by lia.
  f_equal. replace cb with (cb - 3 + 3) at 2 by lia.
  rewrite Z.pow_add_r, Z.div_mul by lia. done.
Qed.

(** The indices of an address of the virtual disk. *)
Definition i1 (addr : Z) : Z := addr / COVER cb.
Definition i0 (addr : Z) : Z := addr mod COVER cb / CSZ.

Lemma l1_index_eq addr : l1_index addr s = (Ret (i1 addr), s).
Proof using Hx.
  unfold l1_index. step l0_cover_bits_eq. pose proof cb_range.
  by rewrite Z.shiftr_div_pow2 by lia.
Qed.

Lemma l0_index_eq addr : l0_index addr s = (Ret (i0 addr), s).
Proof using Hx.
  unfold l0_index. step l0_cover_size_eq. step cluster_bits_eq. pose proof cb_range.
  unfold COVER, i0, COVER, CS. rewrite Z.shiftr_div_pow2 by lia.
  replace (2 ^ (cb * 2 - 3) - 1) with (Z.ones (cb * 2 - 3))
    by (rewrite Z.ones_equiv; lia).
  by rewrite Z.land_ones by lia.
Qed.

Definition addr_in (addr : Z) : Prop := 0 <= addr < ENTS cb * COVER cb.

Lemma i1_ok addr : addr_in addr → idx_ok cb (i1 addr).
Proof using Hx.
  intros [H1 H2]. pose proof COVER_eq. pose proof CSZ_pos.
  pose proof (CS_8 cb cb_range). unfold idx_ok, i1.
  split; [apply Z.div_pos; nia|]. apply Z.div_lt_upper_bound; nia.
Qed.

Lemma i0_ok addr : idx_ok cb (i0 addr).
Proof using Hx.
  pose proof COVER_eq as E. pose proof CSZ_pos. pose proof (CS_8 cb cb_range).
  unfold idx_ok, i0. pose proof (Z.mod_pos_bound addr (COVER cb) ltac:(nia)).
  split; [apply Z.div_pos; lia|]. apply Z.div_lt_upper_bound; nia.
Qed.

(** *** Tables *)

Lemma cluster_word x i : meta_cluster cb hwm x → idx_ok cb i →
  word_ok s (x + 8 * i) = true.
Proof using Hx.
  intros (H1 & H2 & H3) Hi. apply word_ok_spec. unfold idx_ok in Hi.
  destruct (x_limit _ _ _ _ Hx) as (? & ? & ?). pose proof CSZ_pos.
  pose proof (CS_8 cb cb_range) as [E _].
  split; [lia|]. split; [nia|].
  apply Z.mod_divide in H3 as [a ->]; [|lia]. rewrite E.
  replace (a * (8 * ENTS cb) + 8 * i) with ((a * ENTS cb + i) * 8) by lia.
  apply Z.mod_mul. lia.
Qed.

Lemma nt_get_eq x i : meta_cluster cb hwm x → idx_ok cb i →
  nt_get (Span x CSZ) i s = (Ret (W s (x + 8 * i)), s).
Proof using Hx.
  intros Hm Hi. unfold nt_get. simpl. fold (ENTS cb).
  replace (i <? ENTS cb) with true by (unfold idx_ok in Hi; lia).
  apply rd64_Ret. by apply cluster_word.
Qed.

(** Writing an entry, also in a state that differs from [s] in words only. *)
Lemma nt_set_at x i v s' : meta_cluster cb hwm x → idx_ok cb i → fbytes s' = fbytes s →
  nt_set (Span x CSZ) i v s' =
    (Ret tt, set_words (aset (words s') (x + 8 * i) v) s').
Proof using Hx.
  intros Hm Hi Hf. unfold nt_set. simpl. fold (ENTS cb).
  replace (i <? ENTS cb) with true by (unfold idx_ok in Hi; lia).
  apply wr64_Ret. pose proof (cluster_word x i Hm Hi) as H.
  rewrite word_ok_spec in *. by rewrite Hf.
Qed.

Lemma nt_set_eq x i v : meta_cluster cb hwm x → idx_ok cb i →
  nt_set (Span x CSZ) i v s =
    (Ret tt, set_words (aset (words s) (x + 8 * i) v) s).
Proof using Hx. intros. by apply nt_set_at. Qed.

Lemma deref_cluster x : meta_cluster cb hwm x → deref x CSZ s = (Ret (Span x CSZ), s).
Proof using Hx.
  intros (H1 & H2 & H3). unfold deref. step (get_Ret s). pose proof CSZ_pos.
  destruct (x_limit _ _ _ _ Hx) as (? & ? & ?).
  replace ((0 <=? x) && (0 <=? CSZ) && (x + CSZ <=? fbytes s)) with true; [done|].
  symmetry. rewrite !andb_true_iff. nia.
Qed.

Lemma root_cluster r : r ∈ ly_roots ly → meta_cluster cb hwm r.
Proof using Hx. apply (wi_roots _ _ _ _ _ (x_winv _ _ _ _ Hx)). Qed.
Lemma table_cluster t : t ∈ ly_tables ly → meta_cluster cb hwm t.
Proof using Hx. apply (wi_tables _ _ _ _ _ (x_winv _ _ _ _ Hx)). Qed.
Lemma active_root : A ∈ ly_roots ly.
Proof using Hx. apply (wi_active _ _ _ _ _ (x_winv _ _ _ _ Hx)). Qed.

Lemma nt_next_eq r i : r ∈ ly_roots ly → idx_ok cb i →
  nt_next (Span r CSZ) i CSZ s =
    (Ret (if nt_valid (l1_ent (W s) r i)
          then Some (Span (nt_decode (l1_ent (W s) r i)) CSZ) else None), s).
Proof using Hx.
  intros Hr Hi. unfold nt_next. step (nt_get_eq r i (root_cluster r Hr) Hi).
  fold (l1_ent (W s) r i). destruct (nt_valid (l1_ent (W s) r i)) eqn:E; [|done].
  cbn [negb].
  assert (nt_decode (l1_ent (W s) r i) ∈ ly_tables ly) as Ht.
  { by apply (wi_refs _ _ _ _ _ (x_winv _ _ _ _ Hx)). }
  by step (deref_cluster _ (table_cluster _ Ht)).
Qed.

Lemma translate_read_eq r hw addr : r ∈ ly_roots ly → addr_in addr →
  translate_read (Snap (Span r CSZ) hw) addr s =
    (Ret (leaf_at (W s) r (i1 addr) (i0 addr)), s).
Proof using Hx.
  intros Hr Ha. unfold translate_read. step (l1_index_eq addr). step cluster_size_eq.
  simpl root. step (nt_next_eq r (i1 addr) Hr (i1_ok addr Ha)). unfold leaf_at.
  destruct (nt_valid (l1_ent (W s) r (i1 addr))) eqn:E; [|done].
  step (l0_index_eq addr). apply nt_get_eq; [|apply i0_ok].
  apply table_cluster. apply (wi_refs _ _ _ _ _ (x_winv _ _ _ _ Hx)); [done| |done].
  by apply i1_ok.
Qed.

(** *** Allocation *)

Definition bump_hwm : xfile :=
  set_words (aset (words s) 24 (with_hi32 (W s 24) (hwm + 1))) s.

Lemma hwm_range : 3 <= hwm < 2 ^ 32 ∧ hwm * CSZ <= fbytes s.
Proof using Hx.
  destruct (x_limit _ _ _ _ Hx) as (? & ? & ?). pose proof CSZ_pos.
  assert (0 <= lo32 (W s 24) < 2 ^ 32) by apply u32_range. split; [lia|nia].
Qed.

Lemma alloc_meta_eq : alloc_meta_cluster s =
  if hwm <? lo32 (W s 24) then (Ret (hwm * CSZ, CSZ), bump_hwm) else (Throw Ehwm, s).
Proof using Hx.
  unfold alloc_meta_cluster, alloc_meta_clusters, hdr_hwm, hdr_hwm_limit.
  pose proof (hdr_word_ok 24 ltac:(lia) eq_refl) as H24.
  step (bind_Ret _ (λ x, mret (hi32 x)) _ _ _ (rd64_Ret s 24 H24)).
  step (bind_Ret _ (λ x, mret (lo32 x)) _ _ _ (rd64_Ret s 24 H24)).
  destruct hwm_range as [Hr Hb]. destruct (x_limit _ _ _ _ Hx) as (Hl1 & Hl2 & Hl3).
  assert (0 <= lo32 (W s 24) < 2 ^ 32) by apply u32_range.
  rewrite u64_small by lia.
  destruct (Z.ltb_spec hwm (lo32 (W s 24))).
  - replace (lo32 (W s 24) <? hwm + 1) with false by lia.
    step cluster_bits_eq. rewrite (u32_small (hwm + 1)) by lia.
    pose proof CSZ_pos. pose proof cb_range.
    step (set_hdr_hwm_eq s (hwm + 1) H24).
    rewrite !Z.shiftl_mul_pow2 by lia. fold CSZ.
    rewrite u32_small by nia. rewrite Z.mul_1_l, u64_small by lia. done.
  - by replace (lo32 (W s 24) <? hwm + 1) with true by lia.
Qed.

(** *** A table the active snapshot may write *)

(** What the steps up to the leaf do: the entry [i] of the active root refers
    to a table of its own; the leaves below it lose their write permission if
    the table was shared; nothing else changes. *)
Definition owned (w : Z → Z) (i : Z) : bool :=
  nt_valid (l1_ent w A i) && xb_writable (l1_ent w A i).

(** A word of none of the translation tables; the mapped file and its current
    tables, and the allocation mark only grows. *)
Definition outside (y : Z) : Prop :=
  ∀ x, x ∈ ly_roots ly ∨ x ∈ ly_tables ly → y < x ∨ x + CSZ <= y.
(** A word that neither the active root nor a table it owns has. *)
Definition foreign (y : Z) : Prop := (y < A ∨ A + CSZ <= y) ∧
  ∀ k, idx_ok cb k → owned (W s) k = true →
    y < nt_decode (l1_ent (W s) A k) ∨ nt_decode (l1_ent (W s) A k) + CSZ <= y.
Definition same_files (s' : xfile) : Prop :=
  snaps_tbl s' = snaps_tbl s ∧ flist_tbl s' = flist_tbl s ∧ fbytes s' = fbytes s ∧
  hwm <= hi32 (W s' 24).

Record l0_step (s' : xfile) (i : Z) : Prop := {
  l0_inv : ∃ tables, xinv cb s' (Layout (ly_roots ly) A tables) hat ∧
    ∀ t, t ∈ tables → t ∈ ly_tables ly ∨ hwm * CSZ <= t;
  l0_owned : owned (W s') i = true;
  l0_same : owned (W s) i = true → s' = s;
  l0_leaf : ∀ j, idx_ok cb j → leaf_at (W s') A i j =
    if owned (W s) i then leaf_at (W s) A i j else mask_leaf (leaf_at (W s) A i j);
  l0_other : ∀ r k j, r ∈ ly_roots ly → idx_ok cb k → idx_ok cb j →
    (r, k) ≠ (A, i) → leaf_at (W s') r k j = leaf_at (W s) r k j;
  l0_eff : ∀ k j, idx_ok cb k → idx_ok cb j →
    eff_writable (W s') A k j = eff_writable (W s) A k j;
  l0_mark : W s' hat = W s hat ∧ W s' 32 = W s 32;
  l0_frame : same_files s' ∧ ∀ y, y < hwm * CSZ → y ≠ 24 → foreign y → W s' y = W s y;
  (** the other entries stay, and a table that is made is new *)
  l0_entry : ∀ k, idx_ok cb k → k ≠ i → l1_ent (W s') A k = l1_ent (W s) A k;
  l0_table : owned (W s) i = false → hwm * CSZ <= nt_decode (l1_ent (W s') A i);
}.

Lemma outside_foreign y : outside y → foreign y.
Proof using Hx.
  intros Ho. split; [apply Ho; left; apply active_root|]. intros k Hk [Hv _]%andb_prop.
  apply Ho. right. eapply wi_refs; [apply (x_winv _ _ _ _ Hx)|apply active_root|done|done].
Qed.

Section new_table_state.
Context (s' : xfile) (i : Z) (c : Z → Z).
Let N := hwm * CSZ.
Context (Hi : idx_ok cb i) (Hroom : hwm < lo32 (W s 24)).
Context (Hno : owned (W s) i = false).
Context (H24 : W s' 24 = with_hi32 (W s 24) (hwm + 1)).
Context (HN : ∀ j, idx_ok cb j → W s' (N + 8 * j) = c j).
Context (HA : W s' (A + 8 * i) = encode_ref N true).
Context (Hout : ∀ y, y ≠ 24 → y ≠ A + 8 * i → y < N ∨ N + CSZ <= y → W s' y = W s y).
Context (Hrange : ∀ x, 0 <= W s' x < 2 ^ 64) (Hfb : fbytes s' = fbytes s).
Context (Hst : snaps_tbl s' = snaps_tbl s) (Hfl : flist_tbl s' = flist_tbl s).
Context (Hleaf : ∀ j, idx_ok cb j → c j = mask_leaf (leaf_at (W s) A i j)).

Lemma nts_cluster_out x k : meta_cluster cb hwm x → idx_ok cb k →
  x + 8 * k ≠ A + 8 * i → W s' (x + 8 * k) = W s (x + 8 * k).
Proof using All.
  intros (H1 & H2 & H3) Hk Hne. pose proof CSZ_pos. pose proof (CS_8 cb cb_range) as [E _].
  unfold idx_ok in Hk. apply Hout; [lia|done|]. left. unfold N. lia.
Qed.

Lemma nts_roots r j : r ∈ ly_roots ly → idx_ok cb j → (r, j) ≠ (A, i) →
  W s' (r + 8 * j) = W s (r + 8 * j).
Proof using All.
  intros Hr Hj Hne. apply nts_cluster_out; [by apply root_cluster|done|].
  intros E. apply Hne. f_equal;
    by edestruct (clusters_apart cb cb_range hwm r A j i); auto using root_cluster, active_root.
Qed.

Lemma nts_tables t j : t ∈ ly_tables ly → idx_ok cb j →
  W s' (t + 8 * j) = W s (t + 8 * j).
Proof using All.
  intros Ht Hj. apply nts_cluster_out; [by apply table_cluster|done|].
  intros E. edestruct (clusters_apart cb cb_range hwm t A j i) as [-> _];
    auto using root_cluster, table_cluster, active_root.
  by eapply (wi_disjoint _ _ _ _ _ (x_winv _ _ _ _ Hx)); [apply active_root|].
Qed.

(** A leaf below a shared entry is never one the active snapshot may write
    through another entry. *)
Lemma nts_content j : idx_ok cb j → xb_writable (c j) = false ∧
  (nt_valid (c j) = true → 0 <= nt_decode (c j) < W s hat * CSZ ∧
     ∀ k l, idx_ok cb k → idx_ok cb l → k ≠ i → eff_writable (W s) A k l = true →
       nt_decode (c j) ≠ nt_decode (leaf_at (W s) A k l)).
Proof using All.
  intros Hj. rewrite Hleaf by done. rewrite mask_leaf_writable, mask_leaf_valid, mask_leaf_decode.
  split; [done|]. pose proof (x_winv _ _ _ _ Hx) as Hw. pose proof active_root as HAr.
  destruct (nt_valid (l1_ent (W s) A i)) eqn:E.
  2:{ unfold leaf_at. rewrite E. by rewrite nt_valid_bit. }
  assert (leaf_at (W s) A i j = W s (nt_decode (l1_ent (W s) A i) + 8 * j)) as El
    by (unfold leaf_at; by rewrite E).
  assert (nt_decode (l1_ent (W s) A i) ∈ ly_tables ly) as Ht by by eapply wi_refs.
  rewrite El. intros Hv. split; [by eapply wi_leaves|].
  intros k l Hk Hl Hne He Hd.
  destruct (wi_leaf_owned _ _ _ _ _ Hw k l _ j Hk Hl Ht Hj He Hv Hd) as [Ht' _].
  unfold eff_writable in He. repeat apply andb_prop in He as [He ?].
  destruct (wi_owned _ _ _ _ _ Hw k A i Hk HAr Hi) as [_ ?]; congruence.
Qed.

Lemma nts_hat : W s' hat = W s hat.
Proof using All.
  destruct (x_hat _ _ _ _ Hx) as (H1 & H2 & H3 & H4). pose proof CSZ_pos.
  apply Hout; [lia| |left; unfold N; lia].
  destruct (H4 A (or_introl active_root)); pose proof (CS_8 cb cb_range) as [E _];
    unfold idx_ok in Hi; lia.
Qed.

Lemma nts_header y : 0 <= y <= 48 → y ≠ 24 → W s' y = W s y.
Proof using All.
  intros. pose proof CSZ_pos. destruct (root_cluster A active_root) as (? & ? & ?).
  unfold idx_ok in Hi. apply Hout; [done|lia|]. left. unfold N. lia.
Qed.

Lemma nts_room : 1 <= hwm ∧ (hwm + 1) * CSZ < 2 ^ 63.
Proof using All.
  pose proof CSZ_pos. destruct hwm_range. destruct (x_limit _ _ _ _ Hx) as (? & ? & ?).
  assert (0 <= lo32 (W s 24) < 2 ^ 32) by apply u32_range. nia.
Qed.

(** What the lemmas on a new table ask of the two word functions holds of
    [s] and [s']. *)
Ltac nts_apply lem :=
  destruct nts_room; pose proof (x_winv _ _ _ _ Hx);
  assert (owned (W s) i = false) as Hno' by done; unfold owned in Hno';
  apply (lem cb cb_range (W s) (W s') hwm (W s hat) i ly c); try done;
  auto using nts_content, nts_roots, nts_tables.

Lemma nts_winv : winv cb (W s') (hwm + 1) (W s hat)
  (Layout (ly_roots ly) A (N :: ly_tables ly)).
Proof using All. nts_apply new_table_winv. Qed.

Lemma nts_leaf_new j : idx_ok cb j → leaf_at (W s') A i j = c j.
Proof using All. intros. nts_apply leaf_at_new. Qed.

Lemma nts_leaf_other r k j : r ∈ ly_roots ly → idx_ok cb k → idx_ok cb j →
  (r, k) ≠ (A, i) → leaf_at (W s') r k j = leaf_at (W s) r k j.
Proof using All. intros. nts_apply leaf_at_other. Qed.

Lemma nts_writable k j : idx_ok cb k → idx_ok cb j →
  eff_writable (W s') A k j = eff_writable (W s) A k j.
Proof using All.
  intros Hk Hj. destruct (decide (k = i)) as [->|Hne]; [|nts_apply eff_writable_other].
  unfold eff_writable at 1. rewrite nts_leaf_new, Hleaf, mask_leaf_writable, andb_false_r by done.
  symmetry. unfold eff_writable. by rewrite (Hno : _ && _ = false).
Qed.

Lemma nts_xinv : xinv cb s' (Layout (ly_roots ly) A (N :: ly_tables ly)) hat.
Proof using All.
  destruct nts_room. destruct hwm_range. destruct (x_limit _ _ _ _ Hx) as (? & ? & ?).
  assert (0 <= lo32 (W s 24) < 2 ^ 32) by apply u32_range. pose proof CSZ_pos.
  split.
  - rewrite nts_header by lia. apply Hx.
  - rewrite Hfb, H24, hi32_with_hi, lo32_with_hi by lia. lia.
  - rewrite nts_hat, nts_header by lia. apply Hx.
  - rewrite H24, hi32_with_hi, nts_hat by lia. apply nts_winv.
  - destruct (x_hat _ _ _ _ Hx) as (? & ? & ? & Hh). rewrite H24, hi32_with_hi by lia.
    split_and!; [done|done|lia|]. simpl.
    intros x [Hxr|[->|Hxt]%elem_of_cons]; [auto| |auto]. left. unfold N. lia.
Qed.

Lemma new_table_state : l0_step s' i.
Proof using All.
  destruct nts_room. pose proof CSZ_pos. destruct (x_limit _ _ _ _ Hx) as (? & ? & ?).
  assert (0 <= lo32 (W s 24) < 2 ^ 32) by apply u32_range.
  assert (nt_valid (l1_ent (W s') A i) = true) as Hv.
  { unfold l1_ent. rewrite HA. apply nt_valid_encode. }
  split.
  - exists (N :: ly_tables ly). split; [apply nts_xinv|].
    intros t [->|?]%elem_of_cons; [right; unfold N; lia|by left].
  - unfold owned. rewrite Hv. unfold l1_ent. rewrite HA. apply xb_writable_encode.
  - by rewrite Hno.
  - intros j Hj. rewrite Hno, nts_leaf_new by done. by apply Hleaf.
  - apply nts_leaf_other.
  - apply nts_writable.
  - split; [apply nts_hat|]. by apply nts_header.
  - split.
    + split_and!; [done..|]. rewrite H24, hi32_with_hi by lia. lia.
    + intros y Hy Hy24 Ho. apply Hout; [done| |by left].
      pose proof (CS_8 cb cb_range) as [E8 _]. unfold idx_ok in Hi.
      destruct Ho as [Ho _]. lia.
  - intros k Hk Hne. unfold l1_ent. apply nts_roots; [apply active_root|done|congruence].
  - intros _. unfold l1_ent. rewrite HA, nt_decode_encode; [done|]. unfold N.
    apply (aligned_addr_ok cb cb_range); [nia|apply Z.mod_mul; lia].
Qed.
End new_table_state.

(** *** The two ways to make a table *)

Lemma W_set_words m x : W (set_words m s) x = aget m x.
Proof. done. Qed.

Lemma W_range x : 0 <= W s x < 2 ^ 64.
Proof using Hx. apply (wi_range _ _ _ _ _ (x_winv _ _ _ _ Hx)). Qed.

Definition arr_range (m : arr) : Prop := ∀ x, 0 <= aget m x < 2 ^ 64.

Lemma arr_range_aset m x v : arr_range m → 0 <= v < 2 ^ 64 → arr_range (aset m x v).
Proof. intros Hm Hv y. rewrite aget_aset. by case_decide. Qed.

Lemma arr_range_fill m x n v : arr_range m → 0 <= v < 2 ^ 64 → arr_range (fill_arr m x n v).
Proof.
  revert m x. induction n as [|n IH]; intros m x Hm Hv; [done|].
  apply IH; [by apply arr_range_aset|done].
Qed.

Lemma arr_range_copy m x y n : arr_range m → arr_range (copy_arr (not64 XB_writable) m x y n).
Proof.
  revert m x y. induction n as [|n IH]; intros m x y Hm; [done|].
  apply IH. apply arr_range_aset; [done|]. apply mask_leaf_range, Hm.
Qed.

(** The words after a table with the contents of [m] at the new cluster. *)
Definition with_table (m : arr) (i : Z) : xfile :=
  set_words (aset m (A + 8 * i) (encode_ref (hwm * CSZ) true)) s.

Lemma new_cluster_bounds : hwm < lo32 (W s 24) →
  0 <= hwm * CSZ ∧ hwm * CSZ + CSZ <= fbytes s.
Proof using Hx.
  intros. destruct (x_limit _ _ _ _ Hx) as (? & ? & ?). pose proof CSZ_pos. nia.
Qed.

Lemma deref_new s' : fbytes s' = fbytes s → hwm < lo32 (W s 24) →
  deref (hwm * CSZ) CSZ s' = (Ret (Span (hwm * CSZ) CSZ), s').
Proof using Hx.
  intros Hf Hr. unfold deref. step (get_Ret s'). rewrite Hf. pose proof CSZ_pos.
  pose proof (new_cluster_bounds Hr).
  by replace ((0 <=? hwm * CSZ) && (0 <=? CSZ) && (hwm * CSZ + CSZ <=? fbytes s))
    with true by (symmetry; rewrite !andb_true_iff; lia).
Qed.

Lemma nt_set_root s' i v : fbytes s' = fbytes s → idx_ok cb i →
  nt_set (Span A CSZ) i v s' = (Ret tt, set_words (aset (words s') (A + 8 * i) v) s').
Proof using Hx. intros. apply nt_set_at; auto using root_cluster, active_root. Qed.

Lemma ENTS_nat : Z.of_nat (Z.to_nat (CSZ / 8)) = ENTS cb.
Proof using Hx. pose proof (CS_8 cb cb_range). unfold ENTS in *. lia. Qed.

Lemma new_addr_ok : hwm < lo32 (W s 24) → addr_ok (hwm * CSZ).
Proof using Hx.
  intros Hr. pose proof CSZ_pos. pose proof (new_cluster_bounds Hr).
  destruct (x_limit _ _ _ _ Hx) as (? & ? & ?).
  apply (aligned_addr_ok cb cb_range); [nia|]. apply Z.mod_mul. lia.
Qed.

Lemma with_table_decode m i : hwm < lo32 (W s 24) →
  nt_decode (l1_ent (W (with_table m i)) A i) = hwm * CSZ.
Proof using Hx.
  intros Hr. unfold l1_ent, with_table. rewrite W_set_words, aget_aset_eq.
  by apply nt_decode_encode, new_addr_ok.
Qed.

(** A table of contents [c] at the new cluster of [m]. *)
Lemma with_table_step m i c : idx_ok cb i → hwm < lo32 (W s 24) → owned (W s) i = false →
  aget m 24 = with_hi32 (W s 24) (hwm + 1) → arr_range m →
  (∀ j, idx_ok cb j → aget m (hwm * CSZ + 8 * j) = c j) →
  (∀ y, y ≠ 24 → y < hwm * CSZ ∨ hwm * CSZ + CSZ <= y → aget m y = W s y) →
  (∀ j, idx_ok cb j → c j = mask_leaf (leaf_at (W s) A i j)) →
  l0_step (with_table m i) i.
Proof using Hx.
  intros Hi Hr Hno Hm24 Hmr HmN Hmo Hc. pose proof CSZ_pos as HCS.
  pose proof (CS_8 cb cb_range) as [E8 _].
  pose proof (root_cluster A active_root) as (H1 & H2 & H3).
  destruct hwm_range as [Hh Hb].
  assert (∀ y, W (with_table m i) y =
    if decide (A + 8 * i = y) then encode_ref (hwm * CSZ) true else aget m y) as HW.
  { intros y. apply aget_aset. }
  pose proof (new_addr_ok Hr) as HN.
  unfold idx_ok in Hi.
  apply (new_table_state (with_table m i) i c); try done.
  - rewrite HW, decide_False by lia. done.
  - intros j Hj. unfold idx_ok in Hj. rewrite HW, decide_False by lia. by apply HmN.
  - rewrite HW, decide_True by done. done.
  - intros y Hy HyA Hout. rewrite HW, decide_False by done. by apply Hmo.
  - intros y. rewrite HW. case_decide; [by apply encode_ref_range|apply Hmr].
Qed.

Lemma bump_range : arr_range (words bump_hwm).
Proof using Hx.
  apply arr_range_aset; [intros y; apply W_range|apply with_hi32_range].
Qed.

(** A copy of a shared table... *)
Definition copied (t : Z) : arr :=
  copy_arr (not64 XB_writable) (words bump_hwm) t (hwm * CSZ) (Z.to_nat (CSZ / 8)).

Lemma copied_step i : idx_ok cb i → hwm < lo32 (W s 24) →
  nt_valid (l1_ent (W s) A i) = true → xb_writable (l1_ent (W s) A i) = false →
  l0_step (with_table (copied (nt_decode (l1_ent (W s) A i))) i) i.
Proof using Hx.
  intros Hi Hr Hv Hw. set (t := nt_decode (l1_ent (W s) A i)).
  assert (t ∈ ly_tables ly) as Ht.
  { eapply wi_refs; [apply (x_winv _ _ _ _ Hx)|apply active_root|done|done]. }
  destruct (table_cluster t Ht) as (Ht1 & Ht2 & Ht3). pose proof CSZ_pos as HCS.
  destruct hwm_range as [Hh _]. pose proof ENTS_nat as En.
  pose proof (CS_8 cb cb_range) as [E8 _].
  assert (∀ y, y ≠ 24 → aget (words bump_hwm) y = W s y) as Hb.
  { intros y Hy. simpl. by rewrite aget_aset_ne. }
  apply (with_table_step _ i (λ j, mask_leaf (W s (t + 8 * j)))); try done.
  - unfold owned. by rewrite Hv, Hw.
  - unfold copied. rewrite copy_arr_out by lia. apply aget_aset_eq.
  - apply arr_range_copy, bump_range.
  - intros j Hj. unfold idx_ok in Hj. unfold copied.
    replace j with (Z.of_nat (Z.to_nat j)) by lia.
    rewrite copy_arr_in by lia. by rewrite Hb by lia.
  - intros y Hy Hout. unfold copied. rewrite copy_arr_out by lia. by apply Hb.
  - intros j Hj. unfold leaf_at. by rewrite Hv.
Qed.

(** ... and an empty one. *)
Definition emptied : arr :=
  fill_arr (words bump_hwm) (hwm * CSZ) (Z.to_nat (CSZ / 8)) empty_leaf.

Lemma emptied_step i : idx_ok cb i → hwm < lo32 (W s 24) →
  nt_valid (l1_ent (W s) A i) = false → l0_step (with_table emptied i) i.
Proof using Hx.
  intros Hi Hr Hv. pose proof CSZ_pos as HCS.
  destruct hwm_range as [Hh _]. pose proof ENTS_nat as En.
  pose proof (CS_8 cb cb_range) as [E8 _].
  apply (with_table_step _ i (λ _, 0)); try done.
  - unfold owned. by rewrite Hv.
  - unfold emptied. rewrite fill_arr_out by lia. apply aget_aset_eq.
  - apply arr_range_fill; [apply bump_range|done].
  - intros j Hj. unfold idx_ok in Hj. unfold emptied.
    replace j with (Z.of_nat (Z.to_nat j)) by lia. by rewrite fill_arr_in by lia.
  - intros y Hy Hout. unfold emptied. rewrite fill_arr_out by lia.
    simpl. by rewrite aget_aset_ne.
  - intros j Hj. unfold leaf_at. by rewrite Hv.
Qed.

Lemma l0_step_refl i : owned (W s) i = true → l0_step s i.
Proof using Hx.
  intros Ho. split; try done.
  - exists (ly_tables ly). split; [by destruct ly|by left].
  - intros j Hj. by rewrite Ho.
  - intros E. by rewrite Ho in E.
Qed.

(** The steps up to the leaf, on every branch. *)
Lemma writable_l0_spec h addr : addr_in addr →
  match writable_l0 (Snap (Span A CSZ) h) addr s with
  | (Ret t, s') => l0_step s' (i1 addr) ∧
      t = Span (nt_decode (l1_ent (W s') A (i1 addr))) CSZ
  | (Throw e, s') => e = Ehwm ∧ s' = s ∧ hwm = lo32 (W s 24) ∧
      owned (W s) (i1 addr) = false
  end.
Proof using Hx.
  intros Ha. pose proof (i1_ok addr Ha) as Hi. set (i := i1 addr) in *.
  unfold writable_l0. step (l1_index_eq addr). step cluster_size_eq. simpl root.
  fold i. step (nt_next_eq A i active_root Hi).
  pose proof (x_limit _ _ _ _ Hx) as (Hl1 & Hl2 & Hl3). pose proof alloc_meta_eq as Ea.
  destruct (nt_valid (l1_ent (W s) A i)) eqn:Hv.
  - step (nt_get_eq A i (root_cluster A active_root) Hi).
    change (W s (A + 8 * i)) with (l1_ent (W s) A i).
    destruct (xb_writable (l1_ent (W s) A i)) eqn:Hw; cbn [negb].
    { split; [|done]. apply l0_step_refl. unfold owned. by rewrite Hv, Hw. }
    destruct (Z.ltb_spec hwm (lo32 (W s 24))).
    2:{ rewrite (bind_Throw _ _ _ _ _ Ea).
        split_and!; [done|done|lia|unfold owned; by rewrite Hv, Hw]. }
    step Ea. step (deref_new bump_hwm eq_refl H).
    set (t := nt_decode (l1_ent (W s) A i)).
    rewrite (bind_Ret (modify _) _ bump_hwm tt (set_words (copied t) bump_hwm)) by done.
    cbv beta.
    step (nt_set_root (set_words (copied t) bump_hwm) i (encode_ref (hwm * CSZ) true)
      eq_refl Hi).
    change (set_words _ (set_words (copied t) bump_hwm)) with (with_table (copied t) i).
    split; [by apply copied_step|]. by rewrite with_table_decode.
  - destruct (Z.ltb_spec hwm (lo32 (W s 24))).
    2:{ rewrite (bind_Throw _ _ _ _ _ Ea).
        split_and!; [done|done|lia|unfold owned; by rewrite Hv]. }
    step Ea. step (deref_new bump_hwm eq_refl H).
    rewrite (bind_Ret (fill_span _ _) _ bump_hwm tt (set_words emptied bump_hwm)) by done.
    cbv beta.
    step (nt_set_root (set_words emptied bump_hwm) i (encode_ref (hwm * CSZ) true)
      eq_refl Hi).
    change (set_words _ (set_words emptied bump_hwm)) with (with_table emptied i).
    split; [by apply emptied_step|]. by rewrite with_table_decode.
Qed.

(** No table can be made when the metadata file is full. *)
Lemma writable_l0_full h addr : addr_in addr → owned (W s) (i1 addr) = false →
  lo32 (W s 24) <= hwm → writable_l0 (Snap (Span A CSZ) h) addr s = (Throw Ehwm, s).
Proof using Hx.
  intros Ha Ho Hf. pose proof (i1_ok addr Ha) as Hi. set (i := i1 addr) in *.
  unfold writable_l0. step (l1_index_eq addr). step cluster_size_eq. simpl root.
  fold i. step (nt_next_eq A i active_root Hi).
  pose proof alloc_meta_eq as Ea. rewrite (proj2 (Z.ltb_ge _ _) Hf) in Ea.
  unfold owned in Ho. destruct (nt_valid (l1_ent (W s) A i)).
  - step (nt_get_eq A i (root_cluster A active_root) Hi).
    change (W s (A + 8 * i)) with (l1_ent (W s) A i). cbn [andb] in Ho. rewrite Ho. cbn [negb].
    by rewrite (bind_Throw _ _ _ _ _ Ea).
  - by rewrite (bind_Throw _ _ _ _ _ Ea).
Qed.

(** *** A new leaf *)

Definition data_cluster : Z := W s hat * CSZ.

Definition with_leaf (i j : Z) : xfile :=
  let t := nt_decode (l1_ent (W s) A i) in
  set_words (aset (aset (words s) hat (W s hat + 1)) (t + 8 * j)
    (encode_leaf data_cluster true)) s.

Lemma hat_word : word_ok s hat = true.
Proof using Hx.
  destruct (x_hat _ _ _ _ Hx) as (? & ? & ? & _). pose proof CSZ_pos.
  destruct hwm_range as [_ ?]. apply word_ok_spec. lia.
Qed.

Lemma hat_outside x j : x ∈ ly_roots ly ∨ x ∈ ly_tables ly → idx_ok cb j → hat ≠ x + 8 * j.
Proof using Hx.
  intros Hm Hj. destruct (x_hat _ _ _ _ Hx) as (? & ? & ? & Hh).
  pose proof (CS_8 cb cb_range) as [E _]. unfold idx_ok in Hj.
  destruct (Hh x Hm); lia.
Qed.

Lemma alloc_data_eq r : W s hat < W s 32 →
  alloc_data_clusters (Snap r (Some hat)) 1 s =
    (Ret (data_cluster, CSZ), set_words (aset (words s) hat (W s hat + 1)) s).
Proof using Hx.
  intros Hr. unfold alloc_data_clusters. cbn [disk_hwm_at].
  pose proof (W_range hat). pose proof (W_range 32). pose proof CSZ_pos.
  destruct (x_dlimit _ _ _ _ Hx) as [Hd1 Hd2]. pose proof cb_range.
  step (rd64_Ret s hat hat_word). unfold hdr_disk_hwm_limit.
  step (rd64_Ret s 32 (hdr_word_ok 32 ltac:(lia) eq_refl)).
  rewrite (u64_small (W s hat + 1)) by lia.
  replace (W s 32 <? W s hat + 1) with false by lia.
  step cluster_bits_eq. step (wr64_Ret s hat (W s hat + 1) hat_word).
  rewrite !Z.shiftl_mul_pow2 by lia. change (2 ^ cb) with CSZ.
  unfold data_cluster. rewrite (u64_small (_ * _)) by nia.
  by rewrite Z.mul_1_l, u64_small by lia.
Qed.

Lemma alloc_data_full r : W s 32 <= W s hat →
  alloc_data_clusters (Snap r (Some hat)) 1 s = (Throw Edisk_hwm, s).
Proof using Hx.
  intros Hr. unfold alloc_data_clusters. cbn [disk_hwm_at].
  pose proof (W_range hat). pose proof (W_range 32). pose proof CSZ_pos.
  destruct (x_dlimit _ _ _ _ Hx) as [Hd1 Hd2].
  step (rd64_Ret s hat hat_word). unfold hdr_disk_hwm_limit.
  step (rd64_Ret s 32 (hdr_word_ok 32 ltac:(lia) eq_refl)).
  rewrite u64_small by nia. by replace (W s 32 <? W s hat + 1) with true by lia.
Qed.

Section with_leaf.
Context (i j : Z) (Hi : idx_ok cb i) (Hj : idx_ok cb j).
Context (Ho : owned (W s) i = true) (Hroom : W s hat < W s 32).
Let T := nt_decode (l1_ent (W s) A i).
Let s' := with_leaf i j.

Lemma wl_T : T ∈ ly_tables ly.
Proof using All.
  apply andb_prop in Ho as [? _].
  eapply wi_refs; [apply (x_winv _ _ _ _ Hx)|apply active_root|done|done].
Qed.

Lemma wl_W y : W s' y =
  if decide (T + 8 * j = y) then encode_leaf data_cluster true
  else if decide (hat = y) then W s hat + 1 else W s y.
Proof using All. unfold s', with_leaf. rewrite W_set_words. by rewrite !aget_aset. Qed.

Lemma wl_out y : y ≠ T + 8 * j → y ≠ hat → W s' y = W s y.
Proof using All. intros. by rewrite wl_W, !decide_False by done. Qed.

Lemma wl_roots r k : r ∈ ly_roots ly → idx_ok cb k → W s' (r + 8 * k) = W s (r + 8 * k).
Proof using All.
  intros Hr Hk. apply wl_out.
  - intros E. edestruct (clusters_apart cb cb_range hwm r T k j) as [-> _];
      auto using root_cluster, table_cluster, wl_T.
    eapply (wi_disjoint _ _ _ _ _ (x_winv _ _ _ _ Hx)); [done|apply wl_T].
  - intros E. symmetry in E. by eapply hat_outside; [left| |].
Qed.

Lemma wl_tables t k : t ∈ ly_tables ly → idx_ok cb k → (t, k) ≠ (T, j) →
  W s' (t + 8 * k) = W s (t + 8 * k).
Proof using All.
  intros Ht Hk Hne. apply wl_out.
  - intros E. apply Hne.
    edestruct (clusters_apart cb cb_range hwm t T k j) as [-> ->];
      auto using table_cluster, wl_T.
  - intros E. symmetry in E. by eapply hat_outside; [right| |].
Qed.

Lemma wl_new : W s' (T + 8 * j) = encode_leaf (W s hat * CSZ) true.
Proof using All. by rewrite wl_W, decide_True by done. Qed.

Lemma wl_header y : 0 <= y <= 48 → W s' y = W s y.
Proof using All.
  intros. pose proof CSZ_pos. destruct (table_cluster T wl_T) as (? & ? & ?).
  destruct (x_hat _ _ _ _ Hx) as (? & ? & ? & _). unfold idx_ok in Hj.
  apply wl_out; lia.
Qed.

Lemma wl_hat : W s' hat = W s hat + 1.
Proof using All.
  rewrite wl_W, decide_False, decide_True by (done ||
    (intros E; symmetry in E; eapply (hat_outside T j); [right; apply wl_T|done|done])).
  done.
Qed.

Lemma wl_data : 0 <= W s hat ∧ (W s hat + 1) * CSZ <= 2 ^ 63 ∧
  0 <= W s hat + 1 < 2 ^ 64 ∧ addr_ok data_cluster.
Proof using All.
  pose proof (W_range hat). pose proof CSZ_pos. destruct (x_dlimit _ _ _ _ Hx) as [Hd1 Hd2].
  assert ((W s hat + 1) * CSZ <= 2 ^ 63) by nia.
  split_and!; [lia|lia|lia|nia|].
  apply (aligned_addr_ok cb cb_range); [unfold data_cluster; nia|].
  apply Z.mod_mul. lia.
Qed.

Lemma wl_range x : 0 <= W s' x < 2 ^ 64.
Proof using All.
  destruct wl_data as (_ & _ & ? & ?). rewrite wl_W.
  repeat case_decide; [by apply encode_ref_range|done|apply W_range].
Qed.

Lemma wl_winv : winv cb (W s') hwm (W s hat + 1) ly.
Proof using All.
  destruct wl_data as (? & ? & _). pose proof (x_winv _ _ _ _ Hx).
  apply andb_prop in Ho as Ho'. destruct Ho'.
  apply (new_leaf_winv cb cb_range (W s) (W s') hwm (W s hat) i j ly); try done;
    [apply wl_range|apply wl_new|apply wl_roots|apply wl_tables].
Qed.

Lemma wl_leaf_other r k l : r ∈ ly_roots ly → idx_ok cb k → idx_ok cb l →
  (r, k, l) ≠ (A, i, j) → leaf_at (W s') r k l = leaf_at (W s) r k l.
Proof using All.
  destruct wl_data as (? & ? & _). pose proof (x_winv _ _ _ _ Hx).
  apply andb_prop in Ho as Ho'. destruct Ho'.
  apply (leaf_other cb cb_range (W s) (W s') hwm (W s hat) i j ly); try done;
    [apply wl_range|apply wl_new|apply wl_roots|apply wl_tables].
Qed.

Lemma wl_eff_other k l : idx_ok cb k → idx_ok cb l → (k, l) ≠ (i, j) →
  eff_writable (W s') A k l = eff_writable (W s) A k l.
Proof using All.
  destruct wl_data as (? & ? & _). pose proof (x_winv _ _ _ _ Hx).
  apply andb_prop in Ho as Ho'. destruct Ho'.
  apply (eff_other cb cb_range (W s) (W s') hwm (W s hat) i j ly); try done;
    [apply wl_range|apply wl_new|apply wl_roots|apply wl_tables].
Qed.

Lemma wl_leaf_new : leaf_at (W s') A i j = encode_leaf data_cluster true ∧
  eff_writable (W s') A i j = true.
Proof using All.
  assert (l1_ent (W s') A i = l1_ent (W s) A i) as E1
    by (unfold l1_ent; by rewrite wl_roots by (done || apply active_root)).
  apply andb_prop in Ho as Ho'. destruct Ho' as [Hv Hw].
  assert (leaf_at (W s') A i j = encode_leaf data_cluster true) as E2.
  { unfold leaf_at. rewrite E1, Hv. fold T. apply wl_new. }
  split; [done|]. unfold eff_writable. rewrite E2, E1, Hv, Hw.
  change (encode_leaf data_cluster true) with (encode_ref data_cluster true).
  by rewrite nt_valid_encode, xb_writable_encode.
Qed.

Lemma wl_xinv : xinv cb s' ly hat.
Proof using All.
  split; rewrite ?wl_hat, ?wl_header by lia; try apply Hx.
  - destruct (x_dlimit _ _ _ _ Hx). lia.
  - apply wl_winv.
Qed.
End with_leaf.
End ops.

(** ** Writes *)

Section write.
Context (cb : Z) (s : xfile) (ly : layout) (hat : Z) (Hx : xinv cb s ly hat).
Abbreviation hwm := (hi32 (W s 24)).
Abbreviation A := (ly_active ly).
Abbreviation CSZ := (CS cb).

(** What a write of the cluster at [(i, j)] of the active snapshot does: its
    leaf becomes [tl], which the snapshot may write through; a leaf it already
    might write through is kept with the whole file, any other is replaced by
    the next data cluster; every other leaf of every snapshot keeps its
    address. *)
Record write_step (s' : xfile) (i j tl prev : Z) : Prop := {
  ws_inv : ∃ tables, xinv cb s' (Layout (ly_roots ly) A tables) hat ∧
    ∀ t, t ∈ tables → t ∈ ly_tables ly ∨ hwm * CSZ <= t;
  ws_leaf : leaf_at (W s') A i j = tl;
  ws_eff : eff_writable (W s') A i j = true;
  ws_addr : nt_decode tl =
    if eff_writable (W s) A i j then nt_decode (leaf_at (W s) A i j)
    else W s hat * CSZ;
  ws_mark : W s' hat = if eff_writable (W s) A i j then W s hat else W s hat + 1;
  ws_same : eff_writable (W s) A i j = true → s' = s;
  ws_prev : prev = if owned ly (W s) i then leaf_at (W s) A i j
                   else mask_leaf (leaf_at (W s) A i j);
  ws_others : ∀ r k l, r ∈ ly_roots ly → idx_ok cb k → idx_ok cb l → r ≠ A →
    leaf_at (W s') r k l = leaf_at (W s) r k l;
  ws_active : ∀ k l, idx_ok cb k → idx_ok cb l → (k, l) ≠ (i, j) →
    nt_valid (leaf_at (W s') A k l) = nt_valid (leaf_at (W s) A k l) ∧
    nt_decode (leaf_at (W s') A k l) = nt_decode (leaf_at (W s) A k l) ∧
    eff_writable (W s') A k l = eff_writable (W s) A k l;
  ws_frame : same_files s s' ∧ ∀ y, y < hwm * CSZ → y ≠ 24 → y ≠ hat →
    foreign cb s ly y → W s' y = W s y;
  ws_table : ∀ k, idx_ok cb k → owned ly (W s') k = true →
    (owned ly (W s) k = true ∧ l1_ent (W s') A k = l1_ent (W s) A k) ∨
    hwm * CSZ <= nt_decode (l1_ent (W s') A k);
}.

(** The steps up to the leaf keep every address. *)
Lemma l0_step_decode s1 i k l : l0_step cb s ly hat s1 i → idx_ok cb i →
  idx_ok cb k → idx_ok cb l →
  nt_valid (leaf_at (W s1) A k l) = nt_valid (leaf_at (W s) A k l) ∧
  nt_decode (leaf_at (W s1) A k l) = nt_decode (leaf_at (W s) A k l).
Proof using Hx.
  intros H1 Hi Hk Hl. destruct (decide (k = i)) as [->|Hne].
  - rewrite (l0_leaf _ _ _ _ _ _ H1) by done. case_match; [done|].
    by rewrite mask_leaf_valid, mask_leaf_decode.
  - rewrite (l0_other _ _ _ _ _ _ H1); [done|apply (active_root cb s ly hat Hx)|done|done|].
    congruence.
Qed.

Lemma owned_eff i j : owned ly (W s) i = true →
  eff_writable (W s) A i j =
    nt_valid (leaf_at (W s) A i j) && xb_writable (leaf_at (W s) A i j).
Proof. unfold owned, eff_writable. intros ->. done. Qed.

(** From a table of the snapshot's own to the leaf. *)
Lemma write_leaf_step s1 ly1 i j : l0_step cb s ly hat s1 i → idx_ok cb i → idx_ok cb j →
  ly_roots ly1 = ly_roots ly → ly_active ly1 = A → xinv cb s1 ly1 hat →
  (∀ t, t ∈ ly_tables ly1 → t ∈ ly_tables ly ∨ hwm * CSZ <= t) →
  eff_writable (W s1) A i j = false → W s1 hat < W s1 32 →
  write_step (with_leaf cb s1 ly1 hat i j) i j (encode_leaf (data_cluster cb s1 hat) true)
    (leaf_at (W s1) A i j).
Proof using Hx.
  intros H1 Hi Hj Er EA Hx1 Htb He Hroom.
  pose proof (l0_owned _ _ _ _ _ _ H1) as Ho1.
  assert (owned ly1 (W s1) i = true) as Ho1' by (unfold owned in *; by rewrite EA).
  pose proof (l0_eff _ _ _ _ _ _ H1) as Heff. rewrite Heff in He by done.
  destruct (l0_mark _ _ _ _ _ _ H1) as [Hm _].
  destruct (wl_leaf_new cb s1 ly1 hat Hx1 i j Hi Hj Ho1' Hroom) as [El Ee].
  rewrite EA in El, Ee. split; try done.
  - exists (ly_tables ly1).
    replace (Layout (ly_roots ly) A (ly_tables ly1)) with ly1
      by (destruct ly1; simpl in *; by subst).
    split; [by apply wl_xinv|done].
  - rewrite He. change (encode_leaf ?x true) with (encode_ref x true).
    rewrite nt_decode_encode; [unfold data_cluster; by rewrite Hm|].
    by apply (wl_data cb s1 ly1 hat Hx1 i j).
  - rewrite He, (wl_hat cb s1 ly1 hat Hx1 i j Hi Hj Ho1' Hroom). by rewrite Hm.
  - by rewrite He.
  - by rewrite (l0_leaf _ _ _ _ _ _ H1).
  - intros r k l Hr Hk Hl Hne. rewrite (wl_leaf_other cb s1 ly1 hat Hx1 i j); try done.
    + apply (l0_other _ _ _ _ _ _ H1); try done. congruence.
    + by rewrite Er.
    + rewrite EA. congruence.
  - intros k l Hk Hl Hne. rewrite <- (Heff k l Hk Hl), <- EA.
    rewrite (wl_eff_other cb s1 ly1 hat Hx1 i j Hi Hj Ho1' Hroom) by done.
    rewrite (wl_leaf_other cb s1 ly1 hat Hx1 i j Hi Hj Ho1' Hroom);
      [|rewrite Er, EA; apply (active_root cb s ly hat Hx)|done|done|congruence].
    rewrite EA. destruct (l0_step_decode s1 i k l H1 Hi Hk Hl) as [-> ->]. done.
  - destruct (l0_frame _ _ _ _ _ _ H1) as [(F1 & F2 & F3 & F4) Hf].
    split; [split_and!; try done|].
    + by rewrite (wl_header cb s1 ly1 hat Hx1 i j Hi Hj Ho1' Hroom) by lia.
    + intros y Hy H24 Hyh Ho.
      rewrite (wl_out cb s1 ly1 hat Hx1 i j Hi Hj Ho1' Hroom); [by apply Hf| |done].
      pose proof (CS_8 cb (cb_range cb s ly hat Hx)) as [E8 _]. unfold idx_ok in Hj. rewrite EA.
      destruct (owned ly (W s) i) eqn:Eo; [|pose proof (l0_table _ _ _ _ _ _ H1 Eo); lia].
      rewrite (l0_same _ _ _ _ _ _ H1 Eo). destruct Ho as [_ Ho]. destruct (Ho i Hi Eo); lia.
  - intros k Hk Hok.
    assert (l1_ent (W (with_leaf cb s1 ly1 hat i j)) A k = l1_ent (W s1) A k) as Ek.
    { apply (wl_roots cb s1 ly1 hat Hx1 i j Hi Hj Ho1' Hroom); [|done].
      rewrite Er. apply (active_root cb s ly hat Hx). }
    unfold owned in Hok. rewrite Ek in Hok |- *.
    destruct (decide (k = i)) as [->|Hne]; [|left; unfold owned; by rewrite <- (l0_entry _ _ _ _ _ _ H1)].
    destruct (owned ly (W s) i) eqn:Eo; [left|right; by apply (l0_table _ _ _ _ _ _ H1)].
    by rewrite (l0_same _ _ _ _ _ _ H1 Eo).
Qed.

Lemma write_keep_step s1 i j : l0_step cb s ly hat s1 i → idx_ok cb i → idx_ok cb j →
  eff_writable (W s1) A i j = true →
  write_step s1 i j (leaf_at (W s1) A i j) (leaf_at (W s1) A i j).
Proof using Hx.
  intros H1 Hi Hj He. pose proof (l0_eff _ _ _ _ _ _ H1) as Heff.
  assert (eff_writable (W s) A i j = true) as He0 by by rewrite <- Heff.
  assert (owned ly (W s) i = true) as Ho0.
  { unfold eff_writable in He0. apply andb_prop in He0 as [He0 _].
    by apply andb_prop in He0 as [He0 _]. }
  pose proof (l0_same _ _ _ _ _ _ H1 Ho0) as ->.
  split; try done; rewrite ?He0, ?Ho0; try done.
  - exists (ly_tables ly). split; [by destruct ly|by left].
  - intros k Hk Hok. by left.
Qed.

(** Below an owned entry the leaf is the table's, and its own bits decide. *)
Lemma owned_leaf s1 i j : owned ly (W s1) i = true →
  W s1 (nt_decode (l1_ent (W s1) A i) + 8 * j) = leaf_at (W s1) A i j ∧
  eff_writable (W s1) A i j =
    nt_valid (leaf_at (W s1) A i j) && xb_writable (leaf_at (W s1) A i j).
Proof using.
  intros [Hv Hw]%andb_prop. unfold eff_writable, leaf_at. by rewrite Hv, Hw.
Qed.

(** [translate_write], on every branch. *)
Lemma translate_write_spec addr : addr_in cb addr →
  match translate_write (Snap (Span A CSZ) (Some hat)) addr s with
  | (Ret (tl, prev), s') => write_step s' (i1 cb addr) (i0 cb addr) tl prev
  | (Throw e, s') =>
      (e = Ehwm ∧ s' = s ∧ hwm = lo32 (W s 24) ∧ owned ly (W s) (i1 cb addr) = false) ∨
      (e = Edisk_hwm ∧ l0_step cb s ly hat s' (i1 cb addr) ∧ W s hat = W s 32 ∧
       eff_writable (W s) A (i1 cb addr) (i0 cb addr) = false)
  end.
Proof using Hx.
  intros Ha. pose proof (i1_ok cb s ly hat Hx addr Ha) as Hi.
  pose proof (i0_ok cb s ly hat Hx addr) as Hj.
  set (i := i1 cb addr) in *. set (j := i0 cb addr) in *.
  unfold translate_write. cbn [disk_hwm_at]. rewrite bool_decide_true by done. cbn [negb].
  pose proof (writable_l0_spec cb s ly hat Hx (Some hat) addr Ha) as Hl0. fold i in Hl0.
  destruct (writable_l0 _ addr s) as [[t|e] s1] eqn:El0.
  2:{ rewrite (bind_Throw _ _ _ _ _ El0). left. done. }
  step El0. destruct Hl0 as [H1 ->].
  destruct (l0_inv _ _ _ _ _ _ H1) as (tables & Hx1 & Htb).
  set (ly1 := Layout (ly_roots ly) A tables) in *.
  pose proof (l0_owned _ _ _ _ _ _ H1) as Ho1.
  assert (owned ly1 (W s1) i = true) as Ho1' by done.
  set (t := nt_decode (l1_ent (W s1) A i)).
  assert (t ∈ ly_tables ly1) as Ht.
  { apply andb_prop in Ho1 as [? _]. apply (wi_refs _ _ _ _ _ (x_winv _ _ _ _ Hx1)); try done.
    apply (active_root cb s1 ly1 hat Hx1). }
  pose proof (table_cluster cb s1 ly1 hat Hx1 t Ht) as Hmt.
  step (l0_index_eq cb s1 ly1 hat Hx1 addr). fold j.
  step (nt_get_eq cb s1 ly1 hat Hx1 t j Hmt Hj).
  destruct (owned_leaf s1 i j Ho1) as [El Ee]. fold t in El. rewrite El, <- negb_andb, <- Ee.
  destruct (eff_writable (W s1) A i j) eqn:He; cbn [negb].
  { by apply write_keep_step. }
  destruct (l0_mark _ _ _ _ _ _ H1) as [Hm1 Hm2].
  destruct (Z.lt_ge_cases (W s1 hat) (W s1 32)) as [Hroom|Hfull].
  - step (alloc_data_eq cb s1 ly1 hat Hx1 (Span A CSZ) Hroom).
    set (s2 := set_words _ s1).
    step (nt_set_at cb s1 ly1 hat Hx1 t j (encode_leaf (data_cluster cb s1 hat) true) s2
      Hmt Hj eq_refl).
    change (set_words _ s2) with (with_leaf cb s1 ly1 hat i j).
    pose proof (wl_xinv cb s1 ly1 hat Hx1 i j Hi Hj Ho1' Hroom) as Hx2.
    step (nt_get_eq cb _ ly1 hat Hx2 t j (table_cluster cb _ ly1 hat Hx2 t Ht) Hj).
    pose proof (wl_new cb s1 ly1 hat Hx1 i j Hi Hj Ho1' Hroom) as En.
    change (nt_decode (l1_ent (W s1) (ly_active ly1) i)) with t in En. rewrite En.
    by apply (write_leaf_step s1 ly1).
  - rewrite (bind_Throw _ _ _ _ _ (alloc_data_full cb s1 ly1 hat Hx1 _ Hfull)).
    right. split_and!; [done|done| |by rewrite <- (l0_eff _ _ _ _ _ _ H1)].
    destruct (x_dlimit _ _ _ _ Hx). rewrite Hm1, Hm2 in Hfull. lia.
Qed.

Lemma write_step_limit s' i j tl prev : write_step s' i j tl prev → W s' 32 = W s 32.
Proof using Hx.
  intros Hs. destruct (ws_frame _ _ _ _ _ Hs) as [_ Hf].
  pose proof (CSZ_pos cb s ly hat Hx). destruct (x_limit _ _ _ _ Hx) as (Hl & _ & _).
  destruct (x_hat _ _ _ _ Hx) as (_ & Hh & _). apply Hf; [nia|done|lia|].
  apply (outside_foreign cb s ly hat Hx). intros x [Hr|Ht]; left;
    [apply (root_cluster cb s ly hat Hx) in Hr as [? _]|apply (table_cluster cb s ly hat Hx) in Ht as [? _]]; lia.
Qed.

(** A write that succeeds found room for what it needed. *)
Lemma translate_write_room addr tl prev s' : addr_in cb addr →
  translate_write (Snap (Span A CSZ) (Some hat)) addr s = (Ret (tl, prev), s') →
  (owned ly (W s) (i1 cb addr) = false → hwm < lo32 (W s 24)) ∧
  (eff_writable (W s) A (i1 cb addr) (i0 cb addr) = false → W s hat < W s 32).
Proof using Hx.
  intros Ha E. pose proof (translate_write_spec addr Ha) as Hs. rewrite E in Hs. split.
  - intros Ho. destruct (Z.lt_ge_cases hwm (lo32 (W s 24))) as [|Hf]; [done|]. exfalso.
    unfold translate_write in E. cbn [disk_hwm_at] in E. rewrite bool_decide_true in E by done.
    cbn [negb] in E.
    by rewrite (bind_Throw _ _ _ _ _ (writable_l0_full cb s ly hat Hx _ addr Ha Ho Hf)) in E.
  - intros He. pose proof (ws_mark _ _ _ _ _ Hs) as Hm. rewrite He in Hm.
    destruct (ws_inv _ _ _ _ _ Hs) as (tables & Hx' & _). destruct (x_dlimit _ _ _ _ Hx') as [[_ Hd] _].
    rewrite (write_step_limit _ _ _ _ _ Hs) in Hd. lia.
Qed.

(** The two errors, exactly. *)
Lemma translate_write_errors addr : addr_in cb addr →
  let r := translate_write (Snap (Span A CSZ) (Some hat)) addr s in
  let no_table := negb (owned ly (W s) (i1 cb addr)) && (hwm =? lo32 (W s 24)) in
  (r.1 = Throw Ehwm ↔ no_table = true) ∧
  (r.1 = Throw Edisk_hwm ↔
     no_table = false ∧ eff_writable (W s) A (i1 cb addr) (i0 cb addr) = false ∧ W s hat = W s 32).
Proof using Hx.
  intros Ha r no_table. pose proof (translate_write_spec addr Ha) as Hs.
  pose proof (translate_write_room addr) as Hroom. fold r in Hs, Hroom.
  destruct (x_limit _ _ _ _ Hx) as (Hl & _ & _). destruct (x_dlimit _ _ _ _ Hx) as [Hd _].
  assert (no_table = true → r = (Throw Ehwm, s)) as Hfull.
  { unfold no_table. intros [Ho He]%andb_prop. to_prop.
    unfold r, translate_write. cbn [disk_hwm_at]. rewrite bool_decide_true by done. cbn [negb].
    destruct (owned ly (W s) (i1 cb addr)) eqn:Eo; [done|].
    by rewrite (bind_Throw _ _ _ _ _ (writable_l0_full cb s ly hat Hx _ addr Ha Eo ltac:(lia))). }
  destruct r as [[[tl prev]|e] s1] eqn:Er; cbn [fst].
  - destruct (Hroom tl prev s1 Ha eq_refl) as [H1 H2]. split; (split; [done|]).
    + intros Hn. by specialize (Hfull Hn).
    + intros (_ & He & Hf). specialize (H2 He). lia.
  - destruct Hs as [(-> & -> & He & Ho)|(-> & H0 & He & Hef)].
    + assert (no_table = true) as Hn by (unfold no_table; by rewrite Ho, He, Z.eqb_refl).
      split; [done|]. split; [done|]. intros [H _]. congruence.
    + assert (no_table = false) as Hn by (apply not_true_iff_false; intros Hn; by specialize (Hfull Hn)).
      rewrite Hn. split; [done|]. by split.
Qed.
End write.
