(* ===== verification/XcowSnaps.v ===== *)
(** * Snapshot tables, new snapshots and new images

    Symbolic execution of [format], [open_write] and [snap_create] on a file
    whose current snapshot table ends with the active snapshot. *)
From S2P Require Import Prelude Proto Xcow XcowInv XcowOps.

(** ** Halves and references *)

Lemma lo32_with_lo x v : 0 <= v < 2 ^ 32 → lo32 (with_lo32 x v) = v.
Proof.
  intros Hv. unfold lo32, with_lo32. apply Z.bits_inj'. intros k Hk.
  rewrite testbit_u32, Z.lor_spec, testbit_shl, (testbit_u32 v) by lia.
  destruct (Z.ltb_spec k 32).
  - by bool_cases.
  - symmetry. apply (testbit_above v 32); lia.
Qed.

Lemma with_lo32_range x v : 0 <= x < 2 ^ 64 → 0 <= with_lo32 x v < 2 ^ 64.
Proof.
  intros Hx. unfold with_lo32, hi32.
  assert (0 <= Z.shiftl (Z.shiftr x 32) 32).
  { apply Z.shiftl_nonneg, Z.shiftr_nonneg. lia. }
  assert (0 <= Z.lor (Z.shiftl (Z.shiftr x 32) 32) (u32 v))
    by (apply Z.lor_nonneg; split; [done|apply u32_range]).
  split; [done|]. apply range_of_bits; [done|lia|]. intros k Hk.
  rewrite Z.lor_spec, testbit_shl, testbit_u32, Z.shiftr_spec by lia.
  rewrite (testbit_above x 64) by lia. bool_cases.
Qed.

Lemma lor_valid_bit off k : 0 <= k →
  Z.testbit (Z.lor off FB_valid) k = Z.testbit off k || (k =? 63).
Proof. intros. rewrite Z.lor_spec. change FB_valid with XB_valid. by rewrite XB_valid_bit. Qed.

Lemma lt_decode_encode off : 0 <= off < 2 ^ 63 → lt_decode (Z.lor off FB_valid) = off.
Proof.
  intros Ho. apply Z.bits_inj'. intros k Hk. unfold lt_decode, FB_decode_mask.
  rewrite Z.land_spec, lor_valid_bit, not64_bit by lia.
  change FB_valid with XB_valid. rewrite XB_valid_bit by lia.
  destruct (Z.ltb_spec k 63).
  - bool_cases. by rewrite orb_false_r, andb_true_r.
  - rewrite (testbit_above off 63) by lia. bool_cases.
Qed.

Lemma lor_valid_range off : 0 <= off < 2 ^ 63 → 0 <= Z.lor off FB_valid < 2 ^ 64.
Proof.
  intros Ho. assert (0 <= Z.lor off FB_valid) by (apply Z.lor_nonneg; split; [lia|done]).
  split; [done|]. apply range_of_bits; [done|lia|]. intros k Hk.
  rewrite lor_valid_bit, (testbit_above off 63) by lia. bool_cases.
Qed.

(** A root fits one cluster while the disk is no larger than it can map. *)
Lemma l1_clusters_geom cb s : 12 <= cb <= 16 → word_ok s 8 = true → word_ok s 16 = true →
  lo32 (W s 16) = cb → 0 < W s 8 <= ENTS cb * COVER cb → l1_clusters s = (Ret 1, s).
Proof.
  intros Hcb H8 H16 Hb Hf.
  assert (cluster_bits s = (Ret cb, s)) as Ecb.
  { unfold cluster_bits, hdr_cluster_bits. step (rd64_Ret s 16 H16). by rewrite Hb. }
  assert (cluster_size s = (Ret (CS cb), s)) as Ecs.
  { unfold cluster_size. step Ecb. by rewrite s32_pow by lia. }
  assert (l0_cover_bits s = (Ret (cb * 2 - 3), s)) as Elb.
  { unfold l0_cover_bits. by step Ecb. }
  assert (l0_cover_size s = (Ret (COVER cb), s)) as Els.
  { unfold l0_cover_size. step Elb. replace (32 <=? cb * 2 - 3) with false by lia.
    by rewrite s32_pow by lia. }
  unfold l1_clusters, hdr_fsize. step (rd64_Ret s 8 H8). step Els. step Elb. step Ecs. step Ecb.
  pose proof (CS_pos cb Hcb) as HCS. pose proof (CS_8 cb Hcb) as [E8 HE].
  rewrite !Z.shiftr_div_pow2 by lia. fold (COVER cb). change (2 ^ cb) with (CS cb).
  assert (0 < COVER cb <= 2 ^ 29) as HC.
  { unfold COVER. split; [apply Z.pow_pos_nonneg; lia|apply Z.pow_le_mono_r; lia]. }
  set (F := W s 8) in *. set (C := COVER cb) in *. clearbody F C.
  assert (1 <= (F + C - 1) / C <= ENTS cb) as Hl.
  { split; [apply Z.div_le_lower_bound; lia|].
    apply Z.lt_succ_r. apply Z.div_lt_upper_bound; nia. }
  rewrite (u64_small (F + C - 1)) by nia. rewrite u64_small by lia.
  unfold mret, eff_ret. do 2 f_equal. symmetry. apply Z.div_unique with
    ((F + C - 1) / C * 8 - 1); lia.
Qed.

(** ** The table that ends with the active snapshot *)

(** [st] is the current table, with [n] entries; the last one is the active
    snapshot with its mark at [hat]. *)
Record tinv (cb : Z) (s : xfile) (ly : layout) (hat st n : Z) : Prop := {
  t_tbl : snaps_tbl s = Span st (CS cb);
  t_cluster : meta_cluster cb (hi32 (W s 24)) st;
  t_apart : st ∉ ly_roots ly ∧ st ∉ ly_tables ly;
  t_end : lo32 (W s (st + 8)) = n ∧ 1 <= n <= (CS cb - 16) / 16;
  t_hat : hat = st + 16 + 16 * (n - 1) + 8;
  t_root : W s (hat - 8) = Z.lor (ly_active ly) FB_valid;
  t_fsize : 0 < W s 8 <= ENTS cb * COVER cb;
}.

Section snaps.
Context (cb : Z) (s : xfile) (ly : layout) (hat st n : Z).
Context (Hx : xinv cb s ly hat) (Ht : tinv cb s ly hat st n).
Abbreviation hwm := (hi32 (W s 24)).
Abbreviation A := (ly_active ly).
Abbreviation CSZ := (CS cb).

Lemma st_bounds : CSZ <= st ∧ st mod 8 = 0 ∧ st + CSZ <= fbytes s ∧
  1 <= n ∧ 16 + 16 * n <= CSZ ∧ 4096 <= CSZ <= 65536 ∧ n < 2 ^ 32.
Proof using All.
  pose proof (CSZ_pos cb s ly hat Hx). destruct (t_cluster _ _ _ _ _ _ Ht) as (H1 & H2 & H3).
  destruct (t_end _ _ _ _ _ _ Ht) as [H4 H5].
  destruct (hwm_range cb s ly hat Hx) as [_ ?].
  pose proof (CS_8 cb (cb_range cb s ly hat Hx)) as [E _].
  assert (st mod 8 = 0).
  { apply Z.mod_divide in H3 as [a ->]; [|lia]. rewrite E.
    replace (a * (8 * ENTS cb)) with (a * ENTS cb * 8) by lia. apply Z.mod_mul. lia. }
  assert (16 + 16 * n <= CSZ) by (pose proof (Z.mul_div_le (CSZ - 16) 16); lia).
  split_and!; [lia|done|lia|lia|lia|lia|lia|lia].
Qed.

(** A word of the table. *)
Lemma st_word o : 0 <= o <= CSZ - 8 → o mod 8 = 0 → word_ok s (st + o) = true.
Proof using All.
  intros. destruct st_bounds as (? & ? & ? & _). apply word_ok_spec.
  split; [lia|]. split; [lia|]. rewrite Zplus_mod.
  replace (st mod 8) with 0 by done. by replace (o mod 8) with 0 by done.
Qed.

Lemma st_word16 i o : 0 <= i → 0 <= o → 16 + 16 * i + o <= CSZ - 8 → o mod 8 = 0 →
  word_ok s (st + 16 + 16 * i + o) = true.
Proof using All.
  intros. replace (st + 16 + 16 * i + o) with (st + (16 + 16 * i + o)) by lia.
  apply st_word; [lia|].
  replace (16 + 16 * i + o) with (o + (2 + 2 * i) * 8) by lia.
  by rewrite Z.mod_add by lia.
Qed.

Lemma lt_end_eq : lt_end (Span st CSZ) s = (Ret n, s).
Proof using All.
  unfold lt_end. cbn [sp_off]. destruct st_bounds as (? & ? & ? & ? & ? & ? & ?).
  step (rd64_Ret s (st + 8) (st_word 8 ltac:(lia) eq_refl)).
  by rewrite (proj1 (t_end _ _ _ _ _ _ Ht)).
Qed.

Lemma snap_back_eq : snap_back (Span st CSZ) s = (Ret (hat - 8), s).
Proof using All.
  unfold snap_back. step lt_end_eq. destruct st_bounds as (? & ? & ? & ? & ? & ? & ?).
  replace (n =? 0) with false by lia. unfold lt_entry, LT_META, SNAP_ENTRY. cbn [sp_off].
  rewrite (t_hat _ _ _ _ _ _ Ht). unfold mret, eff_ret. do 2 f_equal. lia.
Qed.

Lemma active_addr : 0 <= A < 2 ^ 63.
Proof using Hx.
  destruct (root_cluster cb s ly hat Hx A (active_root cb s ly hat Hx)) as (? & ? & ?).
  pose proof (CSZ_pos cb s ly hat Hx). destruct (hwm_range cb s ly hat Hx) as [_ ?].
  destruct (x_limit _ _ _ _ Hx) as (_ & _ & ?). lia.
Qed.

(** [open_write] finds the active snapshot. *)
Lemma open_write_eq : open_write s = (Ret (Snap (Span A CSZ) (Some hat)), s).
Proof using All.
  unfold open_write. step (get_Ret s). rewrite (t_tbl _ _ _ _ _ _ Ht).
  step snap_back_eq.
  assert (word_ok s (hat - 8) = true) as Hw.
  { rewrite (t_hat _ _ _ _ _ _ Ht). destruct st_bounds as (? & ? & ? & ? & ? & ? & ?).
    replace (st + 16 + 16 * (n - 1) + 8 - 8) with (st + 16 + 16 * (n - 1) + 0) by lia.
    apply st_word16; [lia|lia|lia|done]. }
  step (rd64_Ret s (hat - 8) Hw). step (cluster_size_eq cb s ly hat Hx).
  rewrite (t_root _ _ _ _ _ _ Ht). unfold decode_snap_entry. fold (lt_decode (Z.lor A FB_valid)).
  rewrite lt_decode_encode by apply active_addr.
  step (deref_cluster cb s ly hat Hx A (root_cluster cb s ly hat Hx A (active_root cb s ly hat Hx))).
  unfold mret, eff_ret. do 3 f_equal. f_equal. lia.
Qed.

Lemma l1_clusters_eq : l1_clusters s = (Ret 1, s).
Proof using All.
  apply (l1_clusters_geom cb).
  - apply (cb_range cb s ly hat Hx).
  - by apply (hdr_word_ok cb s ly hat Hx).
  - by apply (hdr_word_ok cb s ly hat Hx).
  - apply Hx.
  - apply (t_fsize _ _ _ _ _ _ Ht).
Qed.

(** *** The words after a new snapshot *)

Definition new_root : Z := hwm * CSZ.

Definition snap_words : arr :=
  let m := copied cb s (A) in
  let e := st + 16 + 16 * n in
  aset (aset (aset m e (Z.lor new_root FB_valid)) (e + 8) (W s hat))
    (st + 8) (with_lo32 (W s (st + 8)) (n + 1)).

Definition snap_state : xfile := set_words snap_words s.
Definition snap_layout : layout := Layout (new_root :: ly_roots ly) new_root (ly_tables ly).

Context (Hroom : hwm < lo32 (W s 24)) (Hcap : n < (CSZ - 16) / 16).

Lemma snap_cap : 16 + 16 * n + 16 <= CSZ.
Proof using All.
  destruct (st_bounds) as (? & ? & ? & ? & ? & ? & ?).
  pose proof (Z.mul_div_le (CSZ - 16) 16). lia.
Qed.

Lemma snap_W y : W snap_state y =
  if decide (st + 8 = y) then with_lo32 (W s (st + 8)) (n + 1)
  else if decide (st + 16 + 16 * n + 8 = y) then W s hat
  else if decide (st + 16 + 16 * n = y) then Z.lor new_root FB_valid
  else aget (copied cb s A) y.
Proof using All. unfold snap_state, snap_words. rewrite W_set_words. by rewrite !aget_aset. Qed.

(** Away from the new root, the table and the allocation mark. *)
Lemma snap_out y : y ≠ 24 → y < st ∨ st + CSZ <= y → y < new_root ∨ new_root + CSZ <= y →
  W snap_state y = W s y.
Proof using All.
  intros H24 Hst HN. destruct st_bounds as (? & ? & ? & ? & ? & ? & ?).
  pose proof snap_cap. pose proof (ENTS_nat cb s ly hat Hx).
  pose proof (CS_8 cb (cb_range cb s ly hat Hx)) as [E _].
  rewrite snap_W, !decide_False by lia. unfold copied.
  rewrite copy_arr_out by (fold new_root; lia). simpl. by rewrite aget_aset_ne.
Qed.

Lemma st_new_apart : st + CSZ <= new_root.
Proof using Hx Ht. apply (t_cluster _ _ _ _ _ _ Ht). Qed.

Lemma snap_24 : W snap_state 24 = with_hi32 (W s 24) (hwm + 1).
Proof using All.
  destruct st_bounds as (? & ? & ? & ? & ? & ? & ?). pose proof snap_cap.
  pose proof (ENTS_nat cb s ly hat Hx).
  pose proof st_new_apart. rewrite snap_W, !decide_False by lia. unfold copied.
  rewrite copy_arr_out by (fold new_root; lia). simpl. apply aget_aset_eq.
Qed.

Lemma snap_root_words j : idx_ok cb j →
  W snap_state (new_root + 8 * j) = mask_leaf (W s (A + 8 * j)).
Proof using All.
  intros Hj. unfold idx_ok in Hj. destruct st_bounds as (? & ? & ? & ? & ? & ? & ?).
  pose proof st_new_apart. pose proof snap_cap. pose proof (ENTS_nat cb s ly hat Hx).
  pose proof (CS_8 cb (cb_range cb s ly hat Hx)) as [E _].
  destruct (root_cluster cb s ly hat Hx A (active_root cb s ly hat Hx)) as (? & ? & ?).
  rewrite snap_W, !decide_False by lia. unfold copied. fold new_root.
  replace j with (Z.of_nat (Z.to_nat j)) by lia.
  rewrite copy_arr_in by (unfold new_root in *; lia). simpl.
  rewrite aget_aset_ne by lia. done.
Qed.

Lemma snap_apart x : x ∈ ly_roots ly ∨ x ∈ ly_tables ly → x + CSZ <= st ∨ st + CSZ <= x.
Proof using Hx Ht.
  intros Hm. destruct (t_apart _ _ _ _ _ _ Ht) as [Ha1 Ha2].
  destruct (t_cluster _ _ _ _ _ _ Ht) as (Hs1 & Hs2 & H3).
  assert (meta_cluster cb hwm x) as (Hx1 & Hx2 & H4)
    by (destruct Hm; [by apply (root_cluster cb s ly hat Hx)
                     |by apply (table_cluster cb s ly hat Hx)]).
  pose proof (CSZ_pos cb s ly hat Hx).
  apply Z.mod_divide in H3 as [a Ha]; [|lia]. apply Z.mod_divide in H4 as [b Hb]; [|lia].
  assert (a ≠ b) by (intros ->; destruct Hm; congruence). nia.
Qed.

Lemma snap_cluster_words x j : x ∈ ly_roots ly ∨ x ∈ ly_tables ly → idx_ok cb j →
  W snap_state (x + 8 * j) = W s (x + 8 * j).
Proof using All.
  intros Hm Hj. unfold idx_ok in Hj.
  assert (meta_cluster cb hwm x) as (? & ? & _)
    by (destruct Hm; [by apply (root_cluster cb s ly hat Hx)
                     |by apply (table_cluster cb s ly hat Hx)]).
  pose proof (CS_8 cb (cb_range cb s ly hat Hx)) as [E _].
  pose proof (CSZ_pos cb s ly hat Hx).
  destruct (snap_apart x Hm); apply snap_out; unfold new_root; lia.
Qed.

Lemma snap_hat : W snap_state (hat + 16) = W s hat.
Proof using All.
  pose proof (t_hat _ _ _ _ _ _ Ht) as Hh. destruct st_bounds as (? & ? & ? & ? & ? & ? & ?).
  rewrite snap_W, decide_False by lia. by rewrite decide_True by lia.
Qed.

Lemma snap_range x : 0 <= W snap_state x < 2 ^ 64.
Proof using All.
  rewrite snap_W. destruct (new_cluster_bounds cb s ly hat Hx Hroom) as [? ?].
  destruct (x_limit _ _ _ _ Hx) as (_ & _ & ?). pose proof (CSZ_pos cb s ly hat Hx).
  repeat case_decide.
  - apply with_lo32_range, (W_range cb s ly hat Hx).
  - apply (W_range cb s ly hat Hx).
  - apply lor_valid_range. unfold new_root. lia.
  - apply arr_range_copy, (bump_range cb s ly hat Hx).
Qed.

Lemma snap_winv : winv cb (W snap_state) (hwm + 1) (W s hat) snap_layout.
Proof using All.
  pose proof (hwm_range cb s ly hat Hx) as [? ?]. pose proof (CSZ_pos cb s ly hat Hx).
  destruct (new_cluster_bounds cb s ly hat Hx Hroom) as [? ?].
  destruct (x_limit _ _ _ _ Hx) as (_ & _ & ?).
  apply (new_root_winv cb (cb_range cb s ly hat Hx) (W s) (W snap_state) hwm (W s hat) ly);
    [apply Hx|lia|nia|apply snap_range|apply snap_root_words| |].
  - intros. apply snap_cluster_words; auto.
  - intros. apply snap_cluster_words; auto.
Qed.

Lemma snap_leaf_old r k l : r ∈ ly_roots ly → idx_ok cb k → idx_ok cb l →
  leaf_at (W snap_state) r k l = leaf_at (W s) r k l.
Proof using All.
  intros Hr Hk Hl. unfold leaf_at, l1_ent. rewrite snap_cluster_words by auto.
  destruct (nt_valid (W s (r + 8 * k))) eqn:E; [|done].
  apply snap_cluster_words; [right|done].
  by apply (wi_refs _ _ _ _ _ (x_winv _ _ _ _ Hx) r k).
Qed.

Lemma snap_leaf_new k l : idx_ok cb k → idx_ok cb l →
  leaf_at (W snap_state) new_root k l = leaf_at (W s) A k l.
Proof using All.
  intros Hk Hl. unfold leaf_at, l1_ent. rewrite snap_root_words by done.
  rewrite mask_leaf_valid, mask_leaf_decode.
  destruct (nt_valid (W s (A + 8 * k))) eqn:E; [|done].
  apply snap_cluster_words; [right|done].
  apply (wi_refs _ _ _ _ _ (x_winv _ _ _ _ Hx) A k); [|done|done].
  apply (active_root cb s ly hat Hx).
Qed.

Lemma snap_eff k l : idx_ok cb k → eff_writable (W snap_state) new_root k l = false.
Proof using All.
  intros Hk. unfold eff_writable, l1_ent. rewrite snap_root_words by done.
  by rewrite mask_leaf_writable, andb_false_r.
Qed.

Lemma snap_xinv : xinv cb snap_state snap_layout (hat + 16).
Proof using All.
  pose proof (hwm_range cb s ly hat Hx) as [? ?]. pose proof (CSZ_pos cb s ly hat Hx).
  destruct st_bounds as (? & ? & ? & ? & ? & ? & ?). pose proof snap_cap.
  pose proof st_new_apart. pose proof (t_hat _ _ _ _ _ _ Ht) as Hh.
  destruct (x_limit _ _ _ _ Hx) as (Hl1 & Hl2 & Hl3).
  assert (0 <= lo32 (W s 24) < 2 ^ 32) by apply u32_range.
  assert (∀ y, 0 <= y <= 48 → y ≠ 24 → W snap_state y = W s y) as Hhdr.
  { intros. apply snap_out; lia. }
  split; rewrite ?snap_24, ?snap_hat, ?hi32_with_hi, ?lo32_with_hi by lia.
  - rewrite Hhdr by lia. apply Hx.
  - unfold snap_state; simpl. lia.
  - rewrite Hhdr by lia. apply Hx.
  - apply snap_winv.
  - destruct (x_hat _ _ _ _ Hx) as (? & ? & ? & _). split_and!; [|lia|lia|].
    + replace (hat + 16) with (hat + 2 * 8) by lia. by rewrite Z.mod_add by lia.
    + simpl. unfold new_root in *.
      assert (∀ x, x ∈ ly_roots ly ∨ x ∈ ly_tables ly →
        hat + 16 < x ∨ x + CSZ <= hat + 16) as Ho.
      { intros x Hm. destruct (snap_apart x Hm); lia. }
      intros x [[->|Hr]%elem_of_cons|Htb]; [left; lia|apply Ho; by left|apply Ho; by right].
Qed.

Lemma snap_tinv : tinv cb snap_state snap_layout (hat + 16) st (n + 1).
Proof using All.
  pose proof (hwm_range cb s ly hat Hx) as [? ?]. pose proof (CSZ_pos cb s ly hat Hx).
  destruct st_bounds as (? & ? & ? & ? & ? & ? & ?). pose proof snap_cap.
  pose proof st_new_apart. pose proof (t_hat _ _ _ _ _ _ Ht) as Hh.
  destruct (t_apart _ _ _ _ _ _ Ht) as [Ha1 Ha2].
  assert (0 <= lo32 (W s 24) < 2 ^ 32) by apply u32_range.
  split; rewrite ?snap_24, ?hi32_with_hi by lia.
  - apply (t_tbl _ _ _ _ _ _ Ht).
  - eapply (meta_cluster_mono cb (cb_range cb s ly hat Hx));
      [|apply (t_cluster _ _ _ _ _ _ Ht)]. lia.
  - simpl. split; [|done]. intros [E|?]%elem_of_cons; [lia|done].
  - rewrite snap_W, decide_True by done. rewrite lo32_with_lo by lia. lia.
  - lia.
  - rewrite snap_W, decide_False by lia. rewrite decide_False by lia.
    by rewrite decide_True by lia.
  - rewrite snap_out by lia. apply (t_fsize _ _ _ _ _ _ Ht).
Qed.

(** The table's operations on a state whose file has the same size. *)
Lemma lt_end_at s' m : fbytes s' = fbytes s → lo32 (W s' (st + 8)) = m →
  lt_end (Span st CSZ) s' = (Ret m, s').
Proof using Hx Ht.
  intros Hf Hm. unfold lt_end. cbn [sp_off]. destruct st_bounds as (? & ? & ? & ? & ? & ? & ?).
  assert (word_ok s' (st + 8) = true) as Hw.
  { pose proof (st_word 8 ltac:(lia) eq_refl) as Hw. rewrite word_ok_spec in *. by rewrite Hf. }
  step (rd64_Ret s' (st + 8) Hw). by rewrite Hm.
Qed.

Lemma snap_back_at s' m : fbytes s' = fbytes s → lo32 (W s' (st + 8)) = m → 1 <= m →
  snap_back (Span st CSZ) s' = (Ret (st + 16 + 16 * (m - 1)), s').
Proof using Hx Ht.
  intros Hf Hm H1. unfold snap_back. step (lt_end_at s' m Hf Hm).
  replace (m =? 0) with false by lia. unfold lt_entry, LT_META, SNAP_ENTRY. cbn [sp_off].
  unfold mret, eff_ret. do 2 f_equal. lia.
Qed.

Lemma table_word_at s' o : fbytes s' = fbytes s → 0 <= o <= CSZ - 8 → o mod 8 = 0 →
  word_ok s' (st + o) = true.
Proof using Hx Ht.
  intros Hf Ho H8. pose proof (st_word o Ho H8) as Hw. rewrite word_ok_spec in *.
  by rewrite Hf.
Qed.

Lemma push_back_at s' v h : fbytes s' = fbytes s → lo32 (W s' (st + 8)) = n →
  snap_push_back (Span st CSZ) (v, h) s' =
    (Ret true, set_words (aset (aset (aset (words s') (st + 16 + 16 * n) v)
       (st + 16 + 16 * n + 8) h) (st + 8) (with_lo32 (W s' (st + 8)) (n + 1))) s').
Proof using All.
  intros Hf Hn. destruct st_bounds as (? & ? & ? & ? & ? & ? & ?). pose proof snap_cap.
  unfold snap_push_back. step (lt_end_at s' n Hf Hn).
  unfold lt_capacity, lt_entry, LT_META, SNAP_ENTRY. cbn [sp_off sp_bytes fst snd].
  replace (n =? (CSZ - 16) / 16) with false by lia.
  replace (st + 16 + n * 16) with (st + (16 + 16 * n)) by lia.
  assert ((16 + 16 * n) mod 8 = 0) as Hm
    by (replace (16 + 16 * n) with ((2 + 2 * n) * 8) by lia; by apply Z.mod_mul).
  step (wr64_Ret s' _ v (table_word_at s' (16 + 16 * n) Hf ltac:(lia) Hm)).
  set (s1 := set_words _ s').
  assert (word_ok s1 (st + (16 + 16 * n) + 8) = true) as Hw1.
  { replace (st + (16 + 16 * n) + 8) with (st + (16 + 16 * n + 8)) by lia.
    apply table_word_at; [done|lia|]. by rewrite Zplus_mod, Hm. }
  step (wr64_Ret s1 _ h Hw1). set (s2 := set_words _ s1).
  unfold set_lt_end. cbn [sp_off].
  assert (word_ok s2 (st + 8) = true) as Hw2 by (by apply table_word_at; [|lia|]).
  assert (W s2 (st + 8) = W s' (st + 8)) as E.
  { unfold s2, s1. rewrite !W_aset. by rewrite !decide_False by lia. }
  assert ((x ← rd64 (st + 8); wr64 (st + 8) (with_lo32 x (n + 1))) s2 =
    (Ret tt, set_words (aset (words s2) (st + 8) (with_lo32 (W s' (st + 8)) (n + 1))) s2))
    as E2.
  { step (rd64_Ret s2 (st + 8) Hw2). rewrite E. by apply wr64_Ret. }
  step E2. unfold mret, eff_ret. f_equal. unfold s2, s1, set_words. simpl.
  by replace (st + (16 + 16 * n)) with (st + 16 + 16 * n) by lia.
Qed.

(** [snap_create] when the current table has room. *)
Lemma snap_create_eq hw : snap_create (Snap (Span A CSZ) hw) s =
  (Ret (Snap (Span new_root CSZ) (Some (hat + 16)), Snap (Span A CSZ) None), snap_state).
Proof using All.
  destruct st_bounds as (? & ? & ? & ? & ? & ? & ?). pose proof snap_cap.
  pose proof st_new_apart. pose proof (t_hat _ _ _ _ _ _ Ht) as Hh.
  pose proof (ENTS_nat cb s ly hat Hx). destruct (t_end _ _ _ _ _ _ Ht) as [Hn _].
  pose proof (CS_8 cb (cb_range cb s ly hat Hx)) as [E8 _].
  unfold snap_create. step l1_clusters_eq. cbn [root].
  fold alloc_meta_cluster. pose proof (alloc_meta_eq cb s ly hat Hx) as Ea.
  replace (hwm <? lo32 (W s 24)) with true in Ea by lia. step Ea.
  step (deref_new cb s ly hat Hx (bump_hwm s) eq_refl Hroom). cbn [sp_bytes sp_off].
  rewrite (bind_Ret (ensure _ _) _ (bump_hwm s) tt (bump_hwm s))
    by (by replace (CSZ / 8 <=? CSZ / 8) with true by lia).
  cbv beta.
  set (s2 := set_words (copied cb s A) (bump_hwm s)).
  rewrite (bind_Ret (modify _) _ (bump_hwm s) tt s2) by done. cbv beta.
  step (get_Ret s2). change (snaps_tbl s2) with (snaps_tbl s).
  rewrite (t_tbl _ _ _ _ _ _ Ht).
  assert (∀ y, y ≠ 24 → y < new_root → W s2 y = W s y) as Hs2.
  { intros y Hy Hlt. unfold s2. rewrite W_set_words. unfold copied.
    rewrite copy_arr_out by (fold new_root; lia). simpl. by rewrite aget_aset_ne. }
  assert (lo32 (W s2 (st + 8)) = n) as Hn2 by (by rewrite Hs2 by lia).
  step (snap_back_at s2 n eq_refl Hn2 ltac:(lia)).
  replace (st + 16 + 16 * (n - 1) + 8) with hat by lia.
  assert (word_ok s2 hat = true) as Hw by apply (hat_word cb s ly hat Hx).
  step (rd64_Ret s2 hat Hw). rewrite (Hs2 hat) by lia. fold new_root.
  unfold encode_snap_entry.
  step (push_back_at s2 (Z.lor new_root FB_valid) (W s hat) eq_refl Hn2).
  rewrite (Hs2 (st + 8)) by lia.
  change (set_words _ s2) with snap_state. cbn [negb].
  rewrite (bind_Ret (mret tt) _ snap_state tt snap_state) by done. cbv beta.
  step (get_Ret snap_state). change (snaps_tbl snap_state) with (snaps_tbl s).
  rewrite (t_tbl _ _ _ _ _ _ Ht).
  destruct (t_end _ _ _ _ _ _ snap_tinv) as [Hn3 _].
  step (snap_back_at snap_state (n + 1) eq_refl Hn3 ltac:(lia)).
  unfold mret, eff_ret. do 3 f_equal. f_equal. f_equal. lia.
Qed.
End snaps.

(** ** Writes keep the snapshot table *)

(** Steps that change the file in translation tables, at the high-water mark
    and at the active snapshot's mark only. *)
Definition table_frame (cb : Z) (s : xfile) (ly : layout) (hat : Z) (s' : xfile) : Prop :=
  same_files s s' ∧ ∀ y, y < hi32 (W s 24) * CS cb → y ≠ 24 → y ≠ hat →
    outside cb ly y → W s' y = W s y.

Lemma frame_tinv cb s ly hat st n s' tables :
  xinv cb s ly hat → tinv cb s ly hat st n → table_frame cb s ly hat s' →
  (∀ t, t ∈ tables → t ∈ ly_tables ly ∨ hi32 (W s 24) * CS cb <= t) →
  tinv cb s' (Layout (ly_roots ly) (ly_active ly) tables) hat st n.
Proof.
  intros Hx Ht [(F1 & F2 & F3 & F4) Hf] Htb.
  pose proof (st_bounds cb s ly hat st n Hx Ht) as (B1 & B2 & B3 & B4 & B5 & B6 & B7).
  destruct (t_cluster _ _ _ _ _ _ Ht) as (C1 & C2 & C3).
  destruct (t_apart _ _ _ _ _ _ Ht) as [A1 A2]. pose proof (t_hat _ _ _ _ _ _ Ht) as Hh.
  assert (∀ o, 0 <= o <= CS cb - 8 → outside cb ly (st + o)) as Ho.
  { intros o Hb x Hm. destruct (snap_apart cb s ly hat st n Hx Ht x Hm); lia. }
  assert (∀ o, 0 <= o <= CS cb - 8 → st + o ≠ hat → W s' (st + o) = W s (st + o)) as HW.
  { intros o Hb Hne. apply Hf; [lia|lia|done|by apply Ho]. }
  split; simpl.
  - rewrite F1. apply (t_tbl _ _ _ _ _ _ Ht).
  - apply (meta_cluster_mono cb (cb_range cb s ly hat Hx) (hi32 (W s 24)));
      [done|apply (t_cluster _ _ _ _ _ _ Ht)].
  - split; [done|]. intros [?|?]%Htb; [done|lia].
  - rewrite HW by lia. apply (t_end _ _ _ _ _ _ Ht).
  - done.
  - replace (hat - 8) with (st + (16 + 16 * (n - 1))) by lia.
    rewrite HW by lia. replace (st + (16 + 16 * (n - 1))) with (hat - 8) by lia.
    apply (t_root _ _ _ _ _ _ Ht).
  - rewrite Hf; [apply (t_fsize _ _ _ _ _ _ Ht)|lia|lia|lia|].
    intros x Hm. left.
    assert (meta_cluster cb (hi32 (W s 24)) x) as (? & ? & ?)
      by (destruct Hm; [by apply (root_cluster cb s ly hat Hx)
                       |by apply (table_cluster cb s ly hat Hx)]).
    lia.
Qed.

Lemma write_step_tinv cb s ly hat st n s' i j tl prev tables :
  xinv cb s ly hat → tinv cb s ly hat st n → write_step cb s ly hat s' i j tl prev →
  (∀ t, t ∈ tables → t ∈ ly_tables ly ∨ hi32 (W s 24) * CS cb <= t) →
  tinv cb s' (Layout (ly_roots ly) (ly_active ly) tables) hat st n.
Proof.
  intros Hx Ht Hw. apply frame_tinv; [done|done|].
  destruct (ws_frame _ _ _ _ _ _ _ _ _ Hw) as [? Hf]. split; [done|].
  intros y H1 H2 H3 Ho. apply Hf; [done..|]. by apply (outside_foreign cb s ly hat Hx).
Qed.

Lemma l0_step_tinv cb s ly hat st n s' i tables :
  xinv cb s ly hat → tinv cb s ly hat st n → l0_step cb s ly hat s' i →
  (∀ t, t ∈ tables → t ∈ ly_tables ly ∨ hi32 (W s 24) * CS cb <= t) →
  tinv cb s' (Layout (ly_roots ly) (ly_active ly) tables) hat st n.
Proof.
  intros Hx Ht Hw. apply frame_tinv; [done|done|].
  destruct (l0_frame _ _ _ _ _ _ Hw) as [? Hf]. split; [done|].
  intros y H1 H2 _ Ho. apply Hf; [done..|]. by apply (outside_foreign cb s ly hat Hx).
Qed.

Lemma snap_create_full cb s ly hat st n hw : xinv cb s ly hat → tinv cb s ly hat st n →
  lo32 (W s 24) <= hi32 (W s 24) →
  snap_create (Snap (Span (ly_active ly) (CS cb)) hw) s = (Throw Ehwm, s).
Proof.
  intros Hx Ht Hf. unfold snap_create. step (l1_clusters_eq cb s ly hat st n Hx Ht).
  fold alloc_meta_cluster. pose proof (alloc_meta_eq cb s ly hat Hx) as Ea.
  replace (hi32 (W s 24) <? lo32 (W s 24)) with false in Ea by lia.
  by rewrite (bind_Throw _ _ _ _ _ Ea).
Qed.

(** ** Histories of the active snapshot *)

Inductive xop : Type :=
  | OpWrite (addr : Z)
  | OpSnapshot.

(** Writes and snapshots one after the other; a snapshot makes its child the
    active one. *)
Fixpoint run_ops (l : list xop) (sn : XcowSnap) : xeff XcowSnap :=
  match l with
  | [] => mret sn
  | OpWrite addr :: l => _ ← translate_write sn addr; run_ops l sn
  | OpSnapshot :: l => '(sn', _) ← snap_create sn; run_ops l sn'
  end.

Definition op_ok (cb : Z) (o : xop) : Prop :=
  match o with OpWrite addr => addr_in cb addr | OpSnapshot => True end.
Definition op_snaps (l : list xop) : Z :=
  foldr (λ o x, match o with OpWrite _ => x | OpSnapshot => x + 1 end) 0 l.

Lemma op_snaps_nonneg l : 0 <= op_snaps l.
Proof. induction l as [|[]]; simpl; lia. Qed.

(** A well-formed image with its active snapshot and its current table. *)
Definition image (cb : Z) (s : xfile) (ly : layout) (hat st n : Z) : Prop :=
  xinv cb s ly hat ∧ tinv cb s ly hat st n.

Definition active_snap (cb : Z) (ly : layout) (hat : Z) : XcowSnap :=
  Snap (Span (ly_active ly) (CS cb)) (Some hat).

(** The roots other than the active one read the same leaves in both. *)
Definition others_same (cb : Z) (s s' : xfile) (ly ly' : layout) : Prop :=
  ∀ r, r ∈ ly_roots ly → r ≠ ly_active ly → r ∈ ly_roots ly' ∧ r ≠ ly_active ly' ∧
    ∀ i j, idx_ok cb i → idx_ok cb j → leaf_at (W s') r i j = leaf_at (W s) r i j.

Lemma others_same_refl cb s ly : others_same cb s s ly ly.
Proof. by repeat split. Qed.

Lemma others_same_trans cb s1 s2 s3 l1 l2 l3 :
  others_same cb s1 s2 l1 l2 → others_same cb s2 s3 l2 l3 → others_same cb s1 s3 l1 l3.
Proof.
  intros H1 H2 r Hr Hn. destruct (H1 r Hr Hn) as (Hr2 & Hn2 & E2).
  destruct (H2 r Hr2 Hn2) as (Hr3 & Hn3 & E3). split_and!; [done|done|].
  intros i j Hi Hj. by rewrite E3, E2.
Qed.

(** One write, and one snapshot, as steps of the image. *)
Lemma write_image cb s ly hat st n addr tl prev s' : image cb s ly hat st n →
  addr_in cb addr →
  translate_write (active_snap cb ly hat) addr s = (Ret (tl, prev), s') →
  ∃ ly', image cb s' ly' hat st n ∧ ly_roots ly' = ly_roots ly ∧
    ly_active ly' = ly_active ly ∧ others_same cb s s' ly ly' ∧
    write_step cb s ly hat s' (i1 cb addr) (i0 cb addr) tl prev.
Proof.
  intros [Hx Ht] Ha E. pose proof (translate_write_spec cb s ly hat Hx addr Ha) as Hs.
  unfold active_snap in E. rewrite E in Hs.
  destruct (ws_inv _ _ _ _ _ _ _ _ _ Hs) as (tables & Hx' & Htb).
  exists (Layout (ly_roots ly) (ly_active ly) tables). split_and!; try done.
  - split; [done|]. by eapply write_step_tinv.
  - intros r Hr Hn. split_and!; [done|done|]. intros i j Hi Hj.
    by apply (ws_others _ _ _ _ _ _ _ _ _ Hs).
Qed.

Lemma snap_image cb s ly hat st n sn' sn0 s' : image cb s ly hat st n →
  n < (CS cb - 16) / 16 →
  snap_create (active_snap cb ly hat) s = (Ret (sn', sn0), s') →
  ∃ ly', image cb s' ly' (hat + 16) st (n + 1) ∧ sn' = active_snap cb ly' (hat + 16) ∧
    ly_active ly' ∉ ly_roots ly ∧ ly_roots ly' = ly_active ly' :: ly_roots ly ∧
    (∀ r i j, r ∈ ly_roots ly → idx_ok cb i → idx_ok cb j →
       leaf_at (W s') r i j = leaf_at (W s) r i j) ∧
    (∀ i j, idx_ok cb i → idx_ok cb j →
       leaf_at (W s') (ly_active ly') i j = leaf_at (W s) (ly_active ly) i j ∧
       eff_writable (W s') (ly_active ly') i j = false) ∧
    W s' (hat + 16) = W s hat ∧ sn0 = Snap (Span (ly_active ly) (CS cb)) None.
Proof.
  intros [Hx Ht] Hcap E. unfold active_snap in E.
  destruct (Z.lt_ge_cases (hi32 (W s 24)) (lo32 (W s 24))) as [Hroom|Hfull].
  2:{ by rewrite (snap_create_full cb s ly hat st n) in E. }
  rewrite (snap_create_eq cb s ly hat st n Hx Ht Hroom Hcap) in E. injection E as <- <- <-.
  exists (snap_layout cb s ly). split_and!; try done.
  - split; [by apply snap_xinv|by apply snap_tinv].
  - simpl. intros Hr. apply (root_cluster cb s ly hat Hx) in Hr as (? & ? & _).
    pose proof (CSZ_pos cb s ly hat Hx). unfold new_root in *. lia.
  - intros r i j Hr Hi Hj. by apply (snap_leaf_old cb s ly hat st n Hx Ht).
  - intros i j Hi Hj. split; [by apply (snap_leaf_new cb s ly hat st n Hx Ht)|].
    by apply (snap_eff cb s ly hat st n Hx Ht).
  - by apply (snap_hat cb s ly hat st n Hx Ht).
Qed.

(** Histories: the image stays well formed, and the snapshots that were not
    active at the beginning are never changed. *)
Lemma run_ops_image cb l : ∀ s ly hat st n sn' s', image cb s ly hat st n →
  Forall (op_ok cb) l → n + op_snaps l <= (CS cb - 16) / 16 →
  run_ops l (active_snap cb ly hat) s = (Ret sn', s') →
  ∃ ly' hat' n', image cb s' ly' hat' st n' ∧ sn' = active_snap cb ly' hat' ∧
    others_same cb s s' ly ly'.
Proof.
  induction l as [|o l IH]; intros s ly hat st n sn' s' Him Hok Hn E.
  { injection E as <- <-. exists ly, hat, n. split_and!; [done|done|apply others_same_refl]. }
  inversion_clear Hok as [|? ? Ho Hok'].
  destruct o as [addr|]; simpl in E, Hn, Ho.
  - destruct (translate_write (active_snap cb ly hat) addr s) as [[[tl prev]|e] s1] eqn:Ew.
    2:{ by rewrite (bind_Throw _ _ _ _ _ Ew) in E. }
    rewrite (bind_Ret _ _ _ _ _ Ew) in E.
    destruct (write_image _ _ _ _ _ _ _ _ _ _ Him Ho Ew) as (ly1 & Him1 & Er & EA & Hs1 & _).
    assert (active_snap cb ly hat = active_snap cb ly1 hat) as Es
      by (unfold active_snap; by rewrite EA).
    rewrite Es in E. destruct (IH s1 ly1 hat st n sn' s' Him1 Hok' Hn E)
      as (ly' & hat' & n' & ? & ? & ?).
    exists ly', hat', n'. split_and!; [done|done|]. by eapply others_same_trans.
  - pose proof (op_snaps_nonneg l).
    destruct (snap_create (active_snap cb ly hat) s) as [[[sn1 sn0]|e] s1] eqn:Es.
    2:{ by rewrite (bind_Throw _ _ _ _ _ Es) in E. }
    rewrite (bind_Ret _ _ _ _ _ Es) in E.
    destruct (snap_image _ _ _ _ _ _ _ _ _ Him ltac:(lia) Es)
      as (ly1 & Him1 & -> & Hnew & Er & Hold & _).
    destruct (IH s1 ly1 (hat + 16) st (n + 1) sn' s' Him1 Hok' ltac:(lia) E)
      as (ly' & hat' & n' & ? & ? & ?).
    exists ly', hat', n'. split_and!; [done|done|]. eapply others_same_trans; [|done].
    intros r Hr Hne. rewrite Er. split_and!.
    + apply elem_of_cons. by right.
    + by intros ->.
    + intros. by apply Hold.
Qed.
