(* ===== verification/XcowFormat.v ===== *)
(** * A freshly formatted image

    Symbolic execution of [format]: the file it leaves is well formed, with
    one empty writable snapshot. *)
From S2P Require Import Prelude Proto Xcow XcowInv XcowOps XcowSnaps.

Section format.
Context (cb fsize hl dl : Z) (s0 : xfile).
Context (Hcb : 12 <= cb <= 16) (Hhl : 4 <= hl < 2 ^ 32) (Hdl : 1 <= dl).
Context (Hdl2 : dl * CS cb < 2 ^ 63) (Hfs : 0 < fsize <= ENTS cb * COVER cb).
Context (Hfb : hl * CS cb <= fbytes s0) (Hfb2 : fbytes s0 <= 2 ^ 32).
Context (Hr : arr_range (words s0)).
Abbreviation C := (CS cb).

(** The words after each part of [format]. *)
Definition f_hdr : arr :=
  aset (aset (aset (aset (aset (fill_arr (words s0) 0 (Z.to_nat (C / 8)) 0) 0 XCOW_MAGIC)
    8 fsize) 16 cb) 24 hl) 32 dl.
Definition f_table (m : arr) (off : Z) : arr :=
  fill_arr (aset (aset m off 0) (off + 8) 0) (off + 16) (Z.to_nat ((C - 16) / 8)) 0.
Definition f_tables : arr :=
  aset (f_table (aset (f_table f_hdr C) 40 (Z.lor C FB_valid)) (2 * C)) 48
    (Z.lor (2 * C) FB_valid).
Definition f_root : arr :=
  fill_arr (aset (aset f_tables 24 (with_hi32 hl 3)) 24
    (with_hi32 (with_hi32 hl 3) 4)) (3 * C) (Z.to_nat (C / 8)) 0.
Definition f_words : arr :=
  aset (aset (aset f_root (C + 16) (Z.lor (3 * C) FB_valid)) (C + 24) 1)
    (C + 8) (with_lo32 0 1).
Definition f_state : xfile := XFile f_words (fbytes s0) (Span C C) (Span (2 * C) C).

Lemma f_C : 4096 <= C <= 65536 ∧ C = 8 * ENTS cb ∧ 512 <= ENTS cb ∧
  Z.of_nat (Z.to_nat (C / 8)) = ENTS cb ∧
  Z.of_nat (Z.to_nat ((C - 16) / 8)) = ENTS cb - 2 ∧ C mod 8 = 0 ∧ C mod 16 = 0.
Proof using All.
  pose proof (CS_pos cb Hcb). destruct (CS_8 cb Hcb) as [E HE]. unfold ENTS in *.
  assert (C mod 16 = 0) as E16.
  { unfold CS. replace cb with (cb - 4 + 4) by lia. rewrite Z.pow_add_r by lia.
    apply Z.mod_mul. lia. }
  assert ((C - 16) / 8 = C / 8 - 2) as E2.
  { rewrite E at 1. replace (8 * (C / 8) - 16) with ((C / 8 - 2) * 8) by lia.
    apply Z.div_mul. lia. }
  rewrite E2. split_and!; try done; try lia.
  rewrite E, Z.mul_comm. apply Z.mod_mul. lia.
Qed.

(** Every word of the file, by region. *)
Lemma f_table_out m off y : off mod 8 = 0 → y < off ∨ off + C <= y →
  aget (f_table m off) y = aget m y.
Proof using All.
  intros _ Hy. destruct f_C as (? & ? & ? & ? & E & _). unfold f_table.
  rewrite fill_arr_out by lia. by rewrite !aget_aset_ne by lia.
Qed.

Lemma f_root_out y : y ≠ 24 → y < 3 * C → aget f_root y = aget f_tables y.
Proof using All.
  intros. destruct f_C as (? & ? & ? & E & _). unfold f_root.
  rewrite fill_arr_out by lia. by rewrite !aget_aset_ne by lia.
Qed.

Lemma f_W_hdr y : 0 <= y <= 48 → y ≠ 24 → W f_state y =
  if decide (y = 48) then Z.lor (2 * C) FB_valid
  else if decide (y = 40) then Z.lor C FB_valid else aget f_hdr y.
Proof using All.
  intros. destruct f_C as (? & ? & ? & ? & ? & ? & ?). unfold W, f_state; cbn [words].
  unfold f_words. rewrite !aget_aset_ne by lia. rewrite f_root_out by lia.
  unfold f_tables. rewrite aget_aset. destruct (decide (48 = y)); [by rewrite decide_True by lia|].
  rewrite (decide_False (P := y = 48)) by lia.
  rewrite f_table_out by (lia || (rewrite Zmult_mod; by replace (C mod 8) with 0)).
  rewrite aget_aset. destruct (decide (40 = y)); [by rewrite decide_True by lia|].
  rewrite decide_False by lia. by rewrite f_table_out by lia.
Qed.

Lemma f_W_24 : W f_state 24 = with_hi32 (with_hi32 hl 3) 4.
Proof using All.
  destruct f_C as (? & ? & ? & ? & ? & ? & ?). unfold W, f_state; cbn [words].
  unfold f_words. rewrite !aget_aset_ne by lia. unfold f_root.
  rewrite fill_arr_out by lia. apply aget_aset_eq.
Qed.

Lemma f_W_root j : idx_ok cb j → W f_state (3 * C + 8 * j) = 0.
Proof using All.
  intros Hj. destruct f_C as (? & ? & ? & ? & ? & ? & ?). unfold idx_ok in Hj.
  unfold W, f_state; cbn [words]. unfold f_words. rewrite !aget_aset_ne by lia.
  unfold f_root. replace j with (Z.of_nat (Z.to_nat j)) by lia. by rewrite fill_arr_in by lia.
Qed.

Lemma f_range : arr_range f_words.
Proof using All.
  destruct f_C as (? & ? & ? & ? & ? & ? & ?).
  pose proof (COVER_eq cb) as _.
  assert (ENTS cb * COVER cb < 2 ^ 63).
  { unfold ENTS, COVER, CS in *.
    assert (2 ^ (cb * 2 - 3) <= 2 ^ 29) by (apply Z.pow_le_mono_r; lia). nia. }
  assert (0 <= 2 * C < 2 ^ 63 ∧ 0 <= 3 * C < 2 ^ 63 ∧ 0 <= C < 2 ^ 63) as (? & ? & ?) by lia.
  unfold f_words, f_root, f_tables, f_table, f_hdr.
  repeat (apply arr_range_aset || apply arr_range_fill); try done;
    try (by apply lor_valid_range); try apply with_hi32_range; try lia.
  all: by apply with_lo32_range.
Qed.

Definition f_layout : layout := Layout [3 * C] (3 * C) [].

Lemma f_hwm : hi32 (W f_state 24) = 4 ∧ lo32 (W f_state 24) = hl.
Proof using All.
  rewrite f_W_24, hi32_with_hi, !lo32_with_hi by lia. split; [done|].
  unfold lo32. apply u32_small. lia.
Qed.

Lemma f_W_table o : 0 <= o <= 24 → W f_state (C + o) =
  if decide (o = 8) then with_lo32 0 1 else if decide (o = 24) then 1
  else if decide (o = 16) then Z.lor (3 * C) FB_valid else W f_state (C + o).
Proof using All.
  intros. destruct f_C as (? & ? & ? & ? & ? & ? & ?).
  repeat case_decide; subst; try done; unfold W, f_state; cbn [words]; unfold f_words.
  - apply aget_aset_eq.
  - rewrite aget_aset_ne by lia. apply aget_aset_eq.
  - rewrite !aget_aset_ne by lia. apply aget_aset_eq.
Qed.

Lemma f_leaf i j : idx_ok cb i → leaf_at (W f_state) (3 * C) i j = empty_leaf.
Proof using All. intros Hi. unfold leaf_at, l1_ent. by rewrite f_W_root. Qed.

Lemma f_image : image cb f_state f_layout (C + 24) C 1.
Proof using All.
  destruct f_C as (HC & E8 & HE & En & En2 & H8 & H16). destruct f_hwm as [Hh Hl].
  assert (W f_state (C + 24) = 1) as Hhat by by rewrite f_W_table by lia.
  assert (∀ y, y = 8 ∨ y = 16 ∨ y = 32 → W f_state y = aget f_hdr y) as Hhdr.
  { intros y Hy. rewrite f_W_hdr by lia. by rewrite !decide_False by lia. }
  assert (∀ r i, r ∈ [3 * C] → idx_ok cb i → nt_valid (l1_ent (W f_state) r i) = false) as Hinv.
  { intros r i Hr0%list_elem_of_singleton Hi. subst r. unfold l1_ent. by rewrite f_W_root. }
  split; split; simpl; rewrite ?Hhat, ?Hh, ?Hl.
  - split; [done|]. rewrite Hhdr by lia. unfold f_hdr. rewrite !aget_aset_ne, aget_aset_eq by lia.
    apply u32_small. lia.
  - simpl. lia.
  - rewrite Hhdr by lia. unfold f_hdr. rewrite aget_aset_eq. lia.
  - split; simpl; try done.
    + apply f_range.
    + lia.
    + intros r ->%list_elem_of_singleton. split_and!; [lia|lia|]. apply Z.mod_mul. lia.
    + by intros t ?%elem_of_nil.
    + by intros r _ ?%elem_of_nil.
    + by apply list_elem_of_singleton.
    + intros r i Hr0 Hi Hv. by rewrite Hinv in Hv.
    + intros i r j Hi Hr0 Hj Hv. by rewrite Hinv in Hv by (done || by apply list_elem_of_singleton).
    + by intros t j ?%elem_of_nil.
    + by intros i j t k _ _ ?%elem_of_nil.
  - split_and!; [|lia|lia|].
    + rewrite Zplus_mod, H8. done.
    + intros x [->%list_elem_of_singleton|Hn]; [left; lia|by apply elem_of_nil in Hn].
  - done.
  - split_and!; [lia|lia|]. apply Z_mod_same_full.
  - split; [|by intros ?%elem_of_nil]. intros E%list_elem_of_singleton. lia.
  - rewrite f_W_table by lia. simpl. split; [|].
    + by apply lo32_with_lo.
    + split; [done|]. apply Z.div_le_lower_bound; lia.
  - lia.
  - replace (C + 24 - 8) with (C + 16) by lia. by rewrite f_W_table by lia.
  - rewrite Hhdr by lia. unfold f_hdr. rewrite !aget_aset_ne, aget_aset_eq by lia. done.
Qed.

(** *** The run of [format] *)

Abbreviation st_of m st ft := (XFile m (fbytes s0) st ft).

Lemma f_wr m st ft off x : 0 <= off → off + 8 <= 4 * C → off mod 8 = 0 →
  wr64 off x (st_of m st ft) = (Ret tt, st_of (aset m off x) st ft).
Proof using All.
  intros. pose proof f_C as (? & _). apply wr64_Ret, word_ok_spec. cbn [fbytes]. nia.
Qed.

Lemma f_rd m st ft off : 0 <= off → off + 8 <= 4 * C → off mod 8 = 0 →
  rd64 off (st_of m st ft) = (Ret (aget m off), st_of m st ft).
Proof using All.
  intros. pose proof f_C as (? & _). apply rd64_Ret, word_ok_spec. cbn [fbytes]. nia.
Qed.

Lemma f_deref m st ft off : 0 <= off → off + C <= 4 * C →
  deref off C (st_of m st ft) = (Ret (Span off C), st_of m st ft).
Proof using All.
  intros. pose proof f_C as (? & _). unfold deref. step (get_Ret (st_of m st ft)).
  cbn [fbytes]. by replace ((0 <=? off) && (0 <=? C) && (off + C <=? fbytes s0)) with true by nia.
Qed.

Lemma f_fill m st ft t v : fill_span t v (st_of m st ft) =
  (Ret tt, st_of (fill_arr m (sp_off t) (Z.to_nat (sp_bytes t / 8)) v) st ft).
Proof using All. done. Qed.

Lemma f_lt_format m st ft off esz : C <= off → off + C <= 4 * C → off mod 8 = 0 →
  (C - 16) mod esz = 0 →
  lt_format esz (Span off C) (st_of m st ft) = (Ret (Span off C), st_of (f_table m off) st ft).
Proof using All.
  intros H1 H2 H3 H4. pose proof f_C as (? & _). unfold lt_format. cbn [sp_off sp_bytes].
  step (f_wr m st ft off 0 ltac:(lia) ltac:(lia) H3).
  assert ((off + 8) mod 8 = 0) as H5 by by rewrite Zplus_mod, H3.
  step (f_wr (aset m off 0) st ft (off + 8) 0 ltac:(lia) ltac:(lia) H5).
  unfold lt_new, convert_count, LT_META. cbn [sp_off sp_bytes]. rewrite H4.
  rewrite (bind_Ret _ _ _ (Span off C)
    (st_of (aset (aset m off 0) (off + 8) 0) st ft)) by done.
  cbv beta. step (f_fill (aset (aset m off 0) (off + 8) 0) st ft (Span (off + 16) (C - 16)) 0).
  done.
Qed.

Lemma f_tables_24 : aget f_tables 24 = hl.
Proof using All.
  destruct f_C as (? & ? & ? & ? & ? & H8 & ?). unfold f_tables.
  rewrite aget_aset_ne by lia. rewrite f_table_out by (lia || (rewrite Zmult_mod; by rewrite H8)).
  rewrite aget_aset_ne by lia. rewrite f_table_out by lia. unfold f_hdr.
  by rewrite aget_aset_ne, aget_aset_eq by lia.
Qed.

(** The header and the two tables. *)
Lemma f_start {B} (k : span → xeff B) :
  (hdr ← deref (Z.shiftl 0 cb) C;
   _ ← fill_span hdr 0;
   _ ← wr64 0 XCOW_MAGIC; _ ← wr64 8 fsize; _ ← wr64 16 (u32 cb); _ ← wr64 24 (u32 hl);
   _ ← wr64 32 dl;
   st ← deref (Z.shiftl 1 cb) C;
   st ← lt_format SNAP_ENTRY st;
   _ ← modify (set_snaps st);
   _ ← wr64 40 (encode_snap_ref (Z.shiftl 1 cb));
   ft ← deref (Z.shiftl 2 cb) C;
   ft ← lt_format FREE_ENTRY ft;
   _ ← modify (set_flist ft);
   _ ← wr64 48 (encode_free_ref (Z.shiftl 2 cb));
   k st) s0 = k (Span C C) (st_of f_tables (Span C C) (Span (2 * C) C)).
Proof using All.
  destruct f_C as (HC & E8 & HE & En & En2 & H8 & H16).
  rewrite Z.shiftl_0_l, !(Z.shiftl_mul_pow2 _ cb) by lia. change (2 ^ cb) with C.
  rewrite Z.mul_1_l.
  assert (s0 = st_of (words s0) (snaps_tbl s0) (flist_tbl s0)) as E0 by by destruct s0.
  rewrite E0 at 1. set (st := snaps_tbl s0). set (ft := flist_tbl s0).
  step (f_deref (words s0) st ft 0 ltac:(lia) ltac:(lia)).
  step (f_fill (words s0) st ft (Span 0 C) 0). cbn [sp_off sp_bytes].
  do 5 (match goal with |- ((wr64 ?o ?x) ≫= _) (XFile ?m _ _ _) = _ =>
    step (f_wr m st ft o x ltac:(lia) ltac:(lia) eq_refl) end).
  rewrite (u32_small cb), (u32_small hl) by lia. fold f_hdr.
  step (f_deref f_hdr st ft C ltac:(lia) ltac:(lia)).
  assert ((C - 16) mod 16 = 0) as Hm16 by (rewrite Zminus_mod, H16; done).
  assert ((C - 16) mod 8 = 0) as Hm8 by (rewrite Zminus_mod, H8; done).
  assert ((2 * C) mod 8 = 0) as H28 by (rewrite Zmult_mod, H8; done).
  step (f_lt_format f_hdr st ft C 16 ltac:(lia) ltac:(lia) H8 Hm16).
  rewrite (bind_Ret (modify _) _ _ tt (st_of (f_table f_hdr C) (Span C C) ft)) by done.
  cbv beta. step (f_wr (f_table f_hdr C) (Span C C) ft 40 (encode_snap_ref C)
    ltac:(lia) ltac:(lia) eq_refl).
  set (m1 := aset _ 40 _).
  step (f_deref m1 (Span C C) ft (2 * C) ltac:(lia) ltac:(lia)).
  step (f_lt_format m1 (Span C C) ft (2 * C) 8 ltac:(lia) ltac:(lia) H28 Hm8).
  rewrite (bind_Ret (modify _) _ _ tt
    (st_of (f_table m1 (2 * C)) (Span C C) (Span (2 * C) C))) by done.
  cbv beta. step (f_wr (f_table m1 (2 * C)) (Span C C) (Span (2 * C) C) 48
    (encode_free_ref (2 * C)) ltac:(lia) ltac:(lia) eq_refl).
  done.
Qed.

Abbreviation fin m := (st_of m (Span C C) (Span (2 * C) C)).
Definition f_hwm3 : arr := aset f_tables 24 (with_hi32 hl 3).

(** The root. *)
Lemma f_root_alloc {B} (k : Z * Z → xeff B) :
  (_ ← set_hdr_hwm 3; n ← l1_clusters; x ← alloc_meta_clusters n; k x) (fin f_tables) =
  k (3 * C, C) (fin (aset f_hwm3 24 (with_hi32 (with_hi32 hl 3) 4))).
Proof using All.
  destruct f_C as (HC & E8 & HE & En & En2 & H8 & H16).
  assert (set_hdr_hwm 3 (fin f_tables) = (Ret tt, fin f_hwm3)) as E1.
  { unfold set_hdr_hwm. step (f_rd f_tables (Span C C) (Span (2 * C) C) 24
      ltac:(lia) ltac:(lia) eq_refl). rewrite f_tables_24. by apply f_wr; [lia|lia|]. }
  step E1. clear E1.
  assert (∀ y, y = 8 ∨ y = 16 → W (fin f_hwm3) y = aget f_hdr y) as Hy.
  { intros y Hy. unfold W, f_hwm3, f_tables. cbn [words]. rewrite !aget_aset_ne by lia.
    rewrite f_table_out by (lia || (rewrite Zmult_mod; by rewrite H8)).
    rewrite aget_aset_ne by lia. by rewrite f_table_out by lia. }
  assert (∀ o, 0 <= o <= 24 → o mod 8 = 0 → word_ok (fin f_hwm3) o = true) as Hw.
  { intros. apply word_ok_spec. cbn [fbytes]. nia. }
  assert (lo32 (W (fin f_hwm3) 16) = cb) as Hcbw.
  { rewrite Hy by lia. unfold f_hdr. rewrite !aget_aset_ne, aget_aset_eq by lia.
    apply u32_small. lia. }
  assert (W (fin f_hwm3) 8 = fsize) as Hfw.
  { rewrite Hy by lia. unfold f_hdr. by rewrite !aget_aset_ne, aget_aset_eq by lia. }
  step (l1_clusters_geom cb (fin f_hwm3) Hcb (Hw 8 ltac:(lia) eq_refl) (Hw 16 ltac:(lia) eq_refl)
    Hcbw ltac:(lia)).
  pose proof (rd64_Ret (fin f_hwm3) 24 (Hw 24 ltac:(lia) eq_refl)) as R24.
  assert (W (fin f_hwm3) 24 = with_hi32 hl 3) as H24 by apply aget_aset_eq.
  rewrite H24 in R24.
  assert ((x ← rd64 24; mret (hi32 x)) (fin f_hwm3) = (Ret 3, fin f_hwm3)) as Eh.
  { step R24. by rewrite hi32_with_hi by lia. }
  assert ((x ← rd64 24; mret (lo32 x)) (fin f_hwm3) = (Ret hl, fin f_hwm3)) as El.
  { step R24. rewrite lo32_with_hi. unfold lo32. by rewrite u32_small by lia. }
  assert ((x ← rd64 16; mret (lo32 x)) (fin f_hwm3) = (Ret cb, fin f_hwm3)) as Ec.
  { step (rd64_Ret (fin f_hwm3) 16 (Hw 16 ltac:(lia) eq_refl)). by rewrite Hcbw. }
  assert (set_hdr_hwm (u32 (3 + 1)) (fin f_hwm3) =
    (Ret tt, fin (aset f_hwm3 24 (with_hi32 (with_hi32 hl 3) 4)))) as Es.
  { unfold set_hdr_hwm. step R24. by apply f_wr; [lia|lia|]. }
  assert (alloc_meta_clusters 1 (fin f_hwm3) =
    (Ret (3 * C, C), fin (aset f_hwm3 24 (with_hi32 (with_hi32 hl 3) 4)))) as Ea.
  { unfold alloc_meta_clusters, hdr_hwm, hdr_hwm_limit, cluster_bits, hdr_cluster_bits.
    step Eh. step El. rewrite u64_small by lia. replace (hl <? 3 + 1) with false by lia.
    step Ec. step Es. rewrite !Z.shiftl_mul_pow2 by lia. change (2 ^ cb) with C.
    rewrite u32_small, u64_small by lia. by rewrite Z.mul_1_l. }
  by step Ea.
Qed.

Lemma f_push m : lo32 (aget m (C + 8)) = 0 → aget m (C + 8) = 0 →
  snap_push_back (Span C C) (Z.lor (3 * C) FB_valid, 1) (fin m) =
    (Ret true, fin (aset (aset (aset m (C + 16) (Z.lor (3 * C) FB_valid)) (C + 24) 1)
       (C + 8) (with_lo32 0 1))).
Proof using All.
  intros Hl H0. destruct f_C as (HC & E8 & HE & En & En2 & H8 & H16).
  assert (∀ o, o mod 8 = 0 → (C + o) mod 8 = 0) as Hm.
  { intros o Ho. by rewrite Zplus_mod, H8, Ho. }
  unfold snap_push_back, lt_end, set_lt_end, lt_entry, lt_capacity, LT_META, SNAP_ENTRY.
  cbn [sp_off sp_bytes fst snd].
  set (a := Span C C). set (b := Span (2 * C) C).
  assert ((x ← rd64 (C + 8); mret (lo32 x)) (fin m) = (Ret 0, fin m)) as E1.
  { step (f_rd m a b (C + 8) ltac:(lia) ltac:(lia) (Hm 8 eq_refl)). by rewrite Hl. }
  step E1. assert (1 <= (C - 16) / 16) by (apply Z.div_le_lower_bound; lia).
  replace (0 =? (C - 16) / 16) with false by lia. rewrite Z.mul_0_l, Z.add_0_r.
  step (f_wr m a b (C + 16) (Z.lor (3 * C) FB_valid) ltac:(lia) ltac:(lia) (Hm 16 eq_refl)).
  set (m1 := aset m _ _).
  replace (C + 16 + 8) with (C + 24) by lia.
  step (f_wr m1 a b (C + 24) 1 ltac:(lia) ltac:(lia) (Hm 24 eq_refl)).
  set (m2 := aset m1 _ _).
  assert (aget m2 (C + 8) = 0) as E2 by (unfold m2, m1; by rewrite !aget_aset_ne by lia).
  assert ((x ← rd64 (C + 8); wr64 (C + 8) (with_lo32 x (0 + 1))) (fin m2) =
    (Ret tt, fin (aset m2 (C + 8) (with_lo32 0 1)))) as E3.
  { step (f_rd m2 a b (C + 8) ltac:(lia) ltac:(lia) (Hm 8 eq_refl)). rewrite E2.
    apply f_wr; [lia|lia|by apply Hm]. }
  by step E3.
Qed.

Lemma format_eq : format fsize cb hl dl s0 = (Ret tt, f_state).
Proof using All.
  destruct f_C as (HC & E8 & HE & En & En2 & H8 & H16).
  unfold format. rewrite s32_pow by lia. change (2 ^ cb) with C. cbv zeta.
  rewrite f_start, f_root_alloc. cbv beta iota.
  set (m := aset f_hwm3 24 _).
  step (f_deref m (Span C C) (Span (2 * C) C) (3 * C) ltac:(lia) ltac:(lia)).
  step (f_fill m (Span C C) (Span (2 * C) C) (Span (3 * C) C) 0). cbn [sp_off sp_bytes].
  change (fill_arr m (3 * C) (Z.to_nat (C / 8)) 0) with f_root.
  assert (aget f_root (C + 8) = 0) as E0.
  { rewrite f_root_out by lia. unfold f_tables. rewrite aget_aset_ne by lia.
    rewrite f_table_out by (lia || (rewrite Zmult_mod; by rewrite H8)).
    rewrite aget_aset_ne by lia. unfold f_table. rewrite fill_arr_out by lia.
    apply aget_aset_eq. }
  unfold encode_snap_entry.
  assert (lo32 (aget f_root (C + 8)) = 0) as El by by rewrite E0.
  by step (f_push f_root El E0).
Qed.
End format.
