(* ===== verification/XcowReads.v ===== *)
(** * What the snapshots of an image read

    Lemmas about [translate_read], [erase], the transactional form of a write,
    [open_read] and [peel] on a well-formed image, for the theorems of
    [XcowThms]. *)
From S2P Require Import Prelude Proto Xcow XcowInv XcowOps XcowSnaps XcowFormat.

(** A snapshot of the image, by its root. *)
Definition snap_at (cb r : Z) : XcowSnap := Snap (Span r (CS cb)) None.

(** Two addresses have the same leaf when they are in the same cluster. *)
Lemma same_cluster cb a b : 12 <= cb <= 16 →
  i1 cb a = i1 cb b ∧ i0 cb a = i0 cb b ↔ a / CS cb = b / CS cb.
Proof.
  intros Hcb. pose proof (CS_pos cb Hcb) as HC. pose proof (CS_8 cb Hcb) as [_ HE].
  assert (COVER cb = CS cb * ENTS cb) as EC.
  { unfold COVER, ENTS, CS. replace (cb * 2 - 3) with (cb + (cb - 3)) by lia.
    rewrite Z.pow_add_r by lia. f_equal. replace cb with (cb - 3 + 3) at 2 by lia.
    by rewrite Z.pow_add_r, Z.div_mul by lia. }
  assert (∀ x, i1 cb x = x / CS cb / ENTS cb ∧ i0 cb x = (x / CS cb) mod ENTS cb) as E.
  { intros x. unfold i1, i0. rewrite EC. split; [by rewrite Z.div_div by lia|].
    rewrite Z.rem_mul_r by lia. rewrite (Z.mul_comm (CS cb) ((x / CS cb) mod _)), Z.div_add by lia.
    rewrite (Z.div_small (x mod _)) by (apply Z.mod_pos_bound; lia). lia. }
  destruct (E a) as [-> ->], (E b) as [-> ->]. split; [|by intros ->].
  intros [H1 H2]. rewrite (Z.div_mod (a / CS cb) (ENTS cb)) by lia.
  rewrite (Z.div_mod (b / CS cb) (ENTS cb)) by lia. congruence.
Qed.

Section reads.
Context (cb : Z) (s : xfile) (ly : layout) (hat : Z) (Hx : xinv cb s ly hat).
Abbreviation A := (ly_active ly).
Abbreviation CSZ := (CS cb).

(** [erase] clears the word of the leaf, whoever shares the table. *)
Lemma erase_eq h addr : addr_in cb addr →
  erase (Snap (Span A CSZ) h) addr s =
    (Ret tt, let e := l1_ent (W s) A (i1 cb addr) in
             if nt_valid e
             then set_words (aset (words s) (nt_decode e + 8 * i0 cb addr) empty_leaf) s
             else s).
Proof using Hx.
  intros Ha. pose proof (i1_ok cb s ly hat Hx addr Ha) as Hi. unfold erase.
  step (l1_index_eq cb s ly hat Hx addr). step (cluster_size_eq cb s ly hat Hx).
  cbn [root]. step (nt_next_eq cb s ly hat Hx A (i1 cb addr) (active_root cb s ly hat Hx) Hi).
  cbv zeta. destruct (nt_valid (l1_ent (W s) A (i1 cb addr))) eqn:Hv; [|done].
  step (l0_index_eq cb s ly hat Hx addr).
  apply (nt_set_eq cb s ly hat Hx); [|apply (i0_ok cb s ly hat Hx)].
  apply (table_cluster cb s ly hat Hx).
  apply (wi_refs _ _ _ _ _ (x_winv _ _ _ _ Hx)); [|done|done].
  apply (active_root cb s ly hat Hx).
Qed.

(** The leaves after a store to an entry of a level-0 table. *)
Lemma leaf_at_store t j v r k l : t ∈ ly_tables ly → idx_ok cb j →
  r ∈ ly_roots ly → idx_ok cb k → idx_ok cb l →
  leaf_at (W (set_words (aset (words s) (t + 8 * j) v) s)) r k l =
    if decide (nt_valid (l1_ent (W s) r k) = true ∧ nt_decode (l1_ent (W s) r k) = t ∧ l = j)
    then v else leaf_at (W s) r k l.
Proof using Hx.
  intros Ht Hj Hr Hk Hl. pose proof (cb_range cb s ly hat Hx) as Hcb.
  pose proof (table_cluster cb s ly hat Hx t Ht) as Hmt.
  pose proof (root_cluster cb s ly hat Hx r Hr) as Hmr.
  unfold leaf_at, l1_ent. rewrite !W_aset.
  rewrite (decide_False (P := t + 8 * j = r + 8 * k)).
  2:{ intros E. destruct (clusters_apart cb Hcb _ t r j k Hmt Hmr Hj Hk E) as [-> _].
      exact (wi_disjoint _ _ _ _ _ (x_winv _ _ _ _ Hx) r Hr Ht). }
  destruct (nt_valid (W s (r + 8 * k))) eqn:Hv.
  2:{ rewrite decide_False; [done|]. by intros (? & _). }
  assert (nt_decode (W s (r + 8 * k)) ∈ ly_tables ly) as Hd
    by (by apply (wi_refs _ _ _ _ _ (x_winv _ _ _ _ Hx) r k)).
  pose proof (table_cluster cb s ly hat Hx _ Hd) as Hmd.
  destruct (decide (_ = _ + 8 * l)) as [E|E].
  - destruct (clusters_apart cb Hcb _ _ _ j l Hmt Hmd Hj Hl E) as [-> ->].
    by rewrite decide_True.
  - rewrite decide_False; [done|]. intros (_ & <- & ->). done.
Qed.

(** Clearing a leaf keeps the image well formed. *)
Section erased.
Context (t j st n : Z) (Ht : t ∈ ly_tables ly) (Hj : idx_ok cb j) (Htv : tinv cb s ly hat st n).
Let s' := set_words (aset (words s) (t + 8 * j) empty_leaf) s.

Lemma er_word y : y ≠ t + 8 * j → W s' y = W s y.
Proof using All. intros. unfold s'. by rewrite W_aset, decide_False. Qed.

Lemma er_low y : y < CS cb ∨ st <= y <= st + CS cb - 8 → W s' y = W s y.
Proof using All.
  intros Hy. pose proof (CS_8 cb (cb_range cb s ly hat Hx)) as [E8 _].
  apply er_word. destruct (table_cluster cb s ly hat Hx t Ht) as (? & ? & ?). unfold idx_ok in Hj.
  destruct (snap_apart cb s ly hat st n Hx Htv t (or_intror Ht)); lia.
Qed.

Lemma er_l1 r k : r ∈ ly_roots ly → idx_ok cb k → l1_ent (W s') r k = l1_ent (W s) r k.
Proof using All.
  intros Hr Hk. apply er_word. intros E.
  destruct (clusters_apart cb (cb_range cb s ly hat Hx) _ r t k j (root_cluster cb s ly hat Hx r Hr)
    (table_cluster cb s ly hat Hx t Ht) Hk Hj E) as [-> _].
  exact (wi_disjoint _ _ _ _ _ (x_winv _ _ _ _ Hx) t Hr Ht).
Qed.

Lemma er_valid x k : nt_valid (W s' (x + 8 * k)) = true → W s' (x + 8 * k) = W s (x + 8 * k).
Proof using All. unfold s'. rewrite W_aset. by destruct (decide _). Qed.

Lemma er_leaf r k l : r ∈ ly_roots ly → idx_ok cb k → nt_valid (leaf_at (W s') r k l) = true →
  leaf_at (W s') r k l = leaf_at (W s) r k l.
Proof using All.
  intros Hr Hk. unfold leaf_at. rewrite er_l1 by done. case_match; [apply er_valid|done].
Qed.

Lemma er_eff i k : idx_ok cb i → eff_writable (W s') (ly_active ly) i k = true →
  eff_writable (W s) (ly_active ly) i k = true ∧
  leaf_at (W s') (ly_active ly) i k = leaf_at (W s) (ly_active ly) i k.
Proof using All.
  intros Hi He. pose proof (active_root cb s ly hat Hx) as HA. pose proof He as Hv.
  unfold eff_writable in Hv. apply andb_prop in Hv as [[_ Hv]%andb_prop _].
  split; [|by apply er_leaf]. unfold eff_writable in *. by rewrite er_l1, er_leaf in He.
Qed.

Lemma er_winv : winv cb (W s') (hi32 (W s 24)) (W s hat) ly.
Proof using All.
  pose proof (x_winv _ _ _ _ Hx) as Hwi. pose proof (active_root cb s ly hat Hx) as HA.
  split; try apply Hwi.
  - intros x. unfold s'. rewrite W_aset. case_match; [done|apply Hwi].
  - intros r i Hr Hi. rewrite er_l1 by done. by apply Hwi.
  - intros i r k Hi Hr Hk. rewrite !er_l1 by done. by eapply wi_owned.
  - intros x k Hm Hk Hvx. rewrite er_valid by done. rewrite er_valid in Hvx by done.
    by apply (wi_leaves _ _ _ _ _ Hwi).
  - intros i k x l Hi Hk Hm Hl He Hvx Hd. rewrite er_l1 by done.
    destruct (er_eff i k Hi He) as [He2 El]. rewrite El in Hd.
    rewrite er_valid in Hd by done. rewrite er_valid in Hvx by done. by eapply wi_leaf_owned.
Qed.

Lemma erased_inv : image cb s' ly hat st n.
Proof using All.
  pose proof (CSZ_pos cb s ly hat Hx) as HCS. pose proof (t_hat _ _ _ _ _ _ Htv) as Hh.
  pose proof (st_bounds cb s ly hat st n Hx Htv) as (B1 & B2 & B3 & B4 & B5 & B6 & B7).
  split; split; rewrite ?(er_low 24), ?(er_low hat), ?(er_low 8), ?(er_low 16), ?(er_low 32) by lia;
    rewrite ?er_low by lia; first [done | exact er_winv | by apply Hx | by apply Htv].
Qed.
End erased.

(** ** The transactional write *)

(** Prepare, allocate, commit: the order in which the server writes. *)
Definition tx_write (sn : XcowSnap) (addr : Z) : xeff (Z * Z) :=
  ref ← tx_write_prep sn addr;
  e ← rd64 ref;
  if needs_alloc e then
    '(off, _) ← alloc_data_clusters sn 1; tx_write_commit ref (encode_leaf off true)
  else mret (e, e).

Lemma is_empty_valid e : is_empty e = negb (nt_valid e).
Proof. done. Qed.

Lemma needs_alloc_eq e : needs_alloc e = negb (nt_valid e) || negb (xb_writable e).
Proof.
  unfold needs_alloc, needs_cow, is_empty. change (truthy (Z.land e XB_valid)) with (nt_valid e).
  change (truthy (Z.land e XB_writable)) with (xb_writable e). by destruct (nt_valid e), (xb_writable e).
Qed.

(** The common part: the table is the active snapshot's own. *)
Lemma writable_l0_table h addr t s' : addr_in cb addr →
  writable_l0 (Snap (Span A CSZ) h) addr s = (Ret t, s') →
  ∃ ly', xinv cb s' ly' hat ∧ sp_bytes t = CSZ ∧ sp_off t ∈ ly_tables ly' ∧
    fbytes s' = fbytes s.
Proof using Hx.
  intros Ha E. pose proof (writable_l0_spec cb s ly hat Hx h addr Ha) as Hs.
  rewrite E in Hs. destruct Hs as [H1 ->].
  destruct (l0_inv _ _ _ _ _ _ H1) as (tables & Hx' & _).
  exists (Layout (ly_roots ly) A tables). split_and!; [done|done| |apply H1].
  simpl. pose proof (l0_owned _ _ _ _ _ _ H1) as [Hv _]%andb_prop.
  change tables with (ly_tables (Layout (ly_roots ly) A tables)).
  apply (wi_refs _ _ _ _ _ (x_winv _ _ _ _ Hx') A (i1 cb addr)); [|by apply (i1_ok cb s ly hat Hx)|done].
  simpl. apply (active_root cb s ly hat Hx).
Qed.

Lemma tx_write_eq addr : addr_in cb addr →
  tx_write (Snap (Span A CSZ) (Some hat)) addr s =
    translate_write (Snap (Span A CSZ) (Some hat)) addr s.
Proof using Hx.
  intros Ha. unfold tx_write, translate_write.
  set (sn := Snap (Span A CSZ) (Some hat)).
  assert (tx_write_prep sn addr s = (l0 ← writable_l0 sn addr; l0_off ← l0_index addr;
    if l0_off <? sp_bytes l0 / 8 then mret (sp_off l0 + 8 * l0_off) else throw Eub) s)
    as Eprep by done.
  cbn [disk_hwm_at sn]. rewrite bool_decide_true by done. cbn [negb].
  destruct (writable_l0 sn addr s) as [[t|e] s1] eqn:E.
  2:{ rewrite (bind_Throw _ _ _ _ _ E). rewrite (bind_Throw _ _ _ _ _ E) in Eprep.
      by rewrite (bind_Throw _ _ _ _ _ Eprep). }
  destruct (writable_l0_table _ _ _ _ Ha E) as (ly1 & Hx1 & Hb & Ht & Hf).
  pose proof (i0_ok cb s1 ly1 hat Hx1 addr) as Hj. set (j := i0 cb addr) in *.
  pose proof (table_cluster cb s1 ly1 hat Hx1 _ Ht) as Hmt.
  pose proof (cluster_word cb s1 ly1 hat Hx1 _ j Hmt Hj) as Hw.
  pose proof (l0_index_eq cb s1 ly1 hat Hx1 addr) as Ej. fold j in Ej.
  set (p := sp_off t + 8 * j) in *.
  assert (j <? sp_bytes t / 8 = true) as Hlt.
  { rewrite Hb. fold (ENTS cb). unfold idx_ok in Hj. lia. }
  rewrite (bind_Ret _ _ _ _ _ E), (bind_Ret _ _ _ _ _ Ej), Hlt in Eprep.
  step Eprep. step (rd64_Ret s1 p Hw). step E. step Ej.
  assert (nt_get t j s1 = (Ret (W s1 p), s1)) as Eg
    by (unfold nt_get; rewrite Hlt; by apply rd64_Ret).
  step Eg. rewrite needs_alloc_eq.
  destruct (negb (nt_valid (W s1 p)) || negb (xb_writable (W s1 p))) eqn:Hn; [|done].
  destruct (Z.lt_ge_cases (W s1 hat) (W s1 32)) as [Hroom|Hfull].
  2:{ by rewrite !(bind_Throw _ _ _ _ _ (alloc_data_full cb s1 ly1 hat Hx1 (Span A CSZ) Hfull)). }
  pose proof (alloc_data_eq cb s1 ly1 hat Hx1 (Span A CSZ) Hroom) as Ea. fold sn in Ea.
  step Ea. step Ea. set (s2 := set_words _ s1).
  assert (word_ok s2 p = true) as Hw2 by done.
  assert (W s2 p = W s1 p) as Ew.
  { unfold s2. rewrite W_aset, decide_False; [done|].
    apply (hat_outside cb s1 ly1 hat Hx1 (sp_off t) j); [by right|done]. }
  unfold tx_write_commit. step (rd64_Ret s2 p Hw2). rewrite Ew, Hn.
  unfold nt_set. rewrite Hlt. fold p.
  pose proof (wr64_Ret s2 p (encode_leaf (data_cluster cb s1 hat) true) Hw2) as Es.
  step Es. step Es. unfold nt_get. rewrite Hlt. done.
Qed.
End reads.

(** ** Opening an older snapshot *)

Section open_read.
Context (s : xfile).

Lemma open_read_loop_in t n f : ∀ k d, lt_end t s = (Ret n, s) →
  0 <= d → k + d <= n → (Z.to_nat d < f)%nat →
  open_read_loop f t k d s = (Ret (t, k + d), s).
Proof.
  induction f as [|f IH]; intros k d Hn Hd Hle Hf; [lia|]. simpl.
  destruct (Z.ltb_spec 0 d).
  - step Hn. replace (k =? n) with false by lia. rewrite IH by (done || lia).
    by replace (k + 1 + (d - 1)) with (k + d) by lia.
  - by replace (k + d) with k by lia.
Qed.

(** Past the end of a table the search goes on in the second one. *)
Lemma open_read_loop_next t t2 n m f : ∀ k d, lt_end t s = (Ret n, s) →
  lt_next SNAP_ENTRY (snaps_tbl s) s = (Ret (Some t2), s) →
  k + Z.of_nat m = n → 0 < d →
  open_read_loop (S m + f) t k (Z.of_nat m + d) s = open_read_loop f t2 0 d s.
Proof.
  induction m as [|m IH]; intros k d Hn H2 Hk Hd.
  - change (Z.of_nat 0 + d) with (0 + d). rewrite Z.add_0_l. cbn [Nat.add open_read_loop].
    replace (0 <? d) with true by lia. cbv iota.
    step Hn. replace (k =? n) with true by lia. cbv iota. step (get_Ret s). by step H2.
  - rewrite Nat2Z.inj_succ, <- Z.add_1_r in *. change (S (S m) + f)%nat with (S (S m + f)). cbn [open_read_loop].
    replace (0 <? Z.of_nat m + 1 + d) with true by lia. cbv iota.
    step Hn. replace (k =? n) with false by lia. cbv iota.
    replace (Z.of_nat m + 1 + d - 1) with (Z.of_nat m + d) by lia.
    by apply IH; [| |lia|].
Qed.

Lemma open_read_at_end n f : lt_end (snaps_tbl s) s = (Ret n, s) → 0 <= n →
  (Z.to_nat n < f)%nat → open_read f n s = (Throw Eub, s).
Proof.
  intros Hn H0 Hf. unfold open_read. step (get_Ret s).
  step (open_read_loop_in (snaps_tbl s) n f 0 n Hn H0 ltac:(lia) Hf).
  step Hn. by replace (n <=? 0 + n) with true by lia.
Qed.

Lemma open_read_same f f' x y : open_read_loop f (snaps_tbl s) 0 x s =
  open_read_loop f' (snaps_tbl s) 0 y s → open_read f x s = open_read f' y s.
Proof.
  intros E. unfold open_read. step (get_Ret s). step (get_Ret s).
  unfold mbind, eff_bind. by rewrite E.
Qed.
End open_read.

(** ** Taking a snapshot back *)

Lemma winv_ext cb w w' hwm hwm' dhwm ly : 12 <= cb <= 16 → winv cb w hwm dhwm ly →
  hwm <= hwm' → hwm' * CS cb < 2 ^ 63 → (∀ x, 0 <= w' x < 2 ^ 64) →
  (∀ x j, x ∈ ly_roots ly ∨ x ∈ ly_tables ly → idx_ok cb j → w' (x + 8 * j) = w (x + 8 * j)) →
  winv cb w' hwm' dhwm ly.
Proof.
  intros Hcb H Hle Hhi Hr Hw.
  assert (∀ r i, r ∈ ly_roots ly → idx_ok cb i → l1_ent w' r i = l1_ent w r i) as H1
    by (intros; apply Hw; auto).
  assert (∀ r i j, r ∈ ly_roots ly → idx_ok cb i → idx_ok cb j →
    leaf_at w' r i j = leaf_at w r i j) as H2.
  { intros r i j Hrt Hi Hj. unfold leaf_at. rewrite H1 by done.
    destruct (nt_valid (l1_ent w r i)) eqn:E; [|done]. apply Hw; [right|done].
    by eapply wi_refs. }
  pose proof (wi_active _ _ _ _ _ H) as HA. split; try apply H; try done.
  - destruct (wi_hwm _ _ _ _ _ H). lia.
  - intros r Hrt. eapply (meta_cluster_mono cb Hcb); [done|]. by eapply wi_roots.
  - intros t Ht. eapply (meta_cluster_mono cb Hcb); [done|]. by eapply wi_tables.
  - intros r i Hrt Hi. rewrite H1 by done. by eapply wi_refs.
  - intros i r j Hi Hrt Hj. rewrite !H1 by done. by eapply wi_owned.
  - intros t j Ht Hj. rewrite Hw by auto. by eapply wi_leaves.
  - intros i j t k Hi Hj Ht Hk. unfold eff_writable. rewrite H1, H2, Hw by auto.
    by eapply wi_leaf_owned.
Qed.

Section peel.
Context (cb : Z) (s : xfile) (ly : layout) (hat st n : Z).
Context (Hx : xinv cb s ly hat) (Ht : tinv cb s ly hat st n).
Abbreviation hwm := (hi32 (W s 24)).
Abbreviation A := (ly_active ly).
Abbreviation CSZ := (CS cb).

Definition peeled (s : xfile) (e : Z) : xfile :=
  set_words (aset (aset (aset (words s) (st + 8) (with_lo32 (W s (st + 8)) (n - 1)))
    e 0) (e + 8) 0) s.

(** [peel] with more than one entry in the current table. *)
Lemma peel_eq r h : 2 <= n → peel (Snap r (Some h)) s =
  (Ret tt, peeled s (st + 16 + 16 * (n - 1))).
Proof using All.
  intros Hn. pose proof (st_bounds cb s ly hat st n Hx Ht) as (B1 & B2 & B3 & B4 & B5 & B6 & B7).
  pose proof (st_word cb s ly hat st n Hx Ht) as Hw.
  pose proof (lt_end_eq cb s ly hat st n Hx Ht) as En.
  unfold peel. cbn [disk_hwm_at]. step (get_Ret s). rewrite (t_tbl _ _ _ _ _ _ Ht).
  step En.
  assert (word_ok s st = true) as Hw0
    by (replace st with (st + 0) by lia; by apply Hw; [lia|]).
  assert (lt_next_ref (Span st CSZ) s = (Ret (W s st), s)) as Er by by apply rd64_Ret.
  step Er. replace (n =? 1) with false by lia. cbn [andb].
  assert (snap_pop_back (Span st CSZ) s = (Ret false, peeled s (st + 16 + 16 * (n - 1)))) as Ep.
  { unfold snap_pop_back. step En. replace (n =? 0) with false by lia.
    unfold set_lt_end, lt_entry, LT_META, SNAP_ENTRY. cbn [sp_off].
    pose proof (Hw 8 ltac:(lia) eq_refl) as Hw8.
    assert ((x ← rd64 (st + 8); wr64 (st + 8) (with_lo32 x (n - 1))) s = (Ret tt,
      set_words (aset (words s) (st + 8) (with_lo32 (W s (st + 8)) (n - 1))) s)) as E1
      by (step (rd64_Ret s (st + 8) Hw8); by apply wr64_Ret).
    step E1. set (s1 := set_words _ s).
    assert (∀ o, 0 <= o → o <= 8 → word_ok s1 (st + 16 + (n - 1) * 16 + o) =
      word_ok s (st + (16 + (n - 1) * 16 + o))) as Hw1
      by (intros; unfold word_ok; do 2 f_equal; (lia || f_equal; cbn; lia)).
    assert (((16 + (n - 1) * 16)) mod 8 = 0) as Hm
      by (replace (16 + (n - 1) * 16) with ((2 + (n - 1) * 2) * 8) by lia; by apply Z.mod_mul).
    assert (word_ok s1 (st + 16 + (n - 1) * 16) = true) as Hwa.
    { rewrite <- (Z.add_0_r (st + 16 + (n - 1) * 16)), Hw1 by lia.
      apply Hw; [lia|]. by rewrite Z.add_0_r. }
    assert (word_ok s1 (st + 16 + (n - 1) * 16 + 8) = true) as Hwb.
    { rewrite Hw1 by lia. apply Hw; [lia|]. by rewrite Zplus_mod, Hm. }
    step (wr64_Ret s1 _ 0 Hwa). set (s2 := set_words _ s1).
    step (wr64_Ret s2 _ 0 Hwb). replace (n - 1 =? 0) with false by lia.
    unfold mret, eff_ret, peeled. f_equal. unfold s2, s1, set_words; simpl.
    by replace (16 * (n - 1)) with ((n - 1) * 16) by lia. }
  by step Ep.
Qed.
End peel.

Section snap_peel.
Context (cb : Z) (s : xfile) (ly : layout) (hat st n : Z).
Context (Hx : xinv cb s ly hat) (Ht : tinv cb s ly hat st n).
Context (Hroom : hi32 (W s 24) < lo32 (W s 24)) (Hcap : n < (CS cb - 16) / 16).
Abbreviation hwm := (hi32 (W s 24)).
Abbreviation CSZ := (CS cb).
Abbreviation s1 := (snap_state cb s ly hat st n).

(** A state after the snapshot of [s], in which the child may have written:
    below the clusters it got since, only the allocation mark and its own mark
    of the data differ. *)
Record child_state (s' : xfile) (ly' : layout) : Prop := {
  ch_image : image cb s' ly' (hat + 16) st (n + 1);
  ch_active : ly_active ly' = new_root cb s;
  ch_roots : ly_roots ly' = new_root cb s :: ly_roots ly;
  ch_owned k : idx_ok cb k → owned ly' (W s') k = true →
    hwm * CSZ <= nt_decode (l1_ent (W s') (ly_active ly') k);
  ch_files : same_files s1 s';
  ch_words y : y < hwm * CSZ → y ≠ 24 → y ≠ hat + 16 → W s' y = W s1 y;
}.

Lemma child_start : child_state s1 (snap_layout cb s ly).
Proof using All.
  split; try done.
  - split; [by apply snap_xinv|by apply snap_tinv].
  - intros k Hk [Hv Hw]%andb_prop. exfalso.
    unfold l1_ent in Hw. cbn [ly_active snap_layout] in Hw.
    rewrite (snap_root_words cb s ly hat st n Hx Ht Hroom Hcap k Hk) in Hw.
    by rewrite mask_leaf_writable in Hw.
Qed.

Lemma child_write s' ly' addr tl prev s'' : child_state s' ly' → addr_in cb addr →
  translate_write (active_snap cb ly' (hat + 16)) addr s' = (Ret (tl, prev), s'') →
  ∃ ly'', child_state s'' ly'' ∧ active_snap cb ly'' (hat + 16) = active_snap cb ly' (hat + 16).
Proof using All.
  intros [Him EA Er Ho Hf Hw] Ha E.
  destruct (write_image _ _ _ _ _ _ _ _ _ _ Him Ha E) as (ly2 & Him2 & Er2 & EA2 & _ & Hs).
  exists ly2. split; [|unfold active_snap; by rewrite EA2].
  pose proof (CSZ_pos cb s ly hat Hx) as HC.
  assert (hwm + 1 <= hi32 (W s' 24)) as Hh.
  { destruct Hf as (_ & _ & _ & Hf). rewrite (snap_24 cb s ly hat st n Hx Ht Hroom Hcap) in Hf.
    destruct (hwm_range cb s ly hat Hx) as [Hr _]. assert (0 <= lo32 (W s 24) < 2 ^ 32) by apply u32_range.
    rewrite hi32_with_hi in Hf by lia. lia. }
  destruct (ws_frame _ _ _ _ _ _ _ _ _ Hs) as [(F1 & F2 & F3 & F4) Hfr].
  split; try done; try congruence.
  - intros k Hk Hok. assert (owned ly' (W s'') k = true) as Hok' by (unfold owned in *; by rewrite <- EA2).
    rewrite EA2. destruct (ws_table _ _ _ _ _ _ _ _ _ Hs k Hk Hok') as [[Ho1 ->]|Hge]; [by apply Ho|nia].
  - destruct Hf as (H1 & H2 & H3 & H4). split_and!; [congruence..|lia].
  - intros y Hy H24 Hh16. rewrite <- Hw by done. apply Hfr; [nia|done|done|].
    split; [rewrite EA; unfold new_root; lia|]. intros k Hk Hok. specialize (Ho k Hk Hok). lia.
Qed.

(** A history of writes. *)
Lemma child_writes l : ∀ s' ly' sn' s'', child_state s' ly' → Forall (op_ok cb) l → op_snaps l = 0 →
  run_ops l (active_snap cb ly' (hat + 16)) s' = (Ret sn', s'') →
  ∃ ly'', child_state s'' ly'' ∧ sn' = active_snap cb ly'' (hat + 16).
Proof using All.
  induction l as [|o l IH]; intros s' ly' sn' s'' Hc Hok Hn E.
  { injection E as <- <-. by exists ly'. }
  apply Forall_cons in Hok as [Ho Hok]. pose proof (op_snaps_nonneg l).
  destruct o as [addr|]; simpl in E, Hn, Ho; [|lia].
  destruct (translate_write (active_snap cb ly' (hat + 16)) addr s') as [[[tl prev]|e] s2] eqn:Ew.
  2:{ by rewrite (bind_Throw _ _ _ _ _ Ew) in E. }
  rewrite (bind_Ret _ _ _ _ _ Ew) in E.
  destruct (child_write _ _ _ _ _ _ Hc Ho Ew) as (ly2 & Hc2 & Es). rewrite <- Es in E.
  by apply (IH s2 ly2).
Qed.

Section peel_child.
Context (s' : xfile) (ly' : layout) (Hc : child_state s' ly').
Abbreviation s2 := (peeled st (n + 1) s' (st + 16 + 16 * (n + 1 - 1))).

Lemma ch_hwm : hwm + 1 <= hi32 (W s' 24).
Proof using All.
  destruct (ch_files _ _ Hc) as (_ & _ & _ & Hf).
  rewrite (snap_24 cb s ly hat st n Hx Ht Hroom Hcap) in Hf.
  destruct (hwm_range cb s ly hat Hx) as [Hr _]. assert (0 <= lo32 (W s 24) < 2 ^ 32) by apply u32_range.
  by rewrite hi32_with_hi in Hf by lia.
Qed.

(** Only the allocation mark, the clusters of the child and the unused entry
    differ. *)
Lemma sp_W y : y ≠ 24 → y < st ∨ st + CSZ <= y ∨ (st <= y < st + 16 + 16 * n ∧ y ≠ st + 8) →
  y < hwm * CSZ → W s2 y = W s y.
Proof using All.
  intros H24 Hy Hn. pose proof (st_bounds cb s ly hat st n Hx Ht) as (B1 & B2 & B3 & B4 & B5 & B6 & B7).
  pose proof (snap_cap cb s ly hat st n Hx Ht Hroom Hcap). pose proof (t_hat _ _ _ _ _ _ Ht) as Hh.
  unfold peeled. rewrite W_set_words, !aget_aset_ne by lia. fold (W s' y).
  rewrite (ch_words _ _ Hc) by lia.
  destruct Hy as [Hy|[Hy|[Hy Hne]]].
  - apply (snap_out cb s ly hat st n Hx Ht Hroom Hcap); [lia|lia|unfold new_root; lia].
  - apply (snap_out cb s ly hat st n Hx Ht Hroom Hcap); [lia|lia|unfold new_root; lia].
  - rewrite (snap_W cb s ly hat st n Hx Ht Hroom Hcap), !decide_False by lia.
    unfold copied. rewrite copy_arr_out by lia. simpl. by rewrite aget_aset_ne.
Qed.

Lemma sp_24 : W s2 24 = W s' 24.
Proof using All.
  pose proof (st_bounds cb s ly hat st n Hx Ht) as (B1 & B2 & B3 & B4 & B5 & B6 & B7).
  unfold peeled. by rewrite W_set_words, !aget_aset_ne by lia.
Qed.

Lemma sp_range x : 0 <= W s2 x < 2 ^ 64.
Proof using All.
  destruct (ch_image _ _ Hc) as [Hx' _]. pose proof (W_range cb s' ly' _ Hx') as Hr.
  unfold peeled. rewrite W_set_words.
  apply arr_range_aset; [|lia]. apply arr_range_aset; [|lia].
  apply arr_range_aset; [intros y; apply Hr|]. apply with_lo32_range, Hr.
Qed.

Lemma sp_cluster x j : x ∈ ly_roots ly ∨ x ∈ ly_tables ly → idx_ok cb j →
  W s2 (x + 8 * j) = W s (x + 8 * j).
Proof using All.
  intros Hm Hj. unfold idx_ok in Hj.
  assert (meta_cluster cb hwm x) as (? & ? & _)
    by (destruct Hm; [by apply (root_cluster cb s ly hat Hx)
                     |by apply (table_cluster cb s ly hat Hx)]).
  pose proof (CS_8 cb (cb_range cb s ly hat Hx)) as [E _].
  pose proof (CSZ_pos cb s ly hat Hx).
  destruct (snap_apart cb s ly hat st n Hx Ht x Hm); apply sp_W; lia.
Qed.

Lemma snap_peel_image : image cb s2 ly hat st n.
Proof using All.
  pose proof (st_bounds cb s ly hat st n Hx Ht) as (B1 & B2 & B3 & B4 & B5 & B6 & B7).
  pose proof (cb_range cb s ly hat Hx) as Hcb. pose proof (t_hat _ _ _ _ _ _ Ht) as Hh.
  destruct (t_cluster _ _ _ _ _ _ Ht) as (C1 & C2 & C3).
  destruct (ch_image _ _ Hc) as [Hx' Ht']. pose proof ch_hwm as Hhw.
  destruct (x_limit _ _ _ _ Hx') as (Hl1 & Hl2 & Hl3).
  destruct (ch_files _ _ Hc) as (Ef & _ & _ & _).
  assert (∀ y, 0 <= y <= 48 → y ≠ 24 → W s2 y = W s y) as Hhdr by (intros; apply sp_W; lia).
  assert (W s2 hat = W s hat) as Hhat by (apply sp_W; lia).
  split; split; rewrite ?Hhat, ?sp_24.
  - rewrite Hhdr by lia. apply Hx.
  - done.
  - rewrite Hhdr by lia. apply Hx.
  - eapply (winv_ext cb (W s)); [done|apply Hx|lia|nia|apply sp_range|apply sp_cluster].
  - destruct (x_hat _ _ _ _ Hx) as (? & ? & ? & ?). split_and!; [done|done|nia|done].
  - cbn [peeled snaps_tbl set_words]. rewrite Ef. apply (t_tbl _ _ _ _ _ _ Ht).
  - eapply (meta_cluster_mono cb Hcb); [|apply (t_cluster _ _ _ _ _ _ Ht)]. lia.
  - apply (t_apart _ _ _ _ _ _ Ht).
  - split; [|apply (t_end _ _ _ _ _ _ Ht)]. unfold peeled.
    rewrite W_set_words, !(aget_aset_ne _ _ (st + 8)), aget_aset_eq, lo32_with_lo by lia. lia.
  - done.
  - rewrite sp_W by lia. apply (t_root _ _ _ _ _ _ Ht).
  - rewrite Hhdr by lia. apply (t_fsize _ _ _ _ _ _ Ht).
Qed.

Lemma snap_peel_leaf r k l : r ∈ ly_roots ly → idx_ok cb k → idx_ok cb l →
  leaf_at (W s2) r k l = leaf_at (W s) r k l.
Proof using All.
  intros Hr Hk Hl. unfold leaf_at, l1_ent. rewrite sp_cluster by auto.
  destruct (nt_valid (W s (r + 8 * k))) eqn:E; [|done].
  apply sp_cluster; [right|done]. by apply (wi_refs _ _ _ _ _ (x_winv _ _ _ _ Hx) r k).
Qed.

Lemma snap_peel_mark : W s2 hat = W s hat.
Proof using All.
  pose proof (st_bounds cb s ly hat st n Hx Ht). pose proof (t_hat _ _ _ _ _ _ Ht).
  destruct (x_hat _ _ _ _ Hx) as (_ & _ & ? & _). apply sp_W; lia.
Qed.

Lemma peel_child : peel (active_snap cb ly' (hat + 16)) s' = (Ret tt, s2).
Proof using All.
  destruct (ch_image _ _ Hc) as [Hx' Ht']. destruct (t_end _ _ _ _ _ _ Ht) as [_ ?].
  apply (peel_eq cb s' ly' (hat + 16) st (n + 1) Hx' Ht'). lia.
Qed.
End peel_child.
End snap_peel.

(** ** Opening the file again *)

Section open.
Context (cb : Z) (s : xfile).

(** A header that names tables inside of the file. *)
Record header_ok : Prop := {
  ho_bits : 12 <= cb <= 24 ∧ lo32 (W s 16) = cb;
  ho_magic : W s 0 = XCOW_MAGIC;
  ho_bytes : HDR_BYTES <= fbytes s;
  ho_snaps : 0 <= lt_decode (W s 40) ∧ lt_decode (W s 40) + CS cb <= fbytes s;
  ho_flist : 0 <= lt_decode (W s 48) ∧ lt_decode (W s 48) + CS cb <= fbytes s;
}.
Context (Hh : header_ok).
Abbreviation mapped a b := (XFile (words s) (fbytes s) a b).

Lemma open_rd a b y : 0 <= y <= 48 → y mod 8 = 0 → rd64 y (mapped a b) = (Ret (W s y), mapped a b).
Proof using All.
  intros Hy Hm. apply (rd64_Ret (mapped a b)). apply word_ok_spec. cbn [fbytes].
  pose proof (ho_bytes Hh). unfold HDR_BYTES in *. lia.
Qed.

Lemma open_deref a b o n : 0 <= o → 0 <= n → o + n <= fbytes s →
  deref o n (mapped a b) = (Ret (Span o n), mapped a b).
Proof.
  intros Ho Hn Hon. unfold deref. step (get_Ret (mapped a b)). cbn [fbytes].
  by replace ((0 <=? o) && (0 <=? n) && (o + n <=? fbytes s)) with true by lia.
Qed.

Lemma open_CS : (CS cb - 16) mod 8 = 0 ∧ (CS cb - 16) mod 16 = 0 ∧ 0 < CS cb.
Proof using All.
  destruct (ho_bits Hh) as [Hb _].
  assert (CS cb mod 16 = 0) as H16.
  { unfold CS. replace cb with (cb - 4 + 4) by lia. rewrite Z.pow_add_r by lia.
    change (2 ^ 4) with 16. apply Z.mod_mul. lia. }
  assert (0 < CS cb) by (apply Z.pow_pos_nonneg; lia).
  repeat split; [Z.div_mod_to_equations; lia| |done]. rewrite Zminus_mod, H16. done.
Qed.

Lemma open_ok a b : xcow_open (mapped a b) =
  (Ret tt, mapped (Span (lt_decode (W s 40)) (CS cb)) (Span (lt_decode (W s 48)) (CS cb))).
Proof using All.
  destruct open_CS as (Hm8 & Hm16 & HC). destruct (ho_bits Hh) as [Hb Eb].
  destruct (ho_snaps Hh) as [S1 S2]. destruct (ho_flist Hh) as [F1 F2].
  assert (hdr_cluster_bits (mapped a b) = (Ret cb, mapped a b)) as Ebits.
  { unfold hdr_cluster_bits. step (open_rd a b 16 ltac:(lia) eq_refl). by rewrite Eb. }
  assert (make_hdr (mapped a b) = (Ret tt, mapped a b)) as Emk.
  { unfold make_hdr. step (open_deref a b 0 HDR_BYTES ltac:(lia) ltac:(done) (ho_bytes Hh)).
    unfold hdr_magic. step (open_rd a b 0 ltac:(lia) eq_refl). rewrite (ho_magic Hh), Z.eqb_refl.
    cbn [negb]. step Ebits. by replace ((cb <? 12) || (24 <? cb)) with false by lia. }
  unfold xcow_open. step Emk.
  assert (cluster_size (mapped a b) = (Ret (CS cb), mapped a b)) as Ecs.
  { unfold cluster_size, cluster_bits. step Ebits. by rewrite s32_pow by lia. }
  step Ecs. unfold hdr_snaplist. step (open_rd a b 40 ltac:(lia) eq_refl).
  step (open_deref a b _ (CS cb) S1 ltac:(lia) S2).
  assert (∀ o e c d, (CS cb - 16) mod e = 0 →
    lt_new e (Span o (CS cb)) (mapped c d) = (Ret (Span o (CS cb)), mapped c d)) as Enew.
  { intros o e c d He. unfold lt_new, convert_count, LT_META. cbn [sp_bytes]. by rewrite He. }
  step (Enew (lt_decode (W s 40)) 16 a b Hm16). set (st := Span (lt_decode (W s 40)) (CS cb)).
  rewrite (bind_Ret (modify _) _ (mapped a b) tt (mapped st b)) by done. cbv beta.
  unfold hdr_freelist. step (open_rd st b 48 ltac:(lia) eq_refl).
  step (open_deref st b _ (CS cb) F1 ltac:(lia) F2).
  by step (Enew (lt_decode (W s 48)) 8 st b Hm8).
Qed.
End open.

Lemma f_open cb fsize hl dl s0 t1 t2 : 12 <= cb <= 16 → 4 <= hl < 2 ^ 32 → 1 <= dl →
  dl * CS cb < 2 ^ 63 → 0 < fsize <= ENTS cb * COVER cb → hl * CS cb <= fbytes s0 →
  fbytes s0 <= 2 ^ 32 → arr_range (words s0) →
  let fs := f_state cb fsize hl dl s0 in
  xcow_open (XFile (words fs) (fbytes fs) t1 t2) = (Ret tt, fs).
Proof.
  intros Hcb Hhl Hdl Hdl2 Hfs Hfb Hfb2 Hr fs.
  destruct (f_C cb fsize hl dl s0) as (HC & E8 & HE & En & En2 & H8 & H16); try done.
  destruct (f_image cb fsize hl dl s0) as [Hx _]; try done.
  assert (lt_decode (W fs 40) = CS cb) as E40.
  { unfold fs. rewrite f_W_hdr by (done || lia). rewrite decide_False, decide_True by done.
    apply lt_decode_encode. lia. }
  assert (lt_decode (W fs 48) = 2 * CS cb) as E48.
  { unfold fs. rewrite f_W_hdr, decide_True by (done || lia). apply lt_decode_encode. lia. }
  rewrite (open_ok cb).
  - by rewrite E40, E48.
  - split; rewrite ?E40, ?E48; try (cbn [fs f_state fbytes]; lia).
    + split; [lia|]. apply (x_bits _ _ _ _ Hx).
    + unfold fs. rewrite f_W_hdr by (done || lia). rewrite !decide_False by lia. unfold f_hdr.
      by rewrite !aget_aset_ne, aget_aset_eq by lia.
    + cbn [fs f_state fbytes]. unfold HDR_BYTES. lia.
    + cbn [fs f_state fbytes]. nia.
    + cbn [fs f_state fbytes]. nia.
Qed.
