(* ===== verification/XcowTx.v ===== *)
(** * The transactional write, stage by stage

    The server prepares a write ([tx_write_prep]), allocates its data cluster
    and commits the leaf when the cluster has been filled. This file gives the
    image after each stage, for the theorems about the whole system. *)
From S2P Require Import Prelude Proto Xcow XcowInv XcowOps XcowSnaps XcowFormat XcowReads.

(** ** An allocation that is not committed

    It moves the mark and changes nothing that a snapshot reads. *)

(** The words of the tables decide the invariant; the mark may grow. *)
Lemma winv_frame cb w w' hwm d d' ly : 12 <= cb <= 16 → winv cb w hwm d ly → d <= d' →
  (∀ x, 0 <= w' x < 2 ^ 64) →
  (∀ x j, x ∈ ly_roots ly ∨ x ∈ ly_tables ly → idx_ok cb j → w' (x + 8 * j) = w (x + 8 * j)) →
  winv cb w' hwm d' ly ∧
  ∀ r i j, r ∈ ly_roots ly → idx_ok cb i → idx_ok cb j → leaf_at w' r i j = leaf_at w r i j.
Proof.
  intros Hcb [H1 H2 H3 H4 H5 H6 H7 H8 H9 H10] Hd Hr Hw.
  pose proof (CS_pos cb Hcb) as HC.
  assert (∀ r i, r ∈ ly_roots ly → idx_ok cb i → l1_ent w' r i = l1_ent w r i) as He
    by (intros r i ? ?; apply Hw; [by left|done]).
  assert (∀ r i j, r ∈ ly_roots ly → idx_ok cb i → idx_ok cb j → leaf_at w' r i j = leaf_at w r i j) as Hl.
  { intros r i j Hm Hi Hj. unfold leaf_at. rewrite (He r i Hm Hi).
    destruct (nt_valid (l1_ent w r i)) eqn:E; [|done]. apply Hw; [right; by apply H7|done]. }
  split; [|exact Hl]. split; try done.
  - intros r i Hm Hi. rewrite (He r i Hm Hi). by apply H7.
  - intros i r j Hi Hm Hj. rewrite (He r j Hm Hj), (He _ i H6 Hi). by apply H8.
  - intros t j Ht Hj. rewrite (Hw t j (or_intror Ht) Hj). intros Hv.
    specialize (H9 t j Ht Hj Hv). nia.
  - intros i j t k Hi Hj Ht Hk. unfold eff_writable.
    rewrite (He _ i H6 Hi), (Hl _ i j H6 Hi Hj), (Hw t k (or_intror Ht) Hk). by apply H10.
Qed.

Lemma bump_image cb s ly hat st n : image cb s ly hat st n → W s hat < W s 32 →
  let s' := set_words (aset (words s) hat (W s hat + 1)) s in
  image cb s' ly hat st n ∧ W s' hat = W s hat + 1 ∧
  ∀ r i j, r ∈ ly_roots ly → idx_ok cb i → idx_ok cb j →
    leaf_at (W s') r i j = leaf_at (W s) r i j.
Proof.
  intros [Hx Ht] Hlt s'.
  assert (∀ y, W s' y = if decide (hat = y) then W s hat + 1 else W s y) as HW
    by (intros y; unfold s'; apply W_aset).
  destruct (x_hat _ _ _ _ Hx) as (Hh1 & Hh2 & Hh3 & Hh4). pose proof (CSZ_pos _ _ _ _ Hx) as HC.
  assert (∀ y, y < CS cb → W s' y = W s y) as Hhdr by (intros; by rewrite HW, decide_False by lia).
  destruct (x_dlimit _ _ _ _ Hx) as [Hd1 Hd2].
  destruct (winv_frame cb (W s) (W s') (hi32 (W s 24)) (W s hat) (W s hat + 1) ly) as [Hwinv Hl];
    [apply (cb_range _ _ _ _ Hx)|apply (x_winv _ _ _ _ Hx)|lia| | |].
  - intros y. rewrite HW. case_decide; [nia|apply (wi_range _ _ _ _ _ (x_winv _ _ _ _ Hx))].
  - intros y j Hm Hj. rewrite HW, decide_False; [done|]. by apply (hat_outside cb s ly hat Hx).
  - assert (W s' hat = W s hat + 1) as Hmark by by rewrite HW, decide_True.
    split; [|by split]. split.
    + split; rewrite ?(Hhdr 16), ?(Hhdr 24), ?(Hhdr 32), ?Hmark by lia; try apply Hx; try done. lia.
    + destruct ly as [rs A ts]. apply (frame_tinv cb s (Layout rs A ts) hat st n s' ts Hx Ht); [|by left].
      split; [by unfold same_files; rewrite Hhdr by lia|].
      intros y _ _ Hne _. by rewrite HW, decide_False.
Qed.

Section tx.
Context (cb : Z) (s : xfile) (ly : layout) (hat st n : Z) (Him : image cb s ly hat st n).
Abbreviation A := (ly_active ly).
Abbreviation sn := (active_snap cb ly hat).

(** The address is prepared: the entry at [p] of a table of the snapshot's own
    is the leaf of the address. *)
Record prepared (addr p : Z) (s1 : xfile) (ly1 : layout) : Prop := {
  pr_run : tx_write_prep sn addr s = (Ret p, s1);
  pr_image : image cb s1 ly1 hat st n;
  pr_roots : ly_roots ly1 = ly_roots ly;
  pr_active : ly_active ly1 = A;
  pr_leaf : rd64 p s1 = (Ret (leaf_at (W s1) A (i1 cb addr) (i0 cb addr)), s1);
  pr_word : word_ok s1 p = true;
  pr_mark : p ≠ hat;
  pr_step : l0_step cb s ly hat s1 (i1 cb addr);
}.

Lemma tx_prep_cases addr : addr_in cb addr →
  tx_write_prep sn addr s = (Throw Ehwm, s) ∧ lo32 (W s 24) <= hi32 (W s 24) ∨
  ∃ p s1 ly1, prepared addr p s1 ly1.
Proof using Him.
  destruct Him as [Hx Ht]. intros Ha.
  pose proof (i0_ok cb s ly hat Hx addr) as Hj. pose proof (i1_ok cb s ly hat Hx addr Ha) as Hi.
  set (j := i0 cb addr) in *. set (i := i1 cb addr) in *.
  assert (tx_write_prep sn addr s = (l0 ← writable_l0 sn addr; l0_off ← l0_index addr;
    if l0_off <? sp_bytes l0 / 8 then mret (sp_off l0 + 8 * l0_off) else throw Eub) s) as E
    by done.
  pose proof (writable_l0_spec cb s ly hat Hx (Some hat) addr Ha) as Hs.
  fold (active_snap cb ly hat) i in Hs.
  destruct (writable_l0 sn addr s) as [[t|e] s1] eqn:Et.
  2:{ left. destruct Hs as (-> & -> & Hh & _). split; [rewrite E; by apply bind_Throw|lia]. }
  right. destruct Hs as [H1 Etab].
  destruct (l0_inv _ _ _ _ _ _ H1) as (tables & Hx1 & Htb).
  set (ly1 := Layout (ly_roots ly) A tables) in *.
  pose proof (l0_owned _ _ _ _ _ _ H1) as Ho. unfold owned in Ho.
  assert (sp_off t ∈ ly_tables ly1) as Hin.
  { rewrite Etab. apply andb_prop in Ho as [Hv _].
    apply (wi_refs _ _ _ _ _ (x_winv _ _ _ _ Hx1)); [apply (active_root _ _ _ _ Hx1)|done|done]. }
  pose proof (cluster_word cb s1 ly1 hat Hx1 _ j (table_cluster cb s1 ly1 hat Hx1 _ Hin) Hj) as Hw.
  rewrite (bind_Ret _ _ _ _ _ Et) in E.
  rewrite (bind_Ret _ _ _ _ _ (l0_index_eq cb s1 ly1 hat Hx1 addr)) in E. fold j in E.
  replace (j <? sp_bytes t / 8) with true in E.
  2:{ rewrite Etab. cbn [sp_bytes]. fold (ENTS cb). unfold idx_ok in Hj. lia. }
  exists (sp_off t + 8 * j), s1, ly1. split; try done.
  - split; [done|]. by apply (l0_step_tinv cb s ly hat st n s1 i tables).
  - rewrite (rd64_Ret s1 _ Hw). do 2 f_equal. fold i j. unfold leaf_at.
    rewrite Etab. by apply andb_prop in Ho as [-> _].
  - intros E2. symmetry in E2. revert E2.
    apply (hat_outside cb s1 ly1 hat Hx1 (sp_off t) j); [by right|done].
Qed.

Section prepared.
Context (addr p : Z) (s1 : xfile) (ly1 : layout) (Ha : addr_in cb addr).
Context (Hp : prepared addr p s1 ly1).
Abbreviation i := (i1 cb addr).
Abbreviation j := (i0 cb addr).
Abbreviation tl := (leaf_at (W s1) A i j).

Lemma tx_sn1 : sn = active_snap cb ly1 hat.
Proof using Hp. unfold active_snap. by rewrite (pr_active _ _ _ _ Hp). Qed.

(** The leaf as it was, perhaps without its permission. *)
Lemma tx_leaf : nt_valid tl = nt_valid (leaf_at (W s) A i j) ∧
  nt_decode tl = nt_decode (leaf_at (W s) A i j) ∧
  needs_alloc tl = negb (eff_writable (W s) A i j).
Proof using Him Ha Hp.
  destruct Him as [Hx _].
  pose proof (i0_ok cb s ly hat Hx addr) as Hj. pose proof (i1_ok cb s ly hat Hx addr Ha) as Hi.
  destruct (l0_step_decode cb s ly hat Hx s1 i i j (pr_step _ _ _ _ Hp) Hi Hi Hj) as [E1 E2].
  split_and!; [done|done|]. rewrite <- (l0_eff _ _ _ _ _ _ (pr_step _ _ _ _ Hp)) by done.
  rewrite needs_alloc_eq, <- negb_andb. f_equal. unfold eff_writable.
  pose proof (l0_owned _ _ _ _ _ _ (pr_step _ _ _ _ Hp)) as Ho. unfold owned in Ho.
  by rewrite Ho.
Qed.

(** A cluster that the snapshot may write is left alone. *)
Lemma tx_kept : needs_alloc tl = false → s1 = s.
Proof using Him Ha Hp.
  intros Hn. destruct tx_leaf as (_ & _ & E). rewrite Hn in E. symmetry in E.
  apply negb_false_iff in E. unfold eff_writable in E.
  apply (l0_same _ _ _ _ _ _ (pr_step _ _ _ _ Hp)). by apply andb_prop in E as [[? _]%andb_prop _].
Qed.

Lemma tx_full : W s 32 <= W s hat → alloc_data_clusters sn 1 s1 = (Throw Edisk_hwm, s1).
Proof using Hp.
  intros Hf. rewrite tx_sn1. unfold active_snap.
  destruct (pr_image _ _ _ _ Hp) as [Hx1 _], (l0_mark _ _ _ _ _ _ (pr_step _ _ _ _ Hp)).
  apply (alloc_data_full cb s1 ly1 hat Hx1). lia.
Qed.

(** The new cluster, and the commit once it is filled. *)
Lemma tx_commit : needs_alloc tl = true → W s hat < W s 32 → ∃ s2 s3 ly3 r,
  alloc_data_clusters sn 1 s1 = (Ret (W s hat * CS cb, CS cb), s2) ∧
  rd64 p s2 = (Ret tl, s2) ∧ cluster_size s2 = (Ret (CS cb), s2) ∧
  cluster_bits s2 = (Ret cb, s2) ∧
  tx_write_commit p (encode_leaf (W s hat * CS cb) true) s2 = (Ret r, s3) ∧
  image cb s3 ly3 hat st n ∧ ly_roots ly3 = ly_roots ly ∧ ly_active ly3 = A ∧
  others_same cb s s3 ly ly3 ∧
  write_step cb s ly hat s3 i j r.1 r.2.
Proof using Him Ha Hp.
  intros Hn Hroom. destruct (pr_image _ _ _ _ Hp) as [Hx1 _].
  destruct (l0_mark _ _ _ _ _ _ (pr_step _ _ _ _ Hp)) as [M1 M2].
  assert (alloc_data_clusters sn 1 s1 = (Ret (W s hat * CS cb, CS cb),
    set_words (aset (words s1) hat (W s1 hat + 1)) s1)) as Ea.
  { rewrite tx_sn1. unfold active_snap. rewrite (alloc_data_eq cb s1 ly1 hat Hx1) by lia.
    unfold data_cluster. by rewrite M1. }
  set (s2 := set_words _ s1) in *.
  assert (word_ok s2 p = true) as Hw by apply (pr_word _ _ _ _ Hp).
  assert (W s1 p = tl) as Etl.
  { pose proof (pr_leaf _ _ _ _ Hp) as E. rewrite (rd64_Ret s1 p (pr_word _ _ _ _ Hp)) in E.
    by injection E. }
  assert (W s2 p = tl) as Ep.
  { unfold s2. rewrite W_aset, decide_False; [done|]. intros E. by apply (pr_mark _ _ _ _ Hp). }
  assert (rd64 p s2 = (Ret tl, s2)) as Er by (by rewrite (rd64_Ret s2 p Hw), Ep).
  assert (cluster_bits s2 = (Ret cb, s2)) as Ecb.
  { pose proof (hdr_word_ok cb s1 ly1 hat Hx1 16 ltac:(lia) eq_refl) as H16.
    unfold cluster_bits, hdr_cluster_bits.
    rewrite (bind_Ret _ _ s2 (W s2 16) s2) by by apply rd64_Ret.
    unfold s2 at 1. rewrite W_aset, decide_False; [by rewrite (proj2 (x_bits _ _ _ _ Hx1))|].
    destruct (x_hat _ _ _ _ Hx1) as (? & ? & _). pose proof (CSZ_pos _ _ _ _ Hx1). lia. }
  set (s3 := set_words (aset (words s2) p (encode_leaf (W s hat * CS cb) true)) s2).
  assert (word_ok s3 p = true) as Hw3 by done.
  assert (tx_write_commit p (encode_leaf (W s hat * CS cb) true) s2 =
    (Ret (W s3 p, tl), s3)) as Ec.
  { unfold tx_write_commit. step Er. rewrite <- needs_alloc_eq, Hn.
    step (wr64_Ret s2 p (encode_leaf (W s hat * CS cb) true) Hw). fold s3.
    by step (rd64_Ret s3 p Hw3). }
  pose proof (tx_write_eq cb s ly hat (proj1 Him) addr Ha) as Etx.
  fold (active_snap cb ly hat) in Etx. unfold tx_write in Etx.
  rewrite (bind_Ret _ _ _ _ _ (pr_run _ _ _ _ Hp)), (bind_Ret _ _ _ _ _ (pr_leaf _ _ _ _ Hp)), Hn,
    (bind_Ret _ _ _ _ _ Ea), Ec in Etx.
  destruct (write_image _ _ _ _ _ _ _ _ _ _ Him Ha (eq_sym Etx)) as (ly3 & Him3 & R3 & A3 & O3 & Hws).
  exists s2, s3, ly3, (W s3 p, tl). split_and!; try done.
  unfold cluster_size. rewrite (bind_Ret _ _ _ _ _ Ecb).
  pose proof (cb_range _ _ _ _ Hx1). by rewrite s32_pow by lia.
Qed.
(** The cluster is allocated and the leaf not committed. *)
Lemma tx_uncommitted rc s2 : W s hat < W s 32 → alloc_data_clusters sn 1 s1 = (Ret rc, s2) →
  image cb s2 ly1 hat st n ∧
  ∀ r k l, r ∈ ly_roots ly1 → idx_ok cb k → idx_ok cb l →
    leaf_at (W s2) r k l = leaf_at (W s1) r k l.
Proof using Hp.
  intros Hroom. destruct (l0_mark _ _ _ _ _ _ (pr_step _ _ _ _ Hp)) as [M1 M2].
  destruct (pr_image _ _ _ _ Hp) as [Hx1 Ht1]. rewrite tx_sn1. unfold active_snap.
  rewrite (alloc_data_eq cb s1 ly1 hat Hx1) by lia. intros E. injection E as _ <-.
  destruct (bump_image cb s1 ly1 hat st n (conj Hx1 Ht1)) as (H1 & _ & H2); [lia|]. by split.
Qed.
End prepared.
End tx.

(** ** Data clusters

    The leaves of the active snapshot refer to whole data clusters, no two of
    them to the same one and none to cluster 0, which stays empty: it is what
    the server's answers and the classifier's cache use for clusters without
    data. *)

Definition act_leaf (s : xfile) (ly : layout) (i j : Z) : Z := leaf_at (W s) (ly_active ly) i j.

Record data_ok (cb : Z) (s : xfile) (ly : layout) (hat : Z) : Prop := {
  da_mark : 1 <= W s hat;
  da_cluster i j : idx_ok cb i → idx_ok cb j → nt_valid (act_leaf s ly i j) = true →
    nt_decode (act_leaf s ly i j) mod CS cb = 0 ∧ CS cb <= nt_decode (act_leaf s ly i j);
  da_inj i j k l : idx_ok cb i → idx_ok cb j → idx_ok cb k → idx_ok cb l →
    nt_valid (act_leaf s ly i j) = true → nt_valid (act_leaf s ly k l) = true →
    nt_decode (act_leaf s ly i j) = nt_decode (act_leaf s ly k l) → i = k ∧ j = l;
}.

(** Every leaf is below the mark. *)
Lemma leaf_below cb s ly hat i j : xinv cb s ly hat → idx_ok cb i → idx_ok cb j →
  nt_valid (act_leaf s ly i j) = true →
  0 <= nt_decode (act_leaf s ly i j) < W s hat * CS cb.
Proof.
  intros Hx Hi Hj. unfold act_leaf, leaf_at. destruct (nt_valid (l1_ent _ _ i)) eqn:E.
  - intros Hv. apply (wi_leaves _ _ _ _ _ (x_winv _ _ _ _ Hx)); [|done|done].
    apply (wi_refs _ _ _ _ _ (x_winv _ _ _ _ Hx)); [apply (active_root _ _ _ _ Hx)|done|done].
  - by rewrite nt_valid_bit.
Qed.

(** Leaves that keep their addresses keep the condition. *)
Lemma data_ok_ext cb s ly hat s' ly' hat' : data_ok cb s ly hat → W s' hat' = W s hat →
  (∀ i j, idx_ok cb i → idx_ok cb j →
     nt_valid (act_leaf s' ly' i j) = nt_valid (act_leaf s ly i j) ∧
     nt_decode (act_leaf s' ly' i j) = nt_decode (act_leaf s ly i j)) →
  data_ok cb s' ly' hat'.
Proof.
  intros [H1 H2 H3] Hm E. split.
  - lia.
  - intros i j Hi Hj. destruct (E i j Hi Hj) as [-> ->]. auto.
  - intros i j k l Hi Hj Hk Hl. destruct (E i j Hi Hj) as [-> ->], (E k l Hk Hl) as [-> ->]. auto.
Qed.

Lemma data_ok_write cb s ly hat st n s' ly' addr tl prev : image cb s ly hat st n →
  data_ok cb s ly hat → addr_in cb addr → ly_active ly' = ly_active ly →
  write_step cb s ly hat s' (i1 cb addr) (i0 cb addr) tl prev → data_ok cb s' ly' hat.
Proof.
  intros [Hx _] Hd Ha EA Hw.
  pose proof (i1_ok cb s ly hat Hx addr Ha) as Hi. pose proof (i0_ok cb s ly hat Hx addr) as Hj.
  set (i := i1 cb addr) in *. set (j := i0 cb addr) in *. pose proof (CSZ_pos _ _ _ _ Hx) as HC.
  pose proof (ws_mark _ _ _ _ _ _ _ _ _ Hw) as Hm. pose proof (ws_addr _ _ _ _ _ _ _ _ _ Hw) as Hn.
  pose proof (ws_leaf _ _ _ _ _ _ _ _ _ Hw) as Hl.
  destruct (eff_writable (W s) (ly_active ly) i j) eqn:He.
  { rewrite (ws_same _ _ _ _ _ _ _ _ _ Hw He). apply (data_ok_ext cb s ly hat); [done|done|].
    intros. unfold act_leaf. by rewrite EA. }
  pose proof (da_mark _ _ _ _ Hd) as Hd1.
  assert (∀ k l, idx_ok cb k → idx_ok cb l → (k, l) ≠ (i, j) →
    nt_valid (act_leaf s' ly' k l) = nt_valid (act_leaf s ly k l) ∧
    nt_decode (act_leaf s' ly' k l) = nt_decode (act_leaf s ly k l)) as Ho.
  { intros k l Hk Hl2 Hne. unfold act_leaf. rewrite EA.
    destruct (ws_active _ _ _ _ _ _ _ _ _ Hw k l Hk Hl2 Hne) as (? & ? & _). done. }
  assert (nt_decode (act_leaf s' ly' i j) = W s hat * CS cb) as Ed
    by (unfold act_leaf; by rewrite EA, Hl).
  assert (∀ k l, idx_ok cb k → idx_ok cb l → (k, l) ≠ (i, j) →
    nt_valid (act_leaf s' ly' k l) = true → nt_decode (act_leaf s' ly' k l) < W s hat * CS cb) as Hb.
  { intros k l Hk Hl2 Hne. destruct (Ho k l Hk Hl2 Hne) as [-> ->].
    intros Hv. by apply (leaf_below cb s ly hat k l Hx Hk Hl2). }
  split.
  - lia.
  - intros k l Hk Hl2. destruct (decide ((k, l) = (i, j))) as [[= -> ->]|Hne].
    + rewrite Ed. intros _. split; [by apply Z.mod_mul; lia|nia].
    + destruct (Ho k l Hk Hl2 Hne) as [-> ->]. by apply (da_cluster _ _ _ _ Hd).
  - intros k l k' l' Hk Hl2 Hk' Hl' Hv Hv' E.
    destruct (decide ((k, l) = (i, j))) as [E1|N1], (decide ((k', l') = (i, j))) as [E2|N2].
    + split; congruence.
    + injection E1 as -> ->. specialize (Hb k' l' Hk' Hl' N2 Hv'). lia.
    + injection E2 as -> ->. specialize (Hb k l Hk Hl2 N1 Hv). lia.
    + destruct (Ho k l Hk Hl2 N1) as [V1 D1], (Ho k' l' Hk' Hl' N2) as [V2 D2].
      rewrite V1 in Hv. rewrite V2 in Hv'. rewrite D1, D2 in E. by apply (da_inj _ _ _ _ Hd).
Qed.

Lemma data_ok_prep cb s ly hat st n addr p s1 ly1 : image cb s ly hat st n →
  data_ok cb s ly hat → addr_in cb addr → prepared cb s ly hat st n addr p s1 ly1 →
  data_ok cb s1 ly1 hat.
Proof.
  intros Him Hd Ha Hp. apply (data_ok_ext cb s ly hat); [done| |].
  - apply (l0_mark _ _ _ _ _ _ (pr_step _ _ _ _ _ _ _ _ _ _ Hp)).
  - intros i j Hi Hj. unfold act_leaf. rewrite (pr_active _ _ _ _ _ _ _ _ _ _ Hp).
    destruct Him as [Hx _]. apply (l0_step_decode cb s ly hat Hx s1 (i1 cb addr)); try done.
    + apply (pr_step _ _ _ _ _ _ _ _ _ _ Hp).
    + by apply (i1_ok cb s ly hat).
Qed.

Lemma data_ok_snap cb s ly hat st n sn' sn0 s' ly' : image cb s ly hat st n →
  data_ok cb s ly hat →
  n < (CS cb - 16) / 16 → snap_create (active_snap cb ly hat) s = (Ret (sn', sn0), s') →
  sn' = active_snap cb ly' (hat + 16) → data_ok cb s' ly' (hat + 16).
Proof.
  intros Him Hd Hn E ->.
  destruct (snap_image _ _ _ _ _ _ _ _ _ Him Hn E) as (l2 & _ & E2 & _ & _ & _ & Hl & Hm & _).
  apply (data_ok_ext cb s ly hat); [done|done|].
  intros i j Hi Hj. unfold act_leaf.
  assert (ly_active ly' = ly_active l2) as -> by (unfold active_snap in E2; congruence).
  by destruct (Hl i j Hi Hj) as [-> _].
Qed.

(** A formatted image. *)
Lemma data_ok_format cb fsize hl dl s0 : 12 <= cb <= 16 → 4 <= hl < 2 ^ 32 → 1 <= dl →
  dl * CS cb < 2 ^ 63 → 0 < fsize <= ENTS cb * COVER cb → hl * CS cb <= fbytes s0 →
  fbytes s0 <= 2 ^ 32 → arr_range (words s0) →
  data_ok cb (f_state cb fsize hl dl s0) (f_layout cb) (CS cb + 24).
Proof.
  intros.
  assert (∀ i j, idx_ok cb i → idx_ok cb j →
    act_leaf (f_state cb fsize hl dl s0) (f_layout cb) i j = empty_leaf) as El
    by (intros; by apply f_leaf).
  split.
  - rewrite f_W_table; try done.
  - intros i j Hi Hj. by rewrite El.
  - intros i j k l Hi Hj Hk Hl. by rewrite El.
Qed.
