(* ===== verification/XcowThms.v ===== *)
(** * What the image promises

    The properties of the image format as a client sees them: through
    [format], [xcow_open], [open_write], [translate_read], [translate_write],
    [snap_create], [peel], [erase] and [open_read]. *)
From S2P Require Import Prelude Proto Xcow XcowInv XcowOps XcowSnaps XcowFormat XcowReads.

(** A 1 GiB disk with 4 KiB clusters, a metadata file of 16 clusters and 1000
    data clusters. *)
Definition demo_blank : xfile := XFile ∅ (16 * 4096) (Span 0 0) (Span 0 0).
Definition demo_xf : xfile := f_state 12 (2 ^ 30) 16 1000 demo_blank.
Definition demo_ly : layout := f_layout 12.
Definition demo_hat : Z := CS 12 + 24.
Definition demo_sn : XcowSnap := active_snap 12 demo_ly demo_hat.

Lemma demo_blank_range : arr_range (words demo_blank).
Proof. intros x. unfold demo_blank, aget; cbn [words]. rewrite lookup_empty. simpl. lia. Qed.

Lemma demo_image : image 12 demo_xf demo_ly demo_hat (CS 12) 1.
Proof.
  apply f_image; try done; try apply demo_blank_range; unfold ENTS, COVER, CS; simpl; lia.
Qed.

Lemma demo_addr : addr_in 12 8192.
Proof. by split. Qed.

(** The state and the result of an operation that succeeds. *)
Definition result_of {A} (d : A) (r : outcome A * xfile) : A :=
  match r.1 with Ret a => a | Throw _ => d end.
Definition is_ret {A} (r : outcome A * xfile) : bool :=
  match r.1 with Ret _ => true | Throw _ => false end.
Lemma ret_eq {A} (d : A) r : is_ret r = true → r = (Ret (result_of d r), r.2).
Proof. by destruct r as [[]]. Qed.

(** The same file after a write at 8192, and after a snapshot. *)
Definition demo_xf2 : xfile := (translate_write demo_sn 8192 demo_xf).2.
Lemma demo_image2 : ∃ ly, image 12 demo_xf2 ly demo_hat (CS 12) 1 ∧
  active_snap 12 ly demo_hat = demo_sn ∧ ly_roots ly = ly_roots demo_ly.
Proof.
  assert (translate_write demo_sn 8192 demo_xf =
    (Ret (result_of (0, 0) (translate_write demo_sn 8192 demo_xf)), demo_xf2)) as E
    by (unfold demo_xf2; apply ret_eq; vm_cast_no_check (eq_refl true)).
  rewrite (surjective_pairing (result_of _ _)) in E.
  destruct (write_image _ _ _ _ _ _ _ _ _ _ demo_image demo_addr E)
    as (ly & Him & Er & EA & _ & _).
  exists ly. split_and!; [done| |done]. unfold active_snap. by rewrite EA.
Qed.
Definition demo_snap : outcome (XcowSnap * XcowSnap) * xfile := snap_create demo_sn demo_xf2.
Definition demo_child : XcowSnap := (result_of (demo_sn, demo_sn) demo_snap).1.
Definition demo_parent : XcowSnap := (result_of (demo_sn, demo_sn) demo_snap).2.
Lemma demo_snap_eq : snap_create demo_sn demo_xf2 = (Ret (demo_child, demo_parent), demo_snap.2).
Proof.
  unfold demo_child, demo_parent. rewrite <- surjective_pairing. unfold demo_snap.
  apply ret_eq. vm_cast_no_check (eq_refl true).
Qed.

(** C19. [format] of a disk whose root table fits one cluster (at most
    [ENTS cb * COVER cb] bytes), with clusters of 4 to 64 KiB, in a mapping file
    of at most 4 GiB with four clusters or more, and a data disk of at least
    one cluster and less than 2^63 bytes: it succeeds and leaves a well-formed
    image whose only snapshot is writable, is the one [open_write] opens, and
    reads as empty at every address of the root table, so of the disk. For a
    larger disk see [large_disk_overruns]. *)
Theorem format_empty_image cb fsize hl dl s0 :
  12 <= cb <= 16 → 4 <= hl < 2 ^ 32 → 1 <= dl → dl * CS cb < 2 ^ 63 →
  0 < fsize <= ENTS cb * COVER cb → hl * CS cb <= fbytes s0 → fbytes s0 <= 2 ^ 32 →
  arr_range (words s0) →
  ∃ s' ly, format fsize cb hl dl s0 = (Ret tt, s') ∧
    image cb s' ly (CS cb + 24) (CS cb) 1 ∧ ly_roots ly = [ly_active ly] ∧
    open_write s' = (Ret (active_snap cb ly (CS cb + 24)), s') ∧
    ∀ addr, addr_in cb addr →
      translate_read (active_snap cb ly (CS cb + 24)) addr s' = (Ret empty_leaf, s').
Proof.
  intros. destruct (f_image cb fsize hl dl s0) as [Hx Ht]; try done.
  exists (f_state cb fsize hl dl s0), (f_layout cb). split_and!; try done.
  - by apply format_eq.
  - by eapply open_write_eq.
  - intros addr Ha. unfold active_snap.
    rewrite (translate_read_eq cb _ _ _ Hx) by (done || by eapply active_root).
    by rewrite f_leaf by (done || by eapply i1_ok).
Qed.

Lemma format_empty_image_witness :
  ∃ s' ly, format (2 ^ 30) 12 16 1000 demo_blank = (Ret tt, s') ∧
    image 12 s' ly (CS 12 + 24) (CS 12) 1 ∧ ly_roots ly = [ly_active ly] ∧
    open_write s' = (Ret (active_snap 12 ly (CS 12 + 24)), s') ∧
    ∀ addr, addr_in 12 addr →
      translate_read (active_snap 12 ly (CS 12 + 24)) addr s' = (Ret empty_leaf, s').
Proof.
  apply (format_empty_image 12 (2 ^ 30) 16 1000 demo_blank); try done.
  all: first [apply demo_blank_range|unfold ENTS, COVER, CS; simpl; lia].
Defined.

(** [format] also makes images of larger disks, with a root table of several
    clusters, but [open_write] maps the first cluster of the root only (and
    [open_read] and [snap_create] handle only that): on a 2 GiB disk with
    4 KiB clusters, a read or a write at 1.5 GiB goes past the end of the
    mapped root, while one at 512 MiB is fine. *)
Abbreviation large_disk := (format (2 ^ 31) 12 16 1000 demo_blank).
Abbreviation large_snap := (result_of demo_sn (open_write large_disk.2)).
Example large_disk_overruns :
  large_disk.1 = Ret tt ∧ is_ret (open_write large_disk.2) = true ∧
  (translate_read large_snap (3 * 2 ^ 29) large_disk.2).1 = Throw Eub ∧
  (translate_write large_snap (3 * 2 ^ 29) large_disk.2).1 = Throw Eub ∧
  (translate_read large_snap (2 ^ 29) large_disk.2).1 = Ret empty_leaf.
Proof. split_and!; vm_compute; done. Qed.

(** opening the file that [format] wrote, in a new process, gives back the
    state [format] left: header accepted, same snapshot table, same free list. *)
Theorem format_open_roundtrip cb fsize hl dl s0 t1 t2 :
  12 <= cb <= 16 → 4 <= hl < 2 ^ 32 → 1 <= dl → dl * CS cb < 2 ^ 63 →
  0 < fsize <= ENTS cb * COVER cb → hl * CS cb <= fbytes s0 → fbytes s0 <= 2 ^ 32 →
  arr_range (words s0) →
  let s' := (format fsize cb hl dl s0).2 in
  xcow_open (XFile (words s') (fbytes s') t1 t2) = (Ret tt, s').
Proof. intros. subst s'. rewrite format_eq by done. by apply f_open. Qed.

Lemma format_open_roundtrip_witness :
  let s' := (format (2 ^ 30) 12 16 1000 demo_blank).2 in
  xcow_open (XFile (words s') (fbytes s') (Span 0 0) (Span 0 0)) = (Ret tt, s').
Proof.
  apply (format_open_roundtrip 12 (2 ^ 30) 16 1000 demo_blank (Span 0 0) (Span 0 0)); try done.
  all: first [apply demo_blank_range|unfold ENTS, COVER, CS; simpl; lia].
Defined.

(** C20. after a write of an address the active snapshot reads there the leaf
    the write returned, present and writable; every address of another cluster
    reads the data cluster it read before; the image stays well formed; and
    the same write again changes nothing and returns the same leaf. *)
Theorem write_then_read cb s ly hat st n addr tl prev s' :
  image cb s ly hat st n → addr_in cb addr →
  translate_write (active_snap cb ly hat) addr s = (Ret (tl, prev), s') →
  ∃ ly', image cb s' ly' hat st n ∧ active_snap cb ly' hat = active_snap cb ly hat ∧
    translate_read (active_snap cb ly hat) addr s' = (Ret tl, s') ∧
    is_empty tl = false ∧ xb_writable tl = true ∧
    (∀ addr', addr_in cb addr' → addr' / CS cb ≠ addr / CS cb → ∃ a b,
       translate_read (active_snap cb ly hat) addr' s = (Ret a, s) ∧
       translate_read (active_snap cb ly hat) addr' s' = (Ret b, s') ∧
       is_empty a = is_empty b ∧ decode_leaf a = decode_leaf b) ∧
    translate_write (active_snap cb ly hat) addr s' = (Ret (tl, tl), s').
Proof.
  intros Him Ha E.
  destruct (write_image _ _ _ _ _ _ _ _ _ _ Him Ha E) as (ly' & Him' & Er & EA & _ & Hw).
  destruct Him as [Hx Ht], Him' as [Hx' Ht'].
  pose proof (cb_range _ _ _ _ Hx) as Hcb.
  assert (active_snap cb ly' hat = active_snap cb ly hat) as Esn
    by (unfold active_snap; by rewrite EA).
  assert (∀ x, addr_in cb x → translate_read (active_snap cb ly hat) x s' =
    (Ret (leaf_at (W s') (ly_active ly) (i1 cb x) (i0 cb x)), s')) as R'.
  { intros x Hax. apply (translate_read_eq _ _ _ _ Hx'); [|done].
    rewrite <- EA. apply (active_root _ _ _ _ Hx'). }
  pose proof (ws_eff _ _ _ _ _ _ _ _ _ Hw) as He.
  pose proof (ws_leaf _ _ _ _ _ _ _ _ _ Hw) as El.
  assert (nt_valid tl = true ∧ xb_writable tl = true) as [Hv Hwr].
  { unfold eff_writable in He. rewrite El in He. by apply andb_prop in He as [[_ ?]%andb_prop ?]. }
  exists ly'. split_and!; [done|done| | |done| |].
  - by rewrite R', El.
  - by rewrite is_empty_valid, Hv.
  - intros x Hax Hne.
    exists (leaf_at (W s) (ly_active ly) (i1 cb x) (i0 cb x)),
      (leaf_at (W s') (ly_active ly) (i1 cb x) (i0 cb x)).
    assert ((i1 cb x, i0 cb x) ≠ (i1 cb addr, i0 cb addr)) as Hij
      by (intros [= E1 E2]; apply Hne; by apply (same_cluster cb)).
    destruct (ws_active _ _ _ _ _ _ _ _ _ Hw (i1 cb x) (i0 cb x)) as (E1 & E2 & _);
      [by eapply i1_ok|by eapply i0_ok|done|].
    split_and!.
    + apply (translate_read_eq _ _ _ _ Hx); [apply (active_root _ _ _ _ Hx)|done].
    + by apply R'.
    + by rewrite !is_empty_valid, E1.
    + done.
  - rewrite <- Esn. pose proof (translate_write_spec cb s' ly' hat Hx' addr Ha) as Hs.
    rewrite <- EA in He, El. unfold active_snap.
    destruct (translate_write _ addr s') as [[[tl2 prev2]|e] s2] eqn:E2.
    + pose proof (ws_same _ _ _ _ _ _ _ _ _ Hs He) as ->.
      pose proof (ws_leaf _ _ _ _ _ _ _ _ _ Hs) as El2.
      assert (owned ly' (W s') (i1 cb addr) = true) as Ho.
      { unfold eff_writable in He. by apply andb_prop in He as [[? _]%andb_prop _]. }
      pose proof (ws_prev _ _ _ _ _ _ _ _ _ Hs) as Ep. rewrite Ho in Ep. congruence.
    + exfalso. destruct Hs as [(_ & _ & _ & Ho)|(_ & _ & _ & He')]; [|congruence].
      unfold eff_writable, owned in *. rewrite Ho in He. done.
Qed.

Lemma write_then_read_witness :
  let r := translate_write demo_sn 8192 demo_xf in
  let tl := (result_of (0, 0) r).1 in
  ∃ ly', image 12 r.2 ly' demo_hat (CS 12) 1 ∧
    active_snap 12 ly' demo_hat = active_snap 12 demo_ly demo_hat ∧
    translate_read (active_snap 12 demo_ly demo_hat) 8192 r.2 = (Ret tl, r.2) ∧
    is_empty tl = false ∧ xb_writable tl = true ∧
    (∀ addr', addr_in 12 addr' → addr' / CS 12 ≠ 8192 / CS 12 → ∃ a b,
       translate_read (active_snap 12 demo_ly demo_hat) addr' demo_xf = (Ret a, demo_xf) ∧
       translate_read (active_snap 12 demo_ly demo_hat) addr' r.2 = (Ret b, r.2) ∧
       is_empty a = is_empty b ∧ decode_leaf a = decode_leaf b) ∧
    translate_write (active_snap 12 demo_ly demo_hat) 8192 r.2 = (Ret (tl, tl), r.2).
Proof.
  cbv zeta. apply (write_then_read 12 demo_xf demo_ly demo_hat (CS 12) 1 8192 _
    (result_of (0, 0) (translate_write demo_sn 8192 demo_xf)).2).
  - apply demo_image.
  - apply demo_addr.
  - rewrite <- surjective_pairing. apply ret_eq. by vm_compute.
Defined.

(** C21. Where a write goes and when it fails. A cluster the snapshot may
    already write is kept and nothing changes; any other gets the next data
    cluster. The write fails with [hwm_exception] exactly when a level-0 table
    is needed and the metadata file is full, and then nothing has changed; it
    fails with [disk_hwm_exception] exactly when it gets past that, a data
    cluster is needed and the data disk is full, and then every snapshot still
    reads the same data at every address. It fails in no other way. *)
Theorem translate_write_outcome cb s ly hat st n addr :
  image cb s ly hat st n → addr_in cb addr →
  let eff := eff_writable (W s) (ly_active ly) (i1 cb addr) (i0 cb addr) in
  let no_table := negb (owned ly (W s) (i1 cb addr)) && (hi32 (W s 24) =? lo32 (W s 24)) in
  let r := translate_write (active_snap cb ly hat) addr s in
  (r.1 = Throw Ehwm ↔ no_table = true) ∧
  (r.1 = Throw Edisk_hwm ↔ no_table = false ∧ eff = false ∧ W s hat = W s 32) ∧
  match r.1 with
  | Ret (tl, _) =>
      (eff = true → r.2 = s) ∧
      (eff = false → decode_leaf tl = W s hat * CS cb ∧ W r.2 hat = W s hat + 1)
  | Throw Ehwm => r.2 = s
  | Throw Edisk_hwm =>
      ∀ root addr', root ∈ ly_roots ly → addr_in cb addr' → ∃ a b,
        translate_read (snap_at cb root) addr' s = (Ret a, s) ∧
        translate_read (snap_at cb root) addr' r.2 = (Ret b, r.2) ∧
        is_empty a = is_empty b ∧ decode_leaf a = decode_leaf b
  | Throw _ => False
  end.
Proof.
  intros [Hx Ht] Ha. cbv zeta. pose proof (translate_write_errors cb s ly hat Hx addr Ha) as [He1 He2].
  pose proof (translate_write_spec cb s ly hat Hx addr Ha) as Hs.
  split; [exact He1|]. split; [exact He2|]. clear He1 He2.
  unfold active_snap. destruct (translate_write _ addr s) as [[[tl prev]|e] s1]; cbn [fst snd].
  - pose proof (ws_same _ _ _ _ _ _ _ _ _ Hs) as H1.
    pose proof (ws_addr _ _ _ _ _ _ _ _ _ Hs) as H2.
    pose proof (ws_mark _ _ _ _ _ _ _ _ _ Hs) as H3.
    split; [done|]. intros E. rewrite E in H2, H3. done.
  - destruct Hs as [(-> & -> & _)|(-> & H0 & _)]; [done|].
    intros r x Hr Hax. destruct (l0_inv _ _ _ _ _ _ H0) as (tables & Hx' & _).
    exists (leaf_at (W s) r (i1 cb x) (i0 cb x)), (leaf_at (W s1) r (i1 cb x) (i0 cb x)).
    pose proof (i1_ok cb s ly hat Hx addr Ha) as Hi.
    pose proof (i1_ok cb s ly hat Hx x Hax) as Hi'. pose proof (i0_ok cb s ly hat Hx x) as Hj.
    assert (nt_valid (leaf_at (W s1) r (i1 cb x) (i0 cb x)) =
        nt_valid (leaf_at (W s) r (i1 cb x) (i0 cb x)) ∧
      nt_decode (leaf_at (W s1) r (i1 cb x) (i0 cb x)) =
        nt_decode (leaf_at (W s) r (i1 cb x) (i0 cb x))) as [E1 E2].
    { destruct (decide (r = ly_active ly)) as [->|Hne].
      - by apply (l0_step_decode cb s ly hat Hx s1 (i1 cb addr)).
      - rewrite (l0_other _ _ _ _ _ _ H0); [done|done|done|done|congruence]. }
    split_and!; [by apply (translate_read_eq _ _ _ _ Hx)|by apply (translate_read_eq _ _ _ _ Hx')|
      by rewrite !is_empty_valid, E1|done].
Qed.

Lemma translate_write_outcome_witness :
  let eff := eff_writable (W demo_xf) (ly_active demo_ly) (i1 12 8192) (i0 12 8192) in
  let no_table := negb (owned demo_ly (W demo_xf) (i1 12 8192)) &&
    (hi32 (W demo_xf 24) =? lo32 (W demo_xf 24)) in
  let r := translate_write (active_snap 12 demo_ly demo_hat) 8192 demo_xf in
  (r.1 = Throw Ehwm ↔ no_table = true) ∧
  (r.1 = Throw Edisk_hwm ↔ no_table = false ∧ eff = false ∧ W demo_xf demo_hat = W demo_xf 32) ∧
  match r.1 with
  | Ret (tl, _) =>
      (eff = true → r.2 = demo_xf) ∧
      (eff = false → decode_leaf tl = W demo_xf demo_hat * CS 12 ∧
         W r.2 demo_hat = W demo_xf demo_hat + 1)
  | Throw Ehwm => r.2 = demo_xf
  | Throw Edisk_hwm =>
      ∀ root addr', root ∈ ly_roots demo_ly → addr_in 12 addr' → ∃ a b,
        translate_read (snap_at 12 root) addr' demo_xf = (Ret a, demo_xf) ∧
        translate_read (snap_at 12 root) addr' r.2 = (Ret b, r.2) ∧
        is_empty a = is_empty b ∧ decode_leaf a = decode_leaf b
  | Throw _ => False
  end.
Proof.
  apply (translate_write_outcome 12 demo_xf demo_ly demo_hat (CS 12) 1 8192).
  - apply demo_image.
  - apply demo_addr.
Defined.




(** C23. a leaf the active snapshot may write through is the only reference to
    its data cluster: no other address of the snapshot and no address of any
    other snapshot reads from the cluster that a write has just returned. *)
Theorem write_unshared cb s ly hat st n addr tl prev s' :
  image cb s ly hat st n → addr_in cb addr →
  translate_write (active_snap cb ly hat) addr s = (Ret (tl, prev), s') →
  ∀ root addr' tl', root ∈ ly_roots ly → addr_in cb addr' →
    translate_read (snap_at cb root) addr' s' = (Ret tl', s') →
    is_empty tl' = false → decode_leaf tl' = decode_leaf tl →
    root = ly_active ly ∧ addr' / CS cb = addr / CS cb.
Proof.
  intros Him Ha E r x tl' Hr Hax Ex Hv Hd.
  destruct (write_image _ _ _ _ _ _ _ _ _ _ Him Ha E) as (ly' & [Hx' _] & Er & EA & _ & Hw).
  destruct Him as [Hx _]. pose proof (cb_range _ _ _ _ Hx) as Hcb.
  pose proof (ws_eff _ _ _ _ _ _ _ _ _ Hw) as He.
  pose proof (ws_leaf _ _ _ _ _ _ _ _ _ Hw) as El. rewrite <- EA in He, El |- *.
  rewrite <- Er in Hr. unfold snap_at in Ex.
  rewrite (translate_read_eq _ _ _ _ Hx') in Ex by done. injection Ex as <-.
  rewrite is_empty_valid in Hv. apply negb_false_iff in Hv.
  pose proof (i1_ok cb s ly hat Hx addr Ha) as Hi. pose proof (i0_ok cb s ly hat Hx addr) as Hj.
  pose proof (i1_ok cb s ly hat Hx x Hax) as Hi'. pose proof (i0_ok cb s ly hat Hx x) as Hj'.
  pose proof (x_winv _ _ _ _ Hx') as Hwi.
  unfold leaf_at in Hv, Hd. destruct (nt_valid (l1_ent (W s') r (i1 cb x))) eqn:Hv1; [|done].
  assert (nt_decode (l1_ent (W s') r (i1 cb x)) ∈ ly_tables ly') as Htb
    by by eapply wi_refs.
  rewrite <- El in Hd.
  destruct (wi_leaf_owned _ _ _ _ _ Hwi _ _ _ _ Hi Hj Htb Hj' He Hv Hd) as [Et Ej].
  unfold eff_writable in He.
  apply andb_prop in He as [[[He1 He2]%andb_prop _]%andb_prop _].
  destruct (wi_owned _ _ _ _ _ Hwi _ _ _ Hi Hr Hi' He1 He2 Hv1 Et) as [-> Ei].
  split; [done|]. by apply (same_cluster cb).
Qed.

(** Another address of the cluster just written. *)
Lemma demo_addr2 : addr_in 12 8200.
Proof. by split. Qed.
Lemma write_unshared_witness :
  sp_off (root demo_sn) = ly_active demo_ly ∧ 8200 / CS 12 = 8192 / CS 12.
Proof.
  set (r := translate_write demo_sn 8192 demo_xf).
  apply (write_unshared 12 demo_xf demo_ly demo_hat (CS 12) 1 8192 (result_of (0, 0) r).1
    (result_of (0, 0) r).2 r.2 demo_image demo_addr) with
    (tl' := result_of 0 (translate_read (snap_at 12 (ly_active demo_ly)) 8200 r.2)).
  - rewrite <- surjective_pairing. apply ret_eq. vm_cast_no_check (eq_refl true).
  - apply list_elem_of_singleton. reflexivity.
  - apply demo_addr2.
  - vm_cast_no_check (eq_refl (translate_read (snap_at 12 (ly_active demo_ly)) 8200 r.2)).
  - vm_cast_no_check (eq_refl false).
  - vm_compute. reflexivity.
Defined.

(** a new snapshot reads, bit for bit, the leaves its parent reads, and
    its first write of any address leaves the parent's cluster alone: it goes
    to the next free data cluster. The leaf the new snapshot reads before that
    write thus still says "writable" wherever the parent could write, although
    the cluster belongs to the parent. *)
Theorem snapshot_reads_parent cb s ly hat st n sn1 sn0 s1 :
  image cb s ly hat st n → n < (CS cb - 16) / 16 →
  snap_create (active_snap cb ly hat) s = (Ret (sn1, sn0), s1) →
  ∀ addr, addr_in cb addr → ∃ a,
    translate_read (active_snap cb ly hat) addr s = (Ret a, s) ∧
    translate_read sn1 addr s1 = (Ret a, s1) ∧
    ∀ tl prev s2, translate_write sn1 addr s1 = (Ret (tl, prev), s2) →
      decode_leaf tl = W s hat * CS cb ∧
      (is_empty a = false → decode_leaf a ≠ decode_leaf tl).
Proof.
  intros Him Hn E addr Ha.
  destruct (snap_image _ _ _ _ _ _ _ _ _ Him Hn E)
    as (ly1 & [Hx1 Ht1] & -> & _ & _ & _ & Hnew & Hm & _). destruct Him as [Hx _].
  pose proof (i1_ok cb s ly hat Hx addr Ha) as Hi. pose proof (i0_ok cb s ly hat Hx addr) as Hj.
  pose proof (active_root _ _ _ _ Hx) as HA.
  destruct (Hnew _ _ Hi Hj) as [El Ee].
  set (a := leaf_at (W s) (ly_active ly) (i1 cb addr) (i0 cb addr)) in *.
  exists a. split_and!.
  - by apply (translate_read_eq _ _ _ _ Hx).
  - rewrite <- El. apply (translate_read_eq _ _ _ _ Hx1); [|done].
    apply (active_root _ _ _ _ Hx1).
  - intros tl prev s2 Ew. pose proof (translate_write_spec cb s1 ly1 _ Hx1 addr Ha) as Hs.
    unfold active_snap in Ew. rewrite Ew in Hs.
    pose proof (ws_addr _ _ _ _ _ _ _ _ _ Hs) as Hd. rewrite Ee, Hm in Hd.
    split; [done|]. rewrite is_empty_valid. intros Hv%negb_false_iff. unfold a, leaf_at in *.
    destruct (nt_valid (l1_ent (W s) (ly_active ly) (i1 cb addr))) eqn:Hv1; [|done].
    pose proof (x_winv _ _ _ _ Hx) as Hwi.
    pose proof (wi_refs _ _ _ _ _ Hwi _ _ HA Hi Hv1) as Htb.
    pose proof (wi_leaves _ _ _ _ _ Hwi _ _ Htb Hj Hv) as Hl.
    change (decode_leaf ?x) with (nt_decode x). lia.
Qed.

Lemma snapshot_reads_parent_witness : ∃ a,
  translate_read demo_sn 8192 demo_xf2 = (Ret a, demo_xf2) ∧
  translate_read demo_child 8192 demo_snap.2 = (Ret a, demo_snap.2) ∧
  ∀ tl prev s2, translate_write demo_child 8192 demo_snap.2 = (Ret (tl, prev), s2) →
    decode_leaf tl = W demo_xf2 demo_hat * CS 12 ∧
    (is_empty a = false → decode_leaf a ≠ decode_leaf tl).
Proof.
  destruct demo_image2 as (ly & Him & Es & _). rewrite <- Es.
  apply (snapshot_reads_parent 12 demo_xf2 ly demo_hat (CS 12) 1 demo_child demo_parent).
  - done.
  - by vm_compute.
  - rewrite Es. apply demo_snap_eq.
  - apply demo_addr.
Defined.

(** The leaf of the witness: the child reads "writable". *)
Example snapshot_leaks_writable :
  xb_writable (result_of 0 (translate_read demo_child 8192 demo_snap.2)) = true ∧
  eff_writable (W demo_snap.2) (sp_off (root demo_child)) (i1 12 8192) (i0 12 8192) = false.
Proof. by vm_compute. Qed.

(** C24. the transactional write of the server (prepare, allocate a data
    cluster when the leaf needs one, commit) has the result, the errors and
    the effect of [translate_write]. *)
Theorem tx_write_refines_translate_write cb s ly hat st n addr :
  image cb s ly hat st n → addr_in cb addr →
  tx_write (active_snap cb ly hat) addr s = translate_write (active_snap cb ly hat) addr s.
Proof. intros [Hx _] Ha. by apply (tx_write_eq cb s ly hat Hx). Qed.

Lemma tx_write_refines_translate_write_witness :
  tx_write demo_sn 8192 demo_xf = translate_write demo_sn 8192 demo_xf ∧
  is_ret (tx_write demo_sn 8192 demo_xf) = true.
Proof.
  split; [|by vm_compute].
  apply (tx_write_refines_translate_write 12 demo_xf demo_ly demo_hat (CS 12) 1 8192).
  - apply demo_image.
  - apply demo_addr.
Defined.

(** [erase] clears the leaf in the level-0 table it finds, without making
    the table the snapshot's own: the address becomes empty for every snapshot
    that shares the table, every other address of every snapshot reads what it
    read, and the image stays well formed. *)
Theorem erase_clears_shared_table cb s ly hat st n addr :
  image cb s ly hat st n → addr_in cb addr →
  let e := l1_ent (W s) (ly_active ly) (i1 cb addr) in
  ∃ s', erase (active_snap cb ly hat) addr s = (Ret tt, s') ∧
    image cb s' ly hat st n ∧
    ∀ root addr', root ∈ ly_roots ly → addr_in cb addr' → ∃ a,
      translate_read (snap_at cb root) addr' s = (Ret a, s) ∧
      translate_read (snap_at cb root) addr' s' =
        (Ret (let e' := l1_ent (W s) root (i1 cb addr') in
              if nt_valid e && nt_valid e' && (nt_decode e =? nt_decode e') &&
                 (i0 cb addr =? i0 cb addr') then empty_leaf else a), s').
Proof.
  intros [Hx Ht] Ha e. unfold active_snap.
  pose proof (i1_ok cb s ly hat Hx addr Ha) as Hi. pose proof (i0_ok cb s ly hat Hx addr) as Hj.
  eexists. split; [by apply (erase_eq cb s ly hat Hx)|]. cbv zeta. fold e.
  destruct (nt_valid e) eqn:Hv.
  2:{ split; [by split|]. intros r x Hr Hax. eexists.
      split; by apply (translate_read_eq _ _ _ _ Hx). }
  assert (nt_decode e ∈ ly_tables ly) as Htb.
  { apply (wi_refs _ _ _ _ _ (x_winv _ _ _ _ Hx)); [|done|done]. apply (active_root _ _ _ _ Hx). }
  pose proof (erased_inv cb s ly hat Hx _ _ st n Htb Hj Ht) as Him'. split; [done|].
  destruct Him' as [Hx' _]. intros r x Hr Hax.
  pose proof (i1_ok cb s ly hat Hx x Hax) as Hi'. pose proof (i0_ok cb s ly hat Hx x) as Hj'.
  eexists. split; [by apply (translate_read_eq _ _ _ _ Hx)|].
  unfold snap_at. rewrite (translate_read_eq _ _ _ _ Hx') by done. f_equal. f_equal.
  rewrite (leaf_at_store cb s ly hat Hx) by done. cbn [andb].
  destruct (decide _) as [(-> & -> & ->)|Hn].
  - by rewrite !Z.eqb_refl.
  - destruct (nt_valid (l1_ent (W s) r (i1 cb x))) eqn:Hv'; [|done]. cbn [andb].
    destruct (Z.eqb_spec (nt_decode e) (nt_decode (l1_ent (W s) r (i1 cb x)))); [|done].
    destruct (Z.eqb_spec (i0 cb addr) (i0 cb x)); [|done]. by destruct Hn.
Qed.

Lemma erase_clears_shared_table_witness :
  ∃ ly, let e := l1_ent (W demo_xf2) (ly_active ly) (i1 12 8192) in
  ∃ s', erase (active_snap 12 ly demo_hat) 8192 demo_xf2 = (Ret tt, s') ∧
    image 12 s' ly demo_hat (CS 12) 1 ∧
    ∀ root addr', root ∈ ly_roots ly → addr_in 12 addr' → ∃ a,
      translate_read (snap_at 12 root) addr' demo_xf2 = (Ret a, demo_xf2) ∧
      translate_read (snap_at 12 root) addr' s' =
        (Ret (let e' := l1_ent (W demo_xf2) root (i1 12 addr') in
              if nt_valid e && nt_valid e' && (nt_decode e =? nt_decode e') &&
                 (i0 12 8192 =? i0 12 addr') then empty_leaf else a), s').
Proof.
  destruct demo_image2 as (ly & Him & _). exists ly.
  apply (erase_clears_shared_table 12 demo_xf2 ly demo_hat (CS 12) 1 8192).
  - done.
  - apply demo_addr.
Defined.

(** Through a child, [erase] reaches the parent. *)
Example erase_reaches_parent :
  let s' := (erase demo_child 8192 demo_snap.2).2 in
  is_empty (result_of 0 (translate_read demo_parent 8192 demo_snap.2)) = false ∧
  is_empty (result_of 0 (translate_read demo_parent 8192 s')) = true.
Proof. by vm_compute. Qed.

(** within the current table [open_read k] opens the [k]-th newest
    snapshot, read-only: a write through it is refused and changes nothing. *)
Theorem open_read_newest cb s ly hat st n fuel k :
  image cb s ly hat st n → 0 <= k < n → (Z.to_nat k < fuel)%nat →
  let r := decode_snap_entry (W s (hat - 8 - 16 * k)) in
  r ∈ ly_roots ly →
  open_read fuel k s = (Ret (snap_at cb r), s) ∧
  ∀ addr, translate_write (snap_at cb r) addr s = (Throw Elogic, s).
Proof.
  intros [Hx Ht] Hk Hf r Hr. split; [|done].
  pose proof (st_bounds cb s ly hat st n Hx Ht) as (B1 & B2 & B3 & B4 & B5 & B6 & B7).
  pose proof (t_hat _ _ _ _ _ _ Ht) as Hh.
  pose proof (lt_end_eq cb s ly hat st n Hx Ht) as En.
  unfold open_read. step (get_Ret s). rewrite (t_tbl _ _ _ _ _ _ Ht).
  step (open_read_loop_in s (Span st (CS cb)) n fuel 0 k En ltac:(lia) ltac:(lia) Hf).
  cbv iota. step En. replace (n <=? 0 + k) with false by lia.
  unfold lt_entry, LT_META, SNAP_ENTRY. cbn [sp_off].
  replace (st + 16 + (n - 1 - (0 + k)) * 16) with (hat - 8 - 16 * k) by lia.
  assert (word_ok s (hat - 8 - 16 * k) = true) as Hw.
  { replace (hat - 8 - 16 * k) with (st + 16 + 16 * (n - 1 - k) + 0) by lia.
    apply (st_word16 cb s ly hat st n Hx Ht); [lia|lia|lia|done]. }
  step (rd64_Ret s _ Hw). step (cluster_size_eq cb s ly hat Hx). fold r.
  by step (deref_cluster cb s ly hat Hx r (root_cluster cb s ly hat Hx r Hr)).
Qed.

Lemma open_read_newest_witness :
  open_read 1 0 demo_xf = (Ret (snap_at 12 (3 * CS 12)), demo_xf) ∧
  ∀ addr, translate_write (snap_at 12 (3 * CS 12)) addr demo_xf = (Throw Elogic, demo_xf).
Proof.
  assert (decode_snap_entry (W demo_xf (demo_hat - 8 - 16 * 0)) = 3 * CS 12) as E by by vm_compute.
  rewrite <- E.
  apply (open_read_newest 12 demo_xf demo_ly demo_hat (CS 12) 1 1 0).
  - apply demo_image.
  - clear E. done.
  - apply Nat.lt_0_1.
  - rewrite E. apply list_elem_of_singleton. reflexivity.
Defined.

(** past the current table [open_read] does not reach older snapshots. The
    first one of the second table is looked up in the current table, past its
    end; and as the search continues with the table after the current one,
    never with the table after the one it has just left, index [n1 + n2 + d]
    opens the snapshot of index [n1 + d] - or, when the second table is empty,
    runs for ever. *)
Theorem open_read_second_table s t2 n1 n2 f d :
  lt_end (snaps_tbl s) s = (Ret n1, s) → 0 <= n1 →
  lt_next SNAP_ENTRY (snaps_tbl s) s = (Ret (Some t2), s) →
  lt_end t2 s = (Ret n2, s) → 0 <= n2 → 0 < d →
  open_read (S (Z.to_nat n1)) n1 s = (Throw Eub, s) ∧
  open_read (S (Z.to_nat n1) + (S (Z.to_nat n2) + f)) (n1 + (n2 + d)) s =
    open_read (S (Z.to_nat n1) + f) (n1 + d) s.
Proof.
  intros H1 Hn1 Hn H2 Hn2 Hd. split; [by apply open_read_at_end; [| |lia]|].
  apply open_read_same. set (m1 := Z.to_nat n1). set (m2 := Z.to_nat n2).
  replace n1 with (Z.of_nat m1) in * by lia. replace n2 with (Z.of_nat m2) in * by lia.
  rewrite !(open_read_loop_next s (snaps_tbl s) t2 (Z.of_nat m1) m1) by (done || lia).
  by rewrite (open_read_loop_next s t2 t2 (Z.of_nat m2) m2) by (done || lia).
Qed.

(** Two tables of one snapshot each. *)
Definition demo_two : xfile :=
  XFile (aset (aset (aset ∅ 4096 (Z.lor 8192 FB_valid)) 4104 1) 8200 1) 65536
    (Span 4096 4096) (Span 0 0).
Lemma open_read_second_table_witness :
  open_read 2 1 demo_two = (Throw Eub, demo_two) ∧
  open_read (2 + (2 + 10)) (1 + (1 + 1)) demo_two = open_read (2 + 10) (1 + 1) demo_two.
Proof.
  apply (open_read_second_table demo_two (Span 8192 4096) 1 1 10 1); by vm_compute.
Defined.

(** the offset of a new metadata cluster is computed in 32 bits: above
    4 GiB of metadata it wraps, back to the header for the first cluster. *)
Theorem alloc_meta_offset_wraps cb s :
  12 <= cb <= 24 → word_ok s 16 = true → word_ok s 24 = true → lo32 (W s 16) = cb →
  0 <= W s 24 → hi32 (W s 24) < lo32 (W s 24) →
  (alloc_meta_cluster s).1 = Ret ((hi32 (W s 24) * 2 ^ cb) mod 2 ^ 32, 2 ^ cb).
Proof.
  intros Hcb H16 H24 Hb Hp Hlt. assert (0 <= lo32 (W s 24) < 2 ^ 32) by apply u32_range.
  assert (0 <= hi32 (W s 24)) by by apply Z.shiftr_nonneg.
  unfold alloc_meta_cluster, alloc_meta_clusters, hdr_hwm, hdr_hwm_limit.
  step (bind_Ret _ (λ x, mret (hi32 x)) _ _ _ (rd64_Ret s 24 H24)).
  step (bind_Ret _ (λ x, mret (lo32 x)) _ _ _ (rd64_Ret s 24 H24)).
  rewrite u64_small by lia. replace (lo32 (W s 24) <? hi32 (W s 24) + 1) with false by lia.
  unfold cluster_bits, hdr_cluster_bits.
  step (bind_Ret _ (λ x, mret (lo32 x)) _ _ _ (rd64_Ret s 16 H16)).
  step (set_hdr_hwm_eq s (u32 (hi32 (W s 24) + 1)) H24). cbn.
  rewrite Hb, !Z.shiftl_mul_pow2 by lia. rewrite Z.mul_1_l.
  assert (2 ^ cb <= 2 ^ 24) by (apply Z.pow_le_mono_r; lia).
  rewrite (u64_small (2 ^ cb)) by (pose proof (Z.pow_nonneg 2 cb); lia). done.
Qed.

(** An 8 GiB metadata file of 4 KiB clusters, half used. *)
Definition demo_big : xfile :=
  XFile (aset (aset ∅ 16 12) 24 (with_hi32 (2 ^ 21) (2 ^ 20))) (2 ^ 33) (Span 0 0) (Span 0 0).
Lemma alloc_meta_offset_wraps_witness : (alloc_meta_cluster demo_big).1 = Ret (0, 4096).
Proof. apply (alloc_meta_offset_wraps 12 demo_big); by vm_compute. Defined.


(** The child writes an address of its parent and a new one. *)
Definition demo_writes : list xop := [OpWrite 8192; OpWrite 81920].
Abbreviation demo_child_written := (run_ops demo_writes demo_child demo_snap.2).
Lemma demo_child_written_eq : demo_child_written = (Ret (result_of demo_sn demo_child_written), demo_child_written.2).
Proof. apply (ret_eq demo_sn demo_child_written). vm_cast_no_check (eq_refl true). Qed.

