(* ===== verification/XcowCtl.v ===== *)
(** * The tools that manage and print an image

    xcowctl.cpp: what each of its operations does to the mapping file, and what
    it prints; and xcowdump.cpp, which prints a whole image. The operation
    [snap-recreate] throws away the newest snapshot with everything written to
    it and makes a new one in its place; the theorem at the end says that this
    is a rollback, and what happens when the file has no cluster left for the
    new snapshot. *)
From S2P Require Import Prelude Proto Xcow XcowInv XcowOps XcowSnaps XcowFormat XcowReads XcowThms.

(** ** The operations *)

Inductive ctl_op : Type :=
  | CtlFormat (fsize cluster_bits : Z)
  | CtlSnapList
  | CtlSnapCreate (snap_index : option Z)
  | CtlSnapPeel
  | CtlSnapRecreate (snap_index : option Z)
  | CtlUnknown.

(** What is printed. *)
Inductive ctl_out : Type :=
  | CtlNothing
  | CtlSnaps (l : list (Z * Z))
  | CtlHwm (disk_hwm : Z).

Section ctl.
(** The sizes of the two files as [lseek] gives them, and the result of the
    [fallocate] that zeroes the first bytes of the block device. *)
Context (metasize disksize : Z) (fallocate : Z → Z).

Definition ctl_format (fsize cluster_bits : Z) : xeff unit :=
  if metasize <? 0 then throw Esystem else
  if disksize <? 0 then throw Esystem else
  (* [1l << cluster_bits] *)
  _ ← ensure (cluster_bits <? 64) Eub;
  if fallocate (s64 (Z.shiftl 1 cluster_bits)) <? 0 then throw Esystem else
  format fsize cluster_bits (u32 (Z.shiftr metasize cluster_bits)) (Z.shiftr disksize cluster_bits).

(** [for (auto it = f->snaps(); !it.at_end(); it++)]: offset and high-water
    mark of every snapshot. *)
Fixpoint list_snaps (fuel : nat) (it : snap_iter) : xeff (list (Z * Z)) :=
  match fuel with
  | O => throw Efuel
  | S fuel =>
    if snap_iter_at_end it then mret [] else
    '(v, h) ← snap_iter_deref it;
    it ← snap_iter_incr it;
    l ← list_snaps fuel it;
    mret ((decode_snap_entry v, h) :: l)
  end.

Definition index_of (snap_index : option Z) : Z := default 0 snap_index.

Definition ctl_snap_create (fuel : nat) (idx : option Z) : xeff (XcowSnap * XcowSnap) :=
  snap ← open_read fuel (index_of idx);
  snap_create snap.

Definition ctl_snap_peel : xeff unit :=
  snap ← open_write;
  peel snap.

Definition disk_hwm (sn : XcowSnap) : xeff Z :=
  match disk_hwm_at sn with None => throw Eub | Some p => rd64 p end.

Definition ctl_main (fuel : nat) (op : ctl_op) : xeff ctl_out :=
  match op with
  | CtlFormat fsize cb => _ ← ctl_format fsize cb; mret CtlNothing
  | _ =>
    _ ← xcow_open;
    match op with
    | CtlSnapList =>
      it ← snaps;
      l ← list_snaps fuel it;
      mret (CtlSnaps l)
    | CtlSnapCreate idx => _ ← ctl_snap_create fuel idx; mret CtlNothing
    | CtlSnapPeel => _ ← ctl_snap_peel; mret CtlNothing
    | CtlSnapRecreate idx =>
      _ ← ctl_snap_peel;
      '(new_snap, _) ← ctl_snap_create fuel idx;
      h ← disk_hwm new_snap;
      mret (CtlHwm h)
    | _ => throw Eruntime
    end
  end.
End ctl.

(** ** The tool that prints an image (xcowdump.cpp) *)

(** [active_entries]: the table's used entries; a count beyond its end is not
    checked. *)
Definition active_entries (esz : Z) (t : span) : xeff (list Z) :=
  end_ ← lt_end t;
  if lt_capacity esz t <? end_ then throw Eub else
  mret ((λ i : nat, lt_entry esz t (Z.of_nat i)) <$> seq 0 (Z.to_nat end_)).

Definition read_snap_entry (p : Z) : xeff (Z * Z) :=
  v ← rd64 p;
  h ← rd64 (p + 8);
  mret (decode_snap_entry v, h).

Definition decode_free_entry (v : Z) : Z := Z.land v FB_decode_mask.
Definition read_free_entry (p : Z) : xeff Z := v ← rd64 p; mret (decode_free_entry v).

(** The loops over the chained tables; the lists are separated in the output. *)
Fixpoint dump_snaps (fuel : nat) (sl : option span) : xeff (list (list (Z * Z))) :=
  match sl with
  | None => mret []
  | Some t =>
    match fuel with
    | O => throw Efuel
    | S fuel =>
      es ← active_entries SNAP_ENTRY t;
      l ← mapM read_snap_entry (reverse es);
      t' ← lt_next SNAP_ENTRY t;
      ls ← dump_snaps fuel t';
      mret (l :: ls)
    end
  end.
Fixpoint dump_free (fuel : nat) (fl : option span) : xeff (list (list Z)) :=
  match fl with
  | None => mret []
  | Some t =>
    match fuel with
    | O => throw Efuel
    | S fuel =>
      es ← active_entries FREE_ENTRY t;
      l ← mapM read_free_entry es;
      t' ← lt_next FREE_ENTRY t;
      ls ← dump_free fuel t';
      mret (l :: ls)
    end
  end.

Record dump : Type := Dump { d_fsize : Z; d_cluster_bits : Z; d_cluster_size : Z; d_hwm_limit : Z;
  d_disk_hwm_limit : Z; d_hwm : Z; d_snaplist : Z; d_snaps : list (list (Z * Z)); d_freelist : Z;
  d_free : list (list Z) }.

Definition dump_main (fuel : nat) : xeff dump :=
  _ ← xcow_open;
  fs ← hdr_fsize; cb ← hdr_cluster_bits; cs ← cluster_size;
  hl ← hdr_hwm_limit; dl ← hdr_disk_hwm_limit; h ← hdr_hwm;
  sr ← hdr_snaplist;
  s ← get;
  sl ← dump_snaps fuel (Some (snaps_tbl s));
  fr ← hdr_freelist;
  fl ← dump_free fuel (Some (flist_tbl s));
  mret (Dump fs cb cs hl dl h (lt_decode sr) sl (lt_decode fr) fl).

(** ** Opening what is open *)

(** The tables the program has are those the header names. *)
Definition opened (cb : Z) (s : xfile) : Prop := header_ok cb s ∧
  snaps_tbl s = Span (lt_decode (W s 40)) (CS cb) ∧ flist_tbl s = Span (lt_decode (W s 48)) (CS cb).

Lemma opened_open cb s : opened cb s → xcow_open s = (Ret tt, s).
Proof.
  intros (Hh & Es & Ef). pose proof (open_ok cb s Hh (snaps_tbl s) (flist_tbl s)) as E.
  rewrite <- Es, <- Ef in E. by destruct s.
Qed.

(** A change that leaves the header alone. *)
Lemma opened_same cb s s' : opened cb s → (∀ y, 0 <= y <= 48 → y ≠ 24 → W s' y = W s y) →
  snaps_tbl s' = snaps_tbl s → flist_tbl s' = flist_tbl s → fbytes s' = fbytes s → opened cb s'.
Proof.
  intros ([H1 H2 H3 H4 H5] & Es & Ef) Hw E1 E2 E3.
  split; [split|]; rewrite ?E1, ?E2, ?E3, ?Hw by lia; done.
Qed.

(** The newest snapshot, for reading. *)
Lemma open_read_active cb s ly hat st n fuel : image cb s ly hat st n → (0 < fuel)%nat →
  open_read fuel 0 s = (Ret (Snap (Span (ly_active ly) (CS cb)) None), s).
Proof.
  intros [Hx Ht] Hf. destruct fuel as [|fuel]; [lia|].
  pose proof (st_bounds cb s ly hat st n Hx Ht) as (B1 & B2 & B3 & B4 & B5 & B6 & B7).
  pose proof (t_hat _ _ _ _ _ _ Ht) as Hh. pose proof (lt_end_eq cb s ly hat st n Hx Ht) as En.
  unfold open_read. step (get_Ret s). rewrite (t_tbl _ _ _ _ _ _ Ht).
  change (open_read_loop (S fuel) (Span st (CS cb)) 0 0) with (mret (M := eff xfile) (Span st (CS cb), 0)).
  rewrite (bind_Ret _ _ s (Span st (CS cb), 0) s) by done. cbv iota beta.
  step En. replace (n <=? 0) with false by lia.
  unfold lt_entry, LT_META, SNAP_ENTRY. cbn [sp_off].
  replace (st + 16 + (n - 1 - 0) * 16) with (hat - 8) by lia.
  assert (word_ok s (hat - 8) = true) as Hw.
  { replace (hat - 8) with (st + 16 + 16 * (n - 1) + 0) by lia.
    apply (st_word16 cb s ly hat st n Hx Ht); [lia|lia|lia|done]. }
  step (rd64_Ret s _ Hw). step (cluster_size_eq cb s ly hat Hx).
  rewrite (t_root _ _ _ _ _ _ Ht).
  pose proof (active_addr cb s ly hat Hx) as Ha.
  change (decode_snap_entry ?x) with (lt_decode x). rewrite lt_decode_encode by done.
  by step (deref_cluster cb s ly hat Hx _ (root_cluster cb s ly hat Hx _ (active_root cb s ly hat Hx))).
Qed.

(** ** The list of snapshots *)

Section list.
Context (cb : Z) (s : xfile) (ly : layout) (hat st n : Z).
Context (Him : image cb s ly hat st n) (Honly : lt_valid (W s st) = false).
Abbreviation CSZ := (CS cb).

(** The entries below [k], newest first: offset and mark. *)
Definition entries_below (k : nat) : list (Z * Z) :=
  (λ i : nat, let e := st + 16 + 16 * Z.of_nat i in (decode_snap_entry (W s e), W s (e + 8))) <$>
    reverse (seq 0 k).

Lemma last_table : lt_next SNAP_ENTRY (Span st CSZ) s = (Ret None, s).
Proof using Him Honly.
  destruct Him as [Hx Ht]. pose proof (st_bounds cb s ly hat st n Hx Ht) as (B1 & B2 & B3 & B4 & B5 & B6 & B7).
  unfold lt_next, lt_next_ref. cbn [sp_off].
  assert (word_ok s st = true) as Hw by
    (rewrite <- (Z.add_0_r st); apply (st_word cb s ly hat st n Hx Ht); [lia|done]).
  step (rd64_Ret s st Hw). by rewrite Honly.
Qed.

Lemma list_snaps_from f : ∀ k : nat, (k < f)%nat → 0 < Z.of_nat k <= n →
  list_snaps f (SnapIter (Some (Span st CSZ)) (Z.of_nat k)) s = (Ret (entries_below k), s).
Proof using Him Honly.
  destruct Him as [Hx Ht].
  pose proof (st_bounds cb s ly hat st n Hx Ht) as (B1 & B2 & B3 & B4 & B5 & B6 & B7).
  destruct (t_end _ _ _ _ _ _ Ht) as [_ Hn].
  induction f as [|f IH]; intros k Hf Hk; [lia|]. destruct k as [|k]; [lia|].
  cbn [list_snaps snap_iter_at_end si_table]. unfold snap_iter_deref. cbn [si_table si_off].
  unfold lt_capacity, lt_entry, LT_META, SNAP_ENTRY. cbn [sp_bytes sp_off].
  rewrite (proj2 (Z.eqb_neq (Z.of_nat (S k)) 0)), (proj2 (Z.ltb_ge _ (Z.of_nat (S k)))) by lia.
  cbn [orb].
  set (e := st + 16 + 16 * Z.of_nat k).
  replace (st + 16 + (Z.of_nat (S k) - 1) * 16) with e by lia.
  assert (∀ o, o = 0 ∨ o = 8 → word_ok s (e + o) = true) as Hw.
  { intros o Ho. apply (st_word16 cb s ly hat st n Hx Ht); [lia|lia|lia|by destruct Ho as [-> | ->]]. }
  assert (word_ok s e = true) as Hw0 by (rewrite <- (Z.add_0_r e); apply Hw; by left).
  rewrite (bind_Ret (v ← rd64 e; h ← rd64 (e + 8); mret (v, h)) _ s (W s e, W s (e + 8)) s).
  2:{ step (rd64_Ret s e Hw0). by step (rd64_Ret s (e + 8) (Hw 8 (or_intror eq_refl))). }
  cbv iota beta. unfold snap_iter_incr. cbn [si_table si_off].
  rewrite u64_small by lia. unfold entries_below. rewrite seq_S, reverse_snoc, fmap_cons. cbn [Nat.add].
  fold e. destruct k as [|k].
  - change (Z.of_nat 1 - 1 =? 0) with true. cbv iota.
    rewrite (bind_Ret (t' ← lt_next _ _; _) _ s (SnapIter None (Z.of_nat 1 - 1)) s) by (by step last_table).
    destruct f as [|f]; [lia|]. reflexivity.
  - rewrite (proj2 (Z.eqb_neq (Z.of_nat (S (S k)) - 1) 0)) by lia.
    rewrite (bind_Ret (mret _) _ s (SnapIter (Some (Span st CSZ)) (Z.of_nat (S k))) s)
      by (unfold mret, eff_ret; do 3 f_equal; lia).
    by step (IH (S k) ltac:(lia) ltac:(lia)).
Qed.

(** [snap-list] prints every snapshot of the table once, the newest first. *)
Theorem snap_list_exact metasize disksize fallocate fuel : opened cb s → (Z.to_nat n < fuel)%nat →
  ctl_main metasize disksize fallocate fuel CtlSnapList s = (Ret (CtlSnaps (entries_below (Z.to_nat n))), s).
Proof using Him Honly.
  intros Hop Hf. pose proof Him as [Hx Ht].
  pose proof (st_bounds cb s ly hat st n Hx Ht) as (B1 & B2 & B3 & B4 & B5 & B6 & B7).
  unfold ctl_main. step (opened_open cb s Hop). unfold snaps.
  rewrite (bind_Ret _ _ s (SnapIter (Some (Span st CSZ)) (Z.of_nat (Z.to_nat n))) s).
  2:{ step (get_Ret s). rewrite (t_tbl _ _ _ _ _ _ Ht). step (lt_end_eq cb s ly hat st n Hx Ht).
      unfold mret, eff_ret. by rewrite Z2Nat.id by lia. }
  by step (list_snaps_from fuel (Z.to_nat n) Hf ltac:(lia)).
Qed.
(** [xcowdump] prints the same list: reading the table backwards gives what
    the iterator of [snap-list] gives. *)
Theorem dump_snaps_exact fuel :
  dump_snaps (S fuel) (Some (Span st CSZ)) s = (Ret [entries_below (Z.to_nat n)], s).
Proof using Him Honly.
  pose proof Him as [Hx Ht].
  pose proof (st_bounds cb s ly hat st n Hx Ht) as (B1 & B2 & B3 & B4 & B5 & B6 & B7).
  destruct (t_end _ _ _ _ _ _ Ht) as [_ Hn].
  cbn [dump_snaps]. unfold active_entries.
  rewrite (bind_Ret _ _ s ((λ i : nat, lt_entry SNAP_ENTRY (Span st CSZ) (Z.of_nat i)) <$> seq 0 (Z.to_nat n)) s).
  2:{ step (lt_end_eq cb s ly hat st n Hx Ht). unfold lt_capacity, LT_META, SNAP_ENTRY. cbn [sp_bytes].
      by rewrite (proj2 (Z.ltb_ge _ n)) by lia. }
  rewrite (bind_Ret _ _ s (entries_below (Z.to_nat n)) s).
  2:{ rewrite <- fmap_reverse, (mapM_Ret _ (λ p, (decode_snap_entry (W s p), W s (p + 8)))).
      - rewrite <- list_fmap_compose. unfold entries_below. do 2 f_equal. apply list_fmap_ext.
        intros _ i _. unfold compose, lt_entry, LT_META, SNAP_ENTRY. cbn [sp_off]. by rewrite Z.mul_comm.
      - intros p (i & -> & Hi)%list_elem_of_fmap. rewrite elem_of_reverse, elem_of_seq in Hi.
        unfold lt_entry, LT_META, SNAP_ENTRY, read_snap_entry. cbn [sp_off].
        rewrite Z.mul_comm. set (e := st + 16 + 16 * Z.of_nat i).
        assert (∀ o, o = 0 ∨ o = 8 → word_ok s (e + o) = true) as Hw.
        { intros o Ho. apply (st_word16 cb s ly hat st n Hx Ht); [lia|lia|lia|by destruct Ho as [-> | ->]]. }
        assert (word_ok s e = true) as Hw0 by (rewrite <- (Z.add_0_r e); apply Hw; by left).
        step (rd64_Ret s e Hw0). by step (rd64_Ret s (e + 8) (Hw 8 (or_intror eq_refl))). }
  step last_table. by destruct fuel.
Qed.
End list.

(** [format] has zeroed the first cluster of the block device before it looks
    at the size of the mapping file: one that is too small is refused after the
    data was destroyed. *)
Abbreviation ctl_blank n op := (ctl_main n 65536 (λ _, 0) 1 op (XFile ∅ n (Span 0 0) (Span 0 0))).
Example format_refused_late : (ctl_blank 12288 (CtlFormat 65536 12)).1 = Throw Ehwm.
Proof. vm_compute. reflexivity. Qed.

(** It makes images that no program opens: the limits of the cluster size are
    checked when an image is opened, not when it is made. *)
Example format_unopenable : (ctl_blank 32768 (CtlFormat 65536 11)).1 = Ret CtlNothing ∧
  (xcow_open (ctl_blank 32768 (CtlFormat 65536 11)).2).1 = Throw Eruntime.
Proof. split; vm_compute; reflexivity. Qed.

(** What [xcowdump] prints of a new image: the header, its one snapshot, and a
    list of free clusters that nothing ever adds to. *)
Example dump_new_image : (dump_main 2 (ctl_blank 65536 (CtlFormat 65536 12)).2).1 =
  Ret (Dump 65536 12 4096 16 16 4 4096 [[(12288, 1)]] 8192 [[]]).
Proof. vm_compute. reflexivity. Qed.

(** ** Rollback *)

Section rollback.
Context (metasize disksize : Z) (fallocate : Z → Z) (fuel : nat).
Context (cb : Z) (s : xfile) (ly : layout) (hat st n : Z).
Context (Him : image cb s ly hat st n) (Hop : opened cb s).
Context (Hcap : n < (CS cb - 16) / 16) (Hfuel : (0 < fuel)%nat).
Abbreviation ctl := (ctl_main metasize disksize fallocate fuel).
Abbreviation A := (Snap (Span (ly_active ly) (CS cb)) None).

Lemma create_newest : ctl_snap_create fuel None s = snap_create A s.
Proof using Him Hfuel.
  unfold ctl_snap_create, index_of. by step (open_read_active cb s ly hat st n fuel Him Hfuel).
Qed.

(** [snap-create] of the newest snapshot, when the file has a cluster left. *)
Section room.
Context (Hroom : hi32 (W s 24) < lo32 (W s 24)).
Abbreviation s1 := (snap_state cb s ly hat st n).
Abbreviation child := (active_snap cb (snap_layout cb s ly) (hat + 16)).

Lemma create_newest_eq : ctl_snap_create fuel None s = (Ret (child, A), s1).
Proof using Him Hcap Hfuel Hroom.
  rewrite create_newest. destruct Him as [Hx Ht].
  by apply (snap_create_eq cb s ly hat st n Hx Ht Hroom Hcap).
Qed.

Lemma created_image : image cb s1 (snap_layout cb s ly) (hat + 16) st (n + 1).
Proof using Him Hcap Hroom. clear Hfuel. destruct Him as [Hx Ht]. split; [by apply snap_xinv|by apply snap_tinv]. Qed.

Lemma ctl_create : ctl (CtlSnapCreate None) s = (Ret CtlNothing, s1) ∧
  open_write s1 = (Ret child, s1).
Proof using All.
  split.
  - unfold ctl_main. step (opened_open cb s Hop). by step create_newest_eq.
  - destruct created_image as [Hx Ht]. by apply (open_write_eq cb _ _ _ st (n + 1)).
Qed.

(** What the tool then prints as the mark of the data of the new snapshot, and
    what the new snapshot reads. *)
Lemma created_hwm : disk_hwm child s1 = (Ret (W s hat), s1).
Proof using Him Hcap Hroom. clear Hfuel.
  destruct Him as [Hx Ht]. destruct created_image as [Hx1 _].
  unfold disk_hwm, active_snap. cbn [disk_hwm_at].
  rewrite <- (snap_hat cb s ly hat st n Hx Ht Hroom Hcap). apply rd64_Ret, (hat_word cb s1 _ _ Hx1).
Qed.

Lemma created_reads addr : addr_in cb addr → ∃ a,
  translate_read (active_snap cb ly hat) addr s = (Ret a, s) ∧
  translate_read child addr s1 = (Ret a, s1).
Proof using Him Hcap Hroom. clear Hfuel.
  intros Ha. destruct Him as [Hx Ht]. destruct created_image as [Hx1 _]. eexists. split.
  - apply (translate_read_eq _ _ _ _ Hx); [apply (active_root cb s ly hat Hx)|done].
  - unfold active_snap. rewrite (translate_read_eq _ _ _ _ Hx1);
      [|apply (active_root cb s1 _ _ Hx1)|done].
    do 2 f_equal. apply (snap_leaf_new cb s ly hat st n Hx Ht Hroom Hcap); [by eapply i1_ok|by eapply i0_ok].
Qed.

Lemma header_outside y : 0 <= y <= 48 → y < st ∧ y < hi32 (W s 24) * CS cb ∧ y ≠ hat + 16.
Proof using Him. clear Hfuel Hcap.
  intros Hy. destruct Him as [Hx Ht].
  pose proof (st_bounds cb s ly hat st n Hx Ht) as (B1 & B2 & B3 & B4 & B5 & B6 & B7).
  pose proof (t_hat _ _ _ _ _ _ Ht). destruct (t_cluster _ _ _ _ _ _ Ht). lia.
Qed.

Lemma created_opened s' ly' : child_state cb s ly hat st n s' ly' → opened cb s'.
Proof using Him Hop Hcap Hroom. clear Hfuel.
  destruct Him as [Hx Ht]. intros Hc. destruct (ch_files _ _ _ _ _ _ _ _ Hc) as (F1 & F2 & F3 & _).
  apply (opened_same cb s s' Hop); [|exact F1|exact F2|exact F3].
  intros y Hy H24. destruct (header_outside y Hy) as (? & ? & ?).
  rewrite (ch_words _ _ _ _ _ _ _ _ Hc) by done.
  apply (snap_out cb s ly hat st n Hx Ht Hroom Hcap); [done|by left|left; unfold new_root; lia].
Qed.
End room.
End rollback.

(** [snap-peel] of the child takes the file back, whatever was written. *)
Lemma peel_newest cb s ly hat st n s' ly' : image cb s ly hat st n → opened cb s →
  n < (CS cb - 16) / 16 → hi32 (W s 24) < lo32 (W s 24) → child_state cb s ly hat st n s' ly' →
  ∃ s2, ctl_snap_peel s' = (Ret tt, s2) ∧ image cb s2 ly hat st n ∧ opened cb s2 ∧
    W s2 24 = W s' 24 ∧ W s2 hat = W s hat ∧
    ∀ i j, idx_ok cb i → idx_ok cb j →
      leaf_at (W s2) (ly_active ly) i j = leaf_at (W s) (ly_active ly) i j.
Proof.
  intros Him Hop Hcap Hroom Hc. pose proof Him as [Hx Ht].
  destruct (ch_image _ _ _ _ _ _ _ _ Hc) as [Hx' Ht'].
  eexists. split; [|split; [by apply (snap_peel_image cb s ly hat st n Hx Ht Hroom Hcap s' ly')|]].
  { unfold ctl_snap_peel. step (open_write_eq cb s' ly' (hat + 16) st (n + 1) Hx' Ht').
    by apply (peel_child cb s ly hat st n Hx Ht Hroom Hcap). }
  split; [|split; [|split]].
  - destruct (ch_files _ _ _ _ _ _ _ _ Hc) as (F1 & F2 & F3 & _).
    apply (opened_same cb s _ Hop); [|exact F1|exact F2|exact F3]. intros y Hy H24.
    destruct (header_outside cb s ly hat st n Him y Hy) as (? & ? & ?).
    apply (sp_W cb s ly hat st n Hx Ht Hroom Hcap s' ly' Hc); [done|by left|done].
  - by apply (sp_24 cb s ly hat st n Hx Ht Hroom Hcap s' ly' Hc).
  - by apply (snap_peel_mark cb s ly hat st n Hx Ht Hroom Hcap s' ly' Hc).
  - intros i j Hi Hj. apply (snap_peel_leaf cb s ly hat st n Hx Ht Hroom Hcap s' ly' Hc); [|done..].
    apply (active_root cb s ly hat Hx).
Qed.


(** The image of 16 clusters of file XcowThms, with one cluster written. *)
Abbreviation demo_ctl := (ctl_main 0 0 (λ _, 0) 1).
Abbreviation demo_created := (demo_ctl (CtlSnapCreate None) demo_xf2).
Definition demo_new : XcowSnap := Snap (Span (new_root 12 demo_xf2) (CS 12)) (Some (demo_hat + 16)).
Abbreviation demo_ran := (run_ops demo_writes demo_new demo_created.2).

Lemma demo_opened : opened 12 demo_xf2.
Proof. repeat split; vm_compute; congruence. Qed.
Lemma demo_ran_eq : demo_ran = (Ret (result_of demo_sn demo_ran), demo_ran.2).
Proof. apply (ret_eq demo_sn demo_ran). vm_cast_no_check (eq_refl true). Qed.
Example demo_room : (hi32 (W demo_ran.2 24) <? lo32 (W demo_ran.2 24)) = true.
Proof. vm_cast_no_check (eq_refl true). Qed.

