(* ===== verification/BlkIter.v ===== *)
(** * Splitting a request at cluster boundaries

    include/xcow/blk_iter.hpp, with [round_up_bits] of include/util.hpp: the
    iterator that cuts a range of blocks into one piece per cluster. *)
From S2P Require Import Prelude.

(** [(val + ((1 << bits) - 1)) >> bits << bits] on 64-bit operands; [1 << bits]
    is an [int]. *)
Definition round_up_bits (val bits : Z) : Z :=
  u64 (Z.shiftl (Z.shiftr (u64 (val + (s32 (Z.shiftl 1 bits) - 1))) bits) bits).

Record blk_iter : Type := BlkIter {
  bi_addr : Z;
  bi_sz : Z;
  bi_bits : Z;
  bi_next : Z;
}.

Definition calc_next (addr sz bits : Z) : Z :=
  let next := Z.min (round_up_bits addr bits) (u64 (addr + sz)) in
  if next =? addr then u64 (next + Z.min sz (u64 (Z.shiftl 1 bits))) else next.

Definition blk_begin (addr_in sz cluster_bits : Z) : blk_iter :=
  BlkIter addr_in sz cluster_bits (calc_next addr_in sz cluster_bits).
Definition blk_size (it : blk_iter) : Z := u64 (bi_next it - bi_addr it).
Definition blk_at_end (it : blk_iter) : bool := negb (truthy (bi_sz it)).
Definition blk_is_last (it : blk_iter) : bool := blk_size it =? bi_sz it.
Definition blk_incr (it : blk_iter) : blk_iter :=
  let sz := u64 (bi_sz it - blk_size it) in
  BlkIter (bi_next it) sz (bi_bits it) (calc_next (bi_next it) sz (bi_bits it)).

(** [for (bi; !bi.at_end(); bi++)]: the pieces [*bi, bi.size()]. *)
Fixpoint blk_walk (fuel : nat) (it : blk_iter) : outcome (list (Z * Z)) :=
  match fuel with
  | O => Throw Efuel
  | S fuel =>
    if blk_at_end it then Ret [] else
    l ← blk_walk fuel (blk_incr it);
    Ret ((bi_addr it, blk_size it) :: l)
  end.

(** ** Specification *)

(** The pieces of the [sz] blocks from [addr] on, with clusters of [B]. *)
Inductive pieces (B : Z) : Z → Z → list (Z * Z) → Prop :=
  | pieces_nil addr : pieces B addr 0 []
  | pieces_cons addr sz m l :
      0 < m <= sz → m = Z.min sz (B - addr mod B) →
      pieces B (addr + m) (sz - m) l → pieces B addr sz ((addr, m) :: l).

Section blk.
Context (bits : Z) (Hbits : 0 <= bits <= 30).
Let B := 2 ^ bits.

Lemma B_pos : 0 < B <= 2 ^ 30.
Proof using All.
  unfold B. split; [apply Z.pow_pos_nonneg; lia|apply Z.pow_le_mono_r; lia].
Qed.

Lemma round_up_bits_eq v : 0 <= v → v + B <= 2 ^ 64 →
  round_up_bits v bits = (v + (B - 1)) / B * B.
Proof using All.
  intros Hv Hhi. pose proof B_pos. unfold round_up_bits. rewrite shiftl_1 by lia. fold B.
  assert (s32 B = B) as ->.
  { unfold s32. rewrite u32_small by lia. by replace (B <? 2 ^ 31) with true by lia. }
  rewrite (u64_small (v + (B - 1))) by lia.
  rewrite Z.shiftl_mul_pow2, Z.shiftr_div_pow2 by lia. fold B.
  assert (0 <= (v + (B - 1)) / B) by (apply Z.div_pos; lia).
  pose proof (Z.mul_div_le (v + (B - 1)) B). apply u64_small. lia.
Qed.

Lemma calc_next_eq addr sz : 0 <= addr → 0 < sz → addr + sz + B <= 2 ^ 64 →
  calc_next addr sz bits = addr + Z.min sz (B - addr mod B).
Proof using All.
  intros Ha Hs Hhi. pose proof B_pos. unfold calc_next.
  rewrite round_up_bits_eq by lia. rewrite (u64_small (addr + sz)) by lia.
  rewrite shiftl_1 by lia. fold B. rewrite (u64_small B) by lia.
  pose proof (Z.mod_pos_bound addr B ltac:(lia)) as Hm.
  pose proof (Z_div_mod_eq_full addr B) as Ed.
  set (q := addr / B) in *. set (r := addr mod B) in *. clearbody q r. subst addr.
  destruct (Z.eq_dec r 0) as [->|Hr].
  - rewrite <- (Z.div_unique (B * q + 0 + (B - 1)) B q (B - 1)) by lia.
    replace (Z.min (q * B) (B * q + 0 + sz) =? B * q + 0) with true by lia.
    rewrite u64_small by lia. lia.
  - rewrite <- (Z.div_unique (B * q + r + (B - 1)) B (q + 1) (r - 1)) by lia.
    replace (Z.min ((q + 1) * B) (B * q + r + sz) =? B * q + r) with false by lia. lia.
Qed.

(** The sizes stay below the remaining count, so the walk ends. *)
Lemma blk_walk_pieces fuel : ∀ addr sz, 0 <= addr → 0 <= sz → addr + sz + B <= 2 ^ 64 →
  sz < Z.of_nat fuel →
  ∃ l, blk_walk fuel (blk_begin addr sz bits) = Ret l ∧ pieces B addr sz l.
Proof using All.
  pose proof B_pos. induction fuel as [|fuel IH]; intros addr sz Ha Hs Hhi Hf; [lia|].
  simpl. unfold blk_at_end, blk_begin. cbn [bi_sz bi_addr].
  destruct (Z.eq_dec sz 0) as [->|Hne]; [eexists; by split; [|constructor]|].
  unfold truthy. replace (sz =? 0) with false by lia. cbn [negb].
  pose proof (Z.mod_pos_bound addr B ltac:(lia)).
  set (m := Z.min sz (B - addr mod B)).
  assert (blk_size (BlkIter addr sz bits (calc_next addr sz bits)) = m) as Em.
  { unfold blk_size. cbn [bi_next bi_addr]. rewrite calc_next_eq by lia. fold m.
    replace (addr + m - addr) with m by lia. apply u64_small. lia. }
  assert (blk_incr (BlkIter addr sz bits (calc_next addr sz bits)) =
    blk_begin (addr + m) (sz - m) bits) as Ei.
  { unfold blk_incr, blk_begin. rewrite Em. cbn [bi_next bi_sz bi_bits].
    rewrite calc_next_eq, u64_small by lia. fold m. done. }
  rewrite Em, Ei. destruct (IH (addr + m) (sz - m)) as (l & -> & Hl); try lia.
  eexists. split; [done|]. by constructor; [lia| |].
Qed.
End blk.

(** What the pieces are. *)
Lemma pieces_inside B addr sz l : 0 < B → 0 <= addr → pieces B addr sz l →
  Forall (λ x : Z * Z, 0 < x.2 ∧ addr <= x.1 ∧ x.1 + x.2 <= addr + sz ∧
    x.1 / B = (x.1 + x.2 - 1) / B) l.
Proof.
  intros HB Ha Hl. induction Hl as [|addr sz m l Hm Em _ IH]; constructor.
  - pose proof (Z.mod_pos_bound addr B HB). split_and!; simpl; [lia|lia|lia|].
    apply Z.div_unique with (addr mod B + m - 1); [lia|].
    pose proof (Z_div_mod_eq_full addr B). lia.
  - eapply Forall_impl; [apply IH; lia|]. intros x (? & ? & ? & ?). simpl. split_and!; lia.
Qed.

Lemma pieces_count B addr sz l : 0 < B → 0 <= addr → 0 < sz → pieces B addr sz l →
  Z.of_nat (length l) = (addr + sz - 1) / B - addr / B + 1.
Proof.
  intros HB Ha Hs Hl. induction Hl as [|addr sz m l Hm Em Hl IH]; [lia|].
  simpl length. rewrite Nat2Z.inj_succ, <- Z.add_1_r.
  pose proof (Z.mod_pos_bound addr B HB). pose proof (Z_div_mod_eq_full addr B) as Ed.
  destruct (Z.eq_dec sz m) as [->|Hne].
  - assert (l = []) as -> by (inversion Hl; [done|lia]). simpl.
    rewrite <- (Z.div_unique (addr + m - 1) B (addr / B) (addr mod B + m - 1)) by lia. lia.
  - rewrite IH by lia. replace (addr + m + (sz - m) - 1) with (addr + sz - 1) by lia.
    rewrite <- (Z.div_unique (addr + m) B (addr / B + 1) 0) by lia. lia.
Qed.

(** The blocks of the pieces, one after the other, are the range. *)
Lemma pieces_range B addr sz l : 0 <= sz → pieces B addr sz l →
  concat ((λ x : Z * Z, (λ k, x.1 + Z.of_nat k) <$> seq 0 (Z.to_nat x.2)) <$> l) =
  (λ k, addr + Z.of_nat k) <$> seq 0 (Z.to_nat sz).
Proof.
  intros Hs Hl. induction Hl as [|addr sz m l Hm Em Hl IH]; [done|]. cbn [fmap list_fmap concat].
  change (list_fmap _ _ ?f l) with (f <$> l). rewrite IH by lia. cbn [fst snd].
  replace (Z.to_nat sz) with (Z.to_nat m + Z.to_nat (sz - m))%nat by lia.
  rewrite seq_app, fmap_app. f_equal. rewrite Nat.add_0_l.
  rewrite <- (Nat.add_0_r (Z.to_nat m)), <- fmap_add_seq, <- list_fmap_compose.
  apply list_fmap_ext. intros i x _. simpl. lia.
Qed.

(** ** Property *)

(** C27. A request of [sz] blocks at [addr] is cut into pieces that are, one
    after the other, exactly its blocks; no piece is empty or crosses a
    cluster, there is one per cluster touched, and the loop ends within
    [sz + 1] turns. *)
Theorem blk_walk_exact addr sz bits : 0 <= bits <= 30 → 0 <= addr → 0 < sz →
  addr + sz + 2 ^ bits <= 2 ^ 64 →
  ∃ l, blk_walk (S (Z.to_nat sz)) (blk_begin addr sz bits) = Ret l ∧
    concat ((λ x : Z * Z, (λ k, x.1 + Z.of_nat k) <$> seq 0 (Z.to_nat x.2)) <$> l) =
      (λ k, addr + Z.of_nat k) <$> seq 0 (Z.to_nat sz) ∧
    Forall (λ x : Z * Z, 0 < x.2 ∧ x.1 / 2 ^ bits = (x.1 + x.2 - 1) / 2 ^ bits) l ∧
    Z.of_nat (length l) = (addr + sz - 1) / 2 ^ bits - addr / 2 ^ bits + 1.
Proof.
  intros Hb Ha Hs Hhi. pose proof (B_pos bits Hb) as HB.
  destruct (blk_walk_pieces bits Hb (S (Z.to_nat sz)) addr sz) as (l & E & Hl); try lia.
  exists l. split_and!; [done| | |].
  - apply (pieces_range (2 ^ bits)); [lia|done].
  - eapply Forall_impl; [by eapply pieces_inside; [| |exact Hl]; lia|].
    by intros x (? & _ & _ & ?).
  - apply pieces_count; [lia|done|done|done].
Qed.

Lemma blk_walk_exact_witness :
  ∃ l, blk_walk 11 (blk_begin 13 10 3) = Ret l ∧
    concat ((λ x : Z * Z, (λ k, x.1 + Z.of_nat k) <$> seq 0 (Z.to_nat x.2)) <$> l) =
      (λ k, 13 + Z.of_nat k) <$> seq 0 10 ∧
    Forall (λ x : Z * Z, 0 < x.2 ∧ x.1 / 8 = (x.1 + x.2 - 1) / 8) l ∧
    Z.of_nat (length l) = 2.
Proof. apply (blk_walk_exact 13 10 3); lia. Defined.
