(* ===== verification/Uring.v ===== *)
(** * Asynchronous block I/O

    include/util/uring.hpp and util/uring.cpp: the entries the program queues
    on its ring, the vectors of buffers it hands over, and the window of
    completions it takes back. What the ring library and the kernel do with
    the entries is outside of the program: the queue of entries filled and not
    yet submitted is kept as the program filled it, and whether the library
    still has a free entry is a parameter. *)
From S2P Require Import Prelude Proto.

(** ** Buffers *)

(** An address: in guest memory, in the buffer of a ticket, or null. *)
Inductive ptr : Type :=
  | PNull
  | PVm (off : Z)
  | PBuf (ticket off : Z).

#[global] Instance ptr_eq_dec : EqDecision ptr.
Proof. solve_decision. Defined.

Definition ptr_add (p : ptr) (n : Z) : ptr :=
  match p with
  | PNull => PNull
  | PVm off => PVm (off + n)
  | PBuf t off => PBuf t (off + n)
  end.

Record iovec : Type := Iovec { iov_base : ptr; iov_len : Z }.

#[global] Instance iovec_eq_dec : EqDecision iovec.
Proof. solve_decision. Defined.

(** A buffer that starts where the last one ends extends it. *)
Definition iovec_append (t : list iovec) (base : ptr) (len : Z) : list iovec :=
  match last t with
  | Some b =>
    if bool_decide (base = ptr_add (iov_base b) (iov_len b))
    then removelast t ++ [Iovec (iov_base b) (iov_len b + len)]
    else t ++ [Iovec base len]
  | None => t ++ [Iovec base len]
  end.

Definition iovec_try_append (v : iovec) (base : ptr) (len : Z) : iovec * bool :=
  if bool_decide (iov_base v ≠ PNull) &&
     bool_decide (base = ptr_add (iov_base v) (iov_len v))
  then (Iovec (iov_base v) (iov_len v + len), true)
  else (Iovec base len, false).

(** ** Entries *)

Inductive io_op : Type :=
  | IoRead (buf : ptr) (n off : Z)
  | IoWrite (buf : ptr) (n off : Z)
  | IoReadFixed (buf : ptr) (n off buf_index : Z)
  | IoWriteFixed (buf : ptr) (n off buf_index : Z)
  | IoReadv (iovs : list iovec) (off rwflags : Z)
  | IoWritev (iovs : list iovec) (off rwflags : Z)
  | IoFallocate (mode off len : Z)
  | IoFsync (fsync_flags : Z).

#[global] Instance io_op_eq_dec : EqDecision io_op.
Proof. solve_decision. Defined.

(** [sq_data] is the address of the ticket; every entry is asynchronous. *)
Record io_uring_sqe : Type := Sqe {
  sq_op : io_op;
  sq_fid : Z;
  sq_fixed : bool;
  sq_link : bool;
  sq_data : Z;
}.

Record io_uring_cqe : Type := Cqe { cq_data : Z; cq_res : Z }.

Definition FALLOC_FL_ZERO_RANGE : Z := 0x10.
Definition IORING_FSYNC_DATASYNC : Z := 1.
Definition RWF_DSYNC : Z := 2.

(** ** The submission queue *)

Section uring.
Context (room : list io_uring_sqe → bool).

Abbreviation ueff := (eff (list io_uring_sqe)).

(** [get_sqe] and the preparation of the entry it returns. *)
Definition queue_sqe (e : io_uring_sqe) : ueff unit :=
  q ← get; if room q then put (q ++ [e]) else throw Eruntime.

Definition queue_read (ticket : Z) (buf : ptr) (n buf_index : Z) (fixed : bool)
    (fid off : Z) : ueff unit :=
  queue_sqe (Sqe (if 0 <=? buf_index then IoReadFixed buf (u32 n) off buf_index
                  else IoRead buf (u32 n) off) fid fixed false ticket).
Definition queue_write (ticket : Z) (buf : ptr) (n buf_index : Z) (fixed : bool)
    (fid off : Z) : ueff unit :=
  queue_sqe (Sqe (if 0 <=? buf_index then IoWriteFixed buf (u32 n) off buf_index
                  else IoWrite buf (u32 n) off) fid fixed false ticket).
Definition queue_readv (ticket : Z) (iovs : list iovec) (fixed : bool)
    (fid off rwflags : Z) : ueff unit :=
  queue_sqe (Sqe (IoReadv iovs off rwflags) fid fixed false ticket).
Definition queue_writev (ticket : Z) (iovs : list iovec) (fixed : bool)
    (fid off rwflags : Z) : ueff unit :=
  queue_sqe (Sqe (IoWritev iovs off rwflags) fid fixed false ticket).
Definition queue_fallocate (ticket : Z) (fixed : bool) (fid mode off len : Z) : ueff unit :=
  queue_sqe (Sqe (IoFallocate mode off len) fid fixed false ticket).
Definition queue_fsync (ticket : Z) (fixed : bool) (fid fl : Z) : ueff unit :=
  queue_sqe (Sqe (IoFsync fl) fid fixed false ticket).

(** [sqe->flags |= IOSQE_IO_LINK] on the entry just queued. *)
Definition link_last : ueff unit :=
  modify (λ q, match last q with
               | Some e => removelast q ++ [Sqe (sq_op e) (sq_fid e) (sq_fixed e) true (sq_data e)]
               | None => q
               end).

End uring.

(** [io_uring_submit] hands all of the filled entries over. *)
Definition sq_kick : eff (list io_uring_sqe) Z := λ q, (Ret (Z.of_nat (length q)), []).

(** ** The completion window *)

(** [cq_commit(wnd, ticketbuf)]: the tickets that fit the buffer, and the window
    without them. *)
Definition cq_commit_into (wnd : list io_uring_cqe) (bufsize : Z) :
    list Z * list io_uring_cqe :=
  let count := Z.min (Z.of_nat (length wnd)) bufsize in
  (cq_data <$> take (Z.to_nat count) wnd, drop (Z.to_nat count) wnd).

(** ** Specification of the buffer vectors *)

(** The addresses of the bytes of a vector, in order. *)
Definition seg_addrs (base : ptr) (len : Z) : list ptr :=
  (λ k, ptr_add base (Z.of_nat k)) <$> seq 0 (Z.to_nat len).
Definition iov_addrs (t : list iovec) : list ptr :=
  concat ((λ v, seg_addrs (iov_base v) (iov_len v)) <$> t).
Definition iov_total (t : list iovec) : Z := foldr (λ v x, iov_len v + x) 0 t.

(** No buffer starts where the one before it ends. *)
Definition not_adjacent (t : list iovec) : Prop :=
  ∀ i v w, t !! i = Some v → t !! S i = Some w →
    iov_base w ≠ ptr_add (iov_base v) (iov_len v).

Lemma ptr_add_add p a b : ptr_add (ptr_add p a) b = ptr_add p (a + b).
Proof. destruct p; simpl; try done; f_equal; lia. Qed.

Lemma ptr_add_0 p : ptr_add p 0 = p.
Proof. destruct p; simpl; try done; f_equal; lia. Qed.

Lemma seg_addrs_app p a b : 0 <= a → 0 <= b →
  seg_addrs p (a + b) = seg_addrs p a ++ seg_addrs (ptr_add p a) b.
Proof.
  intros Ha Hb. unfold seg_addrs.
  replace (Z.to_nat (a + b)) with (Z.to_nat a + Z.to_nat b)%nat by lia.
  rewrite seq_app, fmap_app. f_equal. rewrite Nat.add_0_l.
  rewrite <- (Nat.add_0_r (Z.to_nat a)), <- fmap_add_seq, <- list_fmap_compose.
  apply list_fmap_ext. intros i x _. simpl. rewrite ptr_add_add. f_equal. lia.
Qed.

Lemma iov_addrs_app t u : iov_addrs (t ++ u) = iov_addrs t ++ iov_addrs u.
Proof. unfold iov_addrs. by rewrite fmap_app, concat_app. Qed.

Lemma iov_total_app t u : iov_total (t ++ u) = iov_total t + iov_total u.
Proof. induction t as [|v t IH]; simpl; [done|]. rewrite IH. lia. Qed.

Lemma last_snoc_inv {A} (t : list A) b : last t = Some b → t = removelast t ++ [b].
Proof.
  intros [t' ->]%last_Some. by rewrite removelast_last.
Qed.

Lemma iovec_append_addrs t p n : 0 <= n → Forall (λ v, 0 <= iov_len v) t →
  iov_addrs (iovec_append t p n) = iov_addrs t ++ seg_addrs p n ∧
  iov_total (iovec_append t p n) = iov_total t + n ∧
  Forall (λ v, 0 <= iov_len v) (iovec_append t p n).
Proof.
  intros Hn Ht. unfold iovec_append. destruct (last t) as [b|] eqn:E.
  2:{ rewrite iov_addrs_app, iov_total_app, Forall_app. unfold iov_addrs; simpl.
      rewrite app_nil_r. split_and!; [done|lia|done|by repeat constructor]. }
  case_bool_decide as Hb.
  - pose proof (last_snoc_inv t b E) as Et. set (u := removelast t) in *.
    rewrite Et in Ht. apply Forall_app in Ht as [Hu [Hlb _]%Forall_cons].
    rewrite Et, !iov_addrs_app, !iov_total_app, Forall_app. unfold iov_addrs; simpl.
    rewrite !app_nil_r, seg_addrs_app, Hb by done. rewrite app_assoc.
    split_and!; [done|lia|done|repeat constructor; simpl; lia].
  - rewrite iov_addrs_app, iov_total_app, Forall_app. unfold iov_addrs; simpl.
    rewrite app_nil_r. split_and!; [done|lia|done|by repeat constructor].
Qed.

Lemma iovec_append_length t p n : (length (iovec_append t p n) <= S (length t))%nat.
Proof.
  unfold iovec_append. destruct (last t) as [b|] eqn:E; [|rewrite length_app; simpl; lia].
  case_bool_decide; rewrite length_app; simpl; [|lia].
  apply last_snoc_inv in E. rewrite E at 2. rewrite length_app. simpl. lia.
Qed.

(** A loop that appends the segments one after the other. *)
Definition append_all (t : list iovec) (segs : list (ptr * Z)) : list iovec :=
  foldl (λ t s, iovec_append t s.1 s.2) t segs.

Lemma append_all_addrs segs : ∀ t, Forall (λ s : ptr * Z, 0 <= s.2) segs →
  Forall (λ v, 0 <= iov_len v) t →
  iov_addrs (append_all t segs) =
    iov_addrs t ++ concat ((λ s : ptr * Z, seg_addrs s.1 s.2) <$> segs) ∧
  iov_total (append_all t segs) = iov_total t + foldr (λ s x, s.2 + x) 0 segs ∧
  (length (append_all t segs) <= length t + length segs)%nat.
Proof.
  induction segs as [|[p n] segs IH]; intros t Hs Ht; simpl.
  { rewrite app_nil_r. split_and!; [done|lia|lia]. }
  apply Forall_cons in Hs as [Hn Hs]. simpl in Hn.
  destruct (iovec_append_addrs t p n Hn Ht) as (E1 & E2 & E3).
  destruct (IH (iovec_append t p n) Hs E3) as (F1 & F2 & F3).
  pose proof (iovec_append_length t p n).
  split_and!; [by rewrite F1, E1, <- app_assoc|rewrite F2, E2; simpl; lia|].
  unfold append_all in *. simpl in *. lia.
Qed.
