(* ===== verification/Crypto.v ===== *)
(** * Block ciphers

    include/crypto/tbc.hpp, the interface of the encryptors' engine, and its
    two implementations over a library, crypto/aes_xts_ipp.cpp and
    crypto/aes_xts_libcrypto.cpp. The library's AES-XTS is a parameter; the
    key is part of it. *)
From S2P Require Import Prelude Proto Vm.

(** ** The interface (class tweakable_block_cipher)

    [encrypt(out, data, lba)]: the size of [out], the data and the block
    number; [None] is [false]. The bytes of the result go to the front of
    [out]. *)

Class tweakable_block_cipher (E : Type) : Type := {
  encrypt : E → Z → list Z → Z → option (list Z);
  decrypt : E → Z → list Z → Z → option (list Z);
}.

(** The in-place forms. *)
Definition encrypt_in_place `{tweakable_block_cipher E} (e : E) (data : list Z) (lba : Z) :
    option (list Z) := encrypt e (Z.of_nat (length data)) data lba.
Definition decrypt_in_place `{tweakable_block_cipher E} (e : E) (data : list Z) (lba : Z) :
    option (list Z) := decrypt e (Z.of_nat (length data)) data lba.

(** What the clients rely on: lengths are kept and decryption undoes
    encryption under the same block number. *)
Class CipherLaws (E : Type) `{tweakable_block_cipher E} (e : E) : Prop := {
  encrypt_length n d lba c : encrypt e n d lba = Some c → length c = length d;
  decrypt_encrypt n n' d lba c : encrypt e n d lba = Some c →
    Z.of_nat (length c) <= n' → decrypt e n' c lba = Some d;
}.

(** The tweak: the block number in the first eight bytes, little-endian. *)
Definition make_tweak (lba : Z) : list Z := bytes_of 8 lba ++ bytes_of 8 0.

Definition xts_max_bytes : Z := Z.shiftl 1 20.

Section xts.
(** The library's operation on a buffer with a tweak; an error is [None]. *)
Context (lib_encrypt lib_decrypt : list Z → list Z → option (list Z)).

(** ** aes_xts_ipp: blocks of one fixed size *)

Record aes_xts_ipp : Type := AesXtsIpp { ipp_bs : Z }.

(** The constructor's checks of the block size; [init_ok] is whether the
    library accepts the key and the size. *)
Definition ipp_create (init_ok : bool) (block_size : Z) : outcome aes_xts_ipp :=
  if xts_max_bytes <? block_size then Throw Eout_of_range
  else if negb init_ok then Throw Esystem
  else Ret (AesXtsIpp block_size).

Definition ipp_crypt (op : list Z → list Z → option (list Z)) (e : aes_xts_ipp)
    (out : Z) (data : list Z) (lba : Z) : option (list Z) :=
  if (out <? Z.of_nat (length data)) || negb (Z.of_nat (length data) =? ipp_bs e)
  then None else op data (make_tweak lba).

#[export] Instance ipp_cipher : tweakable_block_cipher aes_xts_ipp := {
  encrypt := ipp_crypt lib_encrypt;
  decrypt := ipp_crypt lib_decrypt;
}.

(** ** aes_xts_libcrypto: blocks up to a maximum *)

Record aes_xts_libcrypto : Type := AesXtsLibcrypto {}.

(** [iv_len] and [key_len] are the library's answers; the initialisations that
    follow succeed or not. *)
Definition libcrypto_create (iv_len key_len key_size : Z) (init_ok : bool) :
    outcome aes_xts_libcrypto :=
  if negb (iv_len =? 16) then Throw Eruntime
  else if negb (key_size =? key_len) then Throw Elogic
  else if negb init_ok then Throw Eruntime
  else Ret AesXtsLibcrypto.

Definition libcrypto_crypt (op : list Z → list Z → option (list Z))
    (_ : aes_xts_libcrypto) (out : Z) (data : list Z) (lba : Z) : option (list Z) :=
  if (out <? Z.of_nat (length data)) || (xts_max_bytes <? Z.of_nat (length data))
  then None else op data (make_tweak lba).

#[export] Instance libcrypto_cipher : tweakable_block_cipher aes_xts_libcrypto := {
  encrypt := libcrypto_crypt lib_encrypt;
  decrypt := libcrypto_crypt lib_decrypt;
}.

(** ** Both keep the contract of the interface, if the library does *)

Context (lib_length : ∀ d t c, lib_encrypt d t = Some c → length c = length d).
Context (lib_inverse : ∀ d t c, lib_encrypt d t = Some c → lib_decrypt c t = Some d).

#[export] Instance ipp_laws e : CipherLaws aes_xts_ipp e.
Proof using All.
  split; unfold encrypt, decrypt, ipp_cipher, ipp_crypt; intros *; case_match eqn:Hc; try done.
  - apply lib_length.
  - intros E Hn. pose proof (lib_length _ _ _ E) as Hl. rewrite <- Hl in Hc. to_prop.
    replace ((n' <? Z.of_nat (length c)) || negb (Z.of_nat (length c) =? ipp_bs e)) with false
      by lia.
    by apply lib_inverse.
Qed.

#[export] Instance libcrypto_laws e : CipherLaws aes_xts_libcrypto e.
Proof using All.
  split; unfold encrypt, decrypt, libcrypto_cipher, libcrypto_crypt; intros *;
    case_match eqn:Hc; try done.
  - apply lib_length.
  - intros E Hn. pose proof (lib_length _ _ _ E) as Hl. rewrite <- Hl in Hc. to_prop.
    replace ((n' <? Z.of_nat (length c)) || (xts_max_bytes <? Z.of_nat (length c))) with false
      by lia.
    by apply lib_inverse.
Qed.
End xts.

(** A concrete cipher for the examples: every byte is combined with the first
    byte of the tweak. *)
Definition demo_xts (d t : list Z) : option (list Z) :=
  Some ((λ x, Z.lxor x (default 0 (head t))) <$> d).

Lemma demo_xts_length d t c : demo_xts d t = Some c → length c = length d.
Proof. intros [= <-]. apply length_fmap. Qed.
Lemma demo_xts_inverse d t c : demo_xts d t = Some c → demo_xts c t = Some d.
Proof.
  intros [= <-]. unfold demo_xts. f_equal. rewrite <- list_fmap_compose.
  rewrite <- (list_fmap_id d) at 2. apply list_fmap_ext. intros i x _. simpl.
  by rewrite Z.lxor_assoc, Z.lxor_nilpotent, Z.lxor_0_r.
Qed.

#[export] Instance demo_cipher : tweakable_block_cipher aes_xts_ipp :=
  ipp_cipher demo_xts demo_xts.
#[export] Instance demo_laws e : CipherLaws aes_xts_ipp e.
Proof. exact (ipp_laws demo_xts demo_xts demo_xts_length demo_xts_inverse e). Qed.
