(* ===== verification/Aio.v ===== *)
(** * Asynchronous controllers

    What the asynchronous controllers share: the tickets of include/tagging.hpp
    on a heap, the ring their entries go to, and the interface a worker loop
    drives them through ([submit_async] of nvme_sender_aio, nvme_encryptor_aio
    and nvme_encryptor_multi). *)
From S2P Require Import Prelude Proto Vm NvmeBase Uring.

(** ** Tickets (struct sq_ticket, mem_ticket, iovec_ticket) *)

Record ticket : Type := Ticket {
  tk_tag : Z;
  tk_iovecs : list iovec;
  tk_nbytes : Z;
  tk_mem : list Z;
}.

#[global] Instance ticket_eq_dec : EqDecision ticket.
Proof. solve_decision. Defined.

(** [nvme]'s cache, guest memory, the entries queued, the tickets by address
    and the next free address. *)
Record aio : Type := Aio {
  a_nv : nvme;
  a_vm : mapping;
  a_sq : list io_uring_sqe;
  a_tickets : gmap Z ticket;
  a_next : Z;
}.

Abbreviation aeff := (eff aio).

Definition set_nv (x : nvme) (s : aio) : aio :=
  Aio x (a_vm s) (a_sq s) (a_tickets s) (a_next s).
Definition set_avm (x : mapping) (s : aio) : aio :=
  Aio (a_nv s) x (a_sq s) (a_tickets s) (a_next s).
Definition set_sq (x : list io_uring_sqe) (s : aio) : aio :=
  Aio (a_nv s) (a_vm s) x (a_tickets s) (a_next s).
Definition set_tickets (x : gmap Z ticket) (s : aio) : aio :=
  Aio (a_nv s) (a_vm s) (a_sq s) x (a_next s).

Definition in_nv {A} : eff nvme A → aeff A := zoom a_nv set_nv.
Definition in_sq {A} : eff (list io_uring_sqe) A → aeff A := zoom a_sq set_sq.

(** [new]: a ticket at an address of its own. *)
Definition new_ticket (t : ticket) : aeff Z :=
  s ← get;
  _ ← put (Aio (a_nv s) (a_vm s) (a_sq s) (<[a_next s := t]> (a_tickets s)) (a_next s + 1));
  mret (a_next s).

(** Change or read the ticket at an address that is allocated. *)
Definition get_ticket (p : Z) : aeff ticket :=
  s ← get; match a_tickets s !! p with Some t => mret t | None => throw Eub end.
Definition upd_ticket (p : Z) (f : ticket → ticket) : aeff unit :=
  t ← get_ticket p; modify (λ s, set_tickets (<[p := f t]> (a_tickets s)) s).
Definition delete_ticket (p : Z) : aeff unit :=
  _ ← get_ticket p; modify (λ s, set_tickets (delete p (a_tickets s)) s).

(** ** The interface of the worker loop

    [submit sq cmd tag]: [Some status] is an answer to give at once, [None] a
    command that completes later under [tag]. *)

Class Controller : Type := {
  submit : Z → nvme_command → Z → aeff (option Z);
}.

(** *** Its contract *)

(** Every entry of the ring belongs to a live ticket, no two to the same one,
    and addresses not yet given out are free. *)
Definition tickets_of (s : aio) : list Z := sq_data <$> a_sq s.
Record aio_ok (s : aio) : Prop := {
  ao_live : ∀ p, p ∈ tickets_of s → is_Some (a_tickets s !! p);
  ao_nodup : NoDup (tickets_of s);
  ao_fresh : ∀ p, is_Some (a_tickets s !! p) → p < a_next s;
}.

(** A command that is taken for later adds one ticket with its tag and one
    entry for it; one that is answered adds neither. *)
Definition submitted (s s' : aio) (tag : Z) : Prop :=
  ∃ t e, tk_tag t = tag ∧ a_tickets s' = <[a_next s := t]> (a_tickets s) ∧
    a_next s' = a_next s + 1 ∧ a_sq s' = a_sq s ++ [e] ∧ sq_data e = a_next s.
Definition answered (s s' : aio) : Prop :=
  a_tickets s' = a_tickets s ∧ a_next s' = a_next s ∧ a_sq s' = a_sq s.

Class ControllerLaws `{Controller} : Prop := {
  submit_law sq cmd tag s r s' : submit sq cmd tag s = (Ret r, s') →
    match r with None => submitted s s' tag | Some _ => answered s s' end;
}.

Lemma submitted_ok s s' tag : aio_ok s → submitted s s' tag → aio_ok s'.
Proof.
  intros [H1 H2 H3] (t & e & Ht & Et & En & Eq & Ed).
  assert (a_next s ∉ tickets_of s) as Hn.
  { intros Hin. apply H1, H3 in Hin. lia. }
  split; unfold tickets_of in *; rewrite ?Eq, ?Et, ?En, ?fmap_app; simpl; rewrite ?Ed.
  - intros p [Hp|Hp%list_elem_of_singleton]%elem_of_app.
    + rewrite lookup_insert_ne; [by apply H1|]. intros <-. done.
    + subst p. rewrite lookup_insert_eq. by eexists.
  - apply NoDup_app. split_and!; [done| |apply NoDup_singleton].
    intros p Hp Hq%list_elem_of_singleton. by subst p.
  - intros p. rewrite lookup_insert_is_Some. intros [->|[_ Hp]]; [lia|].
    apply H3 in Hp. lia.
Qed.

Lemma answered_ok s s' : aio_ok s → answered s s' → aio_ok s'.
Proof.
  intros [H1 H2 H3] (Et & En & Eq). split; unfold tickets_of in *; by rewrite ?Eq, ?Et, ?En.
Qed.
