(* ===== verification/Sender.v ===== *)
(** * Replication of writes to a block device

    nvme/nvme_sender.cpp and nvme/nvme_sender_aio.cpp: the guest's writes are
    handed to the device from the guest's own pages. The device's system calls
    are parameters; the synchronous controller keeps the calls it made. *)
From S2P Require Import Prelude Proto Vm Prp NvmeBase Uring Aio.

Section sender.
Context (ioc : Z + Z) (iov : Z → Z + nvme_id_ns).

(** Status codes of the handlers. *)
Definition sc_internal : Z := Z.lor NVME_SC_DNR NVME_SC_INTERNAL.
Definition sc_invalid_opcode : Z := Z.lor NVME_SC_DNR NVME_SC_INVALID_OPCODE.
Definition sc_invalid_field : Z := Z.lor NVME_SC_DNR NVME_SC_INVALID_FIELD.
Definition sc_lba_range : Z := Z.lor NVME_SC_DNR NVME_SC_LBA_RANGE.

Definition is_fua (cmd : nvme_command) : bool := truthy (Z.land (control cmd) NVME_RW_FUA).
Definition is_sgl (cmd : nvme_command) : bool := truthy (Z.land (flags cmd) NVME_CMD_SGL_ALL).

(** ** nvme_sender *)

Inductive dev_call : Type :=
  | DPwritev (iovs : list iovec) (off rwflags : Z)
  | DFallocate (mode off len : Z)
  | DFdatasync.

Record sender : Type := Sender {
  sd_nv : nvme;
  sd_vm : mapping;
  wvec : list iovec;
  sd_calls : list dev_call;
}.

(** The result of a call on the device, after the calls before it: a count, or
    the negated error number. *)
Context (dev : list dev_call → dev_call → Z).

Definition sd_call (c : dev_call) : eff sender Z :=
  s ← get;
  _ ← put (Sender (sd_nv s) (sd_vm s) (wvec s) (sd_calls s ++ [c]));
  mret (dev (sd_calls s) c).
Definition sd_in_nv {A} : eff nvme A → eff sender A :=
  zoom sd_nv (λ x s, Sender x (sd_vm s) (wvec s) (sd_calls s)).
Definition set_wvec (v : list iovec) (s : sender) : sender :=
  Sender (sd_nv s) (sd_vm s) v (sd_calls s).

(** [for (; !prp_it.at_end(); prp_it++) _wvec.push_back(...)]. *)
Fixpoint gather (fuel : nat) (it : prp_chain_iter) : eff sender unit :=
  match fuel with
  | O => throw Efuel
  | S fuel =>
    if prp_at_end it then mret tt else
    s ← get;
    a ← lift (prp_deref (sd_vm s) it);
    n ← lift (prp_this_nbytes (sd_vm s) it);
    '(o, l) ← lift (get_span (sd_vm s) a n);
    _ ← modify (λ s, set_wvec (wvec s ++ [Iovec (PVm o) l]) s);
    it ← lift (prp_incr (sd_vm s) it);
    gather fuel it
  end.

Definition receive_write (cmd : nvme_command) : eff sender Z :=
  lbas ← sd_in_nv (ns_lba_shift iov (nsid cmd));
  nb ← sd_in_nv (ns_cmd_check_nbytes ioc (nblocks_of cmd) lbas);
  _ ← modify (set_wvec []);
  _ ← gather (prp_fuel nb) (PrpIter (CmdList (prp1 cmd) (prp2 cmd)) 0 nb);
  s ← get;
  ret ← sd_call (DPwritev (wvec s) (u64 (Z.shiftl (slba cmd) lbas))
                   (if is_fua cmd then RWF_DSYNC else 0));
  if negb (ret =? nb) then mret sc_internal else mret NVME_SC_SUCCESS.

Definition EFBIG : Z := 27.
Definition EIO : Z := 5.

Definition receive_write_zeroes (cmd : nvme_command) : eff sender Z :=
  lbas ← sd_in_nv (ns_lba_shift iov (nsid cmd));
  ret ← sd_call (DFallocate FALLOC_FL_ZERO_RANGE (u64 (Z.shiftl (slba cmd) lbas))
                   (u64 (Z.shiftl (nblocks_of cmd) lbas)));
  mret (if ret <? 0 then
          if - ret =? EFBIG then sc_lba_range
          else if - ret =? EIO then NVME_SC_INTERNAL else sc_internal
        else NVME_SC_SUCCESS).

Definition receive_flush : eff sender Z :=
  ret ← sd_call DFdatasync;
  mret (if ret <? 0 then sc_internal else NVME_SC_SUCCESS).

(** The handlers of [receive]: [nvme_exception] first, then any other. *)
Definition receive_handler {S} (e : exn) : eff S Z :=
  match e with
  | Envme code => mret code
  | Eub | Efuel | Eassert => throw e
  | _ => mret sc_internal
  end.

Definition receive (cmd : nvme_command) : eff sender Z :=
  catch
    (if (opcode cmd =? nvme_cmd_write) then
       if negb (is_sgl cmd) then receive_write cmd else mret sc_invalid_opcode
     else if opcode cmd =? nvme_cmd_write_zeroes then receive_write_zeroes cmd
     else if opcode cmd =? nvme_cmd_flush then receive_flush
     else mret sc_invalid_opcode)
    receive_handler.

(** ** nvme_sender_aio *)

Context (room : list io_uring_sqe → bool).

(** The same loop with [iovec_append] on the ticket's vector. *)
Fixpoint gather_aio (fuel : nat) (p : Z) (it : prp_chain_iter) : aeff unit :=
  match fuel with
  | O => throw Efuel
  | S fuel =>
    if prp_at_end it then mret tt else
    s ← get;
    a ← lift (prp_deref (a_vm s) it);
    n ← lift (prp_this_nbytes (a_vm s) it);
    '(o, l) ← lift (get_span (a_vm s) a n);
    _ ← upd_ticket p (λ t, Ticket (tk_tag t) (iovec_append (tk_iovecs t) (PVm o) l)
                             (tk_nbytes t) (tk_mem t));
    it ← lift (prp_incr (a_vm s) it);
    gather_aio fuel p it
  end.

Definition submit_write_async (cmd : nvme_command) (tag : Z) : aeff unit :=
  lbas ← in_nv (ns_lba_shift iov (nsid cmd));
  nb ← in_nv (ns_cmd_check_nbytes ioc (nblocks_of cmd) lbas);
  p ← new_ticket (Ticket tag [] 0 []);
  _ ← gather_aio (prp_fuel nb) p (PrpIter (CmdList (prp1 cmd) (prp2 cmd)) 0 nb);
  t ← get_ticket p;
  in_sq (queue_writev room p (tk_iovecs t) true 0 (u64 (Z.shiftl (slba cmd) lbas))
           (if is_fua cmd then RWF_DSYNC else 0)).

Definition submit_write_zeroes_async (cmd : nvme_command) (tag : Z) : aeff unit :=
  lbas ← in_nv (ns_lba_shift iov (nsid cmd));
  p ← new_ticket (Ticket tag [] 0 []);
  in_sq (queue_fallocate room p true 0 FALLOC_FL_ZERO_RANGE
           (u64 (Z.shiftl (slba cmd) lbas)) (u64 (Z.shiftl (nblocks_of cmd) lbas))).

Definition submit_flush_async (cmd : nvme_command) (tag : Z) : aeff unit :=
  p ← new_ticket (Ticket tag [] 0 []);
  in_sq (queue_fsync room p true 0 IORING_FSYNC_DATASYNC).

Definition submit_async (cmd : nvme_command) (tag : Z) : aeff Z :=
  if (opcode cmd =? nvme_cmd_write) && negb (is_sgl cmd) then
    _ ← submit_write_async cmd tag; mret NVME_SC_SUCCESS
  else if opcode cmd =? nvme_cmd_write_zeroes then
    _ ← submit_write_zeroes_async cmd tag; mret NVME_SC_SUCCESS
  else if opcode cmd =? nvme_cmd_flush then
    _ ← submit_flush_async cmd tag; mret NVME_SC_SUCCESS
  else mret sc_invalid_opcode.

(** The worker of replicator-aio.cpp answers at once unless the status is
    "success". *)
#[export] Instance sender_controller : Controller := {
  submit _ cmd tag :=
    st ← submit_async cmd tag;
    mret (if negb (st =? NVME_SC_SUCCESS) then Some st else None);
}.
End sender.

(** ** The gathering loops *)

Definition in_vm (vm : mapping) (x : Z * Z) : Prop := get_span vm x.1 x.2 = Ret x.
Definition seg_iovec (x : Z * Z) : iovec := Iovec (PVm x.1) x.2.

Lemma prp_walk_cons fuel vm it segs : prp_walk (S fuel) vm it = Ret segs →
  (prp_at_end it = true ∧ segs = []) ∨
  ∃ a n it' segs', prp_at_end it = false ∧ prp_deref vm it = Ret a ∧
    prp_this_nbytes vm it = Ret n ∧ prp_incr vm it = Ret it' ∧
    prp_walk fuel vm it' = Ret segs' ∧ segs = (a, n) :: segs'.
Proof.
  simpl. destruct (prp_at_end it); [intros [= <-]; by left|]. intros H. right.
  destruct (prp_deref vm it) as [a|]; [|done].
  destruct (prp_this_nbytes vm it) as [n|]; [|done].
  destruct (prp_incr vm it) as [it'|]; [|done]. cbn [mbind outcome_bind] in H.
  destruct (prp_walk fuel vm it') as [l|] eqn:E; [|done]. injection H as <-.
  by exists a, n, it', l.
Qed.

Lemma gather_spec fuel : ∀ it segs s, prp_walk fuel (sd_vm s) it = Ret segs →
  Forall (in_vm (sd_vm s)) segs →
  gather fuel it s = (Ret tt, set_wvec (wvec s ++ (seg_iovec <$> segs)) s).
Proof.
  induction fuel as [|fuel IH]; intros it segs s Hw Hs; [done|].
  destruct (prp_walk_cons _ _ _ _ Hw) as
    [(He & ->)|(a & n & it' & segs' & He & Ha & Hn & Hi & Hw' & ->)]; simpl; rewrite He.
  { rewrite app_nil_r. by destruct s. }
  apply Forall_cons in Hs as [Hin Hs]. unfold in_vm in Hin. simpl in Hin.
  unfold mbind, eff_bind, get, lift, modify. rewrite Ha, Hn, Hin. cbv beta iota.
  cbn [sd_vm set_wvec]. rewrite Hi. cbv beta iota.
  rewrite (IH it' segs') by done. cbn [wvec set_wvec]. by rewrite <- app_assoc.
Qed.

Definition set_iovecs (v : list iovec) (t : ticket) : ticket :=
  Ticket (tk_tag t) v (tk_nbytes t) (tk_mem t).

Lemma gather_aio_spec fuel p : ∀ it segs s t, prp_walk fuel (a_vm s) it = Ret segs →
  Forall (in_vm (a_vm s)) segs → a_tickets s !! p = Some t →
  gather_aio fuel p it s = (Ret tt, set_tickets (<[p := set_iovecs
    (append_all (tk_iovecs t) ((λ x, (PVm x.1, x.2)) <$> segs)) t]> (a_tickets s)) s).
Proof.
  induction fuel as [|fuel IH]; intros it segs s t Hw Hs Ht; [done|].
  destruct (prp_walk_cons _ _ _ _ Hw) as
    [(He & ->)|(a & n & it' & segs' & He & Ha & Hn & Hi & Hw' & ->)]; simpl; rewrite He.
  { unfold set_iovecs. destruct s, t; simpl in *. by rewrite insert_id. }
  apply Forall_cons in Hs as [Hin Hs]. unfold in_vm in Hin. simpl in Hin.
  unfold upd_ticket, get_ticket, mbind, eff_bind, mret, eff_ret, get, lift, modify.
  rewrite Ha, Hn, Hin. cbv beta iota. rewrite Ht. cbv beta iota.
  cbn [a_vm set_tickets]. rewrite Hi. cbv beta iota.
  rewrite (IH it' segs' _ (set_iovecs (iovec_append (tk_iovecs t) (PVm a) n) t)).
  - cbn. unfold set_tickets. cbn. by rewrite insert_insert_eq.
  - done.
  - done.
  - cbn. by rewrite lookup_insert_eq.
Qed.

(** What the loop may do to the heap, whatever the guest's memory holds. *)
Definition only_ticket (p : Z) (s s' : aio) : Prop :=
  a_sq s' = a_sq s ∧ a_next s' = a_next s ∧
  ∀ t, a_tickets s !! p = Some t → ∃ t', tk_tag t' = tk_tag t ∧
    a_tickets s' = <[p := t']> (a_tickets s).

Lemma only_ticket_refl p s : only_ticket p s s.
Proof. split_and!; try done. intros t Ht. exists t. by rewrite insert_id. Qed.

Lemma only_ticket_trans p s1 s2 s3 : only_ticket p s1 s2 → only_ticket p s2 s3 →
  only_ticket p s1 s3.
Proof.
  intros (E1 & E2 & E3) (F1 & F2 & F3). split_and!; [congruence|congruence|].
  intros t Ht. destruct (E3 t Ht) as (t2 & T2 & M2).
  destruct (F3 t2) as (t3 & T3 & M3); [by rewrite M2, lookup_insert_eq|].
  exists t3. split; [congruence|]. by rewrite M3, M2, insert_insert_eq.
Qed.

Lemma upd_ticket_only p f s r s' : (∀ t, tk_tag (f t) = tk_tag t) →
  upd_ticket p f s = (r, s') → only_ticket p s s'.
Proof.
  intros Hf. unfold upd_ticket, get_ticket, mbind, eff_bind, get, modify, throw, mret, eff_ret.
  destruct (a_tickets s !! p) as [t|] eqn:E; intros [= <- <-]; [|apply only_ticket_refl].
  split_and!; try done. simpl. intros t' Ht'. rewrite E in Ht'. injection Ht' as <-.
  by exists (f t).
Qed.

Lemma gather_aio_only fuel p : ∀ it s r s', gather_aio fuel p it s = (Ret r, s') →
  only_ticket p s s'.
Proof.
  induction fuel as [|fuel IH]; intros it s r s'; simpl; [done|].
  destruct (prp_at_end it); [intros [= <- <-]; apply only_ticket_refl|]. intros H.
  apply bind_inv in H as (x & s1 & [= <- <-] & H).
  apply bind_inv in H as (a & s1 & [= _ <-] & H).
  apply bind_inv in H as (n & s1 & [= _ <-] & H).
  apply bind_inv in H as ([o l] & s1 & [= _ <-] & H).
  apply bind_inv in H as ([] & s1 & E & H).
  apply bind_inv in H as (it' & s2 & [= _ <-] & H).
  eapply only_ticket_trans; [by eapply upd_ticket_only in E|by eapply IH].
Qed.

Lemma in_nv_keeps {A} (m : eff nvme A) s r s' : in_nv m s = (r, s') →
  a_vm s' = a_vm s ∧ a_sq s' = a_sq s ∧ a_tickets s' = a_tickets s ∧ a_next s' = a_next s.
Proof. unfold in_nv, zoom. destruct (m (a_nv s)) as [o t]. by intros [= <- <-]. Qed.

(** Queueing an entry for the ticket just made. *)
Lemma queue_submitted room s s1 s2 t t1 tag e r :
  a_sq s1 = a_sq s → a_next s1 = a_next s + 1 →
  a_tickets s1 = <[a_next s := t]> (<[a_next s := t1]> (a_tickets s)) →
  tk_tag t = tag → sq_data e = a_next s →
  in_sq (queue_sqe room e) s1 = (Ret r, s2) → submitted s s2 tag.
Proof.
  intros Eq En Et Htag Hd H. unfold in_sq, zoom, queue_sqe in H.
  unfold mbind, eff_bind, get, put, throw in H. cbv beta iota in H.
  destruct (room (a_sq s1)); [|done]. injection H as _ <-. exists t, e. simpl.
  rewrite Eq, En, Et, insert_insert_eq. done.
Qed.

#[export] Instance sender_controller_laws ioc iov room :
  @ControllerLaws (sender_controller ioc iov room).
Proof.
  split. intros sq cmd tag s r s' H. unfold submit, sender_controller in H.
  apply bind_inv in H as (st & s1 & H & [= <- <-]).
  unfold submit_async in H.
  destruct ((opcode cmd =? nvme_cmd_write) && negb (is_sgl cmd));
    [|destruct (opcode cmd =? nvme_cmd_write_zeroes);
      [|destruct (opcode cmd =? nvme_cmd_flush)]].
  - apply bind_inv in H as ([] & s2 & H & [= <- <-]). simpl.
    unfold submit_write_async in H.
    apply bind_inv in H as (lbas & sa & Ha & H).
    apply bind_inv in H as (nb & sb & Hb & H).
    apply in_nv_keeps in Ha as (_ & A1 & A2 & A3).
    apply in_nv_keeps in Hb as (_ & B1 & B2 & B3).
    apply bind_inv in H as (p & sc & [= <- <-] & H).
    apply bind_inv in H as ([] & sd & Hg & H).
    apply gather_aio_only in Hg as (G1 & G2 & G3). simpl in G1, G2, G3.
    destruct (G3 _ (lookup_insert_eq _ _ _)) as (t & Ht & G4). simpl in Ht.
    apply bind_inv in H as (t' & se & Ht' & H).
    unfold get_ticket, mbind, eff_bind, get in Ht'. rewrite G4, B3, A3 in Ht'.
    rewrite lookup_insert_eq in Ht'. injection Ht' as <- <-. rewrite B3, A3 in G4, H.
    eapply (queue_submitted room s sd _ t (Ticket tag [] 0 [])); [| | | | |exact H];
      rewrite ?G4; first [congruence|done].
  - apply bind_inv in H as ([] & s2 & H & [= <- <-]). simpl.
    unfold submit_write_zeroes_async in H.
    apply bind_inv in H as (lbas & sa & Ha & H).
    apply in_nv_keeps in Ha as (_ & A1 & A2 & A3).
    apply bind_inv in H as (p & sc & [= <- <-] & H).
    eapply (queue_submitted room s _ _ (Ticket tag [] 0 []) (Ticket tag [] 0 []));
      [| | | | |exact H]; simpl; rewrite ?insert_insert_eq; first [congruence|done].
  - apply bind_inv in H as ([] & s2 & H & [= <- <-]). simpl.
    unfold submit_flush_async in H.
    apply bind_inv in H as (p & sc & [= <- <-] & H).
    eapply (queue_submitted room s _ _ (Ticket tag [] 0 []) (Ticket tag [] 0 []));
      [| | | | |exact H]; simpl; rewrite ?insert_insert_eq; first [congruence|done].
  - injection H as <- <-. done.
Qed.

(** *** Writes step by step *)

(** The segments of a compliant layout inside of guest memory. *)
Lemma layout_segments vm p1 p2 n pages : 0 < n < 2 ^ 64 → vm_size vm < 2 ^ 64 →
  prp_layout vm p1 p2 n pages →
  Forall (λ x : Z * Z, 0 <= x.1 ∧ x.1 + x.2 <= vm_size vm) (segments pages n) →
  prp_walk (prp_fuel n) vm (PrpIter (CmdList p1 p2) 0 n) = Ret (segments pages n) ∧
  Forall in_page (segments pages n) ∧ Forall (in_vm vm) (segments pages n).
Proof.
  intros Hn Hvm Hl Hin.
  pose proof (prp_layout_walk vm p1 p2 n pages (prp_fuel n) Hn Hl
    ltac:(unfold prp_fuel; lia)) as Hw.
  assert (Forall in_page (segments pages n)) as Hpg.
  { eapply prp_walk_in_page; [|exact Hw]. split; simpl; lia. }
  split_and!; [done|done|]. rewrite Forall_forall in Hin, Hpg |- *. intros x Hx.
  destruct (Hin x Hx). specialize (Hpg x Hx). unfold in_page in Hpg. unfold in_vm.
  rewrite get_span_Ret by lia. rewrite decide_True by lia. by destruct x.
Qed.

Lemma transfer_segments nv vm cmd ns pages : transfer_ok nv vm cmd ns pages →
  let segs := segments pages (cmd_bytes cmd ns) in
  prp_walk (prp_fuel (cmd_bytes cmd ns)) vm
    (PrpIter (CmdList (prp1 cmd) (prp2 cmd)) 0 (cmd_bytes cmd ns)) = Ret segs ∧
  Forall (λ x : Z * Z, 0 <= x.2 ∧ in_vm vm x) segs.
Proof.
  intros Hok segs. pose proof (cmd_bytes_range cmd ns (to_shift _ _ _ _ _ Hok)) as Hn.
  destruct (layout_segments vm (prp1 cmd) (prp2 cmd) _ pages Hn (to_vm _ _ _ _ _ Hok)
    (to_layout _ _ _ _ _ Hok) (to_inside _ _ _ _ _ Hok)) as (Hw & Hpg & Hvm).
  split; [done|]. rewrite Forall_forall in Hpg, Hvm |- *. intros x Hx. split; [|by apply Hvm].
  destruct (Hpg x Hx). lia.
Qed.

(** The checks of its size. *)
Lemma transfer_checks ioc iov nv vm cmd ns pages : transfer_ok nv vm cmd ns pages →
  ns_lba_shift iov (nsid cmd) nv = (Ret (lba_shift ns), nv) ∧
  ns_cmd_check_nbytes ioc (nblocks_of cmd) (lba_shift ns) nv = (Ret (cmd_bytes cmd ns), nv).
Proof.
  intros [Hnsid (mdts & Hid & Hc) Hns Hsh _ _ _ _]. pose proof (cmd_bytes_range cmd ns Hsh) as Hn.
  split; [by apply ns_lba_shift_cached|].
  rewrite (ns_cmd_check_cached ioc _ mdts) by done. unfold cmd_bytes in *.
  rewrite Z.shiftl_mul_pow2 by lia. by rewrite u64_small by lia.
Qed.

(** Merging the buffers of segments keeps their bytes. *)
Lemma merged_segments segs : Forall in_page segs →
  let v := append_all [] ((λ x : Z * Z, (PVm x.1, x.2)) <$> segs) in
  iov_addrs v = iov_addrs (seg_iovec <$> segs) ∧ iov_total v = total segs ∧
  (length v <= length segs)%nat.
Proof.
  intros Hpg v. set (segp := (λ x : Z * Z, (PVm x.1, x.2)) <$> segs) in *.
  destruct (append_all_addrs segp []) as (V1 & V2 & V3); [|constructor|].
  { unfold segp. rewrite Forall_fmap. eapply Forall_impl; [exact Hpg|].
    intros x [? _]. simpl. lia. }
  fold v in V1, V2, V3. split_and!.
  - rewrite V1. unfold iov_addrs, segp. by rewrite <- !list_fmap_compose.
  - rewrite V2. unfold segp, total. rewrite Z.add_0_l. clear.
    induction segs as [|x l IH]; simpl; [done|]. f_equal. exact IH.
  - rewrite <- (length_fmap (λ x : Z * Z, (PVm x.1, x.2)) segs). exact V3.
Qed.

Section write.
Context (ioc : Z + Z) (iov : Z → Z + nvme_id_ns) (nv : nvme) (vm : mapping) (cmd : nvme_command)
  (lbas n : Z) (segs : list (Z * Z)).
Context (Hop : opcode cmd = nvme_cmd_write) (Hsgl : is_sgl cmd = false).
Context (Hsh : ns_lba_shift iov (nsid cmd) nv = (Ret lbas, nv)).
Context (Hn : ns_cmd_check_nbytes ioc (nblocks_of cmd) lbas nv = (Ret n, nv)).
Context (Hw : prp_walk (prp_fuel n) vm (PrpIter (CmdList (prp1 cmd) (prp2 cmd)) 0 n) = Ret segs).
Context (Hvm : Forall (in_vm vm) segs).
Let off := u64 (Z.shiftl (slba cmd) lbas).
Let fl := if is_fua cmd then RWF_DSYNC else 0.

Lemma receive_write_run dev s : sd_nv s = nv → sd_vm s = vm →
  let c := DPwritev (seg_iovec <$> segs) off fl in
  ∃ s1, receive ioc iov dev cmd s =
    (Ret (if dev (sd_calls s) c =? n then NVME_SC_SUCCESS else sc_internal), s1) ∧
    sd_calls s1 = sd_calls s ++ [c] ∧ sd_nv s1 = nv ∧ sd_vm s1 = vm.
Proof using All.
  intros Env Evm c. eexists. split.
  - unfold receive, catch. rewrite Hop, Hsgl, Z.eqb_refl. cbn [negb andb].
    unfold receive_write.
    rewrite (bind_Ret (sd_in_nv _) _ s lbas s)
      by (unfold sd_in_nv, zoom; rewrite Env, Hsh; rewrite <- Env; by destruct s).
    rewrite (bind_Ret (sd_in_nv _) _ s n s)
      by (unfold sd_in_nv, zoom; rewrite Env, Hn; rewrite <- Env; by destruct s).
    rewrite (bind_Ret (modify _) _ s tt (set_wvec [] s)) by done.
    rewrite (bind_Ret _ _ _ _ _ (gather_spec _ _ segs (set_wvec [] s)
      ltac:(simpl; rewrite Evm; exact Hw) ltac:(simpl; rewrite Evm; exact Hvm))).
    unfold sd_call, mbind, eff_bind, get, put, mret, eff_ret. cbv beta iota zeta.
    cbn [wvec set_wvec sd_calls app]. fold off fl c.
    by destruct (dev (sd_calls s) c =? n).
  - done.
Qed.

Lemma submit_write_run room a tag : a_nv a = nv → a_vm a = vm → room (a_sq a) = true →
  let v := append_all [] ((λ x : Z * Z, (PVm x.1, x.2)) <$> segs) in
  ∃ a1, submit_async ioc iov room cmd tag a = (Ret NVME_SC_SUCCESS, a1) ∧
    a_sq a1 = a_sq a ++ [Sqe (IoWritev v off fl) 0 true false (a_next a)] ∧
    a_tickets a1 = <[a_next a := Ticket tag v 0 []]> (a_tickets a) ∧
    a_nv a1 = a_nv a ∧ a_vm a1 = a_vm a.
Proof using All.
  intros Env Evm Hroom v. eexists. split.
  - unfold submit_async. rewrite Hop, Hsgl, Z.eqb_refl. cbn [negb andb].
    unfold submit_write_async. erewrite bind_Ret; [done|].
    rewrite (bind_Ret (in_nv _) _ a lbas a)
      by (unfold in_nv, zoom; rewrite Env, Hsh; rewrite <- Env; by destruct a).
    rewrite (bind_Ret (in_nv _) _ a n a)
      by (unfold in_nv, zoom; rewrite Env, Hn; rewrite <- Env; by destruct a).
    set (t0 := Ticket tag [] 0 []).
    set (a1 := Aio (a_nv a) (a_vm a) (a_sq a) (<[a_next a := t0]> (a_tickets a)) (a_next a + 1)).
    rewrite (bind_Ret (new_ticket t0) _ a (a_next a) a1) by done.
    rewrite <- Evm in Hw, Hvm.
    rewrite (bind_Ret _ _ _ _ _ (gather_aio_spec _ (a_next a) _ segs a1 t0 Hw Hvm
      (lookup_insert_eq _ _ _))).
    change (append_all (tk_iovecs t0) _) with v.
    change (a_tickets a1) with (<[a_next a := t0]> (a_tickets a)). rewrite insert_insert_eq.
    set (a2 := set_tickets _ a1).
    rewrite (bind_Ret (get_ticket (a_next a)) _ a2 (set_iovecs v t0) a2)
      by (unfold get_ticket, mbind, eff_bind, get; cbn; by rewrite lookup_insert_eq).
    unfold in_sq, zoom, queue_writev, queue_sqe, mbind, eff_bind, get.
    cbn [a_sq a2 set_tickets a1]. rewrite Hroom. done.
  - done.
Qed.
End write.

(** A write of zeroes, whatever the device answers. *)
Definition zeroes_status (ret : Z) : Z :=
  if ret <? 0 then
    if - ret =? EFBIG then sc_lba_range else if - ret =? EIO then NVME_SC_INTERNAL else sc_internal
  else NVME_SC_SUCCESS.

Lemma receive_zeroes_run ioc iov dev cmd ns s : opcode cmd = nvme_cmd_write_zeroes →
  0 < nsid cmd < MAX_VIRTUAL_NAMESPACES → nv_idns (sd_nv s) !! nsid cmd = Some ns →
  let c := DFallocate FALLOC_FL_ZERO_RANGE (u64 (Z.shiftl (slba cmd) (lba_shift ns)))
             (u64 (Z.shiftl (nblocks_of cmd) (lba_shift ns))) in
  receive ioc iov dev cmd s = (Ret (zeroes_status (dev (sd_calls s) c)),
    Sender (sd_nv s) (sd_vm s) (wvec s) (sd_calls s ++ [c])).
Proof.
  intros Hop Hn Hns c. unfold receive, catch. rewrite Hop.
  change (nvme_cmd_write_zeroes =? nvme_cmd_write) with false.
  rewrite Z.eqb_refl. cbv iota. unfold receive_write_zeroes.
  rewrite (bind_Ret (sd_in_nv _) _ s (lba_shift ns) s).
  2:{ unfold sd_in_nv, zoom. rewrite (ns_lba_shift_cached iov _ _ _ Hn Hns). by destruct s. }
  unfold sd_call, mbind, eff_bind, get, put, mret, eff_ret. cbv beta iota zeta.
  fold c. reflexivity.
Qed.

(** ** Property *)

(** C28. A write is handed to the device as it is in the guest's memory: on a
    compliant layout inside of guest memory the synchronous controller makes
    one call with the data segments of the command, in order, at the byte
    offset of its first block, and answers "success" exactly when the device
    took every byte; the asynchronous one queues one entry, for a new ticket
    with the command's tag, whose vector holds the same addresses in the same
    order in at most as many buffers. *)
Theorem sender_write_exact ioc iov dev room s0 a cmd tag mdts ns pages :
  let n := nblocks_of cmd * 2 ^ lba_shift ns in
  let segs := segments pages n in
  let off := u64 (Z.shiftl (slba cmd) (lba_shift ns)) in
  let fl := if is_fua cmd then RWF_DSYNC else 0 in
  sd_nv s0 = a_nv a → sd_vm s0 = a_vm a →
  0 < nsid cmd < MAX_VIRTUAL_NAMESPACES → opcode cmd = nvme_cmd_write → is_sgl cmd = false →
  nv_id (a_nv a) = Some mdts → nv_idns (a_nv a) !! nsid cmd = Some ns →
  0 <= lba_shift ns <= 12 → vm_size (a_vm a) < 2 ^ 64 →
  check_nblocks (nblocks_of cmd) mdts (lba_shift ns) = true →
  prp_layout (a_vm a) (prp1 cmd) (prp2 cmd) n pages →
  Forall (λ x : Z * Z, 0 <= x.1 ∧ x.1 + x.2 <= vm_size (a_vm a)) segs →
  room (a_sq a) = true →
  ∃ s1 a1 v,
    receive ioc iov dev cmd s0 =
      (Ret (if dev (sd_calls s0) (DPwritev (seg_iovec <$> segs) off fl) =? n
            then NVME_SC_SUCCESS else sc_internal), s1) ∧
    sd_calls s1 = sd_calls s0 ++ [DPwritev (seg_iovec <$> segs) off fl] ∧
    submit_async ioc iov room cmd tag a = (Ret NVME_SC_SUCCESS, a1) ∧
    a_sq a1 = a_sq a ++ [Sqe (IoWritev v off fl) 0 true false (a_next a)] ∧
    a_tickets a1 = <[a_next a := Ticket tag v 0 []]> (a_tickets a) ∧
    iov_addrs v = iov_addrs (seg_iovec <$> segs) ∧ iov_total v = n ∧
    (length v <= length segs)%nat.
Proof.
  intros n segs off fl Env Evm Hnsid Hop Hsgl Hid Hns Hsh Hvm Hc Hl Hin Hroom.
  assert (0 < 2 ^ lba_shift ns <= 2 ^ 12) as HL.
  { split; [apply Z.pow_pos_nonneg; lia|apply Z.pow_le_mono_r; lia]. }
  pose proof (nblocks_range cmd) as Hnb.
  assert (0 < n < 2 ^ 64) as Hn by (unfold n; nia).
  destruct (layout_segments _ _ _ _ _ Hn Hvm Hl Hin) as (Hw & Hpg & Hseg). fold segs in Hw, Hpg, Hseg.
  pose proof (prp_layout_total _ _ _ _ _ Hn Hl) as Htot. fold segs in Htot.
  assert (ns_lba_shift iov (nsid cmd) (a_nv a) = (Ret (lba_shift ns), a_nv a)) as E1
    by by apply ns_lba_shift_cached.
  assert (ns_cmd_check_nbytes ioc (nblocks_of cmd) (lba_shift ns) (a_nv a) = (Ret n, a_nv a)) as E2.
  { rewrite (ns_cmd_check_cached ioc _ mdts) by done.
    rewrite Z.shiftl_mul_pow2 by lia. fold n. by rewrite u64_small by lia. }
  destruct (receive_write_run ioc iov _ _ cmd _ _ _ Hop Hsgl E1 E2 Hw Hseg dev s0 Env Evm)
    as (s1 & R1 & R2 & _).
  destruct (submit_write_run ioc iov _ _ cmd _ _ _ Hop Hsgl E1 E2 Hw Hseg room a tag
    eq_refl eq_refl Hroom) as (a1 & A1 & A2 & A3 & _).
  destruct (merged_segments segs Hpg) as (V1 & V2 & V3).
  eexists s1, a1, _. split_and!; try done. congruence.
Qed.

Lemma sender_write_exact_witness :
  let vm := Mapping ∅ 262144 in
  let s0 := Sender demo_ctrl vm [] [] in
  let a := Aio demo_ctrl vm [] ∅ 0 in
  let segs := segments [0x20200; 0x10000] 5120 in
  ∃ s1 a1 v,
    receive (inl 5) (λ _, inl 5) (λ _ _, 5120) demo_cmd s0 = (Ret NVME_SC_SUCCESS, s1) ∧
    sd_calls s1 = [DPwritev (seg_iovec <$> segs) 4096 0] ∧
    submit_async (inl 5) (λ _, inl 5) (λ _, true) demo_cmd 7 a = (Ret NVME_SC_SUCCESS, a1) ∧
    a_sq a1 = [Sqe (IoWritev v 4096 0) 0 true false 0] ∧
    a_tickets a1 = <[0 := Ticket 7 v 0 []]> ∅ ∧
    iov_addrs v = iov_addrs (seg_iovec <$> segs) ∧ iov_total v = 5120 ∧
    (length v <= length segs)%nat.
Proof.
  apply (sender_write_exact (inl 5) (λ _, inl 5) (λ _ _, 5120) (λ _, true)
    (Sender demo_ctrl (Mapping ∅ 262144) [] []) (Aio demo_ctrl (Mapping ∅ 262144) [] ∅ 0)
    demo_cmd 7 5 demo_ns [0x20200; 0x10000]); try reflexivity; try by split.
  - by apply layout_two.
  - repeat constructor; discriminate.
Defined.
