(* ===== verification/Encryptor.v ===== *)
(** * Encryption of a block device

    nvme/nvme_encryptor.cpp: the controller that decrypts what the device read
    into the guest's pages and writes the encryption of the guest's pages to
    the device. The engine is any [tweakable_block_cipher]; [pwrite] is a
    parameter, and the controller keeps the calls it made. *)
From Stdlib Require Import Sorting.Sorted.
From S2P Require Import Prelude Proto Vm Prp NvmeBase Crypto Uring Aio Sender.

Section encryptor.
Context {E : Type} {engine_class : tweakable_block_cipher E} (engine : E).
Context (ioc : Z + Z) (iov : Z → Z + nvme_id_ns).

(** A call of [pwrite]: the offset, the bytes handed over, what it returned. *)
Record pwrite_call : Type := PwriteCall { pw_off : Z; pw_data : list Z; pw_ret : Z }.

(** What [pwrite] returns after the calls before it. *)
Context (pwrite : list pwrite_call → Z → list Z → Z).

(** ** State: the cached identification, guest memory, the two buffers *)

Record encryptor : Type := Encryptor {
  e_nv : nvme;
  e_vm : mapping;
  zerobuf : list Z;
  encbuf : list Z;
  e_calls : list pwrite_call;
}.

Abbreviation eeff := (eff encryptor).

Definition e_in_nv {A} : eff nvme A → eeff A :=
  zoom e_nv (λ x s, Encryptor x (e_vm s) (zerobuf s) (encbuf s) (e_calls s)).
Definition set_evm (x : mapping) (s : encryptor) : encryptor :=
  Encryptor (e_nv s) x (zerobuf s) (encbuf s) (e_calls s).
Definition set_zerobuf (x : list Z) (s : encryptor) : encryptor :=
  Encryptor (e_nv s) (e_vm s) x (encbuf s) (e_calls s).
Definition set_encbuf (x : list Z) (s : encryptor) : encryptor :=
  Encryptor (e_nv s) (e_vm s) (zerobuf s) x (e_calls s).

Definition e_in_vm {A} : eff mapping A → eeff A := zoom e_vm set_evm.
Definition e_in_buf {A} : eff (list Z) A → eeff A := zoom encbuf set_encbuf.

(** [vector::resize] to a size not below the current one. *)
Definition grow (l : list Z) (n : Z) : list Z :=
  l ++ replicate (Z.to_nat n - length l) 0.

(** Bytes through a view of guest memory. *)
Definition view_bytes (vm : mapping) (sp : Z * Z) : list Z :=
  load_bytes (vm_bytes vm) sp.1 (Z.to_nat sp.2).
Definition view_store (vm : mapping) (sp : Z * Z) (l : list Z) : mapping :=
  Mapping (store_bytes (vm_bytes vm) sp.1 l) (vm_size vm).

(** [buf.subspan(off, n)] of a span of [size] bytes. *)
Definition subspan {S} (size off n : Z) : eff S unit :=
  ensure ((0 <=? off) && (0 <=? n) && (off + n <=? size)) Eub.

(** ** Reads: decryption in place

    The loop works on guest memory alone. *)

Fixpoint read_blocks (fuel : nat) (it : nvme_cmd_lba_iter) : eff mapping Z :=
  match fuel with
  | O => throw Efuel
  | S fuel =>
    if lba_at_end it then mret NVME_SC_SUCCESS else
    vm ← get;
    sp ← lift (lba_deref vm it);
    match decrypt_in_place engine (view_bytes vm sp) (lba it) with
    | None => mret sc_internal
    | Some d =>
      _ ← put (view_store vm sp d);
      vm ← get;
      it ← lift (lba_incr vm it);
      read_blocks fuel it
    end
  end.

Definition receive_read (cmd : nvme_command) : eeff Z :=
  lit ← e_in_nv (lba_begin ioc iov cmd);
  e_in_vm (read_blocks (S (Z.to_nat (nblocks_of cmd))) lit).

(** ** Writes: encryption into the buffer, then the buffer to the device

    The loop works on the buffer; [false] when the engine failed. *)

Fixpoint encrypt_blocks (fuel : nat) (vm : mapping) (it : nvme_cmd_lba_iter) :
    eff (list Z) (bool * nvme_cmd_lba_iter) :=
  match fuel with
  | O => throw Efuel
  | S fuel =>
    if lba_at_end it then mret (true, it) else
    let off := u64 (Z.shiftl (command_lba_index it) (li_shift it)) in
    _ ← subspan (li_nbytes it) off (cmd_lba_size it);
    sp ← lift (lba_deref vm it);
    match encrypt engine (cmd_lba_size it) (view_bytes vm sp) (lba it) with
    | None => mret (false, it)
    | Some c =>
      _ ← modify (list_inserts (Z.to_nat off) c);
      it ← lift (lba_incr vm it);
      encrypt_blocks fuel vm it
    end
  end.

(** The loop around [pwrite] over the first [size] bytes of the buffer, with
    the answer for a count of 0. A count is positive, so [size] turns are
    enough. *)
Fixpoint pwrite_loop (fuel : nat) (size base remaining : Z) (on_eof : Z) : eeff Z :=
  match fuel with
  | O => throw Efuel
  | S fuel =>
    if remaining =? 0 then mret NVME_SC_SUCCESS else
    s ← get;
    let boff := size - remaining in
    let data := take (Z.to_nat remaining) (drop (Z.to_nat boff) (encbuf s)) in
    let ret := pwrite (e_calls s) (u64 (base + boff)) data in
    _ ← put (Encryptor (e_nv s) (e_vm s) (zerobuf s) (encbuf s)
               (e_calls s ++ [PwriteCall (u64 (base + boff)) data ret]));
    if (ret <? 0) || (remaining <? ret) then throw Esystem
    else if ret =? 0 then mret on_eof
    else pwrite_loop fuel size base (remaining - ret) on_eof
  end.

Definition receive_write_copyback (cmd : nvme_command) : eeff Z :=
  lit ← e_in_nv (lba_begin ioc iov cmd);
  let n := li_nbytes lit in
  _ ← modify (λ s, if Z.of_nat (length (encbuf s)) <? n
                   then set_encbuf (grow (encbuf s) n) s else s);
  s ← get;
  '(ok, lit) ← e_in_buf (encrypt_blocks (S (Z.to_nat (nblocks_of cmd))) (e_vm s) lit);
  if negb ok then mret sc_internal else
  pwrite_loop (S (Z.to_nat n)) n (u64 (Z.shiftl (li_slba lit) (li_shift lit))) n NVME_SC_SUCCESS.

(** ** Write zeroes: the encryption of zero blocks, 512 at a time *)

Definition wz_nblocks : Z := 512.

(** [count] blocks from the in-chunk index [pli] on. *)
Fixpoint encrypt_zeroes (count : nat) (lbas first pli : Z) : eeff bool :=
  match count with
  | O => mret true
  | S count =>
    s ← get;
    _ ← subspan (Z.shiftl wz_nblocks lbas) (Z.shiftl pli lbas) (Z.shiftl 1 lbas);
    match encrypt engine (Z.shiftl 1 lbas) (take (Z.to_nat (Z.shiftl 1 lbas)) (zerobuf s))
            (u64 (first + pli)) with
    | None => mret false
    | Some c =>
      _ ← modify (λ s, set_encbuf (list_inserts (Z.to_nat (Z.shiftl pli lbas)) c (encbuf s)) s);
      encrypt_zeroes count lbas first (pli + 1)
    end
  end.

Fixpoint zero_chunks (fuel : nat) (lbas slba nblocks cli : Z) : eeff Z :=
  match fuel with
  | O => throw Efuel
  | S fuel =>
    if negb (cli <? nblocks) then mret NVME_SC_SUCCESS else
    let pli := Z.min (nblocks - cli) wz_nblocks in
    ok ← encrypt_zeroes (Z.to_nat pli) lbas (slba + cli) 0;
    if negb ok then mret sc_internal else
    let size := Z.shiftl pli lbas in
    r ← pwrite_loop (S (Z.to_nat size)) size (u64 (Z.shiftl (u64 (slba + cli)) lbas)) size
          sc_lba_range;
    if negb (r =? NVME_SC_SUCCESS) then mret r
    else zero_chunks fuel lbas slba nblocks (cli + pli)
  end.

Definition receive_write_zeroes (cmd : nvme_command) : eeff Z :=
  lbas ← e_in_nv (ns_lba_shift iov (nsid cmd));
  _ ← modify (λ s, if Z.of_nat (length (zerobuf s)) <? Z.shiftl 1 lbas
                   then set_zerobuf (grow (zerobuf s) (Z.shiftl 1 lbas)) s else s);
  _ ← modify (λ s, if Z.of_nat (length (encbuf s)) <? Z.shiftl wz_nblocks lbas
                   then set_encbuf (grow (encbuf s) (Z.shiftl wz_nblocks lbas)) s else s);
  zero_chunks (S (Z.to_nat (nblocks_of cmd))) lbas (slba cmd) (nblocks_of cmd) 0.

Definition receive (cmd : nvme_command) : eeff Z :=
  catch
    (if opcode cmd =? nvme_cmd_read then
       if negb (is_sgl cmd) then receive_read cmd else mret sc_invalid_field
     else if opcode cmd =? nvme_cmd_write then
       if negb (is_sgl cmd) then receive_write_copyback cmd else mret sc_invalid_field
     else if opcode cmd =? nvme_cmd_write_zeroes then receive_write_zeroes cmd
     else mret sc_internal)
    receive_handler.

(** ** Specification *)

(** What the calls leave on the device, by byte: the first [pw_ret] bytes of
    each at its offset. *)
Definition dev_after (d : arr) (calls : list pwrite_call) : arr :=
  foldl (λ d c, store_bytes d (pw_off c) (take (Z.to_nat (pw_ret c)) (pw_data c))) d calls.

(** A device that makes progress. *)
Definition progressing : Prop :=
  ∀ calls off data, data ≠ [] → 0 < pwrite calls off data <= Z.of_nat (length data).

(** The encryption of the blocks of a view, one after the other. *)
Definition block_cipher (vm : mapping) (slba : Z) (x : (Z * Z) * Z) : option (list Z) :=
  encrypt engine x.1.2 (view_bytes vm x.1) (u64 (slba + x.2)).

End encryptor.

(** ** Lemmas *)

Lemma store_bytes_app m off l1 l2 :
  store_bytes m off (l1 ++ l2) =
  store_bytes (store_bytes m off l1) (off + Z.of_nat (length l1)) l2.
Proof.
  revert m off. induction l1 as [|x l1 IH]; intros m off; simpl.
  - f_equal. lia.
  - rewrite IH. f_equal. lia.
Qed.

(** One turn of the block loop. *)
Lemma lba_walk_cons fuel vm it l : lba_walk (S fuel) vm it = Ret l →
  (lba_at_end it = true ∧ l = []) ∨
  (lba_at_end it = false ∧ ∃ sp it' l', lba_deref vm it = Ret sp ∧
    lba_incr vm it = Ret it' ∧ lba_walk fuel vm it' = Ret l' ∧
    l = (sp, command_lba_index it) :: l' ∧ li_slba it' = li_slba it ∧
    li_shift it' = li_shift it ∧ li_nbytes it' = li_nbytes it ∧ sp.2 = cmd_lba_size it).
Proof.
  simpl. destruct (lba_at_end it); [intros [= <-]; by left|intros H; right; split; [done|]].
  destruct (lba_deref vm it) as [sp|] eqn:Hd; [|done].
  destruct (lba_incr vm it) as [it'|] eqn:Hi; [|done]. cbn [mbind outcome_bind] in H.
  destruct (lba_walk fuel vm it') as [l'|] eqn:Hw; [|done]. injection H as <-.
  exists sp, it', l'. split_and!; try done.
  1-3: unfold lba_incr in Hi; destruct (prp_this_nbytes vm (li_prp it)); [|done];
    cbn [mbind outcome_bind] in Hi; case_match; [|by injection Hi as <-];
    destruct (prp_incr vm (li_prp it)); [|done]; by injection Hi as <-.
  unfold lba_deref in Hd. destruct (prp_deref vm (li_prp it)); [|done].
  cbn [mbind outcome_bind] in Hd. unfold get_span in Hd.
  case_match; [done|]. by injection Hd as <-.
Qed.

Lemma lba_index it : lba it = u64 (li_slba it + command_lba_index it).
Proof.
  unfold lba, command_lba_index, u64, wrap. rewrite Zplus_mod_idemp_r. f_equal. lia.
Qed.

Lemma length_view_bytes vm sp : length (view_bytes vm sp) = Z.to_nat sp.2.
Proof. apply length_load_bytes. Qed.

(** Writing a block behind the ones already in the buffer. *)
Lemma take_inserts_snoc (b c : list Z) (k : nat) : (k + length c <= length b)%nat →
  take (k + length c) (list_inserts k c b) = take k b ++ c.
Proof.
  intros H. apply list_eq. intros i.
  destruct (decide (i < k + length c)%nat) as [Hi|Hi].
  - rewrite lookup_take_lt by done. destruct (decide (i < k)%nat).
    + rewrite list_lookup_inserts_lt, lookup_app_l, lookup_take_lt by
        (rewrite ?length_take; lia). done.
    + rewrite list_lookup_inserts, lookup_app_r by (rewrite ?length_take; lia).
      f_equal. rewrite length_take. lia.
  - rewrite !lookup_ge_None_2; [done| |]; rewrite ?length_app, ?length_take, ?length_inserts; lia.
Qed.

Section engine.
Context {E : Type} `{engine_laws : CipherLaws E engine}.
Context (sh : Z) (Hsh : 0 <= sh <= 12).
Let L := 2 ^ sh.

(** The engine takes every block of this size. *)
Definition takes_blocks : Prop := ∀ d k, Z.of_nat (length d) = L →
  ∃ c, encrypt engine L d k = Some c.

Lemma encrypt_blocks_spec (Ht : takes_blocks) nb vm fuel : ∀ it l c (buf : list Z),
  lba_walk fuel vm it = Ret l → li_shift it = sh → li_nbytes it = nb * L →
  0 <= c → c + Z.of_nat (length l) <= nb → nb * L < 2 ^ 64 →
  nb * L <= Z.of_nat (length buf) →
  (∀ k x, l !! k = Some x → x.2 = c + Z.of_nat k) →
  ∃ it' b cs, encrypt_blocks engine fuel vm it buf = (Ret (true, it'), b) ∧
    li_slba it' = li_slba it ∧ li_shift it' = sh ∧ li_nbytes it' = li_nbytes it ∧
    length b = length buf ∧
    Forall2 (λ x ct, block_cipher engine vm (li_slba it) x = Some ct) l cs ∧
    take (Z.to_nat ((c + Z.of_nat (length l)) * L)) b =
      take (Z.to_nat (c * L)) buf ++ concat cs.
Proof using All.
  pose proof (L_pos sh Hsh) as HL. fold L in HL.
  induction fuel as [|fuel IH]; intros it l c buf Hw Es En Hc Hcl Hnb Hlen Hidx; [done|].
  apply lba_walk_cons in Hw as [[He ->]|(He & sp & it' & l' & Hd & Hi & Hw & -> & E1 & E2 & E3 & E4)].
  { exists it, buf, []. simpl. rewrite He, Z.add_0_r, app_nil_r. split_and!; done. }
  pose proof (Hidx 0%nat _ eq_refl) as Ec. simpl in Ec. rewrite Z.add_0_r in Ec.
  simpl length in *. unfold cmd_lba_size in E4. rewrite Es, shiftl_1 in E4 by lia. fold L in E4.
  assert (nb * L = (nb - c) * L + c * L) as Enb by lia.
  assert (1 * L <= (nb - c) * L) as Hge by (apply Z.mul_le_mono_nonneg_r; lia).
  destruct (Ht (view_bytes vm sp) (u64 (li_slba it + c))) as [ct Hct].
  { rewrite length_view_bytes, E4. lia. }
  assert (length ct = Z.to_nat L) as Hctl.
  { apply encrypt_length in Hct. by rewrite Hct, length_view_bytes, E4. }
  set (b1 := list_inserts (Z.to_nat (c * L)) ct buf).
  destruct (IH it' l' (c + 1) b1) as (it2 & b & cs & R & R1 & R2 & R2' & R3 & R4 & R5);
    try done; try lia; try congruence.
  { unfold b1. rewrite length_inserts. lia. }
  { intros k x Hk. rewrite (Hidx (S k) x Hk). lia. }
  exists it2, b, (ct :: cs). simpl. rewrite He.
  unfold mbind, mret, eff_bind, eff_ret, modify, lift in *. cbv beta iota.
  rewrite Es, En, Ec, Z.shiftl_mul_pow2 by lia. fold L. rewrite (u64_small (c * L)) by lia.
  unfold cmd_lba_size. rewrite Es, shiftl_1 by lia. fold L.
  unfold subspan, ensure, mret, eff_ret.
  replace ((0 <=? c * L) && (0 <=? L) && (c * L + L <=? nb * L)) with true by lia. cbv iota beta.
  rewrite Hd. rewrite lba_index, Ec, Hct, Hi.
  fold b1. rewrite R. split_and!; try done; try congruence.
  - rewrite R3. apply length_inserts.
  - rewrite E1 in R4. constructor; [|done]. unfold block_cipher. simpl. by rewrite E4.
  - replace (c + Z.of_nat (S (length l'))) with (c + 1 + Z.of_nat (length l')) by lia.
    rewrite R5. unfold b1.
    replace (Z.to_nat ((c + 1) * L)) with (Z.to_nat (c * L) + length ct)%nat by lia.
    rewrite take_inserts_snoc by lia. simpl. by rewrite <- app_assoc.
Qed.
End engine.

(** *** Reading *)

(** Two ranges of bytes that do not meet. *)
Definition apart (a b : Z * Z) : Prop := a.1 + a.2 <= b.1 ∨ b.1 + b.2 <= a.1.

(** Block [x] of memory holds the encryption of [p]. *)
Definition holds_cipher {E} `{tweakable_block_cipher E} (engine : E) (vm : mapping) (slba : Z)
    (x : (Z * Z) * Z) (p : list Z) : Prop :=
  encrypt engine x.1.2 p (u64 (slba + x.2)) = Some (view_bytes vm x.1).

Lemma view_store_same vm sp l : Z.of_nat (length l) = sp.2 →
  view_bytes (view_store vm sp l) sp = l.
Proof.
  intros H. unfold view_bytes, view_store. cbn [vm_bytes].
  replace (Z.to_nat sp.2) with (length l) by lia. apply load_store_bytes.
Qed.

Lemma view_store_apart vm sp l sp' : Z.of_nat (length l) = sp.2 → apart sp sp' →
  view_bytes (view_store vm sp l) sp' = view_bytes vm sp'.
Proof.
  intros H Ha. unfold view_bytes, view_store. destruct (Z.le_gt_cases sp'.2 0).
  - by replace (Z.to_nat sp'.2) with 0%nat by lia.
  - apply load_store_bytes_out. destruct Ha; lia.
Qed.

Lemma view_store_word vm sp l w : Z.of_nat (length l) = sp.2 → apart sp (w, 8) →
  load64 (view_store vm sp l) w = load64 vm w.
Proof.
  intros H Ha. destruct vm. apply load64_agree. intros i Hi. simpl.
  apply aget_store_out. destruct Ha; simpl in *; lia.
Qed.

Lemma view_bytes_agree vm vm' sp :
  (∀ i, sp.1 <= i < sp.1 + sp.2 → aget (vm_bytes vm') i = aget (vm_bytes vm) i) →
  view_bytes vm' sp = view_bytes vm sp.
Proof.
  intros H. unfold view_bytes. destruct sp as [o n]. simpl in *.
  assert (∀ i, o <= i < o + Z.of_nat (Z.to_nat n) → aget (vm_bytes vm') i = aget (vm_bytes vm) i)
    as H' by (intros i Hi; apply H; lia).
  clear H. revert o H'. induction (Z.to_nat n) as [|k IH]; intros o H'; simpl; [done|].
  rewrite H' by lia. f_equal. apply IH. intros i Hi. apply H'. lia.
Qed.

(** A run of the reading loop: the blocks it decrypts, each in the memory the
    ones before left. *)
Inductive read_turns {E} `{tweakable_block_cipher E} (engine : E) :
    nat → nvme_cmd_lba_iter → mapping → mapping → Prop :=
  | turns_end it vm : lba_at_end it = true → read_turns engine 0 it vm vm
  | turns_step k it vm sp d it' vm' : lba_at_end it = false → lba_deref vm it = Ret sp →
      decrypt_in_place engine (view_bytes vm sp) (lba it) = Some d →
      lba_incr (view_store vm sp d) it = Ret it' →
      read_turns engine k it' (view_store vm sp d) vm' → read_turns engine (S k) it vm vm'.

Lemma read_turns_blocks {E} `{tweakable_block_cipher E} (engine : E) k it vm vm' fuel :
  read_turns engine k it vm vm' → (k < fuel)%nat →
  read_blocks engine fuel it vm = (Ret NVME_SC_SUCCESS, vm').
Proof.
  intros Hr. revert fuel. induction Hr as [it vm He|k it vm sp d it' vm' He Hd Hdec Hi _ IH];
    intros [|fuel] Hf; try lia; simpl; rewrite He; [done|].
  unfold mbind, mret, eff_bind, eff_ret, get, lift, put. cbv beta iota.
  rewrite Hd, Hdec, Hi. apply IH. lia.
Qed.

Lemma lba_walk_length fuel vm it l : lba_walk fuel vm it = Ret l → (length l < fuel)%nat.
Proof.
  revert it l. induction fuel as [|fuel IH]; intros it l W; [done|].
  apply lba_walk_cons in W as [[_ ->]|(_ & sp & it' & l' & _ & _ & W & -> & _)]; simpl; [lia|].
  apply IH in W. lia.
Qed.

Lemma read_turns_spec {E} `{CipherLaws E engine} sh vm0 fuel : 0 <= sh <= 12 →
  ∀ it l ps vm,
  lba_walk fuel vm0 it = Ret l → li_shift it = sh → vm_size vm = vm_size vm0 →
  (∀ w, reads_word vm0 (li_prp it) w → load64 vm w = load64 vm0 w) →
  (∀ w, reads_word vm0 (li_prp it) w → Forall (λ x : (Z * Z) * Z, apart x.1 (w, 8)) l) →
  StronglySorted (λ x y : (Z * Z) * Z, apart x.1 y.1) l →
  Forall2 (holds_cipher engine vm (li_slba it)) l ps →
  ∃ vm1, read_turns engine (length l) it vm vm1 ∧
    vm_size vm1 = vm_size vm0 ∧
    Forall2 (λ x p, view_bytes vm1 x.1 = p) l ps ∧
    ∀ i, Forall (λ x : (Z * Z) * Z, apart x.1 (i, 1)) l →
      aget (vm_bytes vm1) i = aget (vm_bytes vm) i.
Proof.
  intros Hsh. pose proof (L_pos sh Hsh) as HL.
  induction fuel as [|fuel IH]; intros it l ps vm W Es Hsz Hsame Hw Hap Hc; [done|].
  apply lba_walk_cons in W as [[He ->]|(He & sp & it' & l' & Hd & Hi & W & -> & E1 & E2 & _ & E4)].
  { apply Forall2_nil_inv_l in Hc as ->. exists vm. split_and!; try done. by constructor. }
  apply Forall2_cons_inv_l in Hc as (p & ps' & Hp & Hc & ->).
  apply StronglySorted_inv in Hap as [Hap Hhd].
  unfold cmd_lba_size in E4. rewrite Es, shiftl_1 in E4 by lia.
  unfold holds_cipher in Hp. simpl in Hp. rewrite <- lba_index in Hp.
  assert (Z.of_nat (length p) = sp.2) as Hpl.
  { apply encrypt_length in Hp. rewrite length_view_bytes in Hp. lia. }
  destruct (lba_step_same vm0 vm it Hsz He Hsame) as [D I].
  set (vm' := view_store vm sp p).
  assert (∀ w, reads_word vm0 (li_prp it) w → load64 vm' w = load64 vm0 w) as Hsame'.
  { intros w Hr. specialize (Hw w Hr). apply Forall_cons in Hw as [Hw _].
    unfold vm'. rewrite view_store_word by done. by apply Hsame. }
  destruct (lba_step_same vm0 vm' it) as [_ I']; try done.
  destruct (IH it' l' ps' vm') as (vm1 & R & R1 & R2 & R3); try done; try congruence.
  - intros w Hr. apply Hsame'. by eapply lba_incr_reads.
  - intros w Hr. pose proof (lba_incr_reads _ _ _ _ Hi Hr) as Hr'.
    specialize (Hw w Hr'). by apply Forall_cons in Hw as [_ Hw].
  - rewrite E1. clear -Hc Hhd Hpl.
    induction Hc as [|x q l q' Hx Hc IH]; [constructor|].
    apply Forall_cons in Hhd as [Hx' Hhd]. constructor; [|by apply IH].
    unfold holds_cipher, vm' in *. by rewrite view_store_apart.
  - exists vm1. split_and!; try done.
    + apply (turns_step _ _ _ _ sp p it'); [done|by rewrite D| | |done].
      * unfold decrypt_in_place. by rewrite (decrypt_encrypt _ _ _ _ _ Hp) by lia.
      * fold vm'. by rewrite I', Hi.
    + constructor; [|done]. etransitivity; [|by apply (view_store_same vm sp p)].
      apply view_bytes_agree. intros i Hin. apply R3. eapply Forall_impl; [exact Hhd|].
      intros x [Hx|Hx]; simpl in *; [right|left]; simpl; lia.
    + intros i Hall. apply Forall_cons in Hall as [Hi1 Hall]. rewrite R3 by done.
      apply aget_store_out. destruct Hi1; simpl in *; lia.
Qed.

(** The writing loop against a device that makes progress. *)
Definition set_calls (calls : list pwrite_call) (s : encryptor) : encryptor :=
  Encryptor (e_nv s) (e_vm s) (zerobuf s) (encbuf s) calls.

Lemma dev_after_app d c1 c2 : dev_after d (c1 ++ c2) = dev_after (dev_after d c1) c2.
Proof. apply foldl_app. Qed.

Lemma pwrite_loop_spec pwrite size base eof fuel : progressing pwrite →
  0 <= base → base + size <= 2 ^ 64 → ∀ remaining s,
  0 <= remaining <= size → size <= Z.of_nat (length (encbuf s)) → remaining < Z.of_nat fuel →
  ∃ calls, pwrite_loop pwrite fuel size base remaining eof s =
      (Ret NVME_SC_SUCCESS, set_calls (e_calls s ++ calls) s) ∧
    ∀ d, dev_after d calls = store_bytes d (base + (size - remaining))
      (take (Z.to_nat remaining) (drop (Z.to_nat (size - remaining)) (encbuf s))).
Proof.
  intros Hp Hb Hbs. induction fuel as [|fuel IH]; intros rem s Hr Hl Hf; [lia|]. simpl.
  destruct (Z.eqb_spec rem 0) as [->|Hne].
  { exists []. rewrite app_nil_r. split; [by destruct s|done]. }
  unfold mbind, eff_bind, get, put. cbv beta iota zeta.
  rewrite (u64_small (base + (size - rem))) by lia.
  set (data := take (Z.to_nat rem) (drop (Z.to_nat (size - rem)) (encbuf s))).
  assert (length data = Z.to_nat rem) as Hdl.
  { unfold data. rewrite length_take, length_drop. lia. }
  set (ret := pwrite (e_calls s) (base + (size - rem)) data).
  assert (0 < ret <= rem) as Hret.
  { pose proof (Hp (e_calls s) (base + (size - rem)) data) as H. fold ret in H.
    rewrite Hdl, Z2Nat.id in H by lia. apply H. intros ->. simpl in Hdl. lia. }
  replace ((ret <? 0) || (rem <? ret)) with false by lia.
  replace (ret =? 0) with false by lia.
  destruct (IH (rem - ret) (set_calls (e_calls s ++ [PwriteCall (base + (size - rem)) data ret]) s))
    as (calls & E & D); simpl; try lia.
  exists (PwriteCall (base + (size - rem)) data ret :: calls). split.
  - unfold set_calls in E. cbn [e_nv e_vm zerobuf encbuf e_calls] in E. rewrite E.
    unfold set_calls. simpl. by rewrite <- app_assoc.
  - intros d. simpl. rewrite D. simpl.
    rewrite <- (take_drop (Z.to_nat ret) data) at 2. rewrite store_bytes_app.
    f_equal; [rewrite length_take; lia|]. unfold data.
    rewrite skipn_firstn_comm, drop_drop. f_equal; [lia|f_equal; lia].
Qed.

Lemma length_grow l n : n <= Z.of_nat (length (grow l n)).
Proof. unfold grow. rewrite length_app, length_replicate. lia. Qed.

(** A buffer that is grown when it is too small. *)
Lemma grow_encbuf n s : ∃ b,
  (if Z.of_nat (length (encbuf s)) <? n then set_encbuf (grow (encbuf s) n) s else s) =
    set_encbuf b s ∧ n <= Z.of_nat (length b).
Proof.
  destruct (Z.ltb_spec (Z.of_nat (length (encbuf s))) n).
  - eexists. split; [done|]. apply length_grow.
  - exists (encbuf s). split; [by destruct s|done].
Qed.

Lemma e_in_nv_Ret {A} (m : eff nvme A) x s :
  m (e_nv s) = (Ret x, e_nv s) → e_in_nv m s = (Ret x, s).
Proof. intros H. unfold e_in_nv, zoom. rewrite H. by destruct s. Qed.

(** *** Writing zeroes *)

Section zeroes.
Context {E : Type} `{engine_laws : CipherLaws E engine}.
Context (sh : Z) (Hsh : 0 <= sh <= 12).
Let L := 2 ^ sh.

(** The encryption of the zero block as block [k]. *)
Definition zero_cipher (k : Z) (c : list Z) : Prop :=
  encrypt engine L (replicate (Z.to_nat L) 0) (u64 k) = Some c.

(** [zerobuf] has a block, and only zeros. *)
Definition zeroed (s : encryptor) : Prop :=
  ∃ n, zerobuf s = replicate n 0 ∧ L <= Z.of_nat n.

Lemma encrypt_zeroes_spec (Ht : takes_blocks (engine := engine) sh) first count :
  ∀ pli (s : encryptor), zeroed s → 0 <= pli → pli + Z.of_nat count <= wz_nblocks →
  wz_nblocks * L <= Z.of_nat (length (encbuf s)) →
  ∃ b cs, encrypt_zeroes engine count sh first pli s = (Ret true, set_encbuf b s) ∧
    length b = length (encbuf s) ∧ length cs = count ∧
    (∀ k c, cs !! k = Some c → zero_cipher (first + pli + Z.of_nat k) c) ∧
    take (Z.to_nat ((pli + Z.of_nat count) * L)) b =
      take (Z.to_nat (pli * L)) (encbuf s) ++ concat cs.
Proof using All.
  pose proof (L_pos sh Hsh) as HL. fold L in HL.
  induction count as [|count IH]; intros pli s Hz Hp Hc Hlen; simpl.
  { exists (encbuf s), []. rewrite Z.add_0_r, app_nil_r. split_and!; try done. by destruct s. }
  unfold mbind, mret, eff_bind, eff_ret, get, modify. cbv beta iota.
  rewrite !Z.shiftl_mul_pow2 by lia. fold L. rewrite Z.mul_1_l.
  unfold wz_nblocks in *. assert ((pli + 1) * L <= 512 * L) by (apply Z.mul_le_mono_nonneg_r; lia).
  unfold subspan, ensure, mret, eff_ret.
  replace ((0 <=? pli * L) && (0 <=? L) && (pli * L + L <=? 512 * L)) with true by lia.
  cbv iota beta. destruct Hz as (n & Hz & Hn). rewrite Hz, take_replicate, Nat.min_l by lia.
  destruct (Ht (replicate (Z.to_nat L) 0) (u64 (first + pli))) as [ct Hct].
  { rewrite length_replicate. fold L. lia. }
  fold L in Hct. rewrite Hct. set (b1 := list_inserts (Z.to_nat (pli * L)) ct (encbuf s)).
  assert (length ct = Z.to_nat L) as Hctl
    by (apply encrypt_length in Hct; by rewrite Hct, length_replicate).
  destruct (IH (pli + 1) (set_encbuf b1 s)) as (b & cs & R & R1 & R2 & R3 & R4); try lia.
  { by exists n. }
  { simpl. unfold b1. rewrite length_inserts. lia. }
  exists b, (ct :: cs). rewrite R. simpl in R1, R4. split_and!.
  - done.
  - rewrite R1. apply length_inserts.
  - simpl. by rewrite R2.
  - intros [|k] c Hk; simpl in Hk.
    + injection Hk as <-. unfold zero_cipher. by replace (first + pli + Z.of_nat 0) with (first + pli) by lia.
    + apply R3 in Hk. by replace (first + pli + Z.of_nat (S k)) with (first + (pli + 1) + Z.of_nat k) by lia.
  - replace (pli + Z.of_nat (S count)) with (pli + 1 + Z.of_nat count) by lia.
    rewrite R4. unfold b1.
    replace (Z.to_nat ((pli + 1) * L)) with (Z.to_nat (pli * L) + length ct)%nat by lia.
    rewrite take_inserts_snoc by lia. simpl. by rewrite <- app_assoc.
Qed.

Lemma length_concat_cipher cs : (∀ k c, cs !! k = Some c → ∃ j, zero_cipher j c) →
  Z.of_nat (length (concat cs)) = Z.of_nat (length cs) * L.
Proof using All.
  pose proof (L_pos sh Hsh) as HL. fold L in HL.
  induction cs as [|c cs IH]; intros Hcs; simpl; [done|].
  rewrite length_app, Nat2Z.inj_add, IH; [|intros k c' Hk; by apply (Hcs (S k))].
  destruct (Hcs 0%nat c eq_refl) as [j Hj]. apply encrypt_length in Hj.
  rewrite length_replicate in Hj. rewrite Hj. lia.
Qed.

Lemma zero_chunks_spec pwrite (Ht : takes_blocks (engine := engine) sh) (Hp : progressing pwrite)
    slba nb fuel : 0 <= slba → (slba + nb) * L <= 2 ^ 64 →
  ∀ cli (s : encryptor), zeroed s → 0 <= cli <= nb →
  wz_nblocks * L <= Z.of_nat (length (encbuf s)) → nb - cli < Z.of_nat fuel →
  ∃ b cs calls, zero_chunks engine pwrite fuel sh slba nb cli s =
      (Ret NVME_SC_SUCCESS, set_calls (e_calls s ++ calls) (set_encbuf b s)) ∧
    Z.of_nat (length cs) = nb - cli ∧
    (∀ k c, cs !! k = Some c → zero_cipher (slba + cli + Z.of_nat k) c) ∧
    ∀ d, dev_after d calls = store_bytes d ((slba + cli) * L) (concat cs).
Proof using All.
  intros Hs Hb. pose proof (L_pos sh Hsh) as HL. fold L in HL.
  induction fuel as [|fuel IH]; intros cli s Hz Hc Hlen Hf; [lia|]. simpl.
  destruct (Z.ltb_spec cli nb) as [Hlt|Hge]; cbn [negb].
  2:{ exists (encbuf s), [], []. rewrite app_nil_r. split_and!; simpl; try done; [by destruct s|lia]. }
  set (m := Z.min (nb - cli) wz_nblocks). assert (0 < m <= wz_nblocks) as Hm
    by (unfold m, wz_nblocks; lia).
  destruct (encrypt_zeroes_spec Ht (slba + cli) (Z.to_nat m) 0 s Hz) as (b & cs & R & R1 & R2 & R3 & R4);
    try lia.
  rewrite (bind_Ret _ _ _ _ _ R). cbn [negb].
  rewrite Z.add_0_l, Z2Nat.id in R4 by lia. rewrite Z.mul_0_l in R4. simpl in R4.
  assert (m * L <= wz_nblocks * L) by (apply Z.mul_le_mono_nonneg_r; lia).
  assert ((slba + cli + m) * L <= 2 ^ 64) by (transitivity ((slba + nb) * L);
    [apply Z.mul_le_mono_nonneg_r; lia|done]).
  rewrite !Z.shiftl_mul_pow2 by lia. fold L.
  assert (slba + cli < 2 ^ 64) by nia. rewrite (u64_small (slba + cli)) by lia.
  rewrite (u64_small ((slba + cli) * L)) by nia.
  destruct (pwrite_loop_spec pwrite (m * L) ((slba + cli) * L) sc_lba_range
    (S (Z.to_nat (m * L))) Hp ltac:(nia) ltac:(lia) (m * L) (set_encbuf b s))
    as (c1 & P & D); simpl; try lia.
  rewrite (bind_Ret _ _ _ _ _ P). rewrite Z.eqb_refl. cbn [negb].
  rewrite Z.sub_diag, Z.add_0_r in D. simpl in D. rewrite drop_0, R4 in D.
  destruct (IH (cli + m) (set_calls (e_calls s ++ c1) (set_encbuf b s)))
    as (b2 & cs2 & c2 & E2 & L2 & G2 & D2); simpl; try lia; [done|].
  exists b2, (cs ++ cs2), (c1 ++ c2). rewrite E2. split_and!.
  - unfold set_calls, set_encbuf. simpl. by rewrite <- app_assoc.
  - rewrite length_app. lia.
  - intros k c Hk. destruct (decide (k < length cs)%nat).
    + rewrite lookup_app_l in Hk by done. apply R3 in Hk.
      by replace (slba + cli + Z.of_nat k) with (slba + cli + 0 + Z.of_nat k) by lia.
    + rewrite lookup_app_r in Hk by lia. apply G2 in Hk.
      by replace (slba + cli + Z.of_nat k) with (slba + (cli + m) + Z.of_nat (k - length cs)) by lia.
  - intros d. rewrite dev_after_app, D, D2, concat_app, store_bytes_app. f_equal.
    rewrite length_concat_cipher by (intros k c Hk; apply R3 in Hk; eauto). lia.
Qed.
End zeroes.

(** ** Whole commands *)

Section command.
Context {E : Type} `{engine_laws : CipherLaws E engine}.
Context (ioc : Z + Z) (iov : Z → Z + nvme_id_ns).
Context (pwrite : list pwrite_call → Z → list Z → Z).
Context (s0 : encryptor) (cmd : nvme_command) (ns : nvme_id_ns).
Abbreviation L := (2 ^ lba_shift ns).
Abbreviation off := (slba cmd * L).
Abbreviation received s1 := (receive engine ioc iov pwrite cmd s0 = (Ret NVME_SC_SUCCESS, s1)).

(** A write. *)
Lemma write_run pages : transfer_ok (e_nv s0) (e_vm s0) cmd ns pages →
  opcode cmd = nvme_cmd_write → is_sgl cmd = false →
  takes_blocks (engine := engine) (lba_shift ns) → progressing pwrite →
  0 <= slba cmd → off + cmd_bytes cmd ns <= 2 ^ 64 →
  ∃ b cs calls, received (set_calls (e_calls s0 ++ calls) (set_encbuf b s0)) ∧
    Forall2 (λ x c, block_cipher engine (e_vm s0) (slba cmd) x = Some c)
      (cmd_blocks cmd ns pages) cs ∧
    ∀ d, dev_after d calls = store_bytes d off (concat cs).
Proof using engine_laws.
  intros Hok Hop Hsgl Ht Hp Hs Hoff. pose proof (to_shift _ _ _ _ _ Hok) as Hsh.
  pose proof (cmd_bytes_range cmd ns Hsh) as Hn. pose proof (L_pos _ Hsh) as HL.
  destruct (transfer_walk ioc iov _ _ _ _ _ Hok) as (it & B & E1 & E2 & E3 & _ & W & Hlen & Hidx).
  destruct (grow_encbuf (cmd_bytes cmd ns) s0) as (b0 & G & Hb0).
  unfold cmd_bytes in *. set (nb := nblocks_of cmd) in *. set (L := 2 ^ lba_shift ns) in *. set (off := slba cmd * L) in *.
  destruct (encrypt_blocks_spec (lba_shift ns) Hsh Ht nb (e_vm s0) (S (Z.to_nat nb)) it
    (cmd_blocks cmd ns pages) 0 b0) as (it' & b & cs & R & R1 & R2 & _ & R3 & R4 & R5);
    try done; try lia. fold L in R5.
  rewrite Hlen, Z.add_0_l, Z.mul_0_l in R5.
  destruct (pwrite_loop_spec pwrite (nb * L) off (NVME_SC_SUCCESS)
    (S (Z.to_nat (nb * L))) Hp ltac:(nia) Hoff (nb * L) (set_encbuf b (set_encbuf b0 s0)))
    as (calls & P & D); simpl; try lia.
  exists b, cs, calls. split_and!.
  - unfold receive, catch. rewrite Hop, Hsgl, Z.eqb_refl.
    change (nvme_cmd_write =? nvme_cmd_read) with false. cbn [negb].
    unfold receive_write_copyback. rewrite (bind_Ret _ _ _ _ _ (e_in_nv_Ret _ _ _ B)).
    rewrite E3, (bind_Ret (modify _) _ s0 tt (set_encbuf b0 s0)) by (unfold modify; by rewrite G).
    rewrite (bind_Ret get _ _ (set_encbuf b0 s0) (set_encbuf b0 s0)) by done.
    rewrite (bind_Ret (e_in_buf _) _ _ (true, it') (set_encbuf b (set_encbuf b0 s0)))
      by (unfold e_in_buf, zoom; cbn [encbuf set_encbuf e_vm]; fold nb; by rewrite R).
    cbn [negb].
    rewrite R1, R2, E1, Z.shiftl_mul_pow2 by lia. fold L. change (slba cmd * L) with off.
    rewrite (u64_small off) by lia. by rewrite P.
  - by rewrite <- E1.
  - intros d. rewrite D, Z.sub_diag, Z.add_0_r. simpl. by rewrite drop_0, R5.
Qed.

(** A read, when the device's bytes are in guest memory. The lists are those
    of [vm0], which differs outside of the words the walk reads. *)
Lemma read_run vm0 pages ps (l := cmd_blocks cmd ns pages)
    (it0 := PrpIter (CmdList (prp1 cmd) (prp2 cmd)) 0 (cmd_bytes cmd ns)) :
  transfer_ok (e_nv s0) vm0 cmd ns pages →
  opcode cmd = nvme_cmd_read → is_sgl cmd = false →
  vm_size (e_vm s0) = vm_size vm0 →
  (∀ w, reads_word vm0 it0 w → load64 (e_vm s0) w = load64 vm0 w) →
  (∀ w, reads_word vm0 it0 w → Forall (λ x : (Z * Z) * Z, apart x.1 (w, 8)) l) →
  StronglySorted (λ x y : (Z * Z) * Z, apart x.1 y.1) l →
  Forall2 (holds_cipher engine (e_vm s0) (slba cmd)) l ps →
  ∃ vm1, received (set_evm vm1 s0) ∧ Forall2 (λ x p, view_bytes vm1 x.1 = p) l ps ∧
    ∀ i, Forall (λ x : (Z * Z) * Z, apart x.1 (i, 1)) l →
      aget (vm_bytes vm1) i = aget (vm_bytes (e_vm s0)) i.
Proof using engine_laws.
  intros Hok Hop Hsgl Hsz Hsame Hw Hap Hc. pose proof (to_shift _ _ _ _ _ Hok) as Hsh.
  destruct (transfer_walk ioc iov _ _ _ _ _ Hok) as (it & B & E1 & E2 & _ & E4 & W & _).
  destruct (read_turns_spec (engine := engine) (lba_shift ns) vm0
    (S (Z.to_nat (nblocks_of cmd))) Hsh it l ps (e_vm s0)) as (vm1 & R & _ & R2 & R3);
    rewrite ?E1, ?E4; try done.
  exists vm1. split_and!; [|done|done].
  unfold receive, catch. rewrite Hop, Hsgl, Z.eqb_refl. cbn [negb].
  unfold receive_read. rewrite (bind_Ret _ _ _ _ _ (e_in_nv_Ret _ _ _ B)).
  unfold e_in_vm, zoom.
  rewrite (read_turns_blocks _ _ _ _ _ _ R) by by eapply lba_walk_length. done.
Qed.

(** [zerobuf] grown when it has no block. *)
Lemma grow_zerobuf n : zerobuf s0 = replicate n 0 → 0 <= lba_shift ns <= 12 →
  ∃ z, (if Z.of_nat (length (zerobuf s0)) <? L then set_zerobuf (grow (zerobuf s0) L) s0 else s0) =
    set_zerobuf (replicate z 0) s0 ∧ L <= Z.of_nat z.
Proof.
  intros Hz Hsh. pose proof (L_pos _ Hsh).
  destruct (Z.ltb_spec (Z.of_nat (length (zerobuf s0))) L).
  - exists (n + (Z.to_nat L - length (zerobuf s0)))%nat. unfold grow.
    rewrite Hz, length_replicate, replicate_add in *. split; [done|lia].
  - exists n. rewrite Hz, length_replicate in *. split; [|lia]. rewrite <- Hz. by destruct s0.
Qed.

(** A write of zeroes. *)
Lemma zeroes_run : 0 < nsid cmd < MAX_VIRTUAL_NAMESPACES → nv_idns (e_nv s0) !! nsid cmd = Some ns →
  0 <= lba_shift ns <= 12 → opcode cmd = nvme_cmd_write_zeroes →
  (∃ n, zerobuf s0 = replicate n 0) →
  takes_blocks (engine := engine) (lba_shift ns) → progressing pwrite →
  0 <= slba cmd → off + cmd_bytes cmd ns <= 2 ^ 64 →
  ∃ z b cs calls,
    received (set_calls (e_calls s0 ++ calls) (set_encbuf b (set_zerobuf (replicate z 0) s0))) ∧
    Z.of_nat (length cs) = nblocks_of cmd ∧
    (∀ k c, cs !! k = Some c →
      encrypt engine L (replicate (Z.to_nat L) 0) (u64 (slba cmd + Z.of_nat k)) = Some c) ∧
    ∀ d, dev_after d calls = store_bytes d off (concat cs).
Proof using engine_laws.
  intros Hn Hns Hsh Hop (n & Hz) Ht Hp Hs Hoff. pose proof (L_pos _ Hsh) as HL.
  pose proof (nblocks_range cmd) as Hnb. unfold cmd_bytes in Hoff.
  destruct (grow_zerobuf n Hz Hsh) as (z & Gz & Hzl).
  set (L := 2 ^ lba_shift ns) in *. set (s1 := set_zerobuf (replicate z 0) s0) in *.
  assert (zeroed (lba_shift ns) s1) as Hz1 by (by exists z).
  destruct (grow_encbuf (wz_nblocks * L) s1) as (b0 & G & Hb0).
  destruct (zero_chunks_spec (lba_shift ns) Hsh pwrite Ht Hp (slba cmd) (nblocks_of cmd)
    (S (Z.to_nat (nblocks_of cmd))) Hs ltac:(fold L; lia) 0 (set_encbuf b0 s1))
    as (b & cs & calls & R & R1 & R2 & R3); try done; try lia.
  exists z, b, cs, calls. split_and!.
  - unfold receive, catch. rewrite Hop, Z.eqb_refl.
    change (nvme_cmd_write_zeroes =? nvme_cmd_read) with false.
    change (nvme_cmd_write_zeroes =? nvme_cmd_write) with false. cbv iota.
    unfold receive_write_zeroes.
    rewrite (bind_Ret _ _ _ _ _ (e_in_nv_Ret _ _ _ (ns_lba_shift_cached iov _ _ _ Hn Hns))).
    rewrite !Z.shiftl_mul_pow2, Z.mul_1_l by lia. fold L.
    rewrite (bind_Ret (modify _) _ s0 tt s1) by (unfold modify; by rewrite Gz).
    rewrite (bind_Ret (modify _) _ s1 tt (set_encbuf b0 s1)) by (unfold modify; by rewrite G).
    by rewrite R.
  - lia.
  - intros k c Hk. apply R2 in Hk. by rewrite Z.add_0_r in Hk.
  - intros d. rewrite R3. by rewrite Z.add_0_r.
Qed.
End command.

(** ** Properties *)

(** C29. A write leaves on the device the encryption of the guest's blocks:
    with an engine that takes blocks of this size and a device that makes
    progress, whatever the counts its calls return, the answer is "success"
    and the calls together store, at the byte offset of the first block, the
    encryption of block [k] of the data under number [slba + k], one block
    after the other, and nothing else; guest memory is not changed. *)
Theorem encryptor_write_exact {E} `{!tweakable_block_cipher E} (engine : E)
    `{!CipherLaws E engine} ioc iov pwrite s0 cmd ns pages :
  let off := slba cmd * 2 ^ lba_shift ns in
  transfer_ok (e_nv s0) (e_vm s0) cmd ns pages →
  opcode cmd = nvme_cmd_write → is_sgl cmd = false →
  takes_blocks (engine := engine) (lba_shift ns) → progressing pwrite →
  0 <= slba cmd → off + cmd_bytes cmd ns <= 2 ^ 64 →
  ∃ s1 cs calls, receive engine ioc iov pwrite cmd s0 = (Ret NVME_SC_SUCCESS, s1) ∧
    e_vm s1 = e_vm s0 ∧ e_calls s1 = e_calls s0 ++ calls ∧
    Forall2 (λ x c, block_cipher engine (e_vm s0) (slba cmd) x = Some c)
      (cmd_blocks cmd ns pages) cs ∧
    ∀ d, dev_after d calls = store_bytes d off (concat cs).
Proof.
  intros off Hok Hop Hsgl Ht Hp Hs Hoff.
  destruct (write_run (engine := engine) ioc iov pwrite s0 cmd ns pages) as (b & cs & calls & R & Hcs & D);
    try done. by eexists _, cs, calls.
Qed.

Definition demo_engine : aes_xts_ipp := AesXtsIpp 512.
Definition demo_encryptor : encryptor := Encryptor demo_ctrl (Mapping ∅ 262144) [] [] [].
(** A device that takes at most 1000 bytes per call. *)
Definition demo_pwrite (_ : list pwrite_call) (_ : Z) (data : list Z) : Z :=
  Z.min 1000 (Z.of_nat (length data)).

Lemma demo_takes_blocks : takes_blocks (engine := demo_engine) (lba_shift demo_ns).
Proof.
  intros d k Hd. eexists. cbn [encrypt demo_cipher ipp_cipher]. unfold ipp_crypt.
  change (2 ^ lba_shift demo_ns) with 512 in *. rewrite Hd. reflexivity.
Qed.
Lemma demo_progressing : progressing demo_pwrite.
Proof. intros c o [|x data] Hd; [done|]. unfold demo_pwrite. simpl length. lia. Qed.
Lemma demo_transfer : transfer_ok demo_ctrl (Mapping ∅ 262144) demo_cmd demo_ns [0x20200; 0x10000].
Proof.
  split; try done; [by exists 5|by apply layout_two|].
  repeat constructor; discriminate.
Qed.

Lemma encryptor_write_exact_witness :
  ∃ s1 cs calls,
    receive demo_engine (inl 5) (λ _, inl 5) demo_pwrite demo_cmd demo_encryptor =
      (Ret NVME_SC_SUCCESS, s1) ∧
    e_vm s1 = Mapping ∅ 262144 ∧ e_calls s1 = [] ++ calls ∧
    Forall2 (λ x c, block_cipher demo_engine (Mapping ∅ 262144) 8 x = Some c)
      (cmd_blocks demo_cmd demo_ns [0x20200; 0x10000]) cs ∧
    ∀ d, dev_after d calls = store_bytes d 4096 (concat cs).
Proof.
  apply (encryptor_write_exact demo_engine (inl 5) (λ _, inl 5) demo_pwrite demo_encryptor
    demo_cmd demo_ns [0x20200; 0x10000] demo_transfer eq_refl eq_refl demo_takes_blocks
    demo_progressing); [done|].
  by vm_compute.
Defined.

(** C30. A read gives the guest the plaintext: when the device's bytes are in
    the command's pages, block [k] the encryption of [p_k] under number
    [slba + k], the controller answers "success", block [k] of guest memory is
    then [p_k], every byte outside of the blocks is as before, and nothing is
    written to the device. The blocks must not overlap each other or the PRP
    lists that describe them. *)
Theorem encryptor_read_exact {E} `{!tweakable_block_cipher E} (engine : E)
    `{!CipherLaws E engine} ioc iov pwrite s0 cmd ns pages ps :
  let l := cmd_blocks cmd ns pages in
  transfer_ok (e_nv s0) (e_vm s0) cmd ns pages →
  opcode cmd = nvme_cmd_read → is_sgl cmd = false →
  StronglySorted (λ x y : (Z * Z) * Z, apart x.1 y.1) l →
  (∀ w, reads_word (e_vm s0) (PrpIter (CmdList (prp1 cmd) (prp2 cmd)) 0 (cmd_bytes cmd ns)) w →
    Forall (λ x : (Z * Z) * Z, apart x.1 (w, 8)) l) →
  Forall2 (holds_cipher engine (e_vm s0) (slba cmd)) l ps →
  ∃ vm1, receive engine ioc iov pwrite cmd s0 = (Ret NVME_SC_SUCCESS, set_evm vm1 s0) ∧
    Forall2 (λ x p, view_bytes vm1 x.1 = p) l ps ∧
    ∀ i, Forall (λ x : (Z * Z) * Z, apart x.1 (i, 1)) l →
      aget (vm_bytes vm1) i = aget (vm_bytes (e_vm s0)) i.
Proof.
  intros l Hok Hop Hsgl Hap Hw Hc.
  by apply (read_run (engine := engine) ioc iov pwrite s0 cmd ns (e_vm s0) pages ps).
Qed.

(** Two blocks, in two pages that are not next to each other. *)
Definition demo_read : nvme_command :=
  NvmeCommand nvme_cmd_read 0 0 1 0 0 0 0x20e00 0x10000 8 0 1 0 0 0.

Lemma encryptor_read_exact_witness :
  let l := cmd_blocks demo_read demo_ns [0x20e00; 0x10000] in
  ∃ vm1, receive demo_engine (inl 5) (λ _, inl 5) demo_pwrite demo_read demo_encryptor =
      (Ret NVME_SC_SUCCESS, set_evm vm1 demo_encryptor) ∧
    Forall2 (λ x p, view_bytes vm1 x.1 = p) l [replicate 512 8; replicate 512 9] ∧
    ∀ i, Forall (λ x : (Z * Z) * Z, apart x.1 (i, 1)) l → aget (vm_bytes vm1) i = 0.
Proof.
  apply (encryptor_read_exact demo_engine (inl 5) (λ _, inl 5) demo_pwrite demo_encryptor
    demo_read demo_ns [0x20e00; 0x10000] [replicate 512 8; replicate 512 9]); try reflexivity.
  - split; try done; [by exists 5|by apply layout_two|]. repeat constructor; discriminate.
  - change (cmd_blocks _ _ _) with [((0x20e00, 512), 0); ((0x10000, 512), 1)].
    apply SSorted_cons; [repeat constructor|]. apply Forall_cons. split; [by right|constructor].
  - intros w Hr. exfalso. inversion Hr as [_ Hw|it' Hi Hr']; [by apply elem_of_nil in Hw|].
    vm_compute in Hi. injection Hi as <-.
    inversion Hr' as [_ Hw|it'' Hi Hr'']; [by apply elem_of_nil in Hw|].
    vm_compute in Hi. injection Hi as <-.
    inversion Hr'' as [He|? Hi]; done.
  - change (cmd_blocks _ _ _) with [((0x20e00, 512), 0); ((0x10000, 512), 1)].
    repeat constructor; vm_compute; reflexivity.
Defined.

(** Writing zeroes is writing blocks of zeros: with the engine and the
    device as above, for any number of chunks, the calls together store the
    encryption of the zero block under number [slba + k] for every block [k]
    of the command, one after the other from the byte offset of the first, and
    the answer is "success". *)
Theorem encryptor_write_zeroes_exact {E} `{!tweakable_block_cipher E} (engine : E)
    `{!CipherLaws E engine} ioc iov pwrite s0 cmd ns :
  let off := slba cmd * 2 ^ lba_shift ns in
  0 < nsid cmd < MAX_VIRTUAL_NAMESPACES → nv_idns (e_nv s0) !! nsid cmd = Some ns →
  0 <= lba_shift ns <= 12 → opcode cmd = nvme_cmd_write_zeroes →
  (∃ n, zerobuf s0 = replicate n 0) →
  takes_blocks (engine := engine) (lba_shift ns) → progressing pwrite →
  0 <= slba cmd → off + cmd_bytes cmd ns <= 2 ^ 64 →
  ∃ s1 cs calls, receive engine ioc iov pwrite cmd s0 = (Ret NVME_SC_SUCCESS, s1) ∧
    e_calls s1 = e_calls s0 ++ calls ∧ Z.of_nat (length cs) = nblocks_of cmd ∧
    (∀ k c, cs !! k = Some c →
      encrypt engine (2 ^ lba_shift ns) (replicate (Z.to_nat (2 ^ lba_shift ns)) 0)
        (u64 (slba cmd + Z.of_nat k)) = Some c) ∧
    ∀ d, dev_after d calls = store_bytes d off (concat cs).
Proof.
  intros off Hn Hns Hsh Hop Hz Ht Hp Hs Hoff.
  destruct (zeroes_run (engine := engine) ioc iov pwrite s0 cmd ns) as (z & b & cs & calls & R & Hcs & D);
    try done. by eexists _, cs, calls.
Qed.

(** 1000 blocks: two chunks. *)
Definition demo_zeroes : nvme_command :=
  NvmeCommand nvme_cmd_write_zeroes 0 0 1 0 0 0 0 0 8 0 999 0 0 0.

Lemma encryptor_write_zeroes_exact_witness :
  ∃ s1 cs calls,
    receive demo_engine (inl 5) (λ _, inl 5) demo_pwrite demo_zeroes demo_encryptor =
      (Ret NVME_SC_SUCCESS, s1) ∧
    e_calls s1 = [] ++ calls ∧ Z.of_nat (length cs) = 1000 ∧
    (∀ k c, cs !! k = Some c →
      encrypt demo_engine 512 (replicate 512 0) (u64 (8 + Z.of_nat k)) = Some c) ∧
    ∀ d, dev_after d calls = store_bytes d 4096 (concat cs).
Proof.
  apply (encryptor_write_zeroes_exact demo_engine (inl 5) (λ _, inl 5) demo_pwrite demo_encryptor
    demo_zeroes demo_ns); try done; [by exists 0%nat|exact demo_takes_blocks|exact demo_progressing].
Defined.

(** An end of file is answered differently by the two writing loops: "success"
    for a write, an LBA range error for a write of zeroes. *)
Definition demo_write1 : nvme_command :=
  NvmeCommand nvme_cmd_write 0 0 1 0 0 0 0x20000 0 8 0 0 0 0 0.
Definition demo_zero1 : nvme_command :=
  NvmeCommand nvme_cmd_write_zeroes 0 0 1 0 0 0 0 0 8 0 0 0 0 0.
Example write_eof_is_success :
  (receive demo_engine (inl 5) (λ _, inl 5) (λ _ _ _, 0) demo_write1 demo_encryptor).1 =
    Ret NVME_SC_SUCCESS ∧
  (receive demo_engine (inl 5) (λ _, inl 5) (λ _ _ _, 0) demo_zero1 demo_encryptor).1 =
    Ret sc_lba_range.
Proof. split; vm_compute; reflexivity. Qed.
