(* ===== verification/Enclave.v ===== *)
(** * The enclave of the SGX encryptors

    encryptor-sgx/Enclave/Enclave.cpp (paths of this file are under
    src/encryptor-sgx/): the calls that encrypt and decrypt for the untrusted
    program, with the enclave's copies of the iterators (include/nvme_en.hpp,
    include/prp.hpp, nvme/prp.cpp, nvme/vm.cpp). Memory outside of the enclave
    is shared with a host and a guest that are not trusted. *)
From S2P Require Import Prelude Proto Vm Prp NvmeBase Crypto Encryptor.

Definition EPERM : Z := 1.
Definition EIO : Z := 5.
Definition EFAULT : Z := 14.

(** The enclave is built with spans that check their contract and throw: what
    is undefined for the iterators outside of it, is that exception here. *)
Definition checked {A} (o : outcome A) : outcome A :=
  match o with Throw Eub => Throw Econtract | _ => o end.

(** [span.subspan(off, n)] with its check, on a span of [size] bytes. *)
Definition subspan_en (size off n : Z) : outcome (Z * Z) :=
  if (off <=? size) && ((n =? U64_MAX) || (u64 (off + n) <=? size))
  then Ret (off, if n =? U64_MAX then size - off else n) else Throw Econtract.

(** [catch (const std::contract_violation_error &) { return -EFAULT; }]: other
    exceptions, and failed assertions, leave the enclave. *)
Definition contract_handler {S} (e : exn) : eff S Z :=
  match e with Econtract => mret (- EFAULT) | _ => throw e end.

(** [1 << lba_shift], an [int] that is used as a [size_t]. *)
Definition block_bytes (sh : Z) : Z := u64 (s32 (Z.shiftl 1 sh)).

(** ** The iterators in the enclave

    They are the code of the ones outside, built differently: the accesses to
    spans are checked, and so are the assertions, which the enclave's build
    does not turn off. *)

Definition assert_en {A} (b : bool) (o : outcome A) : outcome A :=
  if b then o else Throw Eassert.

Definition prp_this_nbytes_en (vm : mapping) (it : prp_chain_iter) : outcome Z :=
  checked (prp_this_nbytes vm it).

Definition prp_deref_en (vm : mapping) (it : prp_chain_iter) : outcome Z :=
  if prp_at_end it then Throw Eruntime else
  assert_en (prpi it <? prpl_size (prpl it)) (checked (prpl_get vm (prpl it) (prpi it))).

Definition prp_incr_en (vm : mapping) (it : prp_chain_iter) : outcome prp_chain_iter :=
  if prp_at_end it then Throw Eruntime else
  n ← prp_this_nbytes_en vm it;
  assert_en ((n <=? nbytes it) && (prpi it <? prpl_size (prpl it)) && is_data it) (
    let it := PrpIter (prpl it) (prpi it + 1) (u64 (nbytes it - n)) in
    it ← (if negb (is_data it) then
            next_prpl ← prp_deref_en vm it;
            '(off, n) ← get_page vm next_prpl;
            Ret (PrpIter (PageList off n) 0 (nbytes it))
          else Ret it);
    assert_en (prp_at_end it || is_data it) (Ret it)).

(** [nvme_cmd_lba_iter_en] takes the block size from its caller and does not
    check the length of the transfer. *)
Definition lba_begin_en (cmd : nvme_command) (lbas : Z) : nvme_cmd_lba_iter :=
  let n := u64 (Z.shiftl (nblocks_of cmd) lbas) in
  LbaIter lbas (slba cmd) n (PrpIter (CmdList (prp1 cmd) (prp2 cmd)) 0 n) 0 0.

Definition lba_incr_en (vm : mapping) (it : nvme_cmd_lba_iter) : outcome nvme_cmd_lba_iter :=
  let p := pli it + 1 in
  n ← prp_this_nbytes_en vm (li_prp it);
  if Z.min NVME_PAGE_SIZE n <=? u64 (Z.shiftl p (li_shift it)) then
    prp ← prp_incr_en vm (li_prp it);
    Ret (LbaIter (li_shift it) (li_slba it) (li_nbytes it) prp (u64 (cli it + p)) 0)
  else Ret (LbaIter (li_shift it) (li_slba it) (li_nbytes it) (li_prp it) (cli it) p).

Definition lba_deref_en (vm : mapping) (it : nvme_cmd_lba_iter) : outcome (Z * Z) :=
  a ← prp_deref_en vm (li_prp it);
  get_span vm (u64 (a + Z.shiftl (pli it) (li_shift it))) (block_bytes (li_shift it)).

Section enclave.
(** The crypto library, by key: whether it accepts a key for blocks of a size,
    and its operations on a buffer with a tweak. *)
Context (lib_init : list Z → Z → bool).
Context (lib_encrypt lib_decrypt : list Z → list Z → list Z → option (list Z)).

(** [sgx_is_outside_enclave(p, n)]. *)
Context (is_outside : Z → Z → bool).

(** ** State: [engine] and [g_lba_shift] *)

(** The key schedule is made in the constructor of the engine. *)
Record engine_t : Type := EngineT { en_key : list Z; en_xts : aes_xts_ipp }.

#[export] Instance engine_cipher : tweakable_block_cipher engine_t := {
  encrypt e := ipp_crypt (lib_encrypt (en_key e)) (en_xts e);
  decrypt e := ipp_crypt (lib_decrypt (en_key e)) (en_xts e);
}.

Record enclave : Type := Enclave { engine : option engine_t; g_lba_shift : Z }.

Definition enclave_start : enclave := Enclave None (-1).

(** ** Calls *)

Definition put_key (key : list Z) (lba_shift : Z) : eff enclave Z :=
  s ← get;
  if 0 <=? g_lba_shift s then mret (- EPERM) else
  _ ← ensure ((0 <=? lba_shift) && (lba_shift <? 32)) Eub;
  xts ← lift (ipp_create (lib_init key (block_bytes lba_shift)) (block_bytes lba_shift));
  _ ← put (Enclave (Some (EngineT key xts)) lba_shift);
  mret 0.

(** [decrypt ? engine->decrypt(...) : engine->encrypt(...)]. *)
Definition crypt (e : engine_t) (dec : bool) (out : Z) (data : list Z) (lba : Z) :
    option (list Z) :=
  if dec then decrypt e out data lba else encrypt e out data lba.

(** The engine, once there is a key. *)
Definition with_engine {S} (en : enclave) (f : engine_t → eff S Z) : eff S Z :=
  match engine en with Some e => f e | None => throw Eub end.

(** The loop of [crypt_buffer_inplace] over the bytes from [buf] on; [count]
    turns are left. *)
Fixpoint buffer_blocks (e : engine_t) (dec : bool) (size lbas slba : Z) (count : nat)
    (eli bytes_done : Z) : eff arr Z :=
  match count with
  | O => mret bytes_done
  | S count =>
    '(off, n) ← lift (subspan_en size (u64 (Z.shiftl eli lbas)) (block_bytes lbas));
    m ← get;
    match crypt e dec n (load_bytes m off (Z.to_nat n)) (u64 (slba + eli)) with
    | None => mret (- EIO)
    | Some c =>
      _ ← put (store_bytes m off c);
      buffer_blocks e dec size lbas slba count (eli + 1) (bytes_done + n)
    end
  end.

Definition crypt_buffer_inplace (en : enclave) (slba buf nr_blocks : Z) (dec : bool) :
    eff arr Z :=
  let lbas := g_lba_shift en in
  if lbas <? 0 then mret (- EPERM) else
  let size := u64 (Z.shiftl nr_blocks lbas) in
  if negb (is_outside buf size) then mret (- EFAULT) else
  with_engine en (λ e,
    catch (buffer_blocks e dec size lbas slba (Z.to_nat nr_blocks) 0 0) contract_handler).

(** The loop of [crypt_command_inplace] over guest memory. *)
Fixpoint command_blocks (e : engine_t) (dec : bool) (fuel : nat) (it : nvme_cmd_lba_iter)
    (bytes_done : Z) : eff mapping Z :=
  match fuel with
  | O => throw Efuel
  | S fuel =>
    if lba_at_end it then mret bytes_done else
    vm ← get;
    sp ← lift (lba_deref_en vm it);
    match crypt e dec sp.2 (view_bytes vm sp) (lba it) with
    | None => mret (- EIO)
    | Some c =>
      _ ← put (view_store vm sp c);
      vm ← get;
      it ← lift (lba_incr_en vm it);
      command_blocks e dec fuel it (bytes_done + sp.2)
    end
  end.

(** A segment takes at least a byte off the transfer, in a turn for each of the
    blocks of at most a page. *)
Definition page_blocks (sh : Z) : Z := Z.max 1 (4096 / 2 ^ sh).
Definition en_fuel (it : nvme_cmd_lba_iter) : nat :=
  S (Z.to_nat (li_nbytes it * page_blocks (li_shift it))).

Definition crypt_command_inplace (en : enclave) (pvm : Z) (cmd : nvme_command) (dec : bool) :
    eff mapping Z :=
  let lbas := g_lba_shift en in
  if lbas <? 0 then mret (- EPERM) else
  vm ← get;
  if negb (is_outside pvm (vm_size vm)) then mret (- EFAULT) else
  with_engine en (λ e,
    let it := lba_begin_en cmd lbas in
    catch (command_blocks e dec (en_fuel it) it 0) contract_handler).

(** The loop of [crypt_command]: guest memory is read, and the buffer, whose
    first [off] of [size] bytes are done, is written. *)
Fixpoint command_out (e : engine_t) (dec : bool) (fuel : nat) (vm : mapping)
    (it : nvme_cmd_lba_iter) (size off : Z) : eff arr Z :=
  match fuel with
  | O => throw Efuel
  | S fuel =>
    if lba_at_end it then mret off else
    sp ← lift (lba_deref_en vm it);
    if size - off <? sp.2 then mret off else
    match crypt e dec (size - off) (view_bytes vm sp) (lba it) with
    | None => mret (- EIO)
    | Some c =>
      _ ← modify (λ m, store_bytes m off c);
      _ ← lift (subspan_en (size - off) sp.2 U64_MAX);
      it ← lift (lba_incr_en vm it);
      command_out e dec fuel vm it size (off + sp.2)
    end
  end.

Definition crypt_command (en : enclave) (pvm : Z) (vm : mapping) (cmd : nvme_command)
    (outbuf outbuf_size : Z) (dec : bool) : eff arr Z :=
  let lbas := g_lba_shift en in
  if lbas <? 0 then mret (- EPERM) else
  if negb (is_outside pvm (vm_size vm)) || negb (is_outside outbuf outbuf_size)
  then mret (- EFAULT) else
  with_engine en (λ e,
    let it := lba_begin_en cmd lbas in
    catch (command_out e dec (en_fuel it) vm it outbuf_size 0) contract_handler).

(** What [put_key] leaves: no key, or an engine for blocks of the shift. *)
Definition enclave_ok (en : enclave) : Prop :=
  g_lba_shift en = -1 ∨
  ∃ e, engine en = Some e ∧ 0 <= g_lba_shift en <= 20 ∧
    ipp_bs (en_xts e) = 2 ^ g_lba_shift en.

End enclave.

(** ** Specification: what a call can reach

    Of the bytes of a memory, by offset from a pointer, a computation reaches
    those below [n]: it changes no others, it does the same in every memory
    that agrees on them, and it does not end in undefined behaviour or without
    end. *)

Definition same_below (n : Z) (a a' : arr) : Prop :=
  ∀ i, 0 <= i < n → aget a i = aget a' i.

#[export] Instance same_below_equiv n : Equivalence (same_below n).
Proof.
  split.
  - by intros a i _.
  - intros a b H i Hi. by rewrite H.
  - intros a b c H1 H2 i Hi. by rewrite H1, H2.
Qed.

Definition clean {A} (o : outcome A) : Prop := o ≠ Throw Eub ∧ o ≠ Throw Efuel.

Definition confined {A} (n : Z) (m : eff arr A) (a : arr) : Prop :=
  let '(o, a1) := m a in
  bytes_ok a1 ∧ (∀ i, ¬ (0 <= i < n) → aget a1 i = aget a i) ∧ clean o ∧
  ∀ a', bytes_ok a' → same_below n a a' →
    ∃ a1', m a' = (o, a1') ∧ same_below n a1 a1'.

(** The same for a computation on a view of [n] bytes. *)
Definition on_view {A} (n : Z) (m : eff mapping A) : eff arr A := λ a,
  let '(o, vm) := m (Mapping a n) in (o, vm_bytes vm).

(** ** Lemmas *)

Lemma clean_Ret {A} (x : A) : clean (Ret x).
Proof. done. Qed.

(** An exception is passed on. *)
Lemma clean_Throw {A B} (o : outcome A) e : clean o → o = Throw e → clean (Throw e : outcome B).
Proof. intros [H1 H2] ->. split; congruence. Qed.

Lemma confined_const {A} n (o : outcome A) a : bytes_ok a → clean o → confined n (λ a, (o, a)) a.
Proof. intros Ha Ho. unfold confined. split_and!; try done; try apply Ho. eauto. Qed.

(** A computation may be replaced by one that agrees on the memories alike. *)
Lemma confined_ext {A} n (m m' : eff arr A) a : bytes_ok a →
  (∀ a', bytes_ok a' → same_below n a a' → m a' = m' a') →
  confined n m' a → confined n m a.
Proof.
  intros Ha E. unfold confined. rewrite E by done. destruct (m' a) as [o a1].
  intros (H1 & H2 & H3 & H4). split_and!; try done. intros a' Ha' Hs.
  rewrite E by done. by apply H4.
Qed.

Definition is_bytes (l : list Z) : Prop := Forall (λ b, 0 <= b < 256) l.

Lemma bytes_ok_store a off l : bytes_ok a → is_bytes l → bytes_ok (store_bytes a off l).
Proof.
  intros Ha Hl. revert a off Ha. induction Hl as [|b l Hb _ IH]; intros a off Ha; simpl; [done|].
  apply IH. intros i. rewrite aget_aset. case_decide; [done|apply Ha].
Qed.

Lemma is_bytes_load a off k : bytes_ok a → is_bytes (load_bytes a off k).
Proof. intros Ha. revert off. induction k as [|k IH]; intros off; simpl; constructor; [apply Ha|apply IH]. Qed.

Lemma same_below_store n a a' off l :
  same_below n a a' → same_below n (store_bytes a off l) (store_bytes a' off l).
Proof.
  revert a a' off. induction l as [|b l IH]; intros a a' off H; simpl; [done|].
  apply IH. intros i Hi. rewrite !aget_aset. case_decide; [done|by apply H].
Qed.

(** Store some bytes of the range, then go on. *)
Lemma confined_store {A} n (f : eff arr A) a off l : bytes_ok a → is_bytes l →
  0 <= off → off + Z.of_nat (length l) <= n →
  confined n f (store_bytes a off l) → confined n (λ a, f (store_bytes a off l)) a.
Proof.
  intros Ha Hl Ho Hn. unfold confined. destruct (f (store_bytes a off l)) as [o a1].
  intros (H1 & H2 & H3 & H4). split_and!; [done| |done|].
  - intros i Hi. rewrite H2 by done. apply aget_store_out. lia.
  - intros a' Ha' Hs. apply H4; [by apply bytes_ok_store|by apply same_below_store].
Qed.

Lemma load_bytes_same n a a' off k : same_below n a a' → 0 <= off → off + Z.of_nat k <= n →
  load_bytes a off k = load_bytes a' off k.
Proof.
  intros Hs. revert off. induction k as [|k IH]; intros off Ho Hk; simpl; [done|].
  rewrite Hs, IH by lia. done.
Qed.

Lemma load64_same n a a' off : same_below n a a' → 0 <= off → off + 8 <= n →
  load64 (Mapping a n) off = load64 (Mapping a' n) off.
Proof. intros Hs Ho Hn. unfold load64. simpl. by rewrite !Hs by lia. Qed.

(** *** The iterators *)

Definition list_in (n : Z) (l : prp_list) : Prop :=
  match l with
  | CmdList p1 p2 => 0 <= p1 ∧ 0 <= p2
  | PageList off k => 0 <= off ∧ off + 8 * k <= n
  end.
Definition prp_in (n : Z) (it : prp_chain_iter) : Prop :=
  prp_ok it ∧ 0 <= prpi it ∧ list_in n (prpl it).

Lemma clean_checked {A} (o : outcome A) : o ≠ Throw Efuel → clean (checked o).
Proof. intros H. split; destruct o as [|[]]; simpl; congruence. Qed.

Lemma clean_bind {A B} (o : outcome A) (f : A → outcome B) :
  clean o → (∀ x, o = Ret x → clean (f x)) → clean (o ≫= f).
Proof. intros [H1 H2] Hf. destruct o; [by apply Hf|]. split; simpl; congruence. Qed.

Lemma clean_assert {A} b (o : outcome A) : clean o → clean (assert_en b o).
Proof. intros H. by destruct b. Qed.

Section iterators.
Context (n : Z).

Lemma prpl_get_same_below a a' l i : same_below n a a' → list_in n l →
  prpl_get (Mapping a n) l i = prpl_get (Mapping a' n) l i.
Proof.
  intros Hs Hl. destruct l as [|off k]; [done|]. simpl in *. case_match eqn:E; [|done].
  to_prop. f_equal. apply load64_same; [done|lia..].
Qed.

Lemma prpl_get_nonneg a l i x : bytes_ok a → list_in n l →
  prpl_get (Mapping a n) l i = Ret x → 0 <= x.
Proof.
  intros Ha Hl. destruct l as [|off k]; simpl; intros H; repeat case_match; simplify_eq.
  1,2: apply Hl. by apply load64_range.
Qed.

Lemma this_nbytes_en_same a a' it : same_below n a a' → prp_in n it →
  prp_this_nbytes_en (Mapping a n) it = prp_this_nbytes_en (Mapping a' n) it.
Proof.
  intros Hs (_ & _ & Hl). unfold prp_this_nbytes_en, prp_this_nbytes.
  by rewrite (prpl_get_same_below a a').
Qed.

Lemma deref_en_same a a' it : same_below n a a' → list_in n (prpl it) →
  prp_deref_en (Mapping a n) it = prp_deref_en (Mapping a' n) it.
Proof. intros Hs Hl. unfold prp_deref_en. by rewrite (prpl_get_same_below a a'). Qed.

Lemma incr_en_same a a' it : same_below n a a' → prp_in n it →
  prp_incr_en (Mapping a n) it = prp_incr_en (Mapping a' n) it.
Proof.
  intros Hs Hin. unfold prp_incr_en. rewrite (this_nbytes_en_same a a') by done.
  destruct (prp_at_end it); [done|].
  destruct (prp_this_nbytes_en (Mapping a' n) it) as [k|]; [|done]. cbn [mbind outcome_bind].
  rewrite (deref_en_same a a') by (done || apply Hin). done.
Qed.

Lemma clean_this_nbytes vm it : clean (prp_this_nbytes_en vm it).
Proof. apply clean_checked, prp_this_nbytes_no_fuel. Qed.

Lemma clean_deref vm it : clean (prp_deref_en vm it).
Proof.
  unfold prp_deref_en. case_match; [done|]. apply clean_assert, clean_checked, prpl_get_no_fuel.
Qed.

Lemma clean_get_page vm off : clean (get_page vm off).
Proof. unfold get_page. by repeat case_match. Qed.

Lemma clean_incr vm it : clean (prp_incr_en vm it).
Proof.
  unfold prp_incr_en. case_match; [done|]. apply clean_bind; [apply clean_this_nbytes|].
  intros k _. apply clean_assert. cbv zeta.
  apply clean_bind; [|intros; by apply clean_assert].
  case_match; [|done]. apply clean_bind; [apply clean_deref|]. intros next _.
  apply clean_bind; [apply clean_get_page|]. by intros [] _.
Qed.

(** An advance stays within the range, and takes bytes off the transfer. *)
Lemma incr_en_in a it it' : bytes_ok a → prp_in n it →
  prp_incr_en (Mapping a n) it = Ret it' → prp_in n it' ∧ nbytes it' < nbytes it.
Proof.
  intros Ha (Hok & Hi & Hl). pose proof Hok as [Hn Hsz]. unfold prp_incr_en.
  destruct (prp_at_end it) eqn:He; [done|]. rewrite prp_at_end_spec in He. to_prop.
  destruct (prp_this_nbytes_en (Mapping a n) it) as [k|] eqn:Hk; [|done].
  cbn [mbind outcome_bind]. unfold assert_en at 1. case_match eqn:Hd; [|done]. to_prop.
  assert (0 < k) as Hk0.
  { unfold prp_this_nbytes_en, prp_this_nbytes in Hk.
    destruct (prpl_get (Mapping a n) (prpl it) (prpi it)) as [x|[]]; try done.
    cbn [mbind outcome_bind checked] in Hk. injection Hk as <-.
    rewrite land_page. replace (is_data it) with true by done.
    change NVME_PAGE_SIZE with 4096. pose proof (Z.mod_pos_bound x 4096). lia. }
  rewrite u64_small by lia. set (it1 := PrpIter _ _ _).
  destruct (negb (is_data it1)).
  - destruct (prp_deref_en (Mapping a n) it1) as [next|] eqn:Hx; [|done].
    cbn [mbind outcome_bind]. destruct (get_page _ next) as [[off m]|] eqn:Hg; [|done].
    cbn [mbind outcome_bind]. unfold assert_en. case_match; [|done]. intros [= <-].
    assert (0 <= next) as Hnext.
    { unfold prp_deref_en, assert_en in Hx. repeat case_match; try done.
      destruct (prpl_get (Mapping a n) (prpl it1) (prpi it1)) as [y|[]] eqn:Hy; try done.
      injection Hx as <-. by eapply prpl_get_nonneg in Hy. }
    apply get_page_Ret in Hg as (-> & G1 & G2 & G3 & G4); [|done]. simpl in G1.
    pose proof (Z.mod_pos_bound next 4096 ltac:(lia)).
    unfold prp_in, prp_ok. simpl. lia.
  - cbn [mbind outcome_bind]. unfold assert_en. case_match; [|done]. intros [= <-].
    unfold prp_in, prp_ok. simpl. split_and!; try lia; apply Hl || apply Hsz.
Qed.

(** The block iterator: where it is in a page, and the turns that are left. *)
Definition lba_in (it : nvme_cmd_lba_iter) : Prop :=
  prp_in n (li_prp it) ∧ 0 <= li_shift it <= 20 ∧
  0 <= pli it < page_blocks (li_shift it) ∧ (lba_at_end it = true → pli it = 0).
Definition turns_left (it : nvme_cmd_lba_iter) : Z :=
  nbytes (li_prp it) * page_blocks (li_shift it) - pli it.

Lemma lba_deref_en_same a a' it : same_below n a a' → lba_in it →
  lba_deref_en (Mapping a n) it = lba_deref_en (Mapping a' n) it.
Proof.
  intros Hs (Hin & _). unfold lba_deref_en.
  by rewrite (deref_en_same a a') by (done || apply Hin).
Qed.

Lemma lba_incr_en_same a a' it : same_below n a a' → lba_in it →
  lba_incr_en (Mapping a n) it = lba_incr_en (Mapping a' n) it.
Proof.
  intros Hs (Hin & _). unfold lba_incr_en.
  by rewrite (this_nbytes_en_same a a'), (incr_en_same a a') by done.
Qed.

Lemma clean_lba_deref vm it : clean (lba_deref_en vm it).
Proof.
  apply clean_bind; [apply clean_deref|]. intros x _. unfold get_span. by case_match.
Qed.

Lemma clean_lba_incr vm it : clean (lba_incr_en vm it).
Proof.
  apply clean_bind; [apply clean_this_nbytes|]. intros k _. case_match; [|done].
  apply clean_bind; [apply clean_incr|]. done.
Qed.

Lemma block_bytes_eq sh : 0 <= sh <= 20 → block_bytes sh = 2 ^ sh.
Proof.
  intros H. assert (2 ^ sh <= 2 ^ 20) by (apply Z.pow_le_mono_r; lia).
  assert (0 < 2 ^ sh) by (apply Z.pow_pos_nonneg; lia). change (2 ^ 20) with 1048576 in *.
  unfold block_bytes. rewrite shiftl_1 by lia. unfold s32. rewrite u32_small by lia.
  replace (2 ^ sh <? 2 ^ 31) with true by lia. apply u64_small. lia.
Qed.

Lemma lba_deref_en_in a it sp : n < 2 ^ 64 → lba_in it →
  lba_deref_en (Mapping a n) it = Ret sp →
  0 <= sp.1 ∧ sp.1 + sp.2 <= n ∧ sp.2 = 2 ^ li_shift it.
Proof.
  intros Hn (_ & Hsh & _). unfold lba_deref_en. rewrite block_bytes_eq by done.
  destruct (prp_deref_en _ _) as [x|]; [|done]. cbn [mbind outcome_bind].
  assert (0 < 2 ^ li_shift it) by (apply Z.pow_pos_nonneg; lia).
  pose proof (u64_range (x + Z.shiftl (pli it) (li_shift it))).
  rewrite get_span_Ret by (simpl; lia). case_decide as Hd; [|done]. simpl in Hd.
  intros [= <-]. simpl. lia.
Qed.

Lemma page_blocks_lt sh p : 0 <= sh <= 20 → 0 <= p → p * 2 ^ sh < 4096 → p < page_blocks sh.
Proof.
  intros Hsh Hp H. unfold page_blocks. assert (0 < 2 ^ sh) by (apply Z.pow_pos_nonneg; lia).
  assert (p <= 4095 / 2 ^ sh) by (apply Z.div_le_lower_bound; lia).
  destruct (decide (p = 0)) as [->|]; [lia|].
  assert (p * 2 ^ sh mod 2 ^ sh = 0) by (apply Z.mod_mul; lia).
  assert (sh <= 12).
  { apply Z.lt_succ_r. change (Z.succ 12) with 13. destruct (Z.lt_ge_cases sh 13) as [|Hge]; [done|].
    assert (2 ^ 13 <= 2 ^ sh) by (apply Z.pow_le_mono_r; lia). change (2 ^ 13) with 8192 in *. nia. }
  replace 4096 with (2 ^ (12 - sh) * 2 ^ sh) in *
    by (rewrite <- Z.pow_add_r by lia; by replace (12 - sh + sh) with 12 by lia).
  rewrite Z.div_mul by lia. nia.
Qed.

Lemma lba_incr_en_in a it it' : bytes_ok a → lba_in it → lba_at_end it = false →
  lba_incr_en (Mapping a n) it = Ret it' →
  lba_in it' ∧ turns_left it' < turns_left it ∧ li_shift it' = li_shift it.
Proof.
  intros Ha (Hin & Hsh & Hp & _) He. unfold lba_incr_en.
  assert (0 < 2 ^ li_shift it) by (apply Z.pow_pos_nonneg; lia).
  destruct (prp_this_nbytes_en _ _) as [k|]; [|done]. cbn [mbind outcome_bind].
  destruct (Z.leb_spec (Z.min NVME_PAGE_SIZE k) (u64 (Z.shiftl (pli it + 1) (li_shift it)))) as [Hle|Hlt].
  - destruct (prp_incr_en _ _) as [prp|] eqn:E; [|done]. cbn [mbind outcome_bind].
    intros [= <-]. apply incr_en_in in E as [E1 E2]; [|done..].
    assert (1 <= page_blocks (li_shift it)) by (unfold page_blocks; lia).
    unfold lba_in, turns_left. simpl. split_and!; try done; try lia. nia.
  - intros [= <-]. change NVME_PAGE_SIZE with 4096 in Hlt.
    assert (page_blocks (li_shift it) <= 4096) as Hpb.
    { unfold page_blocks. apply Z.max_lub; [lia|]. apply Z.div_le_upper_bound; lia. }
    assert (2 ^ li_shift it <= 2 ^ 20) by (apply Z.pow_le_mono_r; lia).
    change (2 ^ 20) with 1048576 in *.
    rewrite Z.shiftl_mul_pow2, u64_small in Hlt by nia.
    assert (pli it + 1 < page_blocks (li_shift it)) by (apply page_blocks_lt; lia).
    unfold lba_in, turns_left, lba_at_end in *. simpl. rewrite He.
    split_and!; try done; lia.
Qed.

Lemma turns_left_nonneg it : lba_in it → 0 <= turns_left it.
Proof.
  intros (([Hb _] & _) & _ & Hp & He). unfold turns_left, lba_at_end in *.
  rewrite prp_at_end_spec in He. destruct (Z.eqb_spec (nbytes (li_prp it)) 0); [|nia].
  rewrite He by done. nia.
Qed.
End iterators.

(** *** The calls *)

(** What the crypto library does with a buffer: it keeps the length, makes
    bytes of bytes, and decryption undoes encryption. *)
Record xts_lib (lib_encrypt lib_decrypt : list Z → list Z → list Z → option (list Z)) : Prop := {
  xl_encrypt k d t c : lib_encrypt k d t = Some c → length c = length d ∧ (is_bytes d → is_bytes c);
  xl_decrypt k d t c : lib_decrypt k d t = Some c → length c = length d ∧ (is_bytes d → is_bytes c);
  xl_inverse k d t c : lib_encrypt k d t = Some c → lib_decrypt k c t = Some d;
}.

Section calls.
Context (lib_init : list Z → Z → bool).
Context (lib_encrypt lib_decrypt : list Z → list Z → list Z → option (list Z)).
Context (is_outside : Z → Z → bool).
Context (Hlib : xts_lib lib_encrypt lib_decrypt).

Abbreviation crypt := (crypt lib_encrypt lib_decrypt).
Abbreviation command_blocks := (command_blocks lib_encrypt lib_decrypt).
Abbreviation command_out := (command_out lib_encrypt lib_decrypt).
Abbreviation buffer_blocks := (buffer_blocks lib_encrypt lib_decrypt).

Lemma crypt_Some e dec out d lba c : crypt e dec out d lba = Some c →
  length c = length d ∧ (is_bytes d → is_bytes c) ∧ Z.of_nat (length d) <= out.
Proof using Hlib.
  unfold crypt. destruct dec; simpl; unfold ipp_crypt; case_match eqn:E; try done; to_prop;
    intros Hc; (apply (xl_decrypt _ _ Hlib) in Hc || apply (xl_encrypt _ _ Hlib) in Hc);
    destruct Hc; split_and!; done || lia.
Qed.

Lemma put_key_ok key sh en r en' : enclave_ok en →
  put_key lib_init key sh en = (Ret r, en') → enclave_ok en'.
Proof using.
  intros Hen. unfold put_key, mbind, eff_bind, get. cbv beta iota.
  destruct (Z.leb_spec 0 (g_lba_shift en)) as [_|Hneg]; [by intros [= _ <-]|].
  unfold ensure. destruct ((0 <=? sh) && (sh <? 32)) eqn:Hsh; [|done]. to_prop.
  unfold mret, eff_ret, lift, put, ipp_create. cbv beta iota.
  destruct (Z.ltb_spec xts_max_bytes (block_bytes sh)) as [|Hmax]; [done|].
  destruct (lib_init key (block_bytes sh)); [|done]. intros [= _ <-]. right.
  assert (0 <= sh <= 20) as Hsh'.
  { split; [lia|]. apply Z.nlt_ge. intros Hgt. revert Hmax. apply Z.lt_nge.
    assert (sh = 21 ∨ sh = 22 ∨ sh = 23 ∨ sh = 24 ∨ sh = 25 ∨ sh = 26 ∨ sh = 27 ∨ sh = 28 ∨
      sh = 29 ∨ sh = 30 ∨ sh = 31) as Hc by lia.
    by repeat (destruct Hc as [->|Hc]; [done|]); subst sh. }
  eexists. simpl. rewrite (block_bytes_eq sh) by done. done.
Qed.

(** One turn of the loop over guest memory. *)
Lemma command_blocks_turn e dec fuel it b vm : lba_at_end it = false →
  command_blocks e dec (S fuel) it b vm =
  match lba_deref_en vm it with
  | Throw ex => (Throw ex, vm)
  | Ret sp =>
    match crypt e dec sp.2 (view_bytes vm sp) (lba it) with
    | None => (Ret (- EIO), vm)
    | Some c =>
      match lba_incr_en (view_store vm sp c) it with
      | Throw ex => (Throw ex, view_store vm sp c)
      | Ret it' => command_blocks e dec fuel it' (b + sp.2) (view_store vm sp c)
      end
    end
  end.
Proof using.
  intros He. simpl. rewrite He. unfold mbind, eff_bind, get, lift, put, mret, eff_ret.
  destruct (lba_deref_en vm it) as [sp|]; [|done].
  destruct (crypt e dec sp.2 (view_bytes vm sp) (lba it)); [|done].
  by destruct (lba_incr_en _ it).
Qed.

Lemma command_blocks_confined n e dec fuel it b a : n < 2 ^ 64 → bytes_ok a → lba_in n it →
  turns_left it < Z.of_nat fuel → confined n (on_view n (command_blocks e dec fuel it b)) a.
Proof using Hlib.
  intros Hn. revert it b a. induction fuel as [|fuel IH]; intros it b a Ha Hin Hf.
  { pose proof (turns_left_nonneg n it Hin). lia. }
  destruct (lba_at_end it) eqn:He.
  { apply (confined_ext n _ (λ a, (Ret b, a))); [done| |by apply confined_const].
    intros a' _ _. unfold on_view. simpl. by rewrite He. }
  destruct (lba_deref_en (Mapping a n) it) as [sp|ex] eqn:Hd.
  2:{ apply (confined_ext n _ (λ a, (Throw ex, a))); [done| |].
      - intros a' _ Hs. unfold on_view. by rewrite command_blocks_turn, <- (lba_deref_en_same n a), Hd.
      - apply confined_const; [done|]. by apply (clean_Throw _ _ (clean_lba_deref _ _) Hd). }
  pose proof (lba_deref_en_in n a it sp Hn Hin Hd) as (Ho & Hsp & Hsz).
  assert (0 < 2 ^ li_shift it) by (destruct Hin as (_ & ? & _); apply Z.pow_pos_nonneg; lia).
  assert (∀ a', same_below n a a' → view_bytes (Mapping a' n) sp = view_bytes (Mapping a n) sp) as Hv.
  { intros a' Hs. symmetry. apply (load_bytes_same n); [done|done|lia]. }
  destruct (crypt e dec sp.2 (view_bytes (Mapping a n) sp) (lba it)) as [c|] eqn:Hc.
  2:{ apply (confined_ext n _ (λ a, (Ret (- EIO), a))); [done| |by apply confined_const].
      intros a' _ Hs. unfold on_view.
      by rewrite command_blocks_turn, <- (lba_deref_en_same n a), Hd, Hv, Hc. }
  pose proof (crypt_Some _ _ _ _ _ _ Hc) as (Hl & Hbc & _). rewrite length_view_bytes in Hl.
  specialize (Hbc (is_bytes_load _ _ _ Ha)).
  apply (confined_ext n _ (λ a, on_view n (λ vm, match lba_incr_en vm it with
    | Throw ex => (Throw ex, vm)
    | Ret it' => command_blocks e dec fuel it' (b + sp.2) vm end) (store_bytes a sp.1 c))); [done| |].
  { intros a' _ Hs. unfold on_view.
    rewrite command_blocks_turn, <- (lba_deref_en_same n a), Hd, Hv, Hc by done.
    unfold view_store. cbn [vm_bytes vm_size]. by destruct (lba_incr_en _ it). }
  apply confined_store; [done..|lia|]. set (a1 := store_bytes a sp.1 c).
  assert (bytes_ok a1) as Ha1 by by apply bytes_ok_store.
  destruct (lba_incr_en (Mapping a1 n) it) as [it'|ex] eqn:Hi.
  - pose proof (lba_incr_en_in n _ _ _ Ha1 Hin He Hi) as (Hin' & Ht & _).
    eapply confined_ext; [done| |apply (IH it' (b + sp.2) a1); [done..|lia]].
    intros a' _ Hs. unfold on_view. by rewrite <- (lba_incr_en_same n a1), Hi.
  - apply (confined_ext n _ (λ a, (Throw ex, a))); [done| |].
    + intros a' _ Hs. unfold on_view. by rewrite <- (lba_incr_en_same n a1), Hi.
    + apply confined_const; [done|]. by apply (clean_Throw _ _ (clean_lba_incr _ _) Hi).
Qed.

(** A block of a buffer passes the check of [subspan] when it is in it. *)
Lemma subspan_en_spec n off sh : 0 <= off → 0 <= sh <= 20 → n + 2 ^ sh < 2 ^ 64 →
  subspan_en n off (2 ^ sh) =
    if decide (off + 2 ^ sh <= n) then Ret (off, 2 ^ sh) else Throw Econtract.
Proof using.
  intros Ho Hsh Hn. assert (2 ^ sh <= 2 ^ 20) by (apply Z.pow_le_mono_r; lia).
  assert (0 < 2 ^ sh) by (apply Z.pow_pos_nonneg; lia). change (2 ^ 20) with 1048576 in *.
  unfold subspan_en. change U64_MAX with (2 ^ 64 - 1).
  replace (2 ^ sh =? 2 ^ 64 - 1) with false by lia. simpl orb.
  destruct (Z.leb_spec off n); simpl andb; [|case_decide; [lia|done]].
  rewrite u64_small by lia. case_decide.
  - by replace (off + 2 ^ sh <=? n) with true by lia.
  - by replace (off + 2 ^ sh <=? n) with false by lia.
Qed.

(** The loop over a buffer of [n] bytes. *)
Lemma buffer_blocks_confined n e dec sh first count eli b a : 0 <= sh <= 20 →
  n + 2 ^ sh < 2 ^ 64 → 0 <= eli → bytes_ok a →
  confined n (buffer_blocks e dec n sh first count eli b) a.
Proof using Hlib.
  intros Hsh Hn. assert (0 < 2 ^ sh) by (apply Z.pow_pos_nonneg; lia).
  revert eli b a. induction count as [|count IH]; intros eli b a Heli Ha; [by apply confined_const|].
  simpl. rewrite block_bytes_eq by done. set (off := u64 (Z.shiftl eli sh)) in *.
  assert (0 <= off) as Ho by by apply u64_range.
  rewrite subspan_en_spec by done. case_decide as Hsp; [|by apply confined_const].
  unfold mbind at 1, eff_bind at 1, lift. cbv beta iota.
  set (k := u64 (first + eli)).
  set (d := load_bytes a off (Z.to_nat (2 ^ sh))).
  assert (∀ a', same_below n a a' → load_bytes a' off (Z.to_nat (2 ^ sh)) = d) as Hd.
  { intros a' Hs. symmetry. apply (load_bytes_same n); [done|done|lia]. }
  destruct (crypt e dec (2 ^ sh) d k) as [c|] eqn:Hc.
  2:{ apply (confined_ext n _ (λ a, (Ret (- EIO), a))); [done| |by apply confined_const].
      intros a' _ Hs. unfold mbind, eff_bind, get. by rewrite Hd, Hc. }
  pose proof (crypt_Some _ _ _ _ _ _ Hc) as (Hl & Hbc & _). specialize (Hbc (is_bytes_load _ _ _ Ha)).
  unfold d in Hl.
  rewrite length_load_bytes in Hl.
  apply (confined_ext n _ (λ a, buffer_blocks e dec n sh first count (eli + 1) (b + 2 ^ sh)
    (store_bytes a off c))); [done| |].
  - intros a' _ Hs. unfold mbind, eff_bind, get. rewrite Hd, Hc by done. done.
  - apply confined_store; [done..|lia|]. apply IH; [lia|by apply bytes_ok_store].
Qed.

(** The loop that writes [n] bytes from guest memory: it does not read them. *)
Lemma command_out_confined n e dec fuel vm it off a : vm_size vm < 2 ^ 64 → bytes_ok (vm_bytes vm) →
  lba_in (vm_size vm) it → turns_left it < Z.of_nat fuel → 0 <= off → bytes_ok a →
  confined n (command_out e dec fuel vm it n off) a.
Proof using Hlib.
  intros Hv Hb. revert it off a. induction fuel as [|fuel IH]; intros it off a Hin Hf Ho Ha.
  { pose proof (turns_left_nonneg _ it Hin). lia. }
  simpl. destruct (lba_at_end it) eqn:He; [by apply confined_const|].
  unfold mbind at 1, eff_bind at 1, lift. destruct vm as [m sz]. simpl in *.
  destruct (lba_deref_en (Mapping m sz) it) as [sp|ex] eqn:Hd.
  2:{ apply confined_const; [done|]. by apply (clean_Throw _ _ (clean_lba_deref _ _) Hd). }
  pose proof (lba_deref_en_in sz m it sp Hv Hin Hd) as (_ & _ & Hsz).
  assert (0 < 2 ^ li_shift it) by (destruct Hin as (_ & ? & _); apply Z.pow_pos_nonneg; lia).
  destruct (Z.ltb_spec (n - off) sp.2); [by apply confined_const|].
  destruct (crypt e dec (n - off) (view_bytes (Mapping m sz) sp) (lba it)) as [c|] eqn:Hc;
    [|by apply confined_const].
  pose proof (crypt_Some _ _ _ _ _ _ Hc) as (Hl & Hbc & _). rewrite length_view_bytes in Hl.
  specialize (Hbc (is_bytes_load _ _ _ Hb)).
  assert (subspan_en (n - off) sp.2 U64_MAX = Ret (sp.2, n - off - sp.2)) as Hss.
  { unfold subspan_en. by replace (sp.2 <=? n - off) with true by lia. }
  apply (confined_ext n _ (λ a, (it' ← lift (lba_incr_en (Mapping m sz) it);
    command_out e dec fuel (Mapping m sz) it' n (off + sp.2)) (store_bytes a off c))); [done| |].
  { intros a' _ _. unfold mbind, eff_bind, modify, lift. cbv beta iota. by rewrite Hss. }
  apply confined_store; [done..|lia|]. assert (bytes_ok (store_bytes a off c)) by by apply bytes_ok_store.
  unfold mbind, eff_bind, lift. destruct (lba_incr_en (Mapping m sz) it) as [it'|ex] eqn:Hi.
  - pose proof (lba_incr_en_in sz _ _ _ Hb Hin He Hi) as (Hin' & Ht & _). apply IH; done || lia.
  - apply confined_const; [done|]. by apply (clean_Throw _ _ (clean_lba_incr _ _) Hi).
Qed.

(** Guest memory out of the range does not matter. *)
Lemma command_out_same n e dec fuel m m' sz it off a : sz < 2 ^ 64 → bytes_ok m →
  same_below sz m m' → lba_in sz it →
  command_out e dec fuel (Mapping m sz) it n off a = command_out e dec fuel (Mapping m' sz) it n off a.
Proof using Hlib.
  intros Hv Hb Hs. revert it off a. induction fuel as [|fuel IH]; intros it off a Hin; [done|].
  simpl. destruct (lba_at_end it) eqn:He; [done|]. unfold mbind, eff_bind, lift.
  rewrite <- (lba_deref_en_same sz m m') by done.
  destruct (lba_deref_en (Mapping m sz) it) as [sp|] eqn:Hd; [|done].
  pose proof (lba_deref_en_in sz m it sp Hv Hin Hd) as (H1 & H2 & H3).
  assert (0 < 2 ^ li_shift it) by (destruct Hin as (_ & ? & _); apply Z.pow_pos_nonneg; lia).
  assert (view_bytes (Mapping m' sz) sp = view_bytes (Mapping m sz) sp) as ->.
  { symmetry. apply (load_bytes_same sz); [done|done|lia]. }
  destruct (n - off <? sp.2); [done|]. destruct (crypt e dec _ _ _); [|done].
  unfold modify. destruct (subspan_en _ _ _); [|done].
  rewrite <- (lba_incr_en_same sz m m') by done.
  destruct (lba_incr_en (Mapping m sz) it) as [it'|] eqn:Hi; [|done].
  apply IH. by apply (lba_incr_en_in sz _ _ _ Hb Hin He Hi).
Qed.

End calls.

(** *** Guards and the handler *)

Lemma confined_catch n (m : eff arr Z) a :
  confined n m a → confined n (catch m contract_handler) a.
Proof.
  unfold confined, catch. destruct (m a) as [[r|e] a1] eqn:E; intros (H1 & H2 & H3 & H4).
  - split_and!; try done. intros a' Ha' Hs. destruct (H4 a' Ha' Hs) as (a1' & -> & Hs'). by exists a1'.
  - destruct e; simpl; split_and!; try done; try (by destruct H3);
      intros a' Ha' Hs; destruct (H4 a' Ha' Hs) as (a1' & -> & Hs'); by exists a1'.
Qed.

Lemma on_view_catch n (m : eff mapping Z) a :
  on_view n (catch m contract_handler) a = catch (on_view n m) contract_handler a.
Proof.
  unfold on_view, catch. destruct (m (Mapping a n)) as [[r|e] vm]; [done|].
  by destruct e.
Qed.

(** What [sgx_is_outside_enclave] answers "yes" for: a range of addresses that
    does not meet the enclave. The enclave's heap alone has 2^20 bytes
    (Enclave/Enclave.config.xml). *)
Record outside_check (is_outside : Z → Z → bool) (base size : Z) : Prop := {
  oc_range : 0 <= base ∧ 2 ^ 20 < size ∧ base + size <= 2 ^ 64;
  oc_sound p n : is_outside p n = true →
    0 <= p ∧ p + n <= 2 ^ 64 ∧ (p + n <= base ∨ base + size <= p);
}.

(** The bytes a call may reach behind a pointer: those it checked. *)
Definition reach (is_outside : Z → Z → bool) (p n : Z) : Z := if is_outside p n then n else 0.

Lemma lba_begin_en_in n cmd sh : 0 <= sh <= 20 → 0 <= prp1 cmd → 0 <= prp2 cmd →
  lba_in n (lba_begin_en cmd sh) ∧
  turns_left (lba_begin_en cmd sh) < Z.of_nat (en_fuel (lba_begin_en cmd sh)).
Proof.
  intros Hsh H1 H2. pose proof (u64_range (Z.shiftl (nblocks_of cmd) sh)).
  assert (1 <= page_blocks sh) by (unfold page_blocks; lia).
  unfold lba_in, prp_in, prp_ok, turns_left, en_fuel, lba_begin_en. cbn. split_and!; try done; try lia.
Qed.

(** *** The calls on compliant commands

    Where the code outside of the enclave returns, the one inside takes the
    same steps. *)

Lemma deref_en_Ret vm it a : prp_deref vm it = Ret a → prp_deref_en vm it = Ret a.
Proof.
  unfold prp_deref, prp_deref_en. case_match; [done|]. intros Hg.
  pose proof (prpl_get_Ret _ _ _ _ Hg). unfold assert_en.
  replace (prpi it <? prpl_size (prpl it)) with true by lia. by rewrite Hg.
Qed.

(** An advance that returns starts from an entry of data. *)
Lemma prp_incr_data vm it it' : prp_ok it → prp_incr vm it = Ret it' → is_data it = true.
Proof.
  intros Hok H. destruct (prp_incr_Ret _ _ _ Hok H) as (a & n & _ & Hn & Hn0 & _).
  unfold prp_this_nbytes in Hn. destruct (prpl_get vm (prpl it) (prpi it)); [|done].
  cbn [mbind outcome_bind] in Hn. destruct (is_data it); [done|]. injection Hn. lia.
Qed.

(** Where a walk can stand: at its end, or on an entry of data. *)
Definition live (it : prp_chain_iter) : Prop := prp_at_end it = true ∨ is_data it = true.

Lemma assert_live it : live it → assert_en (prp_at_end it || is_data it) (Ret it) = Ret it.
Proof. intros [H|H]; unfold assert_en; by rewrite H, ?orb_true_r. Qed.

Lemma incr_en_Ret vm it it' : prp_ok it → prp_incr vm it = Ret it' → live it' →
  prp_incr_en vm it = Ret it'.
Proof.
  intros Hok H Hlive. pose proof (prp_incr_data _ _ _ Hok H) as Hd.
  destruct (prp_incr_Ret _ _ _ Hok H) as (a & n & Ha & Hn & _ & Hle & _ & _).
  unfold prp_incr, prp_incr_en, prp_this_nbytes_en in *. unfold prp_deref in Ha.
  destruct (prp_at_end it); [done|]. rewrite Hn in *. cbn [mbind outcome_bind checked] in *.
  apply prpl_get_Ret in Ha. unfold assert_en at 1. rewrite Hd.
  replace ((n <=? nbytes it) && (prpi it <? prpl_size (prpl it)) && true) with true by lia.
  set (it1 := PrpIter _ _ _) in *. destruct (negb (is_data it1)).
  - destruct (prp_deref vm it1) as [next|] eqn:Hx; [|done]. rewrite (deref_en_Ret _ _ _ Hx).
    cbn [mbind outcome_bind] in *. destruct (get_page vm next) as [[off m]|]; [|done].
    cbn [mbind outcome_bind] in *. injection H as <-. exact (assert_live _ Hlive).
  - injection H as <-. exact (assert_live _ Hlive).
Qed.

Lemma lba_deref_en_Ret vm it sp : 0 <= li_shift it <= 20 →
  lba_deref vm it = Ret sp → lba_deref_en vm it = Ret sp.
Proof.
  intros Hsh. unfold lba_deref, lba_deref_en. rewrite block_bytes_eq, <- shiftl_1 by lia.
  destruct (prp_deref vm (li_prp it)) as [a|] eqn:Ha; [|done]. by rewrite (deref_en_Ret _ _ _ Ha).
Qed.

Lemma lba_incr_live vm it it' : prp_ok (li_prp it) → lba_incr vm it = Ret it' →
  is_data (li_prp it) = true ∧ prp_ok (li_prp it').
Proof.
  intros Hok. unfold lba_incr. destruct (prp_this_nbytes vm (li_prp it)) as [n|] eqn:Hn; [|done].
  cbn [mbind outcome_bind]. destruct (Z.leb_spec (Z.min NVME_PAGE_SIZE n)
    (u64 (Z.shiftl (pli it + 1) (li_shift it)))) as [|Hlt].
  - destruct (prp_incr vm (li_prp it)) as [prp|] eqn:Hp; [|done]. intros [= <-].
    split; [by eapply prp_incr_data|]. by destruct (prp_incr_Ret _ _ _ Hok Hp) as (? & ? & ? & ? & ? & ? & ? & ?).
  - intros [= <-]. split; [|done]. unfold prp_this_nbytes in Hn.
    destruct (prpl_get vm _ _); [|done]. cbn [mbind outcome_bind] in Hn.
    destruct (is_data (li_prp it)); [done|]. injection Hn as <-.
    pose proof (u64_range (Z.shiftl (pli it + 1) (li_shift it))). change NVME_PAGE_SIZE with 4096 in *. lia.
Qed.

Lemma lba_incr_en_Ret vm it it' : prp_ok (li_prp it) → lba_incr vm it = Ret it' →
  live (li_prp it') → lba_incr_en vm it = Ret it'.
Proof.
  intros Hok H Hl. unfold lba_incr, lba_incr_en, prp_this_nbytes_en in *.
  destruct (prp_this_nbytes vm (li_prp it)) as [n|]; [|done]. cbn [mbind outcome_bind checked] in *.
  case_match; [|done]. destruct (prp_incr vm (li_prp it)) as [prp|] eqn:Hp; [|done].
  cbn [mbind outcome_bind] in H. injection H as <-. by rewrite (incr_en_Ret _ _ _ Hok Hp Hl).
Qed.

Lemma read_turns_live {E} `{tweakable_block_cipher E} (e : E) k it vm vm' :
  read_turns e k it vm vm' → prp_ok (li_prp it) → live (li_prp it).
Proof.
  intros Hr Hok. destruct Hr as [|k it vm sp d it' vm' _ _ _ Hi]; [by left|right].
  by eapply lba_incr_live.
Qed.

Lemma lba_walk_live fuel vm it l : lba_walk fuel vm it = Ret l → prp_ok (li_prp it) → live (li_prp it).
Proof.
  destruct fuel; [done|]. intros H Hok.
  apply lba_walk_cons in H as [[He _]|(_ & sp & it' & l' & _ & Hi & _)]; [by left|right].
  by eapply lba_incr_live.
Qed.

Section exact.
Context (lib_encrypt lib_decrypt : list Z → list Z → list Z → option (list Z)).
Context (Hlib : xts_lib lib_encrypt lib_decrypt).

#[export] Instance engine_laws e : @CipherLaws engine_t (engine_cipher lib_encrypt lib_decrypt) e.
Proof using Hlib.
  pose proof (ipp_laws (lib_encrypt (en_key e)) (lib_decrypt (en_key e))
    (λ d t c H, proj1 (xl_encrypt _ _ Hlib _ d t c H)) (xl_inverse _ _ Hlib (en_key e)) (en_xts e)) as [L1 L2].
  split; [exact L1|exact L2].
Qed.

(** Decryption in place is that of the encryptor outside. *)
Lemma read_turns_en e k it vm vm' fuel b :
  @read_turns _ (engine_cipher lib_encrypt lib_decrypt) e k it vm vm' →
  prp_ok (li_prp it) → 0 <= li_shift it <= 20 → (k < fuel)%nat →
  command_blocks lib_encrypt lib_decrypt e true fuel it b vm =
    (Ret (b + Z.of_nat k * 2 ^ li_shift it), vm').
Proof using.
  intros Hr. revert fuel b. induction Hr as [it vm He|k it vm sp d it' vm' He Hd Hdec Hi Hr IH];
    intros [|fuel] b Hok Hsh Hf; try lia.
  { simpl. rewrite He. replace (b + _) with b by lia. done. }
  destruct (lba_incr_live _ _ _ Hok Hi) as [_ Hok'].
  rewrite command_blocks_turn, (lba_deref_en_Ret _ _ _ Hsh Hd) by done.
  assert (li_shift it' = li_shift it) as Es.
  { clear -Hi. unfold lba_incr in Hi. destruct (prp_this_nbytes _ _); [|done].
    cbn [mbind outcome_bind] in Hi. case_match; [|by injection Hi as <-].
    destruct (prp_incr _ _); [|done]. by injection Hi as <-. }
  assert (sp.2 = 2 ^ li_shift it) as Esp.
  { unfold lba_deref, get_span in Hd. destruct (prp_deref _ _); [|done].
    cbn [mbind outcome_bind] in Hd. case_match; [done|]. injection Hd as <-.
    simpl. by rewrite shiftl_1 by lia. }
  assert (0 < 2 ^ li_shift it) by (apply Z.pow_pos_nonneg; lia).
  unfold decrypt_in_place in Hdec. rewrite length_view_bytes, Z2Nat.id in Hdec by lia.
  unfold crypt. rewrite Hdec.
  rewrite (lba_incr_en_Ret _ _ _ Hok Hi) by exact (read_turns_live _ _ _ _ _ Hr Hok').
  rewrite (IH fuel) by (done || lia || by rewrite Es). rewrite Es. do 2 f_equal. lia.
Qed.

(** The engine does not mind more room behind the block. *)
Lemma crypt_room e n n' d k c : crypt lib_encrypt lib_decrypt e false n d k = Some c →
  Z.of_nat (length d) <= n' → crypt lib_encrypt lib_decrypt e false n' d k = Some c.
Proof using.
  unfold crypt. simpl. unfold ipp_crypt. case_match eqn:C; [done|]. to_prop. intros <- Hn.
  by replace ((n' <? Z.of_nat (length d)) || negb (Z.of_nat (length d) =? ipp_bs (en_xts e)))
    with false by lia.
Qed.

(** Encryption into a buffer: the blocks one after the other. *)
Lemma command_out_spec e sh vm n fuel0 : 0 <= sh <= 12 →
  @takes_blocks _ (engine_cipher lib_encrypt lib_decrypt) e sh →
  ∀ it l fuel off a, lba_walk fuel0 vm it = Ret l → prp_ok (li_prp it) → li_shift it = sh →
  (length l < fuel)%nat →
  off + Z.of_nat (length l) * 2 ^ sh <= n →
  ∃ cs, command_out lib_encrypt lib_decrypt e false fuel vm it n off a =
      (Ret (off + Z.of_nat (length l) * 2 ^ sh), store_bytes a off (concat cs)) ∧
    Forall2 (λ x ct, @block_cipher _ (engine_cipher lib_encrypt lib_decrypt) e vm (li_slba it) x = Some ct) l cs.
Proof using Hlib.
  intros Hsh Ht. assert (0 < 2 ^ sh) as HL by (apply Z.pow_pos_nonneg; lia).
  induction fuel0 as [|fuel0 IH]; intros it l fuel off a W Hok Es Hf Hn; [done|].
  destruct fuel as [|fuel]; [lia|].
  apply lba_walk_cons in W as [[He ->]|(He & sp & it' & l' & Hd & Hi & W & -> & E1 & E2 & _ & E4)].
  { exists []. simpl. rewrite He, Z.add_0_r. done. }
  destruct (lba_incr_live _ _ _ Hok Hi) as [_ Hok'].
  simpl in Hf. simpl length in Hn.
  unfold cmd_lba_size in E4. rewrite Es, shiftl_1 in E4 by lia.
  destruct (Ht (view_bytes vm sp) (lba it)) as [ct Hct]; [rewrite length_view_bytes; lia|].
  pose proof (encrypt_length _ _ _ _ Hct) as Hl. rewrite length_view_bytes in Hl.
  destruct (IH it' l' fuel (off + sp.2) (store_bytes a off ct)) as (cs & R & F);
    try done; try lia; try congruence.
  exists (ct :: cs). cbn [command_out]. rewrite He. unfold mbind, eff_bind, lift, modify, mret, eff_ret.
  rewrite (lba_deref_en_Ret vm it sp) by (done || lia). replace (n - off <? sp.2) with false by nia.
  rewrite (crypt_room _ _ (n - off) _ _ _ Hct) by (rewrite length_view_bytes; nia).
  cbv beta iota. unfold subspan_en.
  replace (sp.2 <=? n - off) with true by nia. cbn [andb orb].
  rewrite (lba_incr_en_Ret _ _ _ Hok Hi) by exact (lba_walk_live _ _ _ _ W Hok'). rewrite R. split.
  - cbn [concat length]. rewrite store_bytes_app. replace (Z.of_nat (length ct)) with sp.2 by lia.
    do 2 f_equal. lia.
  - constructor; [|by rewrite E1 in F]. unfold block_cipher. cbn [fst snd]. rewrite E4.
    by rewrite lba_index in Hct.
Qed.

(** The blocks of a buffer in place: each is the encryption of what it held. *)
Lemma buffer_blocks_spec e sh n first count : 0 <= sh <= 12 → n + 2 ^ sh < 2 ^ 64 →
  @takes_blocks _ (engine_cipher lib_encrypt lib_decrypt) e sh →
  ∀ eli b a, 0 <= eli → (eli + Z.of_nat count) * 2 ^ sh <= n →
  ∃ cs, buffer_blocks lib_encrypt lib_decrypt e false n sh first count eli b a =
      (Ret (b + Z.of_nat count * 2 ^ sh), store_bytes a (eli * 2 ^ sh) (concat cs)) ∧
    length cs = count ∧ Z.of_nat (length (concat cs)) = Z.of_nat count * 2 ^ sh ∧
    ∀ k c, cs !! k = Some c →
      crypt lib_encrypt lib_decrypt e false (2 ^ sh)
        (load_bytes a ((eli + Z.of_nat k) * 2 ^ sh) (Z.to_nat (2 ^ sh)))
        (u64 (first + eli + Z.of_nat k)) = Some c.
Proof using Hlib.
  intros Hsh Hn Ht. assert (0 < 2 ^ sh) as HL by (apply Z.pow_pos_nonneg; lia).
  set (L := 2 ^ sh) in *.
  induction count as [|count IH]; intros eli b a He Hc.
  { exists []. simpl. by rewrite Z.add_0_r. }
  assert ((eli + 1) * L <= n) as Hin by nia.
  destruct (Ht (load_bytes a (eli * L) (Z.to_nat L)) (u64 (first + eli))) as [ct Hct].
  { rewrite length_load_bytes. fold L. lia. }
  fold L in Hct. pose proof (encrypt_length _ _ _ _ Hct) as Hl. rewrite length_load_bytes in Hl.
  destruct (IH (eli + 1) (b + L) (store_bytes a (eli * L) ct)) as (cs & R & R1 & R2 & R3); [lia|lia|].
  exists (ct :: cs). cbn [buffer_blocks]. rewrite block_bytes_eq by lia. fold L.
  assert (0 <= eli * L) by (apply Z.mul_nonneg_nonneg; lia).
  rewrite Z.shiftl_mul_pow2 by lia. fold L. rewrite (u64_small (eli * L)) by lia.
  assert (subspan_en n (eli * L) L = Ret (eli * L, L)) as ->.
  { unfold L at 2. rewrite subspan_en_spec by (fold L; lia). fold L. by rewrite decide_True by lia. }
  unfold mbind, eff_bind, lift, get, put. cbv beta iota. unfold crypt at 1. fold L. rewrite Hct, R.
  split_and!; [| |simpl; rewrite length_app; lia|].
  - cbn [concat]. rewrite store_bytes_app. f_equal; [f_equal; lia|]. f_equal. lia.
  - simpl. by rewrite R1.
  - intros [|k] c Hk; simpl in Hk.
    + injection Hk as <-. simpl. by rewrite !Z.add_0_r.
    + apply R3 in Hk. rewrite load_store_bytes_out in Hk by nia.
      replace (eli + 1 + Z.of_nat k) with (eli + Z.of_nat (S k)) in Hk by lia.
      by replace (first + (eli + 1) + Z.of_nat k) with (first + eli + Z.of_nat (S k)) in Hk by lia.
Qed.
End exact.

(** ** Properties *)

Section confinement.
Context (lib_encrypt lib_decrypt : list Z → list Z → list Z → option (list Z)).
Context (is_outside : Z → Z → bool) (base size : Z).
Context (Hlib : xts_lib lib_encrypt lib_decrypt) (Hout : outside_check is_outside base size).

(** A call that is refused reaches nothing, and the others nothing but what
    was checked. *)
Lemma command_inplace_confined en pvm n cmd dec a : enclave_ok en → n < 2 ^ 64 → bytes_ok a →
  0 <= prp1 cmd → 0 <= prp2 cmd →
  confined (reach is_outside pvm n)
    (on_view n (crypt_command_inplace lib_encrypt lib_decrypt is_outside en pvm cmd dec)) a.
Proof using Hlib.
  intros Hen Hn Ha H1 H2. unfold crypt_command_inplace.
  destruct (Z.ltb_spec (g_lba_shift en) 0); [by apply confined_const|].
  destruct Hen as [|(e & He & Hsh & _)]; [lia|].
  unfold reach. destruct (is_outside pvm n) eqn:Ho.
  2:{ apply (confined_ext _ _ (λ a, (Ret (- EFAULT), a))); [done| |by apply confined_const].
      intros a' _ _. unfold on_view, mbind, eff_bind, get. simpl. by rewrite Ho. }
  destruct (lba_begin_en_in n cmd (g_lba_shift en) Hsh H1 H2) as [Hin Hf].
  eapply confined_ext; [done| |apply confined_catch, command_blocks_confined; [exact Hlib|done|done|exact Hin|exact Hf]].
  intros a' _ _. rewrite <- on_view_catch. unfold on_view, mbind, eff_bind, get. simpl.
  rewrite Ho. unfold with_engine. by rewrite He.
Qed.

Lemma command_confined en pvm vm cmd outbuf n dec a : enclave_ok en → vm_size vm < 2 ^ 64 →
  bytes_ok (vm_bytes vm) → bytes_ok a → 0 <= prp1 cmd → 0 <= prp2 cmd →
  confined (reach is_outside outbuf n)
    (crypt_command lib_encrypt lib_decrypt is_outside en pvm vm cmd outbuf n dec) a.
Proof using Hlib.
  intros Hen Hn Hb Ha H1 H2. unfold crypt_command.
  destruct (Z.ltb_spec (g_lba_shift en) 0); [by apply confined_const|].
  destruct Hen as [|(e & He & Hsh & _)]; [lia|].
  unfold reach. destruct (is_outside pvm (vm_size vm)); [|by apply confined_const].
  destruct (is_outside outbuf n); [|by apply confined_const].
  destruct (lba_begin_en_in (vm_size vm) cmd (g_lba_shift en) Hsh H1 H2) as [Hin Hf].
  simpl orb. cbv iota. unfold with_engine. rewrite He. by apply confined_catch, command_out_confined.
Qed.

Lemma command_reads en pvm n m m' cmd outbuf k dec a : enclave_ok en → n < 2 ^ 64 →
  bytes_ok m → same_below (reach is_outside pvm n) m m' → 0 <= prp1 cmd → 0 <= prp2 cmd →
  crypt_command lib_encrypt lib_decrypt is_outside en pvm (Mapping m n) cmd outbuf k dec a =
  crypt_command lib_encrypt lib_decrypt is_outside en pvm (Mapping m' n) cmd outbuf k dec a.
Proof using Hlib.
  intros Hen Hn Hb Hs H1 H2. unfold crypt_command, reach in *. cbn [vm_size].
  destruct (Z.ltb_spec (g_lba_shift en) 0); [done|].
  destruct Hen as [|(e & He & Hsh & _)]; [lia|].
  destruct (is_outside pvm n); [|done]. destruct (is_outside outbuf k); [|done].
  destruct (lba_begin_en_in n cmd (g_lba_shift en) Hsh H1 H2) as [Hin _].
  cbn [negb orb]. unfold with_engine, catch. rewrite He.
  by rewrite (command_out_same _ _ Hlib _ _ _ _ m m' n).
Qed.

Lemma buffer_confined en first buf nr dec a : enclave_ok en → bytes_ok a →
  confined (reach is_outside buf (u64 (Z.shiftl nr (g_lba_shift en))))
    (crypt_buffer_inplace lib_encrypt lib_decrypt is_outside en first buf nr dec) a.
Proof using All.
  intros Hen Ha. unfold crypt_buffer_inplace.
  destruct (Z.ltb_spec (g_lba_shift en) 0); [by apply confined_const|].
  destruct Hen as [|(e & He & Hsh & _)]; [lia|]. set (n := u64 _).
  unfold reach. destruct (is_outside buf n) eqn:Ho; [|by apply confined_const].
  apply (oc_sound _ _ _ Hout) in Ho. pose proof (oc_range _ _ _ Hout).
  assert (2 ^ g_lba_shift en <= 2 ^ 20) by (apply Z.pow_le_mono_r; lia).
  unfold with_engine. rewrite He. simpl. apply confined_catch, buffer_blocks_confined; done || lia.
Qed.
End confinement.

(** C32. The enclave reaches no memory it has not checked, whatever the host
    and the guest pass to it. For every command, number of blocks (also one
    whose bytes do not fit in 64 bits), pointers, guest memory with any lists
    in it, in either direction: each of the three calls changes and depends on
    no byte but the ones in the ranges for which [sgx_is_outside_enclave] said
    "yes", so none of the enclave's own; it does not run into undefined
    behaviour, and its loop ends. *)
Theorem enclave_calls_confined lib_encrypt lib_decrypt is_outside base size en cmd dec :
  xts_lib lib_encrypt lib_decrypt → outside_check is_outside base size →
  enclave_ok en → 0 <= prp1 cmd → 0 <= prp2 cmd →
  (∀ pvm n a, n < 2 ^ 64 → bytes_ok a →
    confined (reach is_outside pvm n)
      (on_view n (crypt_command_inplace lib_encrypt lib_decrypt is_outside en pvm cmd dec)) a) ∧
  (∀ pvm n m outbuf k a, n < 2 ^ 64 → bytes_ok m → bytes_ok a →
    confined (reach is_outside outbuf k)
      (crypt_command lib_encrypt lib_decrypt is_outside en pvm (Mapping m n) cmd outbuf k dec) a ∧
    ∀ m', same_below (reach is_outside pvm n) m m' →
      crypt_command lib_encrypt lib_decrypt is_outside en pvm (Mapping m' n) cmd outbuf k dec a =
      crypt_command lib_encrypt lib_decrypt is_outside en pvm (Mapping m n) cmd outbuf k dec a) ∧
  (∀ first buf nr a, bytes_ok a →
    confined (reach is_outside buf (u64 (Z.shiftl nr (g_lba_shift en))))
      (crypt_buffer_inplace lib_encrypt lib_decrypt is_outside en first buf nr dec) a) ∧
  ∀ p n i, 0 <= i < reach is_outside p n → ¬ (base <= p + i < base + size).
Proof.
  intros Hlib Hout Hen H1 H2. split_and!.
  - intros. by apply command_inplace_confined.
  - intros. split; [by apply command_confined|]. intros m' Hs. symmetry. by apply command_reads.
  - intros. by eapply buffer_confined.
  - intros p n i. unfold reach. case_match eqn:Ho; [|lia]. apply (oc_sound _ _ _ Hout) in Ho. lia.
Qed.

(** An enclave at 2^32, with a key for blocks of 512 bytes. *)
Definition demo_outside (p n : Z) : bool :=
  (0 <=? p) && (p + n <=? 2 ^ 64) && ((p + n <=? 2 ^ 32) || (2 ^ 32 + 2 ^ 22 <=? p)).
Definition demo_key : list Z := replicate 32 7.
(** A cipher for the examples: each byte is combined with a byte of the key and
    of the tweak. *)
Definition demo_mask (k t : list Z) : Z := (default 0 (head k) + default 0 (head t)) mod 256.
Definition demo_lib (k d t : list Z) : option (list Z) :=
  Some ((λ x, Z.lxor x (demo_mask k t)) <$> d).

Lemma demo_lib_bytes k d t c : demo_lib k d t = Some c →
  length c = length d ∧ (is_bytes d → is_bytes c).
Proof.
  intros [= <-]. split; [apply length_fmap|]. intros Hd. apply Forall_fmap.
  eapply Forall_impl; [exact Hd|]. intros x Hx. simpl in *.
  pose proof (Z.mod_pos_bound (default 0 (head k) + default 0 (head t)) 256 ltac:(lia)) as Hm.
  change (0 <= demo_mask k t < 256) in Hm. split; [apply Z.lxor_nonneg; lia|].
  apply (range_of_bits _ 8); [apply Z.lxor_nonneg; lia|lia|]. intros j Hj.
  rewrite Z.lxor_spec, !(testbit_above _ 8) by (done || lia). done.
Qed.

Lemma demo_xts_lib : xts_lib demo_lib demo_lib.
Proof.
  split; intros k d t c H; [by eapply demo_lib_bytes..|]. injection H as <-. unfold demo_lib. f_equal.
  rewrite <- list_fmap_compose. rewrite <- (list_fmap_id d) at 2.
  apply list_fmap_ext. intros i x _. simpl. by rewrite Z.lxor_assoc, Z.lxor_nilpotent, Z.lxor_0_r.
Qed.

Lemma demo_outside_check : outside_check demo_outside (2 ^ 32) (2 ^ 22).
Proof.
  split; [lia|]. intros p n H. unfold demo_outside in H. to_prop.
  apply orb_true_iff in H0. destruct H0; to_prop; lia.
Qed.

(** The enclave after [put_key]. *)
Definition demo_en : enclave := (put_key (λ _ _, true) demo_key 9 enclave_start).2.

Lemma demo_en_ok : enclave_ok demo_en.
Proof. right. by exists (EngineT demo_key (AesXtsIpp 512)). Qed.

Example second_key_refused :
  (put_key (λ _ _, true) demo_key 9 enclave_start).1 = Ret 0 ∧
  put_key (λ _ _, true) (replicate 32 8) 12 demo_en = (Ret (- EPERM), demo_en).
Proof. by split. Qed.

Lemma enclave_calls_confined_witness :
  (∀ i, 0 <= i < reach demo_outside 65536 (2 ^ 55 * 512) → ¬ (2 ^ 32 <= 65536 + i < 2 ^ 32 + 2 ^ 22)) ∧
  confined (reach demo_outside 65536 (u64 (Z.shiftl (2 ^ 55 + 1) 9)))
    (crypt_buffer_inplace demo_lib demo_lib demo_outside demo_en 8 65536 (2 ^ 55 + 1) false) ∅ ∧
  confined (reach demo_outside 65536 262144)
    (on_view 262144 (crypt_command_inplace demo_lib demo_lib demo_outside demo_en 65536 demo_cmd true)) ∅.
Proof.
  assert (bytes_ok ∅) as H0 by done.
  destruct (enclave_calls_confined demo_lib demo_lib demo_outside (2 ^ 32) (2 ^ 22) demo_en demo_cmd true
    demo_xts_lib demo_outside_check demo_en_ok ltac:(done) ltac:(done)) as (H1 & _ & _ & H4).
  destruct (enclave_calls_confined demo_lib demo_lib demo_outside (2 ^ 32) (2 ^ 22) demo_en demo_cmd false
    demo_xts_lib demo_outside_check demo_en_ok ltac:(done) ltac:(done)) as (_ & _ & H3 & _).
  split_and!; [intros i; apply H4|by apply (H3 8 65536 (2 ^ 55 + 1))|by apply (H1 65536 262144)].
Defined.

(** A number of blocks whose bytes wrap to one block: the second block fails
    the check of [subspan]. *)
Example wrapped_length :
  u64 (Z.shiftl (2 ^ 55 + 1) 9) = 512 ∧
  (catch (buffer_blocks demo_lib demo_lib (EngineT demo_key (AesXtsIpp 512)) false 512 9 8 2 0 0)
     contract_handler ∅).1 = Ret (- EFAULT).
Proof. by vm_compute. Qed.
