(* ===== verification/EncryptorAio.v ===== *)
(** * Asynchronous encryption of a block device

    nvme/nvme_encryptor_aio.cpp and nvme/nvme_encryptor_multi.cpp: the
    controllers that encrypt into the memory of a ticket and queue one entry
    for it. The second one is the same code on a ring it shares with the
    controllers of the other queues. *)
From Stdlib Require Import Sorting.Sorted.
From S2P Require Import Prelude Proto Vm Prp NvmeBase Crypto Uring Aio Sender Encryptor.

Section encryptor_aio.
Context {E : Type} {engine_class : tweakable_block_cipher E} (engine : E).
Context (ioc : Z + Z) (iov : Z → Z + nvme_id_ns).
Context (room : list io_uring_sqe → bool).

(** The bytes of a fresh allocation of a size, whatever they are. *)
Context (fresh : Z → list Z).

Definition in_vm {A} : eff mapping A → aeff A := zoom a_vm set_avm.

(** Run on the memory of a ticket. *)
Definition set_mem (b : list Z) (t : ticket) : ticket :=
  Ticket (tk_tag t) (tk_iovecs t) (tk_nbytes t) b.
Definition in_mem {A} (p : Z) (m : eff (list Z) A) : aeff A :=
  t ← get_ticket p;
  let '(o, b) := m (tk_mem t) in
  _ ← upd_ticket p (set_mem b);
  lift o.

Definition receive_read (cmd : nvme_command) : aeff Z :=
  lit ← in_nv (lba_begin ioc iov cmd);
  in_vm (read_blocks engine (S (Z.to_nat (nblocks_of cmd))) lit).

Definition submit_write_async (cmd : nvme_command) (tag : Z) : aeff unit :=
  lit ← in_nv (lba_begin ioc iov cmd);
  p ← new_ticket (Ticket tag [] (li_nbytes lit) (fresh (li_nbytes lit)));
  s ← get;
  '(ok, lit) ← in_mem p (encrypt_blocks engine (S (Z.to_nat (nblocks_of cmd))) (a_vm s) lit);
  if negb ok then throw Eruntime else
  in_sq (queue_write room p (PBuf p 0) (li_nbytes lit) (-1) true 0
           (u64 (Z.shiftl (li_slba lit) (li_shift lit)))).

(** The loop over [cli]: the view starts at byte [cli] of the buffer, and
    [cli] is the number of the block. [count] turns are left. *)
Fixpoint zero_blocks (count : nat) (nbytes lbas cli : Z) : eff (list Z) bool :=
  match count with
  | O => mret true
  | S count =>
    _ ← subspan nbytes cli (Z.shiftl 1 lbas);
    b ← get;
    let ciphert := take (Z.to_nat (Z.shiftl 1 lbas)) (drop (Z.to_nat cli) b) in
    match encrypt engine (Z.shiftl 1 lbas) ciphert cli with
    | None => mret false
    | Some c =>
      _ ← put (list_inserts (Z.to_nat cli) c b);
      zero_blocks count nbytes lbas (cli + 1)
    end
  end.

Definition submit_write_zeroes_async (cmd : nvme_command) (tag : Z) : aeff unit :=
  lbas ← in_nv (ns_lba_shift iov (nsid cmd));
  let nbytes := u64 (Z.shiftl (nblocks_of cmd) lbas) in
  p ← new_ticket (Ticket tag [] nbytes (fresh nbytes));
  ok ← in_mem p (_ ← put (replicate (Z.to_nat nbytes) 0);
                 zero_blocks (Z.to_nat (nblocks_of cmd)) nbytes lbas 0);
  if negb ok then throw Eruntime else
  in_sq (queue_write room p (PBuf p 0) nbytes (-1) true 0 (u64 (Z.shiftl (slba cmd) lbas))).

Definition submit_flush_async (cmd : nvme_command) (tag : Z) : aeff unit :=
  p ← new_ticket (Ticket tag [] 0 []);
  in_sq (queue_fsync room p true 0 IORING_FSYNC_DATASYNC).

(** [None] is a command that completes later, [Some] the immediate status. *)
Definition submit_async (cmd : nvme_command) (tag : Z) : aeff (option Z) :=
  if opcode cmd =? nvme_cmd_read then
    st ← receive_read cmd; mret (Some st)
  else if (opcode cmd =? nvme_cmd_write) && negb (is_sgl cmd) then
    _ ← submit_write_async cmd tag; mret None
  else if opcode cmd =? nvme_cmd_write_zeroes then
    _ ← submit_write_zeroes_async cmd tag; mret None
  else if opcode cmd =? nvme_cmd_flush then
    _ ← submit_flush_async cmd tag; mret None
  else mret (Some sc_invalid_opcode).

#[export] Instance encryptor_controller : Controller := {
  submit _ cmd tag := submit_async cmd tag;
}.
End encryptor_aio.

(** ** The contract of a controller *)

Lemma in_mem_only {A} p (m : eff (list Z) A) s r s' :
  in_mem p m s = (r, s') → only_ticket p s s'.
Proof.
  unfold in_mem, mbind, eff_bind. unfold get_ticket, mbind, eff_bind, get, throw, mret, eff_ret.
  destruct (a_tickets s !! p) as [t|] eqn:Et; [|intros [= <- <-]; apply only_ticket_refl].
  destruct (m (tk_mem t)) as [o b]. destruct (upd_ticket p (set_mem b) s) as [[[]|e] s1] eqn:U;
    intros [= <- <-]; by eapply upd_ticket_only in U.
Qed.

Lemma in_mem_Ret {A} p (m : eff (list Z) A) s t x b : a_tickets s !! p = Some t →
  m (tk_mem t) = (Ret x, b) →
  in_mem p m s = (Ret x, set_tickets (<[p := set_mem b t]> (a_tickets s)) s).
Proof.
  intros Ht Hm. unfold in_mem, upd_ticket, get_ticket.
  unfold mbind, mret, eff_bind, eff_ret, get, modify, lift. by rewrite Ht, Hm, Ht.
Qed.

Lemma in_vm_keeps {A} (m : eff mapping A) s r s' : in_vm m s = (r, s') →
  a_sq s' = a_sq s ∧ a_tickets s' = a_tickets s ∧ a_next s' = a_next s.
Proof. unfold in_vm, zoom. destruct (m (a_vm s)) as [o t]. by intros [= <- <-]. Qed.

(** A new ticket, changes to its memory, then the entry. *)
Lemma new_mem_submitted {A} room s s0 s1 s2 t tag (m : eff (list Z) A) r e r' :
  a_sq s0 = a_sq s → a_next s0 = a_next s → a_tickets s0 = a_tickets s →
  tk_tag t = tag → sq_data e = a_next s →
  in_mem (a_next s0) m
    (Aio (a_nv s0) (a_vm s0) (a_sq s0) (<[a_next s0 := t]> (a_tickets s0)) (a_next s0 + 1)) =
    (Ret r, s1) →
  in_sq (queue_sqe room e) s1 = (Ret r', s2) → submitted s s2 tag.
Proof.
  intros E1 E2 E3 Ht Hd Hm Hq. apply in_mem_only in Hm as (M1 & M2 & M3).
  simpl in M1, M2, M3. destruct (M3 t (lookup_insert_eq _ _ _)) as (t' & Ht' & M4).
  rewrite E2, E3 in *. eapply (queue_submitted room s s1 s2 t' t); try done; congruence.
Qed.

#[export] Instance encryptor_controller_laws {E} `{!tweakable_block_cipher E} (engine : E)
    ioc iov room fresh :
  @ControllerLaws (encryptor_controller engine ioc iov room fresh).
Proof.
  split. intros sq cmd tag s r s' H. unfold submit, encryptor_controller, submit_async in H.
  repeat match type of H with (if ?b then _ else _) _ = _ => destruct b end;
    first [apply bind_inv in H as (x & s1 & H & Hr); injection Hr as <- <-
          |injection H as <- <-].
  - unfold receive_read in H. apply bind_inv in H as (lit & s2 & H1 & H2).
    apply in_nv_keeps in H1 as (_ & A1 & A2 & A3). apply in_vm_keeps in H2 as (B1 & B2 & B3).
    split_and!; congruence.
  - unfold submit_write_async in H. apply bind_inv in H as (lit & sa & Ha & H).
    apply in_nv_keeps in Ha as (_ & A1 & A2 & A3).
    apply bind_inv in H as (p & sb & [= <- <-] & H).
    apply bind_inv in H as (sx & sb & [= <- <-] & H).
    apply bind_inv in H as ([ok lit'] & sc & Hm & H). destruct ok; [|done].
    cbn [negb] in H. unfold queue_write in H.
    eapply (new_mem_submitted room s sa sc); [| | | | |exact Hm|exact H]; first [done|congruence].
  - unfold submit_write_zeroes_async in H. apply bind_inv in H as (lbas & sa & Ha & H).
    apply in_nv_keeps in Ha as (_ & A1 & A2 & A3).
    apply bind_inv in H as (p & sb & [= <- <-] & H).
    apply bind_inv in H as (ok & sc & Hm & H). destruct ok; [|done].
    cbn [negb] in H. unfold queue_write in H.
    eapply (new_mem_submitted room s sa sc); [| | | | |exact Hm|exact H]; first [done|congruence].
  - unfold submit_flush_async in H.
    apply bind_inv in H as (p & sc & [= <- <-] & H).
    eapply (queue_submitted room s _ _ (Ticket tag [] 0 []) (Ticket tag [] 0 []));
      [| | | | |exact H]; simpl; rewrite ?insert_insert_eq; first [congruence|done].
  - done.
Qed.

(** ** The loop that encrypts zeroes *)

Lemma zero_blocks_tail {E} `{!tweakable_block_cipher E} (engine : E) `{!CipherLaws E engine}
    sh n count : 0 <= sh <= 12 → takes_blocks (engine := engine) sh →
  ∀ cli (b : list Z), 0 <= cli → Z.of_nat (length b) = n →
  cli + Z.of_nat count + 2 ^ sh - 1 <= n →
  ∃ b', zero_blocks engine count n sh cli b = (Ret true, b') ∧ length b' = length b ∧
    ∀ i : nat, cli + Z.of_nat count + 2 ^ sh - 1 <= Z.of_nat i → b' !! i = b !! i.
Proof.
  intros Hsh Ht. pose proof (L_pos sh Hsh) as HL. set (L := 2 ^ sh) in *.
  induction count as [|count IH]; intros cli b Hc Hb Hn; simpl; [by exists b|].
  unfold mbind, mret, eff_bind, eff_ret, get, put. cbv beta iota.
  rewrite shiftl_1 by lia. fold L. unfold subspan, ensure, mret, eff_ret.
  replace ((0 <=? cli) && (0 <=? L) && (cli + L <=? n)) with true by lia. cbv beta iota.
  set (d := take (Z.to_nat L) (drop (Z.to_nat cli) b)).
  assert (Z.of_nat (length d) = L) as Hd by (unfold d; rewrite length_take, length_drop; lia).
  destruct (Ht d cli Hd) as [c Hct]. fold L in Hct. rewrite Hct.
  apply encrypt_length in Hct.
  destruct (IH (cli + 1) (list_inserts (Z.to_nat cli) c b)) as (b' & R & R1 & R2);
    rewrite ?length_inserts; try lia.
  exists b'. rewrite R. split_and!; [done|by rewrite R1, length_inserts|].
  intros i Hi. rewrite R2 by lia. apply list_lookup_inserts_ge. lia.
Qed.

(** ** Whole commands *)

Section command.
Context {E : Type} `{engine_laws : CipherLaws E engine}.
Context (ioc : Z + Z) (iov : Z → Z + nvme_id_ns).
Context (room : list io_uring_sqe → bool) (fresh : Z → list Z).
Context (a : aio) (cmd : nvme_command) (tag : Z) (ns : nvme_id_ns) (pages : list Z).
Hypothesis Hok : transfer_ok (a_nv a) (a_vm a) cmd ns pages.
Hypothesis Hsgl : is_sgl cmd = false.
Abbreviation n := (cmd_bytes cmd ns).
Abbreviation off := (slba cmd * 2 ^ lba_shift ns).
Abbreviation submitting r a1 :=
  (submit_async engine ioc iov room fresh cmd tag a = (Ret r, a1)).

(** The state after a write whose ticket holds [mem]. *)
Definition write_queued (mem : list Z) : aio :=
  Aio (a_nv a) (a_vm a)
    (a_sq a ++ [Sqe (IoWrite (PBuf (a_next a) 0) n off) 0 true false (a_next a)])
    (<[a_next a := Ticket tag [] n mem]> (a_tickets a)) (a_next a + 1).

Lemma aio_write_run : opcode cmd = nvme_cmd_write →
  takes_blocks (engine := engine) (lba_shift ns) → 0 <= slba cmd → off + n <= 2 ^ 64 →
  room (a_sq a) = true → Z.of_nat (length (fresh n)) = n →
  ∃ cs, submitting None (write_queued (concat cs)) ∧
    Forall2 (λ x c, block_cipher engine (a_vm a) (slba cmd) x = Some c)
      (cmd_blocks cmd ns pages) cs.
Proof using All.
  intros Hop Ht Hs Hoff Hroom Hfr. pose proof (to_shift _ _ _ _ _ Hok) as Hsh.
  pose proof (cmd_bytes_range cmd ns Hsh) as Hn. pose proof (L_pos _ Hsh) as HL.
  pose proof (nblocks_range cmd) as Hnb.
  destruct (transfer_walk ioc iov _ _ _ _ _ Hok) as (it & B & E1 & E2 & E3 & _ & W & Hlen & Hidx).
  destruct (encrypt_blocks_spec (engine := engine) (lba_shift ns) Hsh Ht (nblocks_of cmd) (a_vm a)
    (S (Z.to_nat (nblocks_of cmd))) it (cmd_blocks cmd ns pages) 0 (fresh n))
    as (it' & b & cs & R & R1 & R2 & R2' & R3 & R4 & R5); try done; try lia.
  { unfold cmd_bytes in *. lia. }
  { unfold cmd_bytes in *. lia. }
  rewrite Hlen, Z.add_0_l, Z.mul_0_l in R5. fold (cmd_bytes cmd ns) in R5, R2'.
  assert (b = concat cs) as ->.
  { rewrite take_ge in R5; [exact R5|]. rewrite R3. lia. }
  exists cs. split; [|by rewrite <- E1].
  unfold submit_async. rewrite Hop, Hsgl, Z.eqb_refl.
  change (nvme_cmd_write =? nvme_cmd_read) with false. cbn [negb andb].
  erewrite bind_Ret; [done|]. unfold submit_write_async.
  rewrite (bind_Ret (in_nv _) _ a it a) by (unfold in_nv, zoom; rewrite B; by destruct a).
  rewrite E3. set (a1 := Aio (a_nv a) (a_vm a) (a_sq a)
    (<[a_next a := Ticket tag [] n (fresh n)]> (a_tickets a)) (a_next a + 1)).
  rewrite (bind_Ret (new_ticket _) _ a (a_next a) a1) by done.
  rewrite (bind_Ret get _ a1 a1 a1) by done.
  rewrite (bind_Ret (in_mem _ _) _ a1 (true, it') (set_tickets
    (<[a_next a := Ticket tag [] n (concat cs)]> (a_tickets a)) a1)).
  2:{ erewrite in_mem_Ret; [|apply lookup_insert_eq|exact R].
      unfold set_tickets, set_mem. simpl. by rewrite insert_insert_eq. }
  cbn [negb]. rewrite R2', E3, R1, R2, E1, Z.shiftl_mul_pow2 by lia.
  rewrite (u64_small off) by lia.
  unfold in_sq, zoom, queue_write, queue_sqe, mbind, eff_bind, get, put.
  cbn [a_sq set_tickets a1]. rewrite Hroom. simpl. rewrite u32_small; [done|].
  unfold cmd_bytes. nia.
Qed.

(** A read, whatever the blocks decrypt to: it is answered at once. *)
Lemma aio_read_run ps : let l := cmd_blocks cmd ns pages in
  opcode cmd = nvme_cmd_read → StronglySorted (λ x y : (Z * Z) * Z, apart x.1 y.1) l →
  (∀ w, reads_word (a_vm a) (PrpIter (CmdList (prp1 cmd) (prp2 cmd)) 0 n) w →
    Forall (λ x : (Z * Z) * Z, apart x.1 (w, 8)) l) →
  Forall2 (holds_cipher engine (a_vm a) (slba cmd)) l ps →
  ∃ vm1, submitting (Some NVME_SC_SUCCESS) (set_avm vm1 a) ∧ vm_size vm1 = vm_size (a_vm a) ∧
    Forall2 (λ x p, view_bytes vm1 x.1 = p) l ps.
Proof using engine_laws Hok.
  intros l Hop Hap Hw Hc. pose proof (to_shift _ _ _ _ _ Hok) as Hsh.
  destruct (transfer_walk ioc iov _ _ _ _ _ Hok) as (it & B & E1 & E2 & _ & E4 & W & _).
  destruct (read_turns_spec (engine := engine) (lba_shift ns) (a_vm a)
    (S (Z.to_nat (nblocks_of cmd))) Hsh it l ps (a_vm a)) as (vm1 & R & R1 & R2 & _);
    rewrite ?E1, ?E4; try done.
  exists vm1. split_and!; [|done|done].
  unfold submit_async. rewrite Hop, Z.eqb_refl. erewrite bind_Ret; [done|].
  unfold receive_read.
  rewrite (bind_Ret (in_nv _) _ a it a) by (unfold in_nv, zoom; rewrite B; by destruct a).
  unfold in_vm, zoom.
  by rewrite (read_turns_blocks _ _ _ _ _ _ R) by by eapply lba_walk_length.
Qed.
End command.

(** ** Properties *)

(** C31. The asynchronous write is the synchronous one: it queues one entry,
    for a new ticket with the command's tag, that writes all of the ticket's
    memory at the byte offset of the first block, and that memory is the
    encryption of block [k] of the data under number [slba + k], one block
    after the other, whatever the allocation held before. *)
Theorem aio_write_exact {E} `{!tweakable_block_cipher E} (engine : E) `{!CipherLaws E engine}
    ioc iov room fresh a cmd tag ns pages :
  let n := cmd_bytes cmd ns in
  let off := slba cmd * 2 ^ lba_shift ns in
  transfer_ok (a_nv a) (a_vm a) cmd ns pages →
  opcode cmd = nvme_cmd_write → is_sgl cmd = false →
  takes_blocks (engine := engine) (lba_shift ns) →
  0 <= slba cmd → off + n <= 2 ^ 64 →
  room (a_sq a) = true → Z.of_nat (length (fresh n)) = n →
  ∃ a1 cs, submit_async engine ioc iov room fresh cmd tag a = (Ret None, a1) ∧
    a_vm a1 = a_vm a ∧
    a_sq a1 = a_sq a ++ [Sqe (IoWrite (PBuf (a_next a) 0) n off) 0 true false (a_next a)] ∧
    a_tickets a1 = <[a_next a := Ticket tag [] n (concat cs)]> (a_tickets a) ∧
    Forall2 (λ x c, block_cipher engine (a_vm a) (slba cmd) x = Some c)
      (cmd_blocks cmd ns pages) cs.
Proof.
  intros n off Hok Hop Hsgl Ht Hs Hoff Hroom Hfr.
  destruct (aio_write_run (engine := engine) ioc iov room fresh a cmd tag ns pages Hok Hsgl)
    as (cs & R & Hcs); try done.
  by exists (write_queued a cmd tag ns (concat cs)), cs.
Qed.

Definition demo_aio : aio := Aio demo_ctrl (Mapping ∅ 262144) [] ∅ 0.

Lemma aio_write_exact_witness :
  ∃ a1 cs, submit_async demo_engine (inl 5) (λ _, inl 5) (λ _, true)
      (λ n, replicate (Z.to_nat n) 255) demo_cmd 7 demo_aio = (Ret None, a1) ∧
    a_vm a1 = Mapping ∅ 262144 ∧
    a_sq a1 = [] ++ [Sqe (IoWrite (PBuf 0 0) 5120 4096) 0 true false 0] ∧
    a_tickets a1 = <[0 := Ticket 7 [] 5120 (concat cs)]> ∅ ∧
    Forall2 (λ x c, block_cipher demo_engine (Mapping ∅ 262144) 8 x = Some c)
      (cmd_blocks demo_cmd demo_ns [0x20200; 0x10000]) cs.
Proof.
  apply (aio_write_exact demo_engine (inl 5) (λ _, inl 5) (λ _, true)
    (λ n, replicate (Z.to_nat n) 255) demo_aio demo_cmd 7 demo_ns [0x20200; 0x10000] demo_transfer
    eq_refl eq_refl demo_takes_blocks); [done|by vm_compute|done|].
  by rewrite length_replicate.
Defined.

(** The asynchronous write of zeroes does not encrypt its data: the views
    advance by one byte where the blocks are [L] bytes, so, with any engine,
    every byte of the buffer from [nblocks - 1 + L] on is still zero when the
    entry that writes the buffer to the device is queued. The synchronous
    controller encrypts all of it. *)
Theorem aio_write_zeroes_plain {E} `{!tweakable_block_cipher E} (engine : E)
    `{!CipherLaws E engine} ioc iov room fresh a cmd tag ns :
  let n := cmd_bytes cmd ns in
  let L := 2 ^ lba_shift ns in
  0 < nsid cmd < MAX_VIRTUAL_NAMESPACES → nv_idns (a_nv a) !! nsid cmd = Some ns →
  0 <= lba_shift ns <= 12 → opcode cmd = nvme_cmd_write_zeroes →
  takes_blocks (engine := engine) (lba_shift ns) → room (a_sq a) = true →
  ∃ a1 mem, submit_async engine ioc iov room fresh cmd tag a = (Ret None, a1) ∧
    a_sq a1 = a_sq a ++
      [Sqe (IoWrite (PBuf (a_next a) 0) n (u64 (Z.shiftl (slba cmd) (lba_shift ns)))) 0 true false
         (a_next a)] ∧
    a_tickets a1 = <[a_next a := Ticket tag [] n mem]> (a_tickets a) ∧
    Z.of_nat (length mem) = n ∧
    ∀ i : nat, nblocks_of cmd - 1 + L <= Z.of_nat i < n → mem !! i = Some 0.
Proof.
  intros n L Hn Hns Hsh Hop Ht Hroom. pose proof (L_pos _ Hsh) as HL. fold L in HL.
  pose proof (nblocks_range cmd) as Hnb.
  assert (n = nblocks_of cmd * L) as En by done.
  assert (Z.of_nat (length (replicate (Z.to_nat n) 0)) = n) as Hl
    by (rewrite length_replicate; nia).
  destruct (zero_blocks_tail engine (lba_shift ns) n (Z.to_nat (nblocks_of cmd)) Hsh Ht 0
    (replicate (Z.to_nat n) 0)) as (b & R & R1 & R2); [lia|done|fold L; nia|].
  fold L in R2. exists (Aio (a_nv a) (a_vm a)
    (a_sq a ++ [Sqe (IoWrite (PBuf (a_next a) 0) n (u64 (Z.shiftl (slba cmd) (lba_shift ns))))
       0 true false (a_next a)])
    (<[a_next a := Ticket tag [] n b]> (a_tickets a)) (a_next a + 1)), b.
  split_and!; [|done|done|by rewrite R1|].
  - unfold submit_async. rewrite Hop, Z.eqb_refl.
    change (nvme_cmd_write_zeroes =? nvme_cmd_read) with false.
    change (nvme_cmd_write_zeroes =? nvme_cmd_write) with false. cbn [negb andb].
    erewrite bind_Ret; [done|]. unfold submit_write_zeroes_async.
    rewrite (bind_Ret (in_nv _) _ a (lba_shift ns) a)
      by (unfold in_nv, zoom; rewrite (ns_lba_shift_cached iov _ _ _ Hn Hns); by destruct a).
    rewrite !Z.shiftl_mul_pow2 by lia. fold L. rewrite <- En. rewrite (u64_small n) by nia.
    set (a1 := Aio (a_nv a) (a_vm a) (a_sq a)
      (<[a_next a := Ticket tag [] n (fresh n)]> (a_tickets a)) (a_next a + 1)).
    rewrite (bind_Ret (new_ticket _) _ a (a_next a) a1) by done.
    rewrite (bind_Ret (in_mem _ _) _ a1 true (set_tickets
      (<[a_next a := Ticket tag [] n b]> (a_tickets a)) a1)).
    2:{ erewrite in_mem_Ret; [|apply lookup_insert_eq|exact R].
        unfold set_tickets, set_mem. simpl. by rewrite insert_insert_eq. }
    cbn [negb]. unfold in_sq, zoom, queue_write, queue_sqe, mbind, eff_bind, get, put.
    cbn [a_sq set_tickets a1]. rewrite Hroom. simpl. rewrite u32_small; [done|]. nia.
  - intros i Hi. rewrite R2 by lia. apply lookup_replicate_2. lia.
Qed.

Lemma aio_write_zeroes_plain_witness :
  ∃ a1 mem, submit_async demo_engine (inl 5) (λ _, inl 5) (λ _, true)
      (λ n, []) demo_zeroes 7 demo_aio = (Ret None, a1) ∧
    a_sq a1 = [] ++ [Sqe (IoWrite (PBuf 0 0) 512000 4096) 0 true false 0] ∧
    a_tickets a1 = <[0 := Ticket 7 [] 512000 mem]> ∅ ∧
    Z.of_nat (length mem) = 512000 ∧
    ∀ i : nat, 1511 <= Z.of_nat i < 512000 → mem !! i = Some 0.
Proof.
  apply (aio_write_zeroes_plain demo_engine (inl 5) (λ _, inl 5) (λ _, true) (λ n, [])
    demo_aio demo_zeroes 7 demo_ns); try done. exact demo_takes_blocks.
Defined.
