(* ===== verification/Worker.v ===== *)
(** * The worker loops

    replicator.cpp and encryptor-mt.cpp (a controller that answers each
    command at once), replicator-aio.cpp and encryptor-aio.cpp (a controller
    that completes later), and how their [main] deals the queues out to the
    workers. The rings are taken by their contract, a queue of items in order
    with a retry while the other side leaves no space (file Cmdbuf); the
    controllers by the interface of file Aio. *)
From Stdlib Require Import Sorting.Sorted.
From S2P Require Import Prelude Proto Vm Prp NvmeBase Crypto Uring Aio Sender.
From S2P Require Import Encryptor EncryptorAio.

Definition MAX_VIRTUAL_QUEUES : nat := 16.
Definition NOTIFYFD_BURST : nat := 16.
Definition COMPLETION_BURST : nat := 128.
Definition busypoll_loops : nat := 20.

(** [struct nmntfy_response]. *)
Record nmntfy_response : Type := Resp { ucid : Z; status : Z }.

#[global] Instance nmntfy_response_eq_dec : EqDecision nmntfy_response.
Proof. solve_decision. Defined.

(** ** Workers with an immediate answer *)

Section sync.
Context {S : Type} (receive_cmd : Z → nvme_command → eff S Z).

(** The inner loop over a burst: the responses, in the order of the commands. *)
Fixpoint receive_burst (sqid : Z) (cmds : list nvme_command) : eff S (list nmntfy_response) :=
  match cmds with
  | [] => mret []
  | cmd :: cmds =>
    st ← receive_cmd sqid cmd;
    resps ← receive_burst sqid cmds;
    mret (Resp (command_id cmd) st :: resps)
  end.

(** [while (remaining)]: each [produce] takes what there is space for; the
    spaces are what the turns find, and the loop goes on when they are used
    up. The second component is what is left to produce. *)
Fixpoint produce_all (spaces : list Z) (ncq resps : list nmntfy_response) :
    list nmntfy_response * list nmntfy_response :=
  match spaces with
  | [] => (ncq, resps)
  | space :: spaces =>
    match resps with
    | [] => (ncq, [])
    | _ =>
      let processed := Z.to_nat (Z.min (Z.of_nat (length resps)) space) in
      produce_all spaces (ncq ++ take processed resps) (drop processed resps)
    end
  end.

(** One queue of a pass: [nsq] the commands the ring holds, [ncq] the
    responses given. *)
Definition poll_sync (sqid : Z) (spaces : list Z) (nsq : list nvme_command)
    (ncq : list nmntfy_response) :
    eff S (list nvme_command * list nmntfy_response * list nmntfy_response) :=
  let ncmds := Nat.min NOTIFYFD_BURST (length nsq) in
  resps ← receive_burst sqid (take ncmds nsq);
  let '(ncq, rest) := produce_all spaces ncq resps in
  mret (drop ncmds nsq, ncq, rest).
End sync.

(** The two programs: a queue of replicator.cpp and of encryptor-mt.cpp. *)
Definition replicator_poll ioc iov dev :=
  poll_sync (λ _ : Z, Sender.receive ioc iov dev).
Definition encryptor_mt_poll {E} `{tweakable_block_cipher E} (engine : E) ioc iov pwrite :=
  poll_sync (λ _ : Z, Encryptor.receive engine ioc iov pwrite).

(** ** Workers over an asynchronous controller *)

(** Whether the loop prints the ticket of a failed completion. That of
    encryptor-aio.cpp does; those of encryptor-sgx-aio.cpp and
    replicator-aio.cpp do not. *)
Section async.
Context `{Ctl : Controller} (log : bool) (sqids : list Z).

(** The controller with its ring and its tickets; the entries the kernel has
    taken and those it has completed; the commands each queue holds; the
    responses given so far, each with its queue. *)
Record worker : Type := Worker {
  w_aio : aio;
  w_flight : list io_uring_sqe;
  w_cqes : list io_uring_cqe;
  w_nsq : list (list nvme_command);
  w_ncq : list (Z * nmntfy_response);
}.

Abbreviation weff := (eff worker).

Definition set_aio (x : aio) (w : worker) : worker :=
  Worker x (w_flight w) (w_cqes w) (w_nsq w) (w_ncq w).
Definition set_nsq (x : list (list nvme_command)) (w : worker) : worker :=
  Worker (w_aio w) (w_flight w) (w_cqes w) x (w_ncq w).
Definition set_cqes (x : list io_uring_cqe) (w : worker) : worker :=
  Worker (w_aio w) (w_flight w) x (w_nsq w) (w_ncq w).
Definition add_ncq (x : Z * nmntfy_response) (w : worker) : worker :=
  Worker (w_aio w) (w_flight w) (w_cqes w) (w_nsq w) (w_ncq w ++ [x]).

Definition in_aio {A} : aeff A → weff A := zoom w_aio set_aio.

(** [cq_produce_one(ncqbuf[qi], resp)]; a queue that does not exist is
    undefined. *)
Definition respond (qi : Z) (r : nmntfy_response) : weff unit :=
  w ← get;
  _ ← ensure ((0 <=? qi) && (qi <? Z.of_nat (length (w_nsq w)))) Eub;
  modify (add_ncq (qi, r)).

(** The commands of a burst; whether one of them completes later. *)
Fixpoint submit_burst (qi sqid : Z) (cmds : list nvme_command) : weff bool :=
  match cmds with
  | [] => mret false
  | cmd :: cmds =>
    r ← in_aio (submit sqid cmd (make_tag qi (command_id cmd)));
    async ← (match r with
             | None => mret true
             | Some st => _ ← respond qi (Resp (command_id cmd) st); mret false
             end);
    rest ← submit_burst qi sqid cmds;
    mret (async || rest)
  end.

(** One queue of a pass: how many commands, and whether one is pending. *)
Definition poll_queue (qi : nat) : weff (nat * bool) :=
  w ← get;
  match w_nsq w !! qi, sqids !! qi with
  | Some nsq, Some sqid =>
    let ncmds := Nat.min NOTIFYFD_BURST (length nsq) in
    if decide (ncmds = 0%nat) then mret (0%nat, false) else
    _ ← modify (λ w, set_nsq (<[qi := drop ncmds nsq]> (w_nsq w)) w);
    async ← submit_burst (Z.of_nat qi) sqid (take ncmds nsq);
    mret (ncmds, async)
  | _, _ => throw Eub
  end.

(** [for (qi = 0; qi < sqfds.size(); qi++)]; whether a queue had commands, and
    whether one is pending. *)
Fixpoint poll_queues (qis : list nat) : weff (bool * bool) :=
  match qis with
  | [] => mret (false, false)
  | qi :: qis =>
    '(n, a) ← poll_queue qi;
    '(s, a') ← poll_queues qis;
    mret (negb (n =? 0)%nat || s, a || a')
  end.

(** The busy-polling loop; [stop] is whether it ends at the first try that
    finds commands (encryptor-aio.cpp) or always runs to the end
    (replicator-aio.cpp). *)
Fixpoint busypoll (stop : bool) (ntry : nat) (qis : list nat) : weff (bool * bool) :=
  match ntry with
  | O => mret (false, false)
  | Datatypes.S ntry =>
    '(s, a) ← poll_queues qis;
    if stop && s then mret (s, a) else
    '(s', a') ← busypoll stop ntry qis;
    mret (s || s', a || a')
  end.

(** [sq_kick]: the queued entries go to the kernel. *)
Definition kick : weff unit := modify (λ w,
  Worker (set_sq [] (w_aio w)) (w_flight w ++ a_sq (w_aio w)) (w_cqes w) (w_nsq w) (w_ncq w)).

(** One completion: its ticket gives the queue and the command. The line that
    is printed reads the tag from the ticket that has just been freed. *)
Definition reap (cqe : io_uring_cqe) : weff unit :=
  t ← in_aio (get_ticket (cq_data cqe));
  let '(qi, cid) := unmake_tag (tk_tag t) in
  _ ← in_aio (delete_ticket (cq_data cqe));
  _ ← (if log && (cq_res cqe <? 0)
       then (_ ← in_aio (get_ticket (cq_data cqe)); mret tt) else mret tt);
  let st := if cq_res cqe <? 0 then sc_internal else NVME_SC_SUCCESS in
  _ ← respond qi (Resp cid st);
  modify (λ w, set_cqes (tail (w_cqes w)) w).

Fixpoint reap_all (cqes : list io_uring_cqe) : weff unit :=
  match cqes with
  | [] => mret tt
  | cqe :: cqes => _ ← reap cqe; reap_all cqes
  end.

(** The completions that are ready, a burst at a time. *)
Definition reap_window : weff unit :=
  w ← get; reap_all (take COMPLETION_BURST (w_cqes w)).

(** The body of a loop; the result is whether the worker was busy, which
    decides whether it may sleep. The loop that stops kicks the ring when a
    command is pending, the other one always. *)
Definition aio_pass (stop : bool) : weff bool :=
  '(s, a) ← busypoll stop busypoll_loops (seq 0 (length sqids));
  _ ← (if negb stop || a then kick else mret tt);
  _ ← reap_window;
  mret s.

(** ** The worker among the guest and the kernel

    The steps of the worker, of the guest (it puts a command in a ring) and of
    the kernel (it completes one of the entries it holds, in any order, with
    any result). The list are the tags of the commands taken so far. *)

Inductive worker_step : worker → list Z → worker → list Z → Prop :=
  | step_guest w seen qi nsq cmd :
      w_nsq w !! qi = Some nsq → 0 <= command_id cmd < 2 ^ 16 →
      worker_step w seen (set_nsq (<[qi := nsq ++ [cmd]]> (w_nsq w)) w) seen
  | step_kernel w seen fl1 e fl2 res :
      w_flight w = fl1 ++ e :: fl2 →
      worker_step w seen
        (Worker (w_aio w) (fl1 ++ fl2) (w_cqes w ++ [Cqe (sq_data e) res]) (w_nsq w) (w_ncq w)) seen
  | step_poll w seen qi nsq r w' :
      w_nsq w !! qi = Some nsq → poll_queue qi w = (Ret r, w') →
      worker_step w seen w' (seen ++
        ((λ cmd, make_tag (Z.of_nat qi) (command_id cmd)) <$> take (Nat.min NOTIFYFD_BURST (length nsq)) nsq))
  | step_kick w seen w' : kick w = (Ret tt, w') → worker_step w seen w' seen
  | step_reap w seen cqe w' : head (w_cqes w) = Some cqe →
      reap cqe w = (Ret tt, w') → worker_step w seen w' seen.

(** No command is taken, answered or pending at the start; the rings hold
    commands whose identifiers are 16 bits wide. *)
Record worker_init (w : worker) : Prop := {
  wi_flight : w_flight w = [];
  wi_cqes : w_cqes w = [];
  wi_ncq : w_ncq w = [];
  wi_sq : a_sq (w_aio w) = [];
  wi_tickets : a_tickets (w_aio w) = ∅;
  wi_queues : length (w_nsq w) = length sqids;
  wi_number : Z.of_nat (length sqids) < 2 ^ 16;
  wi_nsq : Forall (Forall (λ cmd, 0 <= command_id cmd < 2 ^ 16)) (w_nsq w);
}.

Inductive reach (w0 : worker) : worker → list Z → Prop :=
  | reach_init : reach w0 w0 []
  | reach_step w seen w' seen' : reach w0 w seen → worker_step w seen w' seen' →
      reach w0 w' seen'.

(** The tickets of the entries that are queued, with the kernel or completed. *)
Definition live (w : worker) : list Z :=
  (sq_data <$> a_sq (w_aio w)) ++ (sq_data <$> w_flight w) ++ (cq_data <$> w_cqes w).

(** The tags of the commands that are answered, and of those that are pending. *)
Definition answered_tags (w : worker) : list Z :=
  (λ x : Z * nmntfy_response, make_tag x.1 (ucid x.2)) <$> w_ncq w.
Definition pending_tags (w : worker) : list Z :=
  (λ p, default 0 (tk_tag <$> a_tickets (w_aio w) !! p)) <$> live w.

End async.

(** The loops of encryptor-aio.cpp and replicator-aio.cpp. *)
Definition encryptor_aio_pass `{Ctl : Controller} : list Z → eff worker bool :=
  λ sqids, aio_pass true sqids true.
Definition replicator_aio_pass `{Ctl : Controller} : list Z → eff worker bool :=
  λ sqids, aio_pass false sqids false.

(** ** Dealing the queues out (main)

    Queue 0 is the admin queue and has no worker; the others go round the
    workers, each with its descriptor. *)

Definition clamp_threads (nthreads nqueues : nat) : nat :=
  if ((nthreads =? 0) || (nqueues <? nthreads))%nat then nqueues else nthreads.

Definition push_at {A} (k : nat) (x : A) (ws : list (list A)) : list (list A) :=
  alter (λ q, q ++ [x]) k ws.

Fixpoint assign_loop (i : nat) (sqfds : list Z) (nthreads : nat) (ws : list (list (nat * Z))) :
    list (list (nat * Z)) :=
  match sqfds with
  | [] => ws
  | fd :: sqfds =>
    assign_loop (Datatypes.S i) sqfds nthreads (push_at ((i - 1) mod nthreads) (i, fd) ws)
  end.

Definition assign_queues (nthreads : nat) (sqfds : list Z) : list (list (nat * Z)) :=
  let nthreads := clamp_threads nthreads (length sqfds) in
  assign_loop 1 (tail sqfds) nthreads (replicate nthreads []).

(** ** Keeping the books

    The invariant, on the parts of the state it speaks of: the tickets, the
    next free address, the tickets of the entries under way, the tags answered
    and the tags taken, for [nq] queues. *)
Definition tag_at (tk : gmap Z ticket) (p : Z) : Z := default 0 (tk_tag <$> tk !! p).

Record books (nq : Z) (tk : gmap Z ticket) (next : Z) (lv ans seen : list Z) : Prop := {
  bk_nodup : NoDup lv;
  bk_dom : ∀ p, is_Some (tk !! p) ↔ p ∈ lv;
  bk_fresh : ∀ p, is_Some (tk !! p) → p < next;
  bk_tags : ∀ p t, tk !! p = Some t →
    ∃ qi cid, tk_tag t = make_tag qi cid ∧ 0 <= qi < nq ∧ 0 <= cid < 2 ^ 16;
  bk_perm : seen ≡ₚ ans ++ (tag_at tk <$> lv);
}.

Lemma books_perm nq tk next lv lv' ans seen : lv' ≡ₚ lv →
  books nq tk next lv ans seen → books nq tk next lv' ans seen.
Proof.
  intros Hp [H1 H2 H3 H4 H5]. split; try done.
  - by rewrite Hp.
  - intros p. by rewrite Hp.
  - by rewrite Hp.
Qed.

Lemma books_answer nq tk next lv ans seen tag :
  books nq tk next lv ans seen → books nq tk next lv (ans ++ [tag]) (seen ++ [tag]).
Proof.
  intros [H1 H2 H3 H4 H5]. split; try done. rewrite H5. solve_Permutation.
Qed.

Lemma books_submit nq tk next lv ans seen t qi cid :
  tk_tag t = make_tag qi cid → 0 <= qi < nq → 0 <= cid < 2 ^ 16 →
  books nq tk next lv ans seen →
  books nq (<[next := t]> tk) (next + 1) (next :: lv) ans (seen ++ [make_tag qi cid]).
Proof.
  intros Ht Hq Hc [H1 H2 H3 H4 H5].
  assert (next ∉ lv) as Hn by (intros Hin; apply H2, H3 in Hin; lia).
  split.
  - by constructor.
  - intros p. rewrite lookup_insert_is_Some', elem_of_cons, H2. naive_solver.
  - intros p. rewrite lookup_insert_is_Some'. intros [<-|Hp]; [lia|]. apply H3 in Hp. lia.
  - intros p t'. rewrite lookup_insert_Some. intros [[<- <-]|[_ Hp]]; eauto.
  - rewrite H5, fmap_cons. unfold tag_at at 2. rewrite lookup_insert_eq. simpl default. rewrite Ht.
    assert (tag_at (<[next := t]> tk) <$> lv = tag_at tk <$> lv) as ->.
    { apply list_fmap_ext. intros i p Hp. unfold tag_at. rewrite lookup_insert_ne; [done|].
      intros ->. apply Hn. by eapply list_elem_of_lookup_2. }
    solve_Permutation.
Qed.

Lemma books_reap nq tk next p lv ans seen t : tk !! p = Some t →
  books nq tk next (p :: lv) ans seen →
  books nq (delete p tk) next lv (ans ++ [tk_tag t]) seen.
Proof.
  intros Ht [H1 H2 H3 H4 H5]. apply NoDup_cons in H1 as [Hp H1]. split.
  - done.
  - intros q. rewrite lookup_delete_is_Some, H2, elem_of_cons. naive_solver.
  - intros q. rewrite lookup_delete_is_Some. intros [_ Hq]. by apply H3.
  - intros q t'. rewrite lookup_delete_Some. intros [_ Hq]. by eapply H4.
  - rewrite H5, fmap_cons. unfold tag_at at 1. rewrite Ht. simpl default.
    assert (tag_at (delete p tk) <$> lv = tag_at tk <$> lv) as ->.
    { apply list_fmap_ext. intros i q Hq. unfold tag_at. rewrite lookup_delete_ne; [done|].
      intros ->. apply Hp. by eapply list_elem_of_lookup_2. }
    solve_Permutation.
Qed.

Lemma make_unmake_tag tag qi cid : tag = make_tag qi cid → 0 <= qi < 2 ^ 16 →
  0 <= cid < 2 ^ 16 → unmake_tag tag = (qi, cid).
Proof. intros -> Hq Hc. by apply unmake_make_tag. Qed.

Section async_proofs.
Context `{Ctl : Controller, Laws : !ControllerLaws} (log : bool) (sqids : list Z).

Record worker_inv (w : worker) (seen : list Z) : Prop := {
  wv_books : books (Z.of_nat (length sqids)) (a_tickets (w_aio w)) (a_next (w_aio w))
    (live w) (answered_tags w) seen;
  wv_queues : length (w_nsq w) = length sqids;
  wv_number : Z.of_nat (length sqids) < 2 ^ 16;
  wv_nsq : Forall (Forall (λ cmd, 0 <= command_id cmd < 2 ^ 16)) (w_nsq w);
}.

Lemma init_inv w : worker_init sqids w → worker_inv w [].
Proof using All.
  intros [H1 H2 H3 H4 H5 H6 H7 H8]. split; try done.
  unfold live, answered_tags. rewrite H1, H2, H3, H4, H5. split.
  - constructor.
  - intros p. rewrite lookup_empty, is_Some_alt. split; [done|]. by intros ?%elem_of_nil.
  - intros p. rewrite lookup_empty. by intros [? ?].
  - intros p t. by rewrite lookup_empty.
  - done.
Qed.

Lemma answered_snoc w x : answered_tags (add_ncq x w) = answered_tags w ++ [make_tag x.1 (ucid x.2)].
Proof. unfold answered_tags. simpl. by rewrite fmap_app. Qed.

Lemma respond_inv qi r w u w' : respond qi r w = (Ret u, w') →
  w' = add_ncq (qi, r) w ∧ 0 <= qi < Z.of_nat (length (w_nsq w)).
Proof.
  unfold respond, ensure, mbind, eff_bind, get, modify, throw, mret, eff_ret.
  destruct ((0 <=? qi) && (qi <? Z.of_nat (length (w_nsq w)))) eqn:E; [|done].
  intros [= <- <-]. split; [done|lia].
Qed.

Lemma submit_burst_inv qi sqid cmds : 0 <= qi < Z.of_nat (length sqids) →
  Forall (λ cmd, 0 <= command_id cmd < 2 ^ 16) cmds →
  ∀ w seen r w', worker_inv w seen → submit_burst qi sqid cmds w = (Ret r, w') →
  worker_inv w' (seen ++ ((λ cmd, make_tag qi (command_id cmd)) <$> cmds)).
Proof using All.
  intros Hq. induction 1 as [|cmd cmds Hc Hcs IH]; intros w seen r w' Hw Hr; simpl in Hr.
  { injection Hr as <- <-. by rewrite app_nil_r. }
  apply bind_inv in Hr as (o & w1 & H1 & Hr).
  apply bind_inv in Hr as (a & w2 & H2 & Hr).
  apply bind_inv in Hr as (rest & w3 & H3 & [= <- <-]).
  rewrite fmap_cons, cons_middle, (app_assoc seen). eapply IH; [|exact H3].
  unfold in_aio, zoom in H1. destruct (submit sqid cmd _ (w_aio w)) as [o' s1] eqn:E.
  injection H1 as -> <-. pose proof (submit_law _ _ _ _ _ _ E) as Hl.
  destruct Hw as [B Hlen Hnum Hn]. destruct o as [st|].
  - apply bind_inv in H2 as (u & w4 & H2 & [= <- <-]).
    apply respond_inv in H2 as [-> _]. destruct Hl as (T1 & T2 & T3).
    split; simpl; try done. rewrite answered_snoc. unfold live. simpl.
    rewrite T1, T2, T3. by apply books_answer.
  - injection H2 as <- <-. destruct Hl as (t & e & T1 & T2 & T3 & T4 & T5).
    split; simpl; try done. rewrite T2, T3.
    eapply books_perm; [|by eapply books_submit].
    unfold live. simpl. rewrite T4, fmap_app. simpl. rewrite T5. solve_Permutation.
Qed.

Lemma poll_queue_inv qi nsq w seen r w' : worker_inv w seen → w_nsq w !! qi = Some nsq →
  poll_queue sqids qi w = (Ret r, w') →
  worker_inv w' (seen ++ ((λ cmd, make_tag (Z.of_nat qi) (command_id cmd)) <$>
    take (Nat.min NOTIFYFD_BURST (length nsq)) nsq)).
Proof using All.
  intros Hw Hnsq Hp. unfold poll_queue in Hp. apply bind_inv in Hp as (w0 & w1 & [= <- <-] & Hp).
  rewrite Hnsq in Hp. destruct (sqids !! qi) as [sqid|] eqn:Hs; [|done].
  case_decide as D. { injection Hp as <- <-. by rewrite D, take_0, app_nil_r. }
  apply bind_inv in Hp as (u & w1 & [= <-] & Hp). subst w1.
  apply bind_inv in Hp as (a & w2 & Hp2 & [= <- <-]).
  destruct Hw as [B Hlen Hnum Hn]. pose proof (Forall_lookup_1 _ _ _ _ Hn Hnsq) as Hcs.
  eapply submit_burst_inv; [| | |exact Hp2].
  - apply lookup_lt_Some in Hs. lia.
  - by apply Forall_take.
  - split; simpl; try done.
    + by rewrite length_insert.
    + apply Forall_insert; [done|]. by apply Forall_drop.
Qed.

(** What a completion of ticket [t] leaves. *)
Definition reaped (cqe : io_uring_cqe) (t : ticket) (w : worker) : worker :=
  let '(qi, cid) := unmake_tag (tk_tag t) in
  set_cqes (tail (w_cqes w)) (add_ncq (qi, Resp cid (if cq_res cqe <? 0 then sc_internal else NVME_SC_SUCCESS))
    (set_aio (set_tickets (delete (cq_data cqe) (a_tickets (w_aio w))) (w_aio w)) w)).

(** A completion always finds its ticket and its queue; whether it is reaped
    depends on the line that is printed. *)
Lemma reap_total w seen cqe : worker_inv w seen → head (w_cqes w) = Some cqe →
  ∃ t, a_tickets (w_aio w) !! cq_data cqe = Some t ∧
    (if log && (cq_res cqe <? 0) then (reap log cqe w).1 = Throw Eub
     else reap log cqe w = (Ret tt, reaped cqe t w)) ∧ worker_inv (reaped cqe t w) seen.
Proof using All.
  intros [B Hlen Hnum Hn] Hh. destruct (w_cqes w) as [|c cqes] eqn:Hcq; [done|].
  injection Hh as ->.
  assert (live w ≡ₚ cq_data cqe :: ((sq_data <$> a_sq (w_aio w)) ++ (sq_data <$> w_flight w) ++
    (cq_data <$> cqes))) as Hlv.
  { unfold live. rewrite Hcq. simpl. solve_Permutation. }
  pose proof (books_perm _ _ _ _ _ _ _ (symmetry Hlv) B) as B'.
  destruct (proj2 (bk_dom _ _ _ _ _ _ B' (cq_data cqe)) ltac:(left)) as [t Ht].
  destruct (bk_tags _ _ _ _ _ _ B' _ _ Ht) as (qi & cid & Etag & Hq & Hc).
  pose proof (make_unmake_tag _ _ _ Etag ltac:(lia) Hc) as Hum.
  exists t. unfold reaped. rewrite Hum. split_and!; [done| |].
  - unfold reap. rewrite (bind_Ret (in_aio (get_ticket _)) _ w t w).
    2:{ unfold in_aio, zoom, get_ticket, mbind, eff_bind, get. rewrite Ht. by destruct w. }
    rewrite Hum. rewrite (bind_Ret (in_aio (delete_ticket _)) _ w tt (set_aio (set_tickets
      (delete (cq_data cqe) (a_tickets (w_aio w))) (w_aio w)) w)).
    2:{ unfold in_aio, zoom, delete_ticket, get_ticket, mbind, eff_bind, get. by rewrite Ht. }
    destruct (log && (cq_res cqe <? 0)).
    + unfold in_aio, zoom, get_ticket, mbind, eff_bind, get. cbn [w_aio set_aio a_tickets set_tickets].
      by rewrite lookup_delete_eq.
    + unfold respond, ensure, modify, mbind, eff_bind, get, mret, eff_ret.
      cbn [w_nsq set_aio]. rewrite Hlen.
      replace ((0 <=? qi) && (qi <? Z.of_nat (length sqids))) with true by lia.
      reflexivity.
  - split; simpl; try done. unfold answered_tags, live. simpl. rewrite fmap_app, Hcq.
    simpl. rewrite <- Etag. by apply books_reap.
Qed.

Lemma reaped_cqes cqe t w : w_cqes (reaped cqe t w) = tail (w_cqes w).
Proof using Type. unfold reaped. by destruct (unmake_tag _). Qed.
Lemma reaped_nsq cqe t w : w_nsq (reaped cqe t w) = w_nsq w.
Proof using Type. unfold reaped. by destruct (unmake_tag _). Qed.

Lemma kick_inv w seen u w' : worker_inv w seen → kick w = (Ret u, w') → worker_inv w' seen.
Proof using All.
  intros [B Hlen Hnum Hn] [= <- <-]. split; simpl; try done.
  eapply books_perm; [|exact B]. unfold live. simpl. rewrite fmap_app. solve_Permutation.
Qed.

Lemma worker_step_inv w seen w' seen' : worker_inv w seen →
  worker_step log sqids w seen w' seen' → worker_inv w' seen'.
Proof using All.
  intros Hw Hst. destruct Hst as [w seen qi nsq cmd Hq Hc|w seen fl1 e fl2 res Hf
    |w seen qi nsq r w' Hq Hp|w seen w' Hk|w seen cqe w' Hh Hr].
  - destruct Hw as [B Hlen Hnum Hn]. split; simpl; try done; [by rewrite length_insert|].
    apply Forall_insert; [done|]. apply Forall_app. split; [|by apply Forall_singleton].
    by eapply Forall_lookup_1 in Hn.
  - destruct Hw as [B Hlen Hnum Hn]. split; simpl; try done.
    eapply books_perm; [|exact B]. unfold live. simpl. rewrite Hf, !fmap_app. simpl.
    solve_Permutation.
  - by eapply poll_queue_inv.
  - by eapply kick_inv.
  - destruct (reap_total w seen cqe Hw Hh) as (t & _ & Hr2 & Hinv).
    destruct (log && _); rewrite Hr in Hr2; [done|]. by injection Hr2 as ->.
Qed.

Lemma reach_inv w0 w seen : worker_init sqids w0 → reach log sqids w0 w seen → worker_inv w seen.
Proof using All.
  intros Hi Hr. induction Hr as [|w seen w' seen' _ IH Hst]; [by apply init_inv|].
  by eapply worker_step_inv.
Qed.
End async_proofs.

(** ** The passes are made of steps *)

Section passes.
Context `{Ctl : Controller, Laws : !ControllerLaws} (log : bool) (sqids : list Z) (w0 : worker) (Hinit : worker_init sqids w0).

(** An operation of the worker that takes [seen'] more commands. *)
Definition reaches {A} (m : eff worker A) : Prop := ∀ w seen r w',
  reach log sqids w0 w seen → m w = (Ret r, w') → ∃ seen', reach log sqids w0 w' (seen ++ seen').

Lemma reaches_ret {A} (a : A) : reaches (mret a).
Proof using All. intros w seen r w' Hr [= <- <-]. exists []. by rewrite app_nil_r. Qed.

Lemma reaches_bind {A B} (m : eff worker A) (f : A → eff worker B) :
  reaches m → (∀ a, reaches (f a)) → reaches (m ≫= f).
Proof using All.
  intros Hm Hf w seen r w' Hr Hb. apply bind_inv in Hb as (a & w1 & H1 & H2).
  destruct (Hm _ _ _ _ Hr H1) as (s1 & Hr1). destruct (Hf a _ _ _ _ Hr1 H2) as (s2 & Hr2).
  exists (s1 ++ s2). by rewrite app_assoc.
Qed.

Lemma reaches_poll qi : reaches (poll_queue sqids qi).
Proof using All.
  intros w seen r w' Hr Hp. destruct (w_nsq w !! qi) as [nsq|] eqn:Hq.
  - eexists. eapply reach_step; [done|]. by eapply step_poll.
  - unfold poll_queue in Hp. apply bind_inv in Hp as (w1 & w2 & [= <- <-] & Hp).
    by rewrite Hq in Hp.
Qed.

Lemma reaches_polls qis : reaches (poll_queues sqids qis).
Proof using All.
  induction qis as [|qi qis IH]; simpl; [apply reaches_ret|].
  apply reaches_bind; [apply reaches_poll|]. intros [n a].
  apply reaches_bind; [done|]. intros [s a']. apply reaches_ret.
Qed.

Lemma reaches_busypoll stop ntry qis : reaches (busypoll sqids stop ntry qis).
Proof using All.
  induction ntry as [|ntry IH]; simpl; [apply reaches_ret|].
  apply reaches_bind; [apply reaches_polls|]. intros [s a].
  destruct (stop && s); [apply reaches_ret|].
  apply reaches_bind; [done|]. intros [s' a']. apply reaches_ret.
Qed.

Lemma reaches_kick : reaches kick.
Proof using All.
  intros w seen [] w' Hr Hk. exists []. rewrite app_nil_r. eapply reach_step; [done|].
  by apply step_kick.
Qed.

(** The completions of a window are answered one after the other, when the
    loop prints none of them. *)
Abbreviation prints_none cqes := (log = true → Forall (λ cqe, 0 <= cq_res cqe) cqes).

Lemma reap_all_spec cqes : prints_none cqes →
  ∀ w seen rest, reach log sqids w0 w seen → w_cqes w = cqes ++ rest →
  ∃ w', reap_all log cqes w = (Ret tt, w') ∧ reach log sqids w0 w' seen ∧ w_cqes w' = rest ∧
    w_nsq w' = w_nsq w.
Proof using All.
  induction cqes as [|cqe cqes IH]; intros Hlog w seen rest Hr Hc; simpl.
  { by exists w. }
  pose proof (reach_inv log sqids w0 w seen Hinit Hr) as Hw.
  assert (head (w_cqes w) = Some cqe) as Hh by by rewrite Hc.
  destruct (reap_total log sqids w seen cqe Hw Hh) as (t & _ & E & _).
  replace (log && (cq_res cqe <? 0)) with false in E.
  2:{ destruct log; [|done]. specialize (Hlog eq_refl). apply Forall_cons in Hlog as [H0 _].
      symmetry. by apply Z.ltb_ge. }
  rewrite (bind_Ret _ _ _ _ _ E).
  destruct (IH ltac:(intros L; specialize (Hlog L); by apply Forall_cons in Hlog as [_ ?])
    (reaped cqe t w) seen rest) as (w' & E' & Hr' & Hc' & Hq').
  - eapply reach_step; [done|]. by eapply step_reap.
  - by rewrite reaped_cqes, Hc.
  - exists w'. by rewrite <- (reaped_nsq cqe t).
Qed.

Lemma reap_window_spec w seen : reach log sqids w0 w seen →
  prints_none (take COMPLETION_BURST (w_cqes w)) →
  ∃ w', reap_window log w = (Ret tt, w') ∧ reach log sqids w0 w' seen ∧
    w_cqes w' = drop COMPLETION_BURST (w_cqes w) ∧ w_nsq w' = w_nsq w.
Proof using All.
  intros Hr Hlog. unfold reap_window. rewrite (bind_Ret get _ w w w) by done.
  apply reap_all_spec; [done|done|]. by rewrite take_drop.
Qed.

(** *** What a pass takes, when the controller returns

    [P k] holds of the states of the controller in which it takes [k] more of
    the commands that the queues hold; it speaks of the space in the ring, for
    instance. *)
Definition queued (w : worker) : nat := length (concat (w_nsq w)).

Definition accepts (P : nat → aio → Prop) (cmd : nvme_command) : Prop :=
  ∀ sq tag k s, P (S k) s → ∃ r s', submit sq cmd tag s = (Ret r, s') ∧ P k s'.

Definition submits (P : nat → aio → Prop) (w : worker) : Prop :=
  P (queued w) (w_aio w) ∧ Forall (Forall (accepts P)) (w_nsq w).

Lemma queued_take w qi nsq n : w_nsq w !! qi = Some nsq →
  queued w = (length (take n nsq) + length (concat (<[qi := drop n nsq]> (w_nsq w))))%nat.
Proof using Type.
  unfold queued. intros Hq. rewrite <- (take_drop_middle _ _ _ Hq) at 1.
  rewrite insert_take_drop by by eapply lookup_lt_Some.
  rewrite !concat_app, !concat_cons, !length_app, <- (take_drop n nsq) at 1.
  rewrite length_app. lia.
Qed.

Lemma submit_burst_total P qi sqid cmds k : 0 <= qi → Forall (accepts P) cmds →
  ∀ w, qi < Z.of_nat (length (w_nsq w)) → P (length cmds + k)%nat (w_aio w) →
  ∃ r w', submit_burst qi sqid cmds w = (Ret r, w') ∧ w_nsq w' = w_nsq w ∧
    w_cqes w' = w_cqes w ∧ P k (w_aio w').
Proof using Type.
  intros Hq. induction 1 as [|cmd cmds Hs _ IH]; intros w Hw HP; simpl in *; [by eexists _, _|].
  destruct (Hs sqid (make_tag qi (command_id cmd)) _ (w_aio w) HP) as (r & s' & E & HP').
  rewrite (bind_Ret (in_aio _) _ w r (set_aio s' w)) by (unfold in_aio, zoom; by rewrite E).
  assert (∀ w1 b, w_nsq w1 = w_nsq w → w_cqes w1 = w_cqes w → w_aio w1 = s' → ∃ r w',
    (rest ← submit_burst qi sqid cmds; mret (b || rest)) w1 = (Ret r, w') ∧
    w_nsq w' = w_nsq w ∧ w_cqes w' = w_cqes w ∧ P k (w_aio w')) as Hrest.
  { intros w1 b E1 E2 E3. destruct (IH w1) as (r1 & w2 & F & F1 & F2 & F3);
      [by rewrite E1|by rewrite E3|]. rewrite (bind_Ret _ _ _ _ _ F).
    eexists _, _. split_and!; [done| | |done]; congruence. }
  destruct r as [st|].
  - rewrite (bind_Ret _ _ (set_aio s' w) false
      (add_ncq (qi, Resp (command_id cmd) st) (set_aio s' w))); [by apply Hrest|].
    unfold respond, ensure, modify, mbind, eff_bind, get, mret, eff_ret. cbn [w_nsq set_aio].
    by replace ((0 <=? qi) && (qi <? Z.of_nat (length (w_nsq w)))) with true by lia.
  - rewrite (bind_Ret _ _ (set_aio s' w) true (set_aio s' w)); [by apply Hrest|done].
Qed.

Lemma poll_queue_total P w qi nsq : length (w_nsq w) = length sqids → submits P w →
  w_nsq w !! qi = Some nsq →
  ∃ a w', poll_queue sqids qi w = (Ret (Nat.min NOTIFYFD_BURST (length nsq), a), w') ∧
    w_nsq w' = <[qi := drop NOTIFYFD_BURST nsq]> (w_nsq w) ∧ w_cqes w' = w_cqes w ∧ submits P w'.
Proof using Type.
  intros Hl [HP Hs] Hq. unfold poll_queue. rewrite (bind_Ret get _ w w w) by done. rewrite Hq.
  assert (is_Some (sqids !! qi)) as [sqid ->].
  { apply lookup_lt_is_Some. rewrite <- Hl. by eapply lookup_lt_Some. }
  set (n := Nat.min NOTIFYFD_BURST (length nsq)).
  assert (drop n nsq = drop NOTIFYFD_BURST nsq) as Hdrop.
  { unfold n. destruct (Nat.min_spec NOTIFYFD_BURST (length nsq)) as [[_ ->]|[? ->]]; [done|].
    rewrite !drop_ge; [done|lia|lia]. }
  pose proof (Forall_lookup_1 _ _ _ _ Hs Hq) as Hnsq.
  case_decide as D.
  - exists false, w. rewrite D in *. split_and!; try done. rewrite <- Hdrop, drop_0.
    by rewrite list_insert_id.
  - set (w1 := set_nsq (<[qi := drop n nsq]> (w_nsq w)) w).
    rewrite (bind_Ret (modify _) _ w tt w1) by done.
    rewrite (queued_take w qi nsq n Hq) in HP.
    destruct (submit_burst_total P (Z.of_nat qi) sqid (take n nsq) (queued w1) ltac:(lia)
      (Forall_take _ _ _ Hnsq) w1) as (a & w' & E & E1 & E2 & E3); [|done|].
    { simpl. rewrite length_insert. apply lookup_lt_Some in Hq. lia. }
    rewrite (bind_Ret _ _ _ _ _ E). exists a, w'. rewrite E1, E2, <- Hdrop.
    split_and!; try done. split; [unfold queued; by rewrite E1|]. rewrite E1.
    apply Forall_insert; [done|]. by apply Forall_drop.
Qed.

(** The round over the queues from [k] on, then the busy-polling loop. *)
Lemma drop_rest_lookup (l : list (list nvme_command)) k q : l !! k = Some q →
  take k l ++ (drop NOTIFYFD_BURST <$> drop k l) =
  take k (<[k := drop NOTIFYFD_BURST q]> l) ++ drop NOTIFYFD_BURST q ::
    (drop NOTIFYFD_BURST <$> drop (S k) l).
Proof using Type.
  intros Hk. rewrite take_insert_ge by lia. f_equal.
  by rewrite (drop_S _ _ _ Hk), fmap_cons.
Qed.

Lemma poll_queues_total P n : ∀ k w, length (w_nsq w) = length sqids → submits P w →
  (k + n)%nat = length sqids →
  ∃ a w', poll_queues sqids (seq k n) w =
      (Ret (negb (forallb (λ q, length q =? 0)%nat (drop k (w_nsq w))), a), w') ∧
    w_nsq w' = take k (w_nsq w) ++ (drop NOTIFYFD_BURST <$> drop k (w_nsq w)) ∧
    w_cqes w' = w_cqes w ∧ submits P w'.
Proof using Type.
  induction n as [|n IH]; intros k w Hl Hs Hk; simpl.
  { exists false, w. rewrite drop_ge, take_ge, app_nil_r by lia. done. }
  destruct (lookup_lt_is_Some_2 (w_nsq w) k) as [q Hq]; [lia|].
  destruct (poll_queue_total P w k q Hl Hs Hq) as (a & w1 & E & E1 & E2 & E3).
  rewrite (bind_Ret _ _ _ _ _ E).
  destruct (IH (S k) w1) as (a' & w2 & F & F1 & F2 & F3); [by rewrite E1, length_insert|done|lia|].
  rewrite (bind_Ret _ _ _ _ _ F). rewrite E1, drop_insert_lt in F by lia.
  exists (a || a'), w2. split_and!; [|..|congruence|done].
  - rewrite E1, drop_insert_lt, (drop_S _ _ _ Hq) by lia. simpl.
    unfold mret, eff_ret. do 3 f_equal. rewrite negb_andb. f_equal. f_equal.
    unfold NOTIFYFD_BURST. by destruct q.
  - rewrite F1, E1, drop_insert_lt, (drop_rest_lookup _ _ _ Hq) by lia.
    assert (is_Some (<[k:=drop NOTIFYFD_BURST q]> (w_nsq w) !! k)) as [x Hx].
    { apply lookup_lt_is_Some. rewrite length_insert. lia. }
    rewrite (take_S_r _ _ _ Hx), <- app_assoc. simpl.
    rewrite list_lookup_insert_eq in Hx by lia. by injection Hx as <-.
Qed.

Lemma drop_all_empty (l : list (list nvme_command)) :
  forallb (λ q, length q =? 0)%nat l = true → drop NOTIFYFD_BURST <$> l = l.
Proof using Type.
  induction l as [|q l IH]; [done|]. cbn [forallb]. intros [Hq Hl]%andb_true_iff.
  rewrite fmap_cons, IH by done. apply Nat.eqb_eq in Hq. by destruct q.
Qed.

(** The loop that stops takes one burst of every queue; the one that does not
    takes [ntry] of them. *)
Lemma busypoll_total P stop ntry : ∀ w, length (w_nsq w) = length sqids → submits P w →
  (0 < ntry)%nat →
  ∃ s a w', busypoll sqids stop ntry (seq 0 (length sqids)) w = (Ret (s, a), w') ∧
    w_nsq w' = (if stop then (drop NOTIFYFD_BURST <$> w_nsq w)
                else (drop (ntry * NOTIFYFD_BURST) <$> w_nsq w)) ∧
    w_cqes w' = w_cqes w.
Proof using Type.
  induction ntry as [|ntry IH]; intros w Hl Hs Hn; [lia|]. cbn [busypoll].
  destruct (poll_queues_total P (length sqids) 0 w Hl Hs) as (a & w1 & E & E1 & E2 & E3); [done|].
  rewrite (bind_Ret _ _ _ _ _ E). simpl in E1. rewrite drop_0 in *.
  set (s := negb (forallb _ _)) in *.
  assert (length (w_nsq w1) = length sqids) as Hl1 by (by rewrite E1, length_fmap).
  destruct (stop && s) eqn:Est.
  { apply andb_true_iff in Est as [-> _]. by exists s, a, w1. }
  destruct ntry as [|ntry].
  { simpl. eexists _, _, w1. split_and!; [done| |done]. by destruct stop. }
  destruct (IH w1 Hl1 E3 ltac:(lia)) as (s' & a' & w2 & F & F1 & F2).
  rewrite (bind_Ret _ _ _ _ _ F). eexists _, _, w2. split_and!; [done| |congruence].
  rewrite F1, E1. destruct stop.
  - apply negb_false_iff in Est. apply drop_all_empty in Est. by rewrite !Est.
  - rewrite <- list_fmap_compose. apply list_fmap_ext. intros i q _. simpl. rewrite drop_drop. done.
Qed.
End passes.

(** ** Lemmas on the immediate workers and the dealing of queues *)

Lemma produce_all_spec spaces : ∀ ncq resps, Forall (λ n, 0 <= n) spaces →
  let '(ncq', rest) := produce_all spaces ncq resps in
  ncq' ++ rest = ncq ++ resps ∧
  (Z.of_nat (length resps) <= foldr Z.add 0 spaces → rest = []).
Proof.
  induction spaces as [|sp spaces IH]; intros ncq resps Hs; simpl.
  { split; [done|]. destruct resps; simpl; [done|lia]. }
  apply Forall_cons in Hs as [Hsp Hs].
  destruct resps as [|r resps]; [done|].
  set (l := r :: resps). set (k := Z.to_nat _).
  specialize (IH (ncq ++ take k l) (drop k l) Hs).
  destruct (produce_all spaces _ _) as [ncq' rest]. destruct IH as [IH1 IH2]. split.
  - by rewrite IH1, <- app_assoc, take_drop.
  - intros Hle. apply IH2. rewrite length_drop. unfold k.
    assert (0 <= foldr Z.add 0 spaces)
      by (clear -Hs; induction Hs; simpl; lia).
    change (Z.of_nat (length (r :: resps))) with (Z.of_nat (length l)) in Hle. lia.
Qed.

Lemma receive_burst_ids {S} (rc : Z → nvme_command → eff S Z) sqid cmds : ∀ s resps s',
  receive_burst rc sqid cmds s = (Ret resps, s') → ucid <$> resps = command_id <$> cmds.
Proof.
  induction cmds as [|cmd cmds IH]; intros s resps s' Hr; simpl in Hr.
  { by injection Hr as <- <-. }
  apply bind_inv in Hr as (st & s1 & _ & Hr).
  apply bind_inv in Hr as (rs & s2 & Hr & [= <- <-]).
  rewrite !fmap_cons. simpl. f_equal. by eapply IH.
Qed.

Lemma lookup_push_at {A} k (x : A) ws t q : ws !! t = Some q →
  push_at k x ws !! t = Some (if decide (k = t) then q ++ [x] else q).
Proof.
  intros H. unfold push_at. case_decide as D.
  - subst. by rewrite list_lookup_alter_eq, H.
  - by rewrite list_lookup_alter_ne.
Qed.

Lemma assign_loop_lookup sqfds nt : ∀ i ws t q, ws !! t = Some q →
  assign_loop i sqfds nt ws !! t =
  Some (q ++ filter (λ x : nat * Z, (x.1 - 1) mod nt = t)%nat (zip (seq i (length sqfds)) sqfds)).
Proof.
  induction sqfds as [|fd sqfds IH]; intros i ws t q Hq; simpl; [by rewrite app_nil_r|].
  rewrite (IH _ _ _ _ (lookup_push_at _ _ _ _ _ Hq)). rewrite filter_cons. simpl.
  repeat case_decide; try done. by rewrite <- app_assoc.
Qed.

Lemma concat_push_at {A} k (x : A) ws : (k < length ws)%nat →
  concat (push_at k x ws) ≡ₚ x :: concat ws.
Proof.
  unfold push_at. revert k. induction ws as [|q ws IH]; intros [|k] H; simpl in *; [lia|lia| |].
  - rewrite <- app_assoc. simpl. by rewrite <- Permutation_middle.
  - change (list_alter _ k ws) with (alter (λ q, q ++ [x]) k ws).
    rewrite IH by lia. by rewrite <- Permutation_middle.
Qed.

Lemma assign_loop_perm sqfds nt : ∀ i ws, length ws = nt → (0 < nt)%nat →
  concat (assign_loop i sqfds nt ws) ≡ₚ concat ws ++ zip (seq i (length sqfds)) sqfds.
Proof.
  induction sqfds as [|fd sqfds IH]; intros i ws Hl Hn; simpl; [by rewrite app_nil_r|].
  rewrite IH; [|by unfold push_at; rewrite length_alter|done].
  rewrite concat_push_at by (rewrite Hl; apply Nat.mod_upper_bound; lia).
  simpl. by rewrite <- Permutation_middle.
Qed.

(** ** Properties *)

(** C36. Every command is answered exactly once. Whatever the guest, the
    kernel and the worker do, in any order, with any controller that keeps the
    contract: the tags of the commands taken from the queues are, as a
    multiset, the tags answered and the tags still pending; the tickets
    allocated are exactly those of the entries under way, each of one entry,
    so none is leaked or freed twice; a completion always finds its ticket and
    its queue, and is answered with success or, when its result is negative,
    an internal error; and once nothing is under way every command taken has
    been answered and no ticket is left. The exception is a failed completion
    in the loop that prints it (encryptor-aio.cpp): there the ticket has been
    freed when its tag is read for the printing, which is undefined, and no
    run goes on past it. *)
Theorem worker_answers_once `{ControllerLaws} log sqids w0 w seen :
  worker_init sqids w0 → reach log sqids w0 w seen →
  seen ≡ₚ answered_tags w ++ pending_tags w ∧
  NoDup (live w) ∧ (∀ p, is_Some (a_tickets (w_aio w) !! p) ↔ p ∈ live w) ∧
  (∀ cqe, head (w_cqes w) = Some cqe → ∃ t, a_tickets (w_aio w) !! cq_data cqe = Some t ∧
    if log && (cq_res cqe <? 0) then (reap log cqe w).1 = Throw Eub else
    let '(qi, cid) := unmake_tag (tk_tag t) in
    let st := if cq_res cqe <? 0 then sc_internal else NVME_SC_SUCCESS in
    ∃ w', reap log cqe w = (Ret tt, w') ∧ w_ncq w' = w_ncq w ++ [(qi, Resp cid st)] ∧
      a_tickets (w_aio w') = delete (cq_data cqe) (a_tickets (w_aio w))) ∧
  (live w = [] → seen ≡ₚ answered_tags w ∧ a_tickets (w_aio w) = ∅).
Proof.
  intros Hi Hr. pose proof (reach_inv log sqids w0 w seen Hi Hr) as Hw.
  destruct (wv_books _ _ _ Hw) as [H1 H2 _ _ H5]. split_and!; try done.
  - intros cqe Hh. destruct (reap_total log sqids w seen cqe Hw Hh) as (t & Ht & E & _).
    exists t. split; [done|]. destruct (log && _); [done|]. unfold reaped in E.
    destruct (unmake_tag (tk_tag t)) as [qi cid]. by eexists.
  - intros Hl. rewrite Hl in *. split; [by rewrite H5, app_nil_r|].
    apply map_eq. intros p. rewrite lookup_empty. apply eq_None_not_Some.
    intros Hp%H2. by apply elem_of_nil in Hp.
Qed.

(** A flush and an unknown command on two queues; the replicator's controller. *)
Definition demo_flush (cid : Z) : nvme_command :=
  NvmeCommand nvme_cmd_flush 0 cid 1 0 0 0 0 0 0 0 0 0 0 0.
Definition demo_unknown (cid : Z) : nvme_command :=
  NvmeCommand 0x7f 0 cid 1 0 0 0 0 0 0 0 0 0 0 0.
Definition demo_worker : worker :=
  Worker (Aio demo_ctrl (Mapping ∅ 262144) [] ∅ 0) [] []
    [[demo_flush 3; demo_unknown 4]; [demo_flush 3]] [].
Definition demo_controller : Controller := sender_controller (inl 5) (λ _, inl 5) (λ _, true).

Lemma demo_worker_init : worker_init [1; 2] demo_worker.
Proof. split; try done. repeat constructor; done. Qed.

(** The first queue is polled, its flush goes to the kernel and fails. *)
Abbreviation demo_entry := (Sqe (IoFsync IORING_FSYNC_DATASYNC) 0 true false 0).
Definition demo_taken (sq fl : list io_uring_sqe) (cqes : list io_uring_cqe) : worker :=
  Worker (Aio demo_ctrl (Mapping ∅ 262144) sq {[ 0 := Ticket (make_tag 0 3) [] 0 [] ]} 1) fl cqes
    [[]; [demo_flush 3]] [(0, Resp 4 sc_invalid_opcode)].
Definition demo_failed : worker := demo_taken [] [] [Cqe 0 (-5)].

Lemma demo_failed_reach log :
  reach (Ctl := demo_controller) log [1; 2] demo_worker demo_failed [make_tag 0 3; make_tag 0 4].
Proof.
  eapply (reach_step log _ _ (demo_taken [] [demo_entry] [])).
  - eapply (reach_step log _ _ (demo_taken [demo_entry] [] [])).
    + eapply reach_step; [apply reach_init|].
      eapply (step_poll (Ctl := demo_controller) log [1; 2] demo_worker [] 0
        [demo_flush 3; demo_unknown 4]); [reflexivity|vm_compute; reflexivity].
    + apply step_kick. reflexivity.
  - exact (step_kernel (Ctl := demo_controller) log [1; 2] (demo_taken [] [demo_entry] []) _
      [] demo_entry [] (-5) eq_refl).
Qed.

(** What the witness says of the failed flush: the loop that prints is
    undefined, the other one answers with an error. *)
Abbreviation failed_flush log := (
  [make_tag 0 3; make_tag 0 4] ≡ₚ answered_tags demo_failed ++ pending_tags demo_failed ∧
  NoDup (live demo_failed) ∧
  (∀ p, is_Some (a_tickets (w_aio demo_failed) !! p) ↔ p ∈ live demo_failed) ∧
  (∀ cqe, head (w_cqes demo_failed) = Some cqe →
    ∃ t, a_tickets (w_aio demo_failed) !! cq_data cqe = Some t ∧
    if log && (cq_res cqe <? 0) then (reap log cqe demo_failed).1 = Throw Eub else
    let '(qi, cid) := unmake_tag (tk_tag t) in
    let st := if cq_res cqe <? 0 then sc_internal else NVME_SC_SUCCESS in
    ∃ w', reap log cqe demo_failed = (Ret tt, w') ∧
      w_ncq w' = [(0, Resp 4 sc_invalid_opcode)] ++ [(qi, Resp cid st)] ∧
      a_tickets (w_aio w') = delete (cq_data cqe) (a_tickets (w_aio demo_failed))) ∧
  (live demo_failed = [] → [make_tag 0 3; make_tag 0 4] ≡ₚ answered_tags demo_failed ∧
    a_tickets (w_aio demo_failed) = ∅)).

Lemma worker_answers_once_witness : failed_flush true ∧ failed_flush false.
Proof.
  split.
  - exact (@worker_answers_once demo_controller (sender_controller_laws _ _ _)
      true [1; 2] demo_worker demo_failed _ demo_worker_init (demo_failed_reach true)).
  - exact (@worker_answers_once demo_controller (sender_controller_laws _ _ _)
      false [1; 2] demo_worker demo_failed _ demo_worker_init (demo_failed_reach false)).
Defined.

(** C37. What one pass of the loops does, when the controller takes the
    commands that the queues hold: it ends; it is a sequence of the worker's
    steps; the pass that stops (encryptor-aio.cpp, encryptor-sgx-aio.cpp)
    takes exactly one burst from every queue, the one that does not
    (replicator-aio.cpp) its twenty tries; and every completion that was
    ready, up to a burst, is answered. The loop that prints failed completions
    (encryptor-aio.cpp) must find none among them. *)
Theorem aio_pass_progress `{ControllerLaws} log stop P sqids w0 w seen :
  worker_init sqids w0 → reach log sqids w0 w seen → submits P w →
  (log = true → Forall (λ cqe, 0 <= cq_res cqe) (take COMPLETION_BURST (w_cqes w))) →
  ∃ r w' seen', aio_pass log sqids stop w = (Ret r, w') ∧
    reach log sqids w0 w' (seen ++ seen') ∧
    w_nsq w' = (drop (if stop then NOTIFYFD_BURST else busypoll_loops * NOTIFYFD_BURST)
                  <$> w_nsq w) ∧
    w_cqes w' = drop COMPLETION_BURST (w_cqes w).
Proof.
  intros Hi Hr Hs Hlog. pose proof (reach_inv log sqids w0 w seen Hi Hr) as Hw.
  destruct (busypoll_total sqids P stop busypoll_loops w)
    as (s & a & w1 & E & E1 & E2); [by eapply wv_queues|done|unfold busypoll_loops; lia|].
  destruct (reaches_busypoll log sqids w0 Hi _ _ _ _ _ _ _ Hr E) as [seen' Hr1].
  set (w2 := if negb stop || a then (kick w1).2 else w1).
  assert (reach log sqids w0 w2 (seen ++ seen') ∧ w_nsq w2 = w_nsq w1 ∧ w_cqes w2 = w_cqes w1)
    as (Hr2 & F1 & F2).
  { unfold w2. destruct (negb stop || a); [|done]. split_and!; try done.
    eapply reach_step; [exact Hr1|]. by apply step_kick. }
  rewrite <- E2, <- F2 in Hlog.
  destruct (reap_window_spec log sqids w0 Hi w2 _ Hr2 Hlog) as (w' & G & Hr' & G1 & G2).
  exists s, w', seen'. split_and!; [|done|rewrite G2, F1, E1; by destruct stop|congruence].
  unfold aio_pass. rewrite (bind_Ret _ _ _ _ _ E).
  rewrite (bind_Ret _ _ w1 tt w2) by (unfold w2; by destruct (negb stop || a)).
  by rewrite (bind_Ret _ _ _ _ _ G).
Qed.

(** *** Queues of reads and writes

    Both controllers take a write, a flush and an unknown command, and the
    encryptor a read, in every state of the demonstration's namespace and
    guest memory in which the ring of 128 entries has space. *)
Definition demo_room (q : list io_uring_sqe) : bool := (length q <? 128)%nat.
Definition demo_space (k : nat) (s : aio) : Prop :=
  a_nv s = demo_ctrl ∧ vm_size (a_vm s) = 262144 ∧ (length (a_sq s) + k <= 128)%nat.
Definition demo_fresh (n : Z) : list Z := replicate (Z.to_nat n) 255.
Abbreviation demo_enc_ctl :=
  (encryptor_controller demo_engine (inl 5) (λ _, inl 5) demo_room demo_fresh).
Abbreviation demo_send_ctl := (sender_controller (inl 5) (λ _, inl 5) demo_room).

Lemma demo_space_room k s : demo_space (S k) s → demo_room (a_sq s) = true.
Proof. intros (_ & _ & H). unfold demo_room. apply Nat.ltb_lt. lia. Qed.
Lemma demo_space_less k s : demo_space (S k) s → demo_space k s.
Proof. intros (? & ? & ?). split_and!; [done|done|lia]. Qed.
Lemma demo_space_push k s s' e : demo_space (S k) s → a_nv s' = a_nv s → a_vm s' = a_vm s →
  a_sq s' = a_sq s ++ [e] → demo_space k s'.
Proof.
  unfold demo_space. intros (H1 & H2 & H3) -> -> ->. rewrite length_app. simpl.
  split_and!; [done|done|lia].
Qed.

Lemma demo_compliant cmd pages k s : demo_space k s →
  (∀ vm, vm_size vm = 262144 → transfer_ok demo_ctrl vm cmd demo_ns pages) →
  transfer_ok (a_nv s) (a_vm s) cmd demo_ns pages.
Proof. intros (-> & H & _) Hok. by apply Hok. Qed.

Lemma demo_write_ok vm : vm_size vm = 262144 →
  transfer_ok demo_ctrl vm demo_cmd demo_ns [0x20200; 0x10000].
Proof.
  intros Hv. split; rewrite ?Hv; try done; [by exists 5|by apply layout_two|].
  repeat constructor; discriminate.
Qed.
Lemma demo_read_ok vm : vm_size vm = 262144 →
  transfer_ok demo_ctrl vm demo_read demo_ns [0x20e00; 0x10000].
Proof.
  intros Hv. split; rewrite ?Hv; try done; [by exists 5|by apply layout_two|].
  repeat constructor; discriminate.
Qed.
(** Any block is the encryption of one. *)
Lemma demo_onto d k : Z.of_nat (length d) = 512 → ∃ p, encrypt demo_engine 512 p k = Some d.
Proof.
  intros Hd. destruct (demo_xts d (make_tweak k)) as [p|] eqn:E; [|done].
  exists p. pose proof (demo_xts_length _ _ _ E) as Hl. apply demo_xts_inverse in E.
  cbn [encrypt demo_cipher ipp_cipher]. unfold ipp_crypt. rewrite Hl, Hd. exact E.
Qed.

Lemma demo_no_words vm w : vm_size vm = 262144 →
  ¬ reads_word vm (PrpIter (CmdList (prp1 demo_read) (prp2 demo_read)) 0
      (cmd_bytes demo_read demo_ns)) w.
Proof.
  destruct vm as [m sz]. cbn [vm_size]. intros -> Hr.
  inversion Hr as [_ Hw|it' Hi Hr']; [by apply elem_of_nil in Hw|].
  vm_compute in Hi. injection Hi as <-.
  inversion Hr' as [_ Hw|it'' Hi Hr'']; [by apply elem_of_nil in Hw|].
  vm_compute in Hi. injection Hi as <-.
  inversion Hr'' as [He|? Hi]; done.
Qed.

Lemma demo_enc_read : accepts (Ctl := demo_enc_ctl) demo_space demo_read.
Proof.
  intros sq tag k s HP. pose proof (demo_compliant demo_read _ _ s HP demo_read_ok) as Hok.
  destruct HP as (H1 & H2 & H3).
  destruct (demo_onto (view_bytes (a_vm s) (0x20e00, 512)) (u64 (8 + 0))) as [p0 Hp0];
    [by rewrite length_view_bytes|].
  destruct (demo_onto (view_bytes (a_vm s) (0x10000, 512)) (u64 (8 + 1))) as [p1 Hp1];
    [by rewrite length_view_bytes|].
  destruct (aio_read_run (engine := demo_engine) (inl 5) (λ _, inl 5) demo_room demo_fresh
    s demo_read tag demo_ns _ Hok [p0; p1]) as (vm1 & R & Hvm1 & _).
  - done.
  - change (cmd_blocks _ _ _) with [((0x20e00, 512), 0); ((0x10000, 512), 1)].
    apply SSorted_cons; [repeat constructor|]. apply Forall_cons. split; [by right|constructor].
  - intros w Hw. by apply demo_no_words in Hw.
  - change (cmd_blocks _ _ _) with [((0x20e00, 512), 0); ((0x10000, 512), 1)].
    by repeat constructor.
  - eexists _, _. split; [exact R|]. split_and!; [done|by rewrite <- H2|simpl; lia].
Qed.

Lemma demo_enc_write : accepts (Ctl := demo_enc_ctl) demo_space demo_cmd.
Proof.
  intros sq tag k s HP. pose proof (demo_compliant demo_cmd _ _ s HP demo_write_ok) as Hok.
  destruct (aio_write_run (engine := demo_engine) (inl 5) (λ _, inl 5) demo_room demo_fresh
    s demo_cmd tag demo_ns _ Hok eq_refl eq_refl demo_takes_blocks) as (cs & R & _);
    [done|by vm_compute|by eapply demo_space_room|by unfold demo_fresh; rewrite length_replicate|].
  eexists _, _. split; [exact R|]. by eapply demo_space_push.
Qed.

Lemma demo_enc_flush cid : accepts (Ctl := demo_enc_ctl) demo_space (demo_flush cid).
Proof.
  intros sq tag k s HP. eexists None, _. split.
  - transitivity ((_ ← EncryptorAio.submit_flush_async demo_room (demo_flush cid) tag; mret (@None Z)) s);
      [reflexivity|].
    unfold EncryptorAio.submit_flush_async, in_sq, zoom, queue_fsync, queue_sqe, new_ticket.
    unfold mbind, eff_bind, get, put, mret, eff_ret. cbn [a_sq].
    rewrite (demo_space_room _ _ HP). reflexivity.
  - by eapply demo_space_push.
Qed.

Lemma demo_enc_unknown cid : accepts (Ctl := demo_enc_ctl) demo_space (demo_unknown cid).
Proof.
  intros sq tag k s HP. eexists (Some sc_invalid_opcode), s.
  split; [reflexivity|by apply demo_space_less].
Qed.

Lemma demo_send_write : accepts (Ctl := demo_send_ctl) demo_space demo_cmd.
Proof.
  intros sq tag k s HP. pose proof (demo_compliant demo_cmd _ _ s HP demo_write_ok) as Hok.
  destruct (transfer_checks (inl 5) (λ _, inl 5) _ _ _ _ _ Hok) as [E1 E2].
  destruct (transfer_segments _ _ _ _ _ Hok) as [Hw Hseg].
  pose proof (cmd_bytes_range demo_cmd demo_ns ltac:(done)) as Hn.
  destruct (layout_segments (a_vm s) _ _ _ _ Hn (to_vm _ _ _ _ _ Hok) (to_layout _ _ _ _ _ Hok)
    (to_inside _ _ _ _ _ Hok)) as (_ & _ & Hvm).
  destruct (submit_write_run (inl 5) (λ _, inl 5) _ _ demo_cmd _ _ _ eq_refl eq_refl E1 E2 Hw Hvm
    demo_room s tag eq_refl eq_refl (demo_space_room _ _ HP)) as (a1 & R & A1 & _ & A2 & A3).
  exists None, a1. split; [|by eapply demo_space_push].
  unfold submit, sender_controller. by rewrite (bind_Ret _ _ _ _ _ R).
Qed.

Lemma demo_send_flush cid : accepts (Ctl := demo_send_ctl) demo_space (demo_flush cid).
Proof.
  intros sq tag k s HP. eexists None, _. split.
  - transitivity ((st ← (_ ← Sender.submit_flush_async demo_room (demo_flush cid) tag;
        mret NVME_SC_SUCCESS); mret (if negb (st =? NVME_SC_SUCCESS) then Some st else None)) s);
      [reflexivity|].
    unfold Sender.submit_flush_async, in_sq, zoom, queue_fsync, queue_sqe, new_ticket.
    unfold mbind, eff_bind, get, put, mret, eff_ret. cbn [a_sq].
    rewrite (demo_space_room _ _ HP). reflexivity.
  - by eapply demo_space_push.
Qed.

(** A worker with two queues of such commands. *)
Definition demo_queues (q1 q2 : list nvme_command) : worker :=
  Worker (Aio demo_ctrl (Mapping ∅ 262144) [] ∅ 0) [] [] [q1; q2] [].
Lemma demo_queues_init q1 q2 :
  Forall (Forall (λ cmd, 0 <= command_id cmd < 2 ^ 16)) [q1; q2] →
  worker_init [1; 2] (demo_queues q1 q2).
Proof. intros H. by split. Qed.

Abbreviation enc_queues :=
  (demo_queues [demo_read; demo_cmd; demo_flush 3] [demo_unknown 4; demo_cmd; demo_read]).
Abbreviation send_queues := (demo_queues [demo_cmd; demo_flush 3] [demo_cmd; demo_cmd]).

(** Reads, writes and flushes through the encryptor's pass, and writes and
    flushes through the replicator's. *)
Lemma aio_pass_progress_witness :
  (∃ r w' seen', encryptor_aio_pass (Ctl := demo_enc_ctl) [1; 2] enc_queues = (Ret r, w') ∧
    reach (Ctl := demo_enc_ctl) true [1; 2] enc_queues w' ([] ++ seen') ∧
    w_nsq w' = [[]; []] ∧ w_cqes w' = []) ∧
  (∃ r w' seen', replicator_aio_pass (Ctl := demo_send_ctl) [1; 2] send_queues = (Ret r, w') ∧
    reach (Ctl := demo_send_ctl) false [1; 2] send_queues w' ([] ++ seen') ∧
    w_nsq w' = [[]; []] ∧ w_cqes w' = []).
Proof.
  unfold encryptor_aio_pass, replicator_aio_pass. split.
  - refine (@aio_pass_progress demo_enc_ctl (encryptor_controller_laws _ _ _ _ _)
      true true demo_space [1; 2] enc_queues enc_queues [] _ _ _ _).
    + apply demo_queues_init. repeat constructor; done.
    + apply reach_init.
    + split; [split_and!; [done|done|vm_compute; lia]|]. cbn [demo_queues w_nsq]. repeat first [apply Forall_nil_2|apply Forall_cons_2];
        first [exact demo_enc_read|exact demo_enc_write|apply demo_enc_flush|apply demo_enc_unknown].
    + intros _. constructor.
  - refine (@aio_pass_progress demo_send_ctl (sender_controller_laws _ _ _)
      false false demo_space [1; 2] send_queues send_queues [] _ _ _ _).
    + apply demo_queues_init. repeat constructor; done.
    + apply reach_init.
    + split; [split_and!; [done|done|vm_compute; lia]|]. cbn [demo_queues w_nsq]. repeat first [apply Forall_nil_2|apply Forall_cons_2];
        first [exact demo_send_write|apply demo_send_flush].
    + done.
Defined.

(** The queues are dealt out completely and evenly: with at least one
    descriptor, every queue but the admin queue has exactly one worker, which
    knows it with its own descriptor; worker [t] serves the queues [i] with
    [(i - 1) mod nthreads = t], in order; and there are as many workers as
    asked for, or one per queue when that number is 0 or too large. *)
Theorem assign_queues_exact nthreads sqfds : (0 < length sqfds)%nat →
  let nt := clamp_threads nthreads (length sqfds) in
  let ws := assign_queues nthreads sqfds in
  let queues := zip (seq 1 (length (tail sqfds))) (tail sqfds) in
  (1 <= nt <= length sqfds)%nat ∧ length ws = nt ∧ concat ws ≡ₚ queues ∧
  (∀ t, (t < nt)%nat →
    ws !! t = Some (filter (λ x : nat * Z, (x.1 - 1) mod nt = t)%nat queues)) ∧
  ∀ i fd, (i, fd) ∈ concat ws ↔ (0 < i)%nat ∧ sqfds !! i = Some fd.
Proof.
  intros Hn nt ws queues.
  assert (1 <= nt <= length sqfds)%nat as Hnt.
  { unfold nt, clamp_threads. destruct (Nat.eqb_spec nthreads 0); simpl; [lia|].
    destruct (Nat.ltb_spec (length sqfds) nthreads); lia. }
  assert (concat ws ≡ₚ queues) as Hp.
  { unfold ws, assign_queues. fold nt. rewrite assign_loop_perm; [|by rewrite length_replicate|lia].
    assert (concat (replicate nt ([] : list (nat * Z))) = []) as ->; [|done].
    clear. induction nt; simpl; congruence. }
  split_and!; try done; try lia.
  - unfold ws, assign_queues. fold nt. clear.
    assert (∀ l i (w : list (list (nat * Z))), length (assign_loop i l nt w) = length w) as Hlen.
    { induction l as [|fd l IH]; intros i w; simpl; [done|]. rewrite IH.
      unfold push_at. apply length_alter. }
    by rewrite Hlen, length_replicate.
  - intros t Ht. unfold ws, assign_queues. fold nt.
    by rewrite (assign_loop_lookup _ nt 1 _ t []) by (by apply lookup_replicate_2).
  - intros i fd. rewrite Hp. unfold queues. rewrite list_elem_of_lookup. split.
    + intros [k Hk]. apply lookup_zip_Some in Hk as [H1 H2].
      apply lookup_seq in H1 as [-> _]. split; [lia|]. by destruct sqfds.
    + intros [Hi Hfd]. exists (i - 1)%nat. apply lookup_zip_Some.
      destruct sqfds as [|f sqfds]; [done|]. destruct i as [|i]; [lia|].
      simpl in *. rewrite Nat.sub_0_r. split; [|done].
      apply lookup_seq. split; [done|]. by eapply lookup_lt_Some.
Qed.

Lemma assign_queues_exact_witness :
  let ws := assign_queues 2 [100; 101; 102; 103] in
  (1 <= 2 <= 4)%nat ∧ length ws = 2%nat ∧ concat ws ≡ₚ [(1%nat, 101); (2%nat, 102); (3%nat, 103)] ∧
  (∀ t, (t < 2)%nat → ws !! t = Some (filter (λ x : nat * Z, (x.1 - 1) mod 2 = t)%nat
    [(1%nat, 101); (2%nat, 102); (3%nat, 103)])) ∧
  ∀ i fd, (i, fd) ∈ concat ws ↔ (0 < i)%nat ∧ [100; 101; 102; 103] !! i = Some fd.
Proof. apply (assign_queues_exact 2 [100; 101; 102; 103]). simpl. lia. Defined.

(** A worker with an immediate answer responds in order and loses
    nothing: a turn for a queue takes at most one burst from its front; the
    responses carry the identifiers of those commands, in their order, with
    the statuses the controller gave them in that order; however the ring's
    space comes and goes, the responses in the ring and those still held back
    are together the old ones followed by the new ones, and none is held back
    once the spaces found add up to the burst. *)
Theorem poll_sync_exact {S} (receive_cmd : Z → nvme_command → eff S Z) sqid spaces nsq ncq
    s resps s' :
  let burst := take NOTIFYFD_BURST nsq in
  Forall (λ n, 0 <= n) spaces →
  receive_burst receive_cmd sqid burst s = (Ret resps, s') →
  ∃ ncq' rest, poll_sync receive_cmd sqid spaces nsq ncq s =
      (Ret (drop NOTIFYFD_BURST nsq, ncq', rest), s') ∧
    ucid <$> resps = command_id <$> burst ∧ ncq' ++ rest = ncq ++ resps ∧
    (Z.of_nat NOTIFYFD_BURST <= foldr Z.add 0 spaces → rest = []).
Proof.
  intros burst Hs Hr. unfold poll_sync.
  assert (∀ {A} (l : list A), take (Nat.min NOTIFYFD_BURST (length l)) l = take NOTIFYFD_BURST l ∧
    drop (Nat.min NOTIFYFD_BURST (length l)) l = drop NOTIFYFD_BURST l) as Hmin.
  { intros A l. destruct (Nat.min_spec NOTIFYFD_BURST (length l)) as [[_ ->]|[? ->]]; [done|].
    by rewrite !take_ge, !drop_ge by lia. }
  destruct (Hmin _ nsq) as [-> ->]. fold burst. rewrite (bind_Ret _ _ _ _ _ Hr).
  pose proof (produce_all_spec spaces ncq resps Hs) as Hp.
  destruct (produce_all spaces ncq resps) as [ncq1 rest1]. destruct Hp as [Hp1 Hp2].
  pose proof (receive_burst_ids _ _ _ _ _ _ Hr) as Hids.
  exists ncq1, rest1. split_and!; try done.
  intros Hle. apply Hp2. apply (f_equal length) in Hids.
  unfold burst in Hids. rewrite !length_fmap, length_take in Hids. lia.
Qed.

Lemma poll_sync_exact_witness :
  ∃ ncq' rest,
    encryptor_mt_poll demo_engine (inl 5) (λ _, inl 5) demo_pwrite 1 [1; 0; 20]
      [demo_unknown 4; demo_unknown 9] [] demo_encryptor = (Ret ([], ncq', rest), demo_encryptor) ∧
    ucid <$> [Resp 4 sc_internal; Resp 9 sc_internal] = [4; 9] ∧
    ncq' ++ rest = [] ++ [Resp 4 sc_internal; Resp 9 sc_internal] ∧
    (16 <= 1 + (0 + (20 + 0)) → rest = []).
Proof.
  apply (poll_sync_exact (λ _, Encryptor.receive demo_engine (inl 5) (λ _, inl 5) demo_pwrite) 1
    [1; 0; 20] [demo_unknown 4; demo_unknown 9] [] demo_encryptor
    [Resp 4 sc_internal; Resp 9 sc_internal] demo_encryptor).
  - repeat constructor; lia.
  - vm_compute. reflexivity.
Defined.

(** The asynchronous controllers do not catch what they throw: a command for a
    namespace that does not exist ends the worker. *)
Example bad_namespace_ends_worker :
  (encryptor_aio_pass
    (Ctl := encryptor_controller demo_engine (inl 5) (λ _, inl 5) (λ _, true) (λ _, []))
    [1] (Worker demo_aio [] []
      [[NvmeCommand nvme_cmd_read 0 3 0 0 0 0 0 0 0 0 0 0 0 0]] [])).1 = Throw invalid_ns.
Proof. vm_compute. reflexivity. Qed.
