(* ===== verification/Sgx.v ===== *)
(** * The encryptors with an enclave

    encryptor-sgx.cpp and encryptor-sgx-aio.cpp with their controllers
    nvme/nvme_encryptor_sgx.cpp and nvme/nvme_encryptor_sgx_aio.cpp: the
    programs of file Worker, with the cipher behind calls of the enclave of file
    Enclave (include/sgx/prp_en.hpp, include/sgx/enclave.hpp). *)
From Stdlib Require Import Sorting.Sorted.
From S2P Require Import Prelude Proto Vm Prp NvmeBase Crypto Uring Aio Sender.
From S2P Require Import Encryptor EncryptorAio Enclave Worker.

(** ** Calls of the enclave (class sgx_enclave)

    The state of a program with its enclave, and of the calls made so far,
    whether they left it by an exception or a failed assertion. *)

Record host (S : Type) : Type := Host { h_st : S; h_en : enclave; h_left : list bool }.
Arguments Host {S} h_st h_en h_left.
Arguments h_st {S} h.
Arguments h_en {S} h.
Arguments h_left {S} h.

Definition in_host {S A} : eff S A → eff (host S) A :=
  zoom h_st (λ x s, Host x (h_en s) (h_left s)).

(** What the caller sees of a call that leaves the enclave: an error of the
    SDK, for which [invoke] throws. *)
Definition left_by (e : exn) : exn :=
  match e with Eub | Efuel => e | _ => Esystem end.

(** A call on [size] bytes of a buffer; it must not go past its end. *)
Definition on_buf {A} (size : Z) (m : eff arr A) : eff (list Z) A := λ b,
  if Z.of_nat (length b) <? size then (Throw Eub, b) else
  let '(o, a) := m (store_bytes ∅ 0 b) in (o, load_bytes a 0 (length b)).

Section sgx.
Context (lib_init : list Z → Z → bool).
Context (lib_encrypt lib_decrypt : list Z → list Z → list Z → option (list Z)).
Context (is_outside : Z → Z → bool).
Context (ioc : Z + Z) (iov : Z → Z + nvme_id_ns).

(** [prp_en]'s constructor: a new enclave, with its key. *)
Definition prp_en (key : list Z) (lba_shift : Z) : outcome enclave :=
  match put_key lib_init key lba_shift enclave_start with
  | (Ret r, en) => if r <? 0 then Throw Eruntime else Ret en
  | (Throw e, _) => Throw (left_by e)
  end.

(** Where guest memory is mapped. *)
Context (pvm : Z).

(** ** nvme_encryptor_sgx *)

Section sync.
(** Whether the SDK enters the enclave, after the calls before; the address of
    the buffer, by its length; the system call. *)
Context (enters : list bool → bool).
Context (encbuf_addr : Z → Z).
Context (pwrite : list pwrite_call → Z → list Z → Z).

Definition invoke {S} (call : enclave → eff S Z) : eff (host S) Z := λ s,
  if negb (enters (h_left s)) then (Throw Esystem, s) else
  match call (h_en s) (h_st s) with
  | (Ret r, x) => (Ret r, Host x (h_en s) (h_left s ++ [false]))
  | (Throw e, x) => (Throw (left_by e), Host x (h_en s) (h_left s ++ [true]))
  end.

(** The state of the controller but for the engine is that of the encryptor. *)
Abbreviation seff := (eff (host encryptor)).

Definition buf_addr (s : encryptor) : Z := encbuf_addr (Z.of_nat (length (encbuf s))).

Definition receive_read (cmd : nvme_command) : seff Z :=
  lit ← in_host (e_in_nv (lba_begin ioc iov cmd));
  ret ← invoke (λ en, e_in_vm
          (crypt_command_inplace lib_encrypt lib_decrypt is_outside en pvm cmd true));
  if negb (ret =? s64 (li_nbytes lit)) then throw Eruntime else mret NVME_SC_SUCCESS.

Definition receive_write_copyback (cmd : nvme_command) : seff Z :=
  lit ← in_host (e_in_nv (lba_begin ioc iov cmd));
  let n := li_nbytes lit in
  _ ← in_host (modify (λ s, if Z.of_nat (length (encbuf s)) <? n
                            then set_encbuf (grow (encbuf s) n) s else s));
  ret ← invoke (λ en, s ← get; e_in_buf (on_buf n
          (crypt_command lib_encrypt lib_decrypt is_outside en pvm (e_vm s) cmd
             (buf_addr s) n false)));
  if negb (ret =? s64 n) then throw Eruntime else
  in_host (pwrite_loop pwrite (S (Z.to_nat n)) n (u64 (Z.shiftl (li_slba lit) (li_shift lit))) n
    NVME_SC_SUCCESS).

(** The loop of [receive_write_zeroes]. [zerobuf] is not used in it. *)
Fixpoint zero_chunks (fuel : nat) (lbas slba nblocks cli : Z) : seff Z :=
  match fuel with
  | O => throw Efuel
  | S fuel =>
    if negb (cli <? nblocks) then mret NVME_SC_SUCCESS else
    let this_nblocks := Z.min (nblocks - cli) wz_nblocks in
    let size := Z.shiftl this_nblocks lbas in
    ret ← invoke (λ en, s ← get; e_in_buf (on_buf (u64 (Z.shiftl this_nblocks (g_lba_shift en)))
            (crypt_buffer_inplace lib_encrypt lib_decrypt is_outside en (u64 (slba + cli))
               (buf_addr s) this_nblocks false)));
    if negb (ret =? size) then throw Eruntime else
    r ← in_host (pwrite_loop pwrite (S (Z.to_nat size)) size
          (u64 (Z.shiftl (u64 (slba + cli)) lbas)) size sc_lba_range);
    if negb (r =? NVME_SC_SUCCESS) then mret r
    else zero_chunks fuel lbas slba nblocks (cli + this_nblocks)
  end.

Definition receive_write_zeroes (cmd : nvme_command) : seff Z :=
  lbas ← in_host (e_in_nv (ns_lba_shift iov (nsid cmd)));
  _ ← in_host (modify (λ s, if Z.of_nat (length (zerobuf s)) <? Z.shiftl 1 lbas
                            then set_zerobuf (grow (zerobuf s) (Z.shiftl 1 lbas)) s else s));
  _ ← in_host (modify (λ s, if Z.of_nat (length (encbuf s)) <? Z.shiftl wz_nblocks lbas
                            then set_encbuf (grow (encbuf s) (Z.shiftl wz_nblocks lbas)) s else s));
  zero_chunks (S (Z.to_nat (nblocks_of cmd))) lbas (slba cmd) (nblocks_of cmd) 0.

Definition receive (cmd : nvme_command) : seff Z :=
  catch
    (if opcode cmd =? nvme_cmd_read then
       if negb (is_sgl cmd) then receive_read cmd else mret sc_invalid_field
     else if opcode cmd =? nvme_cmd_write then
       if negb (is_sgl cmd) then receive_write_copyback cmd else mret sc_invalid_field
     else if opcode cmd =? nvme_cmd_write_zeroes then receive_write_zeroes cmd
     else mret sc_internal)
    receive_handler.

(** The worker of encryptor-sgx.cpp: one queue. *)
Definition encryptor_sgx_poll := poll_sync (λ _ : Z, receive).
End sync.

(** ** nvme_encryptor_sgx_aio *)

Section async.
(** The enclave, with its key; whether the SDK enters it in a state; the bytes
    of a fresh allocation and the address of a ticket's memory. *)
Context (en : enclave) (enters : aio → bool).
Context (room : list io_uring_sqe → bool).
Context (fresh : Z → list Z) (mem_addr : Z → Z).

Definition invoke_aio (call : aeff Z) : aeff Z := λ s,
  if negb (enters s) then (Throw Esystem, s) else
  match call s with
  | (Ret r, s') => (Ret r, s')
  | (Throw e, s') => (Throw (left_by e), s')
  end.

Definition receive_read_aio (cmd : nvme_command) : aeff Z :=
  lit ← in_nv (lba_begin ioc iov cmd);
  ret ← invoke_aio (in_vm
          (crypt_command_inplace lib_encrypt lib_decrypt is_outside en pvm cmd true));
  if negb (ret =? s64 (li_nbytes lit)) then throw Eruntime else mret NVME_SC_SUCCESS.

(** What the enclave returns is not looked at. *)
Definition submit_write_async (cmd : nvme_command) (tag : Z) : aeff unit :=
  lit ← in_nv (lba_begin ioc iov cmd);
  let n := li_nbytes lit in
  p ← new_ticket (Ticket tag [] n (fresh n));
  s ← get;
  _ ← invoke_aio (in_mem p (on_buf n
        (crypt_command lib_encrypt lib_decrypt is_outside en pvm (a_vm s) cmd (mem_addr p) n false)));
  in_sq (queue_write room p (PBuf p 0) n (-1) true 0 (u64 (Z.shiftl (li_slba lit) (li_shift lit)))).

Definition submit_write_zeroes_async (cmd : nvme_command) (tag : Z) : aeff unit :=
  lbas ← in_nv (ns_lba_shift iov (nsid cmd));
  let nbytes := u64 (Z.shiftl (nblocks_of cmd) lbas) in
  p ← new_ticket (Ticket tag [] nbytes (fresh nbytes));
  _ ← upd_ticket p (set_mem (replicate (Z.to_nat nbytes) 0));
  _ ← invoke_aio (in_mem p (on_buf (u64 (Z.shiftl (nblocks_of cmd) (g_lba_shift en)))
        (crypt_buffer_inplace lib_encrypt lib_decrypt is_outside en (slba cmd) (mem_addr p)
           (nblocks_of cmd) false)));
  in_sq (queue_write room p (PBuf p 0) nbytes (-1) true 0 (u64 (Z.shiftl (slba cmd) lbas))).

Definition submit_flush_async (cmd : nvme_command) (tag : Z) : aeff unit :=
  p ← new_ticket (Ticket tag [] 0 []);
  in_sq (queue_fsync room p true 0 IORING_FSYNC_DATASYNC).

Definition submit_async (cmd : nvme_command) (tag : Z) : aeff (option Z) :=
  if opcode cmd =? nvme_cmd_read then
    st ← receive_read_aio cmd; mret (Some st)
  else if (opcode cmd =? nvme_cmd_write) && negb (is_sgl cmd) then
    _ ← submit_write_async cmd tag; mret None
  else if opcode cmd =? nvme_cmd_write_zeroes then
    _ ← submit_write_zeroes_async cmd tag; mret None
  else if opcode cmd =? nvme_cmd_flush then
    _ ← submit_flush_async cmd tag; mret None
  else mret (Some sc_invalid_opcode).

#[export] Instance sgx_controller : Controller := {
  submit _ cmd tag := submit_async cmd tag;
}.

(** The body of the loop of encryptor-sgx-aio.cpp, which does not print failed
    completions. *)
Definition encryptor_sgx_aio_pass (sqids : list Z) : eff worker bool := aio_pass false sqids true.
End async.

End sgx.

(** ** Lemmas *)

Lemma in_host_Ret {S A} (m : eff S A) (x : A) s st : m (h_st s) = (Ret x, st) →
  in_host m s = (Ret x, Host st (h_en s) (h_left s)).
Proof. intros H. unfold in_host, zoom. by rewrite H. Qed.

(** A compliant command in the enclave: the iterator of the controller and the
    blocks it visits. *)
Lemma transfer_en ioc iov nv vm cmd ns pages : transfer_ok nv vm cmd ns pages →
  let it := lba_begin_en cmd (lba_shift ns) in
  lba_begin ioc iov cmd nv = (Ret it, nv) ∧ li_nbytes it = cmd_bytes cmd ns ∧
  prp_ok (li_prp it) ∧ lba_walk (S (Z.to_nat (nblocks_of cmd))) vm it = Ret (cmd_blocks cmd ns pages) ∧
  Z.of_nat (length (cmd_blocks cmd ns pages)) = nblocks_of cmd ∧
  cmd_bytes cmd ns < 2 ^ 63 ∧ (Z.to_nat (nblocks_of cmd) < en_fuel it)%nat.
Proof.
  intros Hok it. pose proof Hok as [Hnsid (mdts & Hid & Hc) Hns Hsh _ _ _ _].
  pose proof (lba_begin_cached ioc iov nv cmd mdts ns Hnsid Hid Hns Hc) as B.
  destruct (transfer_walk ioc iov _ _ _ _ _ Hok) as (it' & B' & _ & _ & E3 & _ & W & Hl & _).
  rewrite B in B'. injection B' as <-.
  pose proof (cmd_bytes_range cmd ns Hsh) as Hn. pose proof (nblocks_range cmd) as Hnb.
  pose proof (L_pos _ Hsh) as HL.
  split_and!; try done.
  - unfold it, lba_begin_en, prp_ok. simpl. split; [apply u64_range|lia].
  - unfold cmd_bytes. nia.
  - unfold en_fuel. change (li_nbytes it) with (u64 (Z.shiftl (nblocks_of cmd) (lba_shift ns))).
    simpl in E3. rewrite E3. assert (1 <= page_blocks (li_shift it)) by (unfold page_blocks; lia).
    apply Nat.lt_succ_r, Z2Nat.inj_le; [lia|nia|].
    transitivity (cmd_bytes cmd ns * 1); [unfold cmd_bytes; nia|]. apply Z.mul_le_mono_nonneg_l; lia.
Qed.

(** A list as bytes of memory and back. *)
Lemma load_bytes_app m off j k :
  load_bytes m off (j + k) = load_bytes m off j ++ load_bytes m (off + Z.of_nat j) k.
Proof.
  revert off. induction j as [|j IH]; intros off; simpl; [by rewrite Z.add_0_r|].
  rewrite IH. do 3 f_equal. lia.
Qed.

Lemma load_store_slice m (b : list Z) (o k : nat) : (o + k <= length b)%nat →
  load_bytes (store_bytes m 0 b) (Z.of_nat o) k = take k (drop o b).
Proof.
  intros H. set (m' := store_bytes m 0 b).
  assert (load_bytes m' 0 (o + (k + (length b - o - k))) = b) as E.
  { replace (o + (k + (length b - o - k)))%nat with (length b) by lia. apply load_store_bytes. }
  rewrite !load_bytes_app, Z.add_0_l in E. rewrite <- E at 1.
  rewrite drop_app_length', take_app_length'; by rewrite ?length_load_bytes.
Qed.

Lemma load_store_list (b l : list Z) : (length l <= length b)%nat →
  load_bytes (store_bytes (store_bytes ∅ 0 b) 0 l) 0 (length b) = l ++ drop (length l) b.
Proof.
  intros Hl. replace (length b) with (length l + (length b - length l))%nat at 1 by lia.
  rewrite load_bytes_app, load_store_bytes, load_store_bytes_out by lia. f_equal.
  rewrite Z.add_0_l, load_store_slice by lia. apply take_ge. rewrite length_drop. lia.
Qed.

Lemma on_buf_Ret {A} size (m : eff arr A) (x : A) b l : size <= Z.of_nat (length b) →
  (length l <= length b)%nat → m (store_bytes ∅ 0 b) = (Ret x, store_bytes (store_bytes ∅ 0 b) 0 l) →
  on_buf size m b = (Ret x, l ++ drop (length l) b).
Proof.
  intros Hs Hl Hm. unfold on_buf. replace (Z.of_nat (length b) <? size) with false by lia.
  rewrite Hm. by rewrite load_store_list.
Qed.

(** Growing a buffer that is large enough changes nothing. *)
Lemma grow_encbuf_eq n s :
  (if Z.of_nat (length (encbuf s)) <? n then set_encbuf (grow (encbuf s) n) s else s) =
    set_encbuf (grow (encbuf s) n) s.
Proof.
  destruct (Z.ltb_spec (Z.of_nat (length (encbuf s))) n); [done|].
  unfold grow. replace (Z.to_nat n - length (encbuf s))%nat with 0%nat by lia.
  simpl. rewrite app_nil_r. by destruct s.
Qed.

(** ** Properties *)

(** The enclave has the key [e] is made from, for blocks of the namespace, and
    can be entered; guest memory is outside of it. *)
Record ready (is_outside : Z → Z → bool) (pvm : Z)
    (enters : list bool → bool) (s : host encryptor) (e : engine_t) (ns : nvme_id_ns) : Prop := {
  rd_engine : engine (h_en s) = Some e;
  rd_shift : g_lba_shift (h_en s) = lba_shift ns;
  rd_enters : enters (h_left s) = true;
  rd_vm : is_outside pvm (vm_size (e_vm (h_st s))) = true;
}.

Section exact.
Context (lib_encrypt lib_decrypt : list Z → list Z → list Z → option (list Z)).
Context (Hlib : xts_lib lib_encrypt lib_decrypt).
Context (is_outside : Z → Z → bool) (pvm : Z) (encbuf_addr : Z → Z) (enters : list bool → bool).
Context (ioc : Z + Z) (iov : Z → Z + nvme_id_ns).

Abbreviation E := (engine_cipher lib_encrypt lib_decrypt).
Abbreviation ready := (ready is_outside pvm enters).

Lemma invoke_Ret {S} (call : enclave → eff S Z) s r x : enters (h_left s) = true →
  call (h_en s) (h_st s) = (Ret r, x) →
  invoke enters call s = (Ret r, Host x (h_en s) (h_left s ++ [false])).
Proof using. intros He Hc. unfold invoke. by rewrite He, Hc. Qed.

(** The encryptions of a command's blocks are as long as its data. *)
Lemma length_ciphers e vm sl cmd ns pages cs : 0 <= lba_shift ns <= 12 →
  Forall2 (λ x c, @block_cipher _ E e vm sl x = Some c) (cmd_blocks cmd ns pages) cs →
  Z.of_nat (length (concat cs)) = Z.of_nat (length cs) * 2 ^ lba_shift ns.
Proof using Hlib.
  intros Hsh F. pose proof (L_pos _ Hsh) as HL.
  assert (Forall (λ x : (Z * Z) * Z, x.1.2 = 2 ^ lba_shift ns) (cmd_blocks cmd ns pages)) as Hs.
  { unfold cmd_blocks. generalize 0. induction (segments pages (cmd_bytes cmd ns)) as [|sg l IH];
      intros k; simpl; [constructor|]. apply Forall_app. split; [|apply IH].
    unfold seg_blocks. apply Forall_fmap, Forall_forall. done. }
  induction F as [|x c l cs Hx _ IH]; [done|]. apply Forall_cons in Hs as [Hx1 Hs].
  simpl. rewrite length_app, Nat2Z.inj_add, IH by done.
  pose proof (engine_laws _ _ Hlib e). unfold block_cipher in Hx. apply encrypt_length in Hx.
  rewrite Hx, length_view_bytes. lia.
Qed.

(** The call of a write. *)
Lemma write_call (s : host encryptor) e ns cmd pages b : ready s e ns →
  transfer_ok (e_nv (h_st s)) (e_vm (h_st s)) cmd ns pages →
  @takes_blocks _ E e (lba_shift ns) → cmd_bytes cmd ns <= Z.of_nat (length b) →
  let n := cmd_bytes cmd ns in
  is_outside (encbuf_addr (Z.of_nat (length b))) n = true →
  ∃ cs, on_buf n (crypt_command lib_encrypt lib_decrypt is_outside (h_en s) pvm (e_vm (h_st s)) cmd
      (encbuf_addr (Z.of_nat (length b))) n false) b = (Ret n, concat cs ++ drop (length (concat cs)) b) ∧
    length (concat cs) = Z.to_nat n ∧
    Forall2 (λ x c, @block_cipher _ E e (e_vm (h_st s)) (slba cmd) x = Some c)
      (cmd_blocks cmd ns pages) cs.
Proof using Hlib.
  intros [He Hg _ Hv] Hok Ht Hb n Hbuf. pose proof (to_shift _ _ _ _ _ Hok) as Hsh.
  destruct (transfer_en (inl 0) (λ _, inl 0) _ _ _ _ _ Hok) as (_ & En & Hpo & W & Hl & _ & Hf).
  pose proof (L_pos _ Hsh) as HL. pose proof (nblocks_range cmd) as Hnb.
  destruct (command_out_spec _ _ Hlib e (lba_shift ns) (e_vm (h_st s)) n _ Hsh Ht
    (lba_begin_en cmd (lba_shift ns)) _ (en_fuel (lba_begin_en cmd (lba_shift ns))) 0
    (store_bytes ∅ 0 b) W Hpo eq_refl) as (cs & R & F); [lia|unfold n, cmd_bytes; lia|].
  exists cs. assert (length (concat cs) = Z.to_nat n) as Hcl.
  { assert (Z.of_nat (length (concat cs)) = Z.of_nat (length cs) * 2 ^ lba_shift ns) as Hcs.
    { by eapply length_ciphers. }
    apply Forall2_length in F. unfold n, cmd_bytes. rewrite <- F, Hl in Hcs. lia. }
  split_and!; [|done|exact F]. apply on_buf_Ret; [done|lia|].
  unfold crypt_command. rewrite Hg. replace (lba_shift ns <? 0) with false by lia.
  rewrite Hv, Hbuf. cbn [negb orb]. unfold with_engine, catch. rewrite He, R, Hl. done.
Qed.

(** The loop around [pwrite] over the first [size] bytes of the buffer. *)
Lemma write_buffer pwrite size base eof (s : host encryptor) : progressing pwrite →
  0 <= base → base + size <= 2 ^ 64 → 0 <= size <= Z.of_nat (length (encbuf (h_st s))) →
  ∃ calls, in_host (pwrite_loop pwrite (S (Z.to_nat size)) size base size eof) s =
      (Ret NVME_SC_SUCCESS, Host (set_calls (e_calls (h_st s) ++ calls) (h_st s)) (h_en s) (h_left s)) ∧
    ∀ d, dev_after d calls = store_bytes d base (take (Z.to_nat size) (encbuf (h_st s))).
Proof using.
  intros Hp Hb Hbs Hsz.
  destruct (pwrite_loop_spec pwrite size base eof (S (Z.to_nat size)) Hp Hb Hbs size (h_st s))
    as (calls & P & D); [lia..|]. exists calls. split; [by apply in_host_Ret|].
  intros d. by rewrite D, Z.sub_diag, Z.add_0_r, drop_0.
Qed.
End exact.

(** The call of a write of zeroes: up to 512 blocks of the buffer. *)
Lemma zeroes_call lib_encrypt lib_decrypt is_outside pvm encbuf_addr enters (s : host encryptor) e ns
    first m b :
  xts_lib lib_encrypt lib_decrypt → ready is_outside pvm enters s e ns →
  0 <= lba_shift ns <= 12 → 0 < m <= wz_nblocks →
  @takes_blocks _ (engine_cipher lib_encrypt lib_decrypt) e (lba_shift ns) →
  let L := 2 ^ lba_shift ns in
  m * L <= Z.of_nat (length b) → is_outside (encbuf_addr (Z.of_nat (length b))) (m * L) = true →
  ∃ cs, on_buf (u64 (Z.shiftl m (g_lba_shift (h_en s))))
      (crypt_buffer_inplace lib_encrypt lib_decrypt is_outside (h_en s) first
         (encbuf_addr (Z.of_nat (length b))) m false) b =
      (Ret (m * L), concat cs ++ drop (length (concat cs)) b) ∧
    Z.of_nat (length cs) = m ∧ Z.of_nat (length (concat cs)) = m * L ∧
    ∀ k c, cs !! k = Some c →
      lib_encrypt (en_key e) (take (Z.to_nat L) (drop (Z.to_nat (Z.of_nat k * L)) b))
        (make_tweak (u64 (first + Z.of_nat k))) = Some c.
Proof.
  intros Hlib [He Hg _ _] Hsh Hm Ht L Hb Hbuf. pose proof (L_pos _ Hsh) as HL. fold L in HL.
  unfold wz_nblocks in Hm. assert (m * L <= 512 * 4096) by nia.
  destruct (buffer_blocks_spec _ _ Hlib e (lba_shift ns) (m * L) first (Z.to_nat m) Hsh
    ltac:(fold L; lia) Ht 0 0 (store_bytes ∅ 0 b)) as (cs & R & R1 & R2 & R3);
    [lia|fold L; lia|]. fold L in R, R2, R3. rewrite Z2Nat.id in R, R2 by lia.
  exists cs. split_and!; [|lia|done|].
  - rewrite Hg, Z.shiftl_mul_pow2, u64_small by (fold L; lia). fold L.
    apply on_buf_Ret; [done|lia|]. unfold crypt_buffer_inplace. rewrite Hg.
    replace (lba_shift ns <? 0) with false by lia.
    rewrite Z.shiftl_mul_pow2, u64_small by (fold L; lia). fold L. rewrite Hbuf. cbn [negb].
    unfold with_engine, catch. rewrite He, R. done.
  - intros k c Hk. pose proof (R3 k c Hk) as Hc. apply lookup_lt_Some in Hk.
    replace (first + 0 + Z.of_nat k) with (first + Z.of_nat k) in Hc by lia.
    rewrite Z.add_0_l in Hc. replace (Z.of_nat k * L) with (Z.of_nat (Z.to_nat (Z.of_nat k * L))) in Hc by lia.
    rewrite load_store_slice in Hc by nia.
    unfold crypt in Hc. simpl in Hc. unfold ipp_crypt in Hc. by case_match.
Qed.

(** C33. With the enclave the device gets the same as without: when the
    enclave has a key for blocks of the namespace's size, a write is answered
    with "success", and the calls together store the encryption of block [k]
    of the guest's data under number [slba + k], one block after the other at
    the byte offset of the first, and nothing else; guest memory and the
    enclave are not changed, and the ciphertext stays in the buffer. *)
Theorem sgx_write_exact lib_encrypt lib_decrypt is_outside pvm encbuf_addr enters ioc iov pwrite
    s0 cmd ns pages e :
  let off := slba cmd * 2 ^ lba_shift ns in
  let n := cmd_bytes cmd ns in
  xts_lib lib_encrypt lib_decrypt → ready is_outside pvm enters s0 e ns →
  transfer_ok (e_nv (h_st s0)) (e_vm (h_st s0)) cmd ns pages →
  opcode cmd = nvme_cmd_write → is_sgl cmd = false →
  @takes_blocks _ (engine_cipher lib_encrypt lib_decrypt) e (lba_shift ns) → progressing pwrite →
  0 <= slba cmd → off + n <= 2 ^ 64 →
  is_outside (encbuf_addr (Z.of_nat (length (grow (encbuf (h_st s0)) n)))) n = true →
  ∃ s1 cs calls,
    receive lib_encrypt lib_decrypt is_outside ioc iov pvm enters encbuf_addr pwrite cmd s0 =
      (Ret NVME_SC_SUCCESS, s1) ∧
    e_vm (h_st s1) = e_vm (h_st s0) ∧ h_en s1 = h_en s0 ∧
    e_calls (h_st s1) = e_calls (h_st s0) ++ calls ∧
    Forall2 (λ x c, @block_cipher _ (engine_cipher lib_encrypt lib_decrypt) e (e_vm (h_st s0))
      (slba cmd) x = Some c) (cmd_blocks cmd ns pages) cs ∧
    (∀ d, dev_after d calls = store_bytes d off (concat cs)) ∧
    take (Z.to_nat n) (encbuf (h_st s1)) = concat cs.
Proof.
  intros off n Hlib Hr Hok Hop Hsgl Ht Hp Hs Hoff Hbuf. pose proof (to_shift _ _ _ _ _ Hok) as Hsh.
  pose proof (L_pos _ Hsh) as HL. pose proof (cmd_bytes_range cmd ns Hsh) as Hn.
  destruct (transfer_en ioc iov _ _ _ _ _ Hok) as (B & En & _ & _ & _ & Hn63 & _).
  destruct s0 as [st en lf]. cbn [h_st h_en h_left] in *. set (b := grow (encbuf st) n) in *.
  assert (n <= Z.of_nat (length b)) as Hb by apply length_grow.
  destruct (write_call _ _ Hlib is_outside pvm encbuf_addr enters
    (Host (set_encbuf b st) en lf) e ns cmd pages b) as (cs & C & Hcl & F);
    [by destruct Hr|done..|].
  set (b1 := concat cs ++ drop (length (concat cs)) b) in *.
  assert (take (Z.to_nat n) b1 = concat cs) as Hb1 by (unfold b1, n; by rewrite take_app_length').
  assert (length b1 = length b) as Hb1l.
  { unfold b1. rewrite length_app, length_drop. unfold n in Hb. lia. }
  destruct (write_buffer pwrite n off NVME_SC_SUCCESS
    (Host (set_encbuf b1 (set_encbuf b st)) en (lf ++ [false])) Hp) as (calls & P & D);
    [nia|done|simpl; lia|].
  cbn [h_st h_en h_left e_calls set_encbuf encbuf] in P, D. exists (Host (set_calls (e_calls st ++ calls) (set_encbuf b1 (set_encbuf b st)))
    en (lf ++ [false])), cs, calls. split_and!; try done.
  - unfold receive, catch. rewrite Hop, Hsgl, Z.eqb_refl.
    change (nvme_cmd_write =? nvme_cmd_read) with false. cbn [negb]. unfold receive_write_copyback.
    step (in_host_Ret (e_in_nv (lba_begin ioc iov cmd)) _ (Host st en lf) st (e_in_nv_Ret _ _ _ B)).
    rewrite En. fold n.
    rewrite (bind_Ret (in_host (modify _)) _ _ tt (Host (set_encbuf b st) en lf))
      by (unfold in_host, zoom, modify; cbn [h_st]; by rewrite grow_encbuf_eq).
    erewrite bind_Ret; [|apply (invoke_Ret enters _ _ n (set_encbuf b1 (set_encbuf b st)));
      [apply Hr|]].
    2:{ unfold e_in_buf, zoom, mbind, eff_bind, get, buf_addr.
        cbn [encbuf set_encbuf e_vm h_en h_st] in *. fold n in C. by rewrite C. }
    rewrite s64_small, Z.eqb_refl by lia. cbn [negb].
    change (li_slba (lba_begin_en cmd (lba_shift ns))) with (slba cmd).
    change (li_shift (lba_begin_en cmd (lba_shift ns))) with (lba_shift ns).
    rewrite Z.shiftl_mul_pow2 by lia.
    change (slba cmd * 2 ^ lba_shift ns) with off. rewrite (u64_small off) by lia.
    cbn [h_en h_left]. by rewrite P.
  - intros d. by rewrite D, Hb1.
Qed.

(** A read gives the guest the plaintext, as without the enclave. *)
Theorem sgx_read_exact lib_encrypt lib_decrypt is_outside pvm encbuf_addr enters ioc iov pwrite
    s0 cmd ns pages ps e :
  let l := cmd_blocks cmd ns pages in
  xts_lib lib_encrypt lib_decrypt → ready is_outside pvm enters s0 e ns →
  transfer_ok (e_nv (h_st s0)) (e_vm (h_st s0)) cmd ns pages →
  opcode cmd = nvme_cmd_read → is_sgl cmd = false →
  StronglySorted (λ x y : (Z * Z) * Z, apart x.1 y.1) l →
  (∀ w, reads_word (e_vm (h_st s0)) (PrpIter (CmdList (prp1 cmd) (prp2 cmd)) 0 (cmd_bytes cmd ns)) w →
    Forall (λ x : (Z * Z) * Z, apart x.1 (w, 8)) l) →
  Forall2 (@holds_cipher _ (engine_cipher lib_encrypt lib_decrypt) e (e_vm (h_st s0)) (slba cmd)) l ps →
  ∃ vm1, receive lib_encrypt lib_decrypt is_outside ioc iov pvm enters encbuf_addr pwrite cmd s0 =
      (Ret NVME_SC_SUCCESS, Host (set_evm vm1 (h_st s0)) (h_en s0) (h_left s0 ++ [false])) ∧
    Forall2 (λ x p, view_bytes vm1 x.1 = p) l ps ∧
    ∀ i, Forall (λ x : (Z * Z) * Z, apart x.1 (i, 1)) l →
      aget (vm_bytes vm1) i = aget (vm_bytes (e_vm (h_st s0))) i.
Proof.
  intros l Hlib [He Hg Hent Hv] Hok Hop Hsgl Hap Hw Hc. pose proof (to_shift _ _ _ _ _ Hok) as Hsh.
  destruct (transfer_en ioc iov _ _ _ _ _ Hok) as (B & En & Hpo & W & Hl & H63 & Hf).
  set (it := lba_begin_en cmd (lba_shift ns)) in *. pose proof (engine_laws _ _ Hlib e).
  assert (li_prp it = PrpIter (CmdList (prp1 cmd) (prp2 cmd)) 0 (cmd_bytes cmd ns)) as Ep
    by (rewrite <- En; reflexivity).
  rewrite <- Ep in Hw.
  destruct (read_turns_spec (engine := e) (lba_shift ns) (e_vm (h_st s0)) _ Hsh it l ps _ W eq_refl eq_refl
    (λ _ _, eq_refl) Hw Hap Hc) as (vm1 & R & _ & R2 & R3).
  exists vm1. split_and!; [|done|done]. destruct s0 as [st en lf]. cbn [h_st h_en h_left] in *.
  pose proof (read_turns_en _ _ e _ it _ _ (en_fuel it) 0 R Hpo ltac:(simpl; lia)
    ltac:(fold l in Hl; lia)) as C.
  unfold receive, catch. rewrite Hop, Hsgl, Z.eqb_refl. cbn [negb]. unfold receive_read.
  step (in_host_Ret (e_in_nv (lba_begin ioc iov cmd)) _ (Host st en lf) st (e_in_nv_Ret _ _ _ B)).
  assert (0 + Z.of_nat (length l) * 2 ^ li_shift it = cmd_bytes cmd ns) as En' by (unfold l; rewrite Hl; done).
  erewrite bind_Ret; [|apply (invoke_Ret enters _ _ (cmd_bytes cmd ns) (set_evm vm1 st)); [done|]].
  - pose proof (cmd_bytes_range cmd ns Hsh). by rewrite En, s64_small, Z.eqb_refl by lia.
  - unfold e_in_vm, zoom, crypt_command_inplace. cbn [h_en h_st]. rewrite Hg.
    replace (lba_shift ns <? 0) with false by lia. unfold mbind, eff_bind, get. rewrite Hv. cbn [negb].
    unfold with_engine, catch. rewrite He. fold it. by rewrite C, En'.
Qed.

(** *** Writes of zeroes *)

(** A block of a buffer that begins with blocks of the same length. *)
Lemma block_of_concat (cs : list (list Z)) (L : nat) c k rest : Forall (λ x, length x = L) cs →
  cs !! k = Some c → take L (drop (k * L) (concat cs ++ rest)) = c.
Proof.
  intros Hf. revert k. induction Hf as [|x cs Hx Hf IH]; intros [|k] Hk; try done; simpl.
  - injection Hk as ->. by rewrite drop_0, <- app_assoc, take_app_length'.
  - rewrite <- app_assoc, <- drop_drop, drop_app_length' by done. by apply IH.
Qed.

Section zeroes.
Context (lib_encrypt lib_decrypt : list Z → list Z → list Z → option (list Z)).
Context (Hlib : xts_lib lib_encrypt lib_decrypt).
Context (is_outside : Z → Z → bool) (pvm : Z) (encbuf_addr : Z → Z) (enters : list bool → bool).
Context (pwrite : list pwrite_call → Z → list Z → Z) (Hp : progressing pwrite).
Context (e : engine_t) (ns : nvme_id_ns) (en : enclave) (sl nb : Z).
Abbreviation L := (2 ^ lba_shift ns).
Context (Hsh : 0 <= lba_shift ns <= 12) (Hen : engine en = Some e) (Hg : g_lba_shift en = lba_shift ns).
Context (Ht : @takes_blocks _ (engine_cipher lib_encrypt lib_decrypt) e (lba_shift ns)).
Context (Hsl : 0 <= sl) (Hend : (sl + nb) * L <= 2 ^ 64) (Hnb : 0 < nb < 2 ^ 32).

(** What is encrypted as block [k] of the blocks [cs]: what the buffer has at
    its place, or the ciphertext that was stored 512 blocks before. *)
Definition zero_source (buf : list Z) (cs : list (list Z)) (k : nat) : option (list Z) :=
  if (k <? Z.to_nat wz_nblocks)%nat
  then Some (take (Z.to_nat L) (drop (Z.to_nat (Z.of_nat k * L)) buf))
  else cs !! (k - Z.to_nat wz_nblocks)%nat.

Definition stale_blocks (buf : list Z) (first : Z) (cs : list (list Z)) : Prop :=
  ∀ k c, cs !! k = Some c → ∃ src, zero_source buf cs k = Some src ∧
    lib_encrypt (en_key e) src (make_tweak (u64 (first + Z.of_nat k))) = Some c.

(** One chunk: [m] blocks of the buffer, which then holds their ciphertext. *)
Lemma zero_chunk st lf cli m : ready is_outside pvm enters (Host st en lf) e ns →
  wz_nblocks * L <= Z.of_nat (length (encbuf st)) →
  0 < m <= wz_nblocks → 0 <= cli → cli + m <= nb →
  is_outside (encbuf_addr (Z.of_nat (length (encbuf st)))) (m * L) = true →
  ∃ cs calls, let b1 := concat cs ++ drop (length (concat cs)) (encbuf st) in
    invoke enters (λ en, s ← get; e_in_buf (on_buf (u64 (Z.shiftl m (g_lba_shift en)))
      (crypt_buffer_inplace lib_encrypt lib_decrypt is_outside en (u64 (sl + cli))
         (buf_addr encbuf_addr s) m false))) (Host st en lf) =
      (Ret (m * L), Host (set_encbuf b1 st) en (lf ++ [false])) ∧
    in_host (pwrite_loop pwrite (S (Z.to_nat (m * L))) (m * L) (u64 (u64 (sl + cli) * L)) (m * L) sc_lba_range)
      (Host (set_encbuf b1 st) en (lf ++ [false])) =
      (Ret NVME_SC_SUCCESS, Host (set_calls (e_calls st ++ calls) (set_encbuf b1 st)) en (lf ++ [false])) ∧
    Z.of_nat (length cs) = m ∧ Forall (λ c, length c = Z.to_nat L) cs ∧ length b1 = length (encbuf st) ∧
    stale_blocks (encbuf st) (sl + cli) cs ∧
    ∀ d, dev_after d calls = store_bytes d ((sl + cli) * L) (concat cs).
Proof using Hlib Hp Hsh Hen Hg Ht Hsl Hend Hnb.
  intros Hr Hb Hm Hcli Hle Hbuf. pose proof (L_pos _ Hsh) as HL.
  assert (u64 (sl + cli) = sl + cli) as Eu by (apply u64_small; nia).
  assert (wz_nblocks * L <= 512 * 4096) by (unfold wz_nblocks; nia).
  destruct (zeroes_call _ _ is_outside pvm encbuf_addr enters (Host st en lf) e ns (sl + cli) m (encbuf st)
    Hlib Hr Hsh Hm Ht) as (cs & C & C1 & C2 & C3); [nia|done|].
  cbn [h_en] in C. set (b1 := concat cs ++ drop (length (concat cs)) (encbuf st)) in *.
  assert (m * L <= Z.of_nat (length (encbuf st))) as Hml by (unfold wz_nblocks in *; nia).
  assert (length b1 = length (encbuf st)) as Hb1 by (unfold b1; rewrite length_app, length_drop; lia).
  destruct (write_buffer pwrite (m * L) ((sl + cli) * L) sc_lba_range
    (Host (set_encbuf b1 st) en (lf ++ [false])) Hp) as (calls & P & D); [nia|nia|simpl; nia|].
  exists cs, calls. cbv zeta. fold b1. split_and!; [|rewrite Eu, (u64_small (_ * _)) by nia; exact P|done| |done| |].
  - apply (invoke_Ret enters _ (Host st en lf) (m * L) (set_encbuf b1 st)); [apply Hr|].
    unfold e_in_buf, zoom, mbind, eff_bind, get, buf_addr. cbn [h_en h_st]. rewrite Eu. by rewrite C.
  - apply Forall_lookup. intros k c Hk. pose proof (C3 k c Hk) as Hc.
    apply (xl_encrypt _ _ Hlib) in Hc as [Hc _]. rewrite Hc, length_take, length_drop.
    apply lookup_lt_Some in Hk. nia.
  - intros k c Hk. exists (take (Z.to_nat L) (drop (Z.to_nat (Z.of_nat k * L)) (encbuf st))).
    split; [|by apply C3]. unfold zero_source. apply lookup_lt_Some in Hk.
    by rewrite (proj2 (Nat.ltb_lt _ _)) by (unfold wz_nblocks in *; lia).
  - intros d. rewrite D. cbn [encbuf set_encbuf h_st]. unfold b1. by rewrite take_app_length' by lia.
Qed.

(** The blocks of a full chunk and those of the rest of the loop. *)
Lemma stale_app buf first cs1 cs2 : (cs2 ≠ [] → length cs1 = Z.to_nat wz_nblocks) →
  Forall (λ c, length c = Z.to_nat L) cs1 → stale_blocks buf first cs1 →
  stale_blocks (concat cs1 ++ drop (length (concat cs1)) buf) (first + Z.of_nat (length cs1)) cs2 →
  stale_blocks buf first (cs1 ++ cs2).
Proof using Hsh.
  clear Hsl Hend Hnb Ht Hen Hg Hp Hlib. intros Hfull Hl H1 H2 k c Hk. pose proof (L_pos _ Hsh) as HL. apply lookup_app_Some in Hk as [Hk|[Hge Hk]].
  - destruct (H1 k c Hk) as (src & Hs & Hc). exists src. split; [|done]. unfold zero_source in *.
    case_match; [done|]. by apply lookup_app_l_Some.
  - destruct (H2 _ c Hk) as (src & Hs & Hc).
    assert (length cs1 = Z.to_nat wz_nblocks) as E1 by (apply Hfull; by intros ->).
    exists src. split.
    2:{ rewrite <- Hc. do 3 f_equal. lia. }
    unfold zero_source in *. rewrite E1 in Hge, Hs. rewrite (proj2 (Nat.ltb_ge _ _)) by lia.
    destruct (Nat.ltb_spec (k - Z.to_nat wz_nblocks) (Z.to_nat wz_nblocks)) as [Hlt|Hge2].
    + destruct (lookup_lt_is_Some_2 cs1 (k - Z.to_nat wz_nblocks)) as [c1 Hc1]; [lia|].
      rewrite lookup_app_l by lia. rewrite Hc1. rewrite <- Hs. f_equal. symmetry.
      replace (Z.to_nat (Z.of_nat (k - Z.to_nat wz_nblocks) * L)) with
        ((k - Z.to_nat wz_nblocks) * Z.to_nat L)%nat by nia.
      by apply block_of_concat.
    + rewrite lookup_app_r by lia. rewrite E1. exact Hs.
Qed.

Lemma zero_chunks_all fuel : ∀ st lf cli, 0 <= cli <= nb → nb - cli < Z.of_nat fuel →
  wz_nblocks * L <= Z.of_nat (length (encbuf st)) →
  is_outside pvm (vm_size (e_vm st)) = true → (∀ j, enters (lf ++ replicate j false) = true) →
  (∀ m, 0 < m <= Z.min nb wz_nblocks →
     is_outside (encbuf_addr (Z.of_nat (length (encbuf st)))) (m * L) = true) →
  ∃ s1 cs calls,
    zero_chunks lib_encrypt lib_decrypt is_outside enters encbuf_addr pwrite fuel (lba_shift ns) sl nb cli
      (Host st en lf) = (Ret NVME_SC_SUCCESS, s1) ∧
    e_calls (h_st s1) = e_calls st ++ calls ∧ Z.of_nat (length cs) = nb - cli ∧
    stale_blocks (encbuf st) (sl + cli) cs ∧
    ∀ d, dev_after d calls = store_bytes d ((sl + cli) * L) (concat cs).
Proof using Hlib Hp Hsh Hen Hg Ht Hsl Hend Hnb.
  induction fuel as [|fuel IH]; intros st lf cli Hcli Hf Hb Hvm Hent Hbuf; [lia|].
  pose proof (L_pos _ Hsh) as HL. cbn [zero_chunks].
  destruct (Z.ltb_spec cli nb) as [Hlt|Hge]; cbn [negb].
  2:{ exists (Host st en lf), [], []. split_and!; [done|by rewrite app_nil_r|simpl; lia|by intros k c|done]. }
  set (m := Z.min (nb - cli) wz_nblocks). assert (0 < m <= wz_nblocks) as Hm by (unfold m, wz_nblocks; lia).
  destruct (zero_chunk st lf cli m) as (cs1 & calls1 & E1 & E2 & E3 & E4 & E5 & E6 & E7); try done;
    [split; try done; specialize (Hent 0%nat); by rewrite app_nil_r in Hent|lia|lia|apply Hbuf; lia|].
  rewrite !Z.shiftl_mul_pow2 by lia.
  rewrite (bind_Ret _ _ _ _ _ E1), Z.eqb_refl. cbn [negb].
  rewrite (bind_Ret _ _ _ _ _ E2), Z.eqb_refl. cbn [negb].
  set (b1 := concat cs1 ++ drop (length (concat cs1)) (encbuf st)) in *.
  destruct (IH (set_calls (e_calls st ++ calls1) (set_encbuf b1 st)) (lf ++ [false]) (cli + m))
    as (s1 & cs2 & calls2 & F1 & F2 & F3 & F4 & F5); cbn [encbuf set_calls set_encbuf e_vm];
    [lia|lia|by rewrite E5|done| |by rewrite E5|].
  { intros j. rewrite <- app_assoc. apply (Hent (S j)). }
  cbn [encbuf set_calls set_encbuf e_calls] in F2, F4.
  exists s1, (cs1 ++ cs2), (calls1 ++ calls2). split_and!; [exact F1|by rewrite F2, <- app_assoc| | |].
  - rewrite length_app. lia.
  - apply stale_app; [|done|done|].
    + intros Hne. assert (0 < Z.of_nat (length cs2)) by (destruct cs2; [done|simpl; lia]).
      unfold m, wz_nblocks in *. lia.
    + by replace (sl + cli + Z.of_nat (length cs1)) with (sl + (cli + m)) by lia.
  - intros d. rewrite dev_after_app, E7, F5, concat_app, store_bytes_app. f_equal.
    assert (Z.of_nat (length (concat cs1)) = m * L) as ->; [|lia].
    clear -E3 E4 HL. rewrite <- E3. clear E3. induction E4 as [|x l Hx _ IH']; [done|].
    cbn [concat length]. rewrite length_app. lia.
Qed.
End zeroes.

(** C34. A write of zeroes with the enclave does not write zeroes: it encrypts
    what an earlier command left in the buffer. Of the blocks of a command the
    calls together store as block [k], for [k] below 512, the encryption under
    number [slba + k] of the [k]-th block that was in the buffer; and for
    every later [k], as the buffer is encrypted in place chunk after chunk,
    the encryption under number [slba + k] of the ciphertext stored as block
    [k - 512]. The answer is "success". *)
Theorem sgx_write_zeroes_stale lib_encrypt lib_decrypt is_outside pvm encbuf_addr enters ioc iov pwrite
    s0 cmd ns e :
  let L := 2 ^ lba_shift ns in
  let off := slba cmd * L in
  let buf := grow (encbuf (h_st s0)) (wz_nblocks * L) in
  xts_lib lib_encrypt lib_decrypt → ready is_outside pvm enters s0 e ns →
  (∀ j, enters (h_left s0 ++ replicate j false) = true) →
  0 < nsid cmd < MAX_VIRTUAL_NAMESPACES → nv_idns (e_nv (h_st s0)) !! nsid cmd = Some ns →
  0 <= lba_shift ns <= 12 → opcode cmd = nvme_cmd_write_zeroes →
  @takes_blocks _ (engine_cipher lib_encrypt lib_decrypt) e (lba_shift ns) → progressing pwrite →
  0 <= slba cmd → off + cmd_bytes cmd ns <= 2 ^ 64 →
  (∀ m, 0 < m <= Z.min (nblocks_of cmd) wz_nblocks →
     is_outside (encbuf_addr (Z.of_nat (length buf))) (m * L) = true) →
  ∃ s1 cs calls,
    receive lib_encrypt lib_decrypt is_outside ioc iov pvm enters encbuf_addr pwrite cmd s0 =
      (Ret NVME_SC_SUCCESS, s1) ∧
    e_calls (h_st s1) = e_calls (h_st s0) ++ calls ∧ Z.of_nat (length cs) = nblocks_of cmd ∧
    (∀ k c, cs !! k = Some c → ∃ src,
      (if (k <? 512)%nat then Some (take (Z.to_nat L) (drop (Z.to_nat (Z.of_nat k * L)) buf))
       else cs !! (k - 512)%nat) = Some src ∧
      lib_encrypt (en_key e) src (make_tweak (u64 (slba cmd + Z.of_nat k))) = Some c) ∧
    ∀ d, dev_after d calls = store_bytes d off (concat cs).
Proof.
  intros L off buf Hlib Hr Hent Hn Hns Hsh Hop Ht Hp Hs Hoff Hbuf.
  pose proof (L_pos _ Hsh) as HL. fold L in HL.
  pose proof (nblocks_range cmd) as Hnb. unfold cmd_bytes in *. fold L in Hoff.
  set (nb := nblocks_of cmd) in *. destruct s0 as [st en lf]. cbn [h_st h_en h_left] in *.
  set (st1 := if Z.of_nat (length (zerobuf st)) <? L then set_zerobuf (grow (zerobuf st) L) st else st).
  assert (encbuf st1 = encbuf st ∧ e_vm st1 = e_vm st ∧ e_calls st1 = e_calls st) as (Z1 & Z2 & Z3)
    by (unfold st1; by case_match).
  set (st2 := set_encbuf buf st1). destruct Hr as [Hen Hg _ Hvm].
  destruct (zero_chunks_all _ _ Hlib is_outside pvm encbuf_addr enters pwrite Hp e ns en (slba cmd) nb
    Hsh Hen Hg Ht Hs) with (fuel := S (Z.to_nat nb)) (st := st2) (lf := lf) (cli := 0)
    as (s1 & cs & calls & R1 & R2 & R3 & R4 & R5); try done;
    [fold L; unfold off in Hoff; lia|lia|lia|lia|apply length_grow|cbn [st2 e_vm set_encbuf]; by rewrite Z2|].
  rewrite Z.add_0_r in R4, R5. rewrite Z.sub_0_r in R3.
  exists s1, cs, calls. split_and!; [|by rewrite R2; cbn [st2 e_calls set_encbuf]; rewrite Z3|done|exact R4|exact R5].
  unfold receive, catch. rewrite Hop. change (nvme_cmd_write_zeroes =? nvme_cmd_read) with false.
  change (nvme_cmd_write_zeroes =? nvme_cmd_write) with false. rewrite Z.eqb_refl. cbv iota.
  unfold receive_write_zeroes.
  step (in_host_Ret (e_in_nv (ns_lba_shift iov (nsid cmd))) _ (Host st en lf) st
    (e_in_nv_Ret _ _ _ (ns_lba_shift_cached iov _ _ _ Hn Hns))).
  rewrite !Z.shiftl_mul_pow2, Z.mul_1_l by lia. fold L.
  rewrite (bind_Ret (in_host (modify _)) _ _ tt (Host st1 en lf)) by done.
  rewrite (bind_Ret (in_host (modify _)) _ _ tt (Host st2 en lf))
    by (unfold in_host, zoom, modify; cbn [h_st]; by rewrite grow_encbuf_eq, Z1).
  fold nb. by rewrite R1.
Qed.

(** A program whose enclave is not entered any more answers with an error and
    touches nothing. *)
Lemma dead_receive lib_encrypt lib_decrypt is_outside pvm encbuf_addr enters ioc iov pwrite s cmd ns pages :
  enters (h_left s) = false → transfer_ok (e_nv (h_st s)) (e_vm (h_st s)) cmd ns pages →
  opcode cmd = nvme_cmd_read ∨ opcode cmd = nvme_cmd_write → is_sgl cmd = false →
  ∃ s', receive lib_encrypt lib_decrypt is_outside ioc iov pvm enters encbuf_addr pwrite cmd s =
      (Ret sc_internal, s') ∧
    h_left s' = h_left s ∧ e_vm (h_st s') = e_vm (h_st s) ∧ e_calls (h_st s') = e_calls (h_st s).
Proof.
  intros He Hok Hop Hsgl. destruct (transfer_en ioc iov _ _ _ _ _ Hok) as (B & _).
  destruct s as [st en lf]. cbn [h_st h_en h_left] in *. unfold receive, catch. rewrite Hsgl.
  pose proof (in_host_Ret (e_in_nv (lba_begin ioc iov cmd)) _ (Host st en lf) st (e_in_nv_Ret _ _ _ B)) as B'.
  destruct Hop as [-> | ->]; rewrite Z.eqb_refl; cbn [negb];
    try change (nvme_cmd_write =? nvme_cmd_read) with false; cbv iota.
  - unfold receive_read. step B'. erewrite bind_Throw by (unfold invoke; cbn [h_left]; by rewrite He).
    eexists. split; [done|]. done.
  - unfold receive_write_copyback. step B'.
    rewrite (bind_Ret (in_host (modify _)) _ _ tt
      (Host (set_encbuf (grow (encbuf st) (li_nbytes (lba_begin_en cmd (lba_shift ns)))) st) en lf))
      by (unfold in_host, zoom, modify; cbn [h_st]; by rewrite grow_encbuf_eq).
    erewrite bind_Throw by (unfold invoke; cbn [h_left]; by rewrite He). eexists. split; [done|]. done.
Qed.

(** The first pointer of a command lies past the end of guest memory. *)
Lemma bad_pointer_leaves lib_encrypt lib_decrypt is_outside pvm en e cmd ns vm :
  engine en = Some e → g_lba_shift en = lba_shift ns → 0 <= lba_shift ns <= 12 →
  is_outside pvm (vm_size vm) = true → vm_size vm <= prp1 cmd < 2 ^ 64 → 0 <= vm_size vm →
  crypt_command_inplace lib_encrypt lib_decrypt is_outside en pvm cmd true vm = (Throw Eout_of_range, vm).
Proof.
  intros He Hg Hsh Ho Hp Hv. unfold crypt_command_inplace. rewrite Hg.
  replace (lba_shift ns <? 0) with false by lia. unfold mbind at 1, eff_bind at 1, get at 1. rewrite Ho.
  cbn [negb]. unfold with_engine, catch. rewrite He. set (it := lba_begin_en cmd (lba_shift ns)).
  pose proof (cmd_bytes_range cmd ns Hsh) as Hn. pose proof (L_pos _ Hsh).
  assert (li_nbytes it = cmd_bytes cmd ns) as En.
  { unfold it, lba_begin_en, cmd_bytes in *. simpl. by rewrite Z.shiftl_mul_pow2, u64_small by lia. }
  assert (nbytes (li_prp it) = cmd_bytes cmd ns) as En' by (rewrite <- En; reflexivity).
  assert (lba_at_end it = false) as Hend by (unfold lba_at_end; rewrite prp_at_end_spec, En'; lia).
  assert (lba_deref_en vm it = Throw Eout_of_range) as Hd.
  { unfold lba_deref_en, prp_deref_en. unfold lba_at_end in Hend. rewrite Hend. simpl.
    rewrite block_bytes_eq, Z.shiftl_0_l, Z.add_0_r, u64_small by lia.
    unfold get_span, check_span. replace (vm_size vm <? prp1 cmd + 2 ^ lba_shift ns) with true by lia.
    by rewrite orb_true_r. }
  unfold en_fuel. rewrite command_blocks_turn by done. by rewrite Hd.
Qed.

(** C35. A guest can end the service for good: a read whose data pointer lies
    past the end of guest memory makes the enclave's copy of the bounds check
    throw an exception that none of the calls catches. The command is answered
    with an internal error, as by the encryptor without an enclave; but with
    an SDK that does not enter an enclave that was left in this way, every
    read and write after it, of any queue of the worker, is answered with an
    internal error too, and nothing is decrypted or written any more. *)
Theorem guest_pointer_ends_service lib_encrypt lib_decrypt is_outside pvm encbuf_addr enters ioc iov pwrite
    s0 cmd ns mdts e :
  let run := receive lib_encrypt lib_decrypt is_outside ioc iov pvm enters encbuf_addr pwrite in
  ready is_outside pvm enters s0 e ns → (∀ h, true ∈ h → enters h = false) →
  0 < nsid cmd < MAX_VIRTUAL_NAMESPACES → nv_id (e_nv (h_st s0)) = Some mdts →
  nv_idns (e_nv (h_st s0)) !! nsid cmd = Some ns → 0 <= lba_shift ns <= 12 →
  check_nblocks (nblocks_of cmd) mdts (lba_shift ns) = true →
  opcode cmd = nvme_cmd_read → is_sgl cmd = false →
  0 <= vm_size (e_vm (h_st s0)) <= prp1 cmd → prp1 cmd < 2 ^ 64 →
  ∃ s1, run cmd s0 = (Ret sc_internal, s1) ∧ h_st s1 = h_st s0 ∧
    ∀ cmd' ns' pages', transfer_ok (e_nv (h_st s0)) (e_vm (h_st s0)) cmd' ns' pages' →
      opcode cmd' = nvme_cmd_read ∨ opcode cmd' = nvme_cmd_write → is_sgl cmd' = false →
      ∃ s2, run cmd' s1 = (Ret sc_internal, s2) ∧ enters (h_left s2) = false ∧
        e_vm (h_st s2) = e_vm (h_st s0) ∧ e_calls (h_st s2) = e_calls (h_st s0).
Proof.
  intros run [He Hg Hent Hv] Hfinal Hn Hid Hns Hsh Hc Hop Hsgl Hp Hp64.
  pose proof (lba_begin_cached ioc iov _ cmd mdts ns Hn Hid Hns Hc) as B.
  destruct s0 as [st en lf]. cbn [h_st h_en h_left] in *.
  assert (enters (lf ++ [true]) = false) as Hdead by (apply Hfinal; set_solver).
  exists (Host st en (lf ++ [true])). split_and!; [|done|].
  - unfold run, receive, catch. rewrite Hop, Hsgl, Z.eqb_refl. cbn [negb]. unfold receive_read.
    step (in_host_Ret (e_in_nv (lba_begin ioc iov cmd)) _ (Host st en lf) st (e_in_nv_Ret _ _ _ B)).
    rewrite (bind_Throw _ _ _ Esystem (Host st en (lf ++ [true]))); [done|].
    unfold invoke. cbn [h_st h_en h_left]. rewrite Hent. cbn [negb]. unfold e_in_vm, zoom.
    rewrite (bad_pointer_leaves _ _ _ _ _ e cmd ns) by (done || lia). by destruct st.
  - intros cmd' ns' pages' Hok Hop' Hsgl'.
    destruct (dead_receive lib_encrypt lib_decrypt is_outside pvm encbuf_addr enters ioc iov pwrite
      (Host st en (lf ++ [true])) cmd' ns' pages' Hdead Hok Hop' Hsgl') as (s2 & R & R1 & R2 & R3).
    exists s2. split_and!; [done|by rewrite R1|done|done].
Qed.

(** *** Examples

    A program whose enclave has the key; its buffer holds what an earlier
    command left, and the device takes at most 1000 bytes per call. *)
Definition demo_sgx (buf : list Z) : host encryptor :=
  Host (Encryptor demo_ctrl (Mapping ∅ 262144) [] buf []) demo_en [].
Definition demo_engine_t : engine_t := EngineT demo_key (AesXtsIpp 512).
Definition demo_enters (h : list bool) : bool := negb (existsb id h).
Definition demo_addr (_ : Z) : Z := 0x100000.

Lemma demo_engine_takes :
  @takes_blocks _ (engine_cipher demo_lib demo_lib) demo_engine_t (lba_shift demo_ns).
Proof.
  intros d k Hd. change (2 ^ lba_shift demo_ns) with 512 in *. simpl. unfold ipp_crypt. rewrite Hd.
  by eexists.
Qed.
Lemma demo_ready buf : ready demo_outside 65536 demo_enters (demo_sgx buf) demo_engine_t demo_ns.
Proof. done. Qed.
Lemma demo_final h : true ∈ h → demo_enters h = false.
Proof.
  intros H. unfold demo_enters. apply negb_false_iff, existsb_exists. exists true.
  by rewrite <- list_elem_of_In.
Qed.

Lemma sgx_write_exact_witness :
  ∃ s1 cs calls,
    receive demo_lib demo_lib demo_outside (inl 5) (λ _, inl 5) 65536 demo_enters demo_addr demo_pwrite
      demo_cmd (demo_sgx []) = (Ret NVME_SC_SUCCESS, s1) ∧
    e_vm (h_st s1) = Mapping ∅ 262144 ∧ h_en s1 = demo_en ∧ e_calls (h_st s1) = [] ++ calls ∧
    Forall2 (λ x c, @block_cipher _ (engine_cipher demo_lib demo_lib) demo_engine_t (Mapping ∅ 262144) 8 x
      = Some c) (cmd_blocks demo_cmd demo_ns [0x20200; 0x10000]) cs ∧
    (∀ d, dev_after d calls = store_bytes d 4096 (concat cs)) ∧
    take (Z.to_nat 5120) (encbuf (h_st s1)) = concat cs.
Proof.
  apply (sgx_write_exact demo_lib demo_lib demo_outside 65536 demo_addr demo_enters (inl 5) (λ _, inl 5)
    demo_pwrite (demo_sgx []) demo_cmd demo_ns [0x20200; 0x10000] demo_engine_t demo_xts_lib (demo_ready [])
    demo_transfer eq_refl eq_refl demo_engine_takes demo_progressing); [done|by vm_compute|reflexivity].
Defined.

(** 600 blocks of zeroes at block 8, when the buffer has one block of 85s: the
    first block is the encryption of the 85s, and block 512 that of block 0. *)
Definition demo_zero600 : nvme_command :=
  NvmeCommand nvme_cmd_write_zeroes 0 3 1 0 0 0 0 0 8 0 599 0 0 0.
Lemma demo_enters_always j : demo_enters ([] ++ replicate j false) = true.
Proof. unfold demo_enters. by induction j. Qed.

Lemma sgx_write_zeroes_stale_witness :
  let buf := grow (replicate 512 85) (wz_nblocks * 512) in
  ∃ s1 cs calls,
    receive demo_lib demo_lib demo_outside (inl 5) (λ _, inl 5) 65536 demo_enters demo_addr demo_pwrite
      demo_zero600 (demo_sgx (replicate 512 85)) = (Ret NVME_SC_SUCCESS, s1) ∧
    e_calls (h_st s1) = [] ++ calls ∧ Z.of_nat (length cs) = 600 ∧
    (∀ k c, cs !! k = Some c → ∃ src,
      (if (k <? 512)%nat then Some (take (Z.to_nat 512) (drop (Z.to_nat (Z.of_nat k * 512)) buf))
       else cs !! (k - 512)%nat) = Some src ∧
      demo_lib demo_key src (make_tweak (u64 (8 + Z.of_nat k))) = Some c) ∧
    ∀ d, dev_after d calls = store_bytes d 4096 (concat cs).
Proof.
  refine (sgx_write_zeroes_stale demo_lib demo_lib demo_outside 65536 demo_addr demo_enters (inl 5)
    (λ _, inl 5) demo_pwrite (demo_sgx (replicate 512 85)) demo_zero600 demo_ns demo_engine_t demo_xts_lib
    (demo_ready _) demo_enters_always _ eq_refl _ eq_refl demo_engine_takes demo_progressing _ _ _).
  - done.
  - done.
  - done.
  - by vm_compute.
  - intros m [Hm1 Hm2]. change (nblocks_of demo_zero600 `min` wz_nblocks) with 512 in Hm2.
    unfold demo_outside, demo_addr. change (2 ^ lba_shift demo_ns) with 512.
    replace (0x100000 + m * 512 <=? 2 ^ 64) with true by lia.
    by replace (0x100000 + m * 512 <=? 2 ^ 32) with true by lia.
Defined.

(** A read of one block at an address behind the 256 KiB of guest memory. *)
Definition demo_bad_read : nvme_command :=
  NvmeCommand nvme_cmd_read 0 0 1 0 0 0 0x50000 0 8 0 0 0 0 0.

Lemma guest_pointer_ends_service_witness :
  ∃ s1, receive demo_lib demo_lib demo_outside (inl 5) (λ _, inl 5) 65536 demo_enters demo_addr demo_pwrite
      demo_bad_read (demo_sgx []) = (Ret sc_internal, s1) ∧ h_st s1 = h_st (demo_sgx []) ∧
    ∃ s2, receive demo_lib demo_lib demo_outside (inl 5) (λ _, inl 5) 65536 demo_enters demo_addr demo_pwrite
        demo_cmd s1 = (Ret sc_internal, s2) ∧ e_calls (h_st s2) = [].
Proof.
  destruct (guest_pointer_ends_service demo_lib demo_lib demo_outside 65536 demo_addr demo_enters (inl 5)
    (λ _, inl 5) demo_pwrite (demo_sgx []) demo_bad_read demo_ns 5 demo_engine_t (demo_ready _) demo_final
    ltac:(done) eq_refl eq_refl ltac:(done) eq_refl eq_refl eq_refl ltac:(done) ltac:(done))
    as (s1 & H1 & H2 & H3).
  destruct (H3 demo_cmd demo_ns [0x20200; 0x10000] demo_transfer (or_intror eq_refl) eq_refl)
    as (s2 & R & _ & _ & R3).
  exists s1. split_and!; [exact H1|exact H2|]. exists s2. split; [exact R|exact R3].
Defined.

(** ** The aio controller keeps the contract of a controller *)

Lemma invoke_aio_Ret enters call s r s' :
  invoke_aio enters call s = (Ret r, s') → call s = (Ret r, s').
Proof. unfold invoke_aio. case_match; [done|]. by destruct (call s) as [[]]. Qed.

#[export] Instance sgx_controller_laws lib_encrypt lib_decrypt is_outside ioc iov pvm en enters
    room fresh mem_addr :
  @ControllerLaws (sgx_controller lib_encrypt lib_decrypt is_outside ioc iov pvm en enters
    room fresh mem_addr).
Proof.
  split. intros sq cmd tag s r s' H. unfold submit, sgx_controller, submit_async in H.
  repeat match type of H with (if ?b then _ else _) _ = _ => destruct b end;
    first [apply bind_inv in H as (x & s1 & H & Hr); injection Hr as <- <-
          |injection H as <- <-].
  - unfold receive_read_aio in H. apply bind_inv in H as (lit & s2 & H1 & H).
    apply in_nv_keeps in H1 as (_ & A1 & A2 & A3). apply bind_inv in H as (ret & s3 & H2 & H).
    apply invoke_aio_Ret, in_vm_keeps in H2 as (B1 & B2 & B3).
    destruct (negb _); [done|]. injection H as <- <-. split_and!; congruence.
  - unfold submit_write_async in H. apply bind_inv in H as (lit & sa & Ha & H).
    apply in_nv_keeps in Ha as (_ & A1 & A2 & A3).
    apply bind_inv in H as (p & sb & [= <- <-] & H).
    apply bind_inv in H as (sx & sb & [= <- <-] & H).
    apply bind_inv in H as (ret & sc & Hm & H). apply invoke_aio_Ret in Hm. unfold queue_write in H.
    eapply (new_mem_submitted room s sa sc); [| | | | |exact Hm|exact H]; first [done|congruence].
  - unfold submit_write_zeroes_async in H. apply bind_inv in H as (lbas & sa & Ha & H).
    apply in_nv_keeps in Ha as (_ & A1 & A2 & A3).
    apply bind_inv in H as (p & sb & [= <- <-] & H).
    apply bind_inv in H as (u & sc & Hu & H).
    apply bind_inv in H as (ret & sd & Hm & H). apply invoke_aio_Ret in Hm. unfold queue_write in H.
    unfold upd_ticket, get_ticket, mbind, eff_bind, get, modify, mret, eff_ret in Hu. simpl in Hu.
    rewrite lookup_insert_eq in Hu. injection Hu as <- <-. unfold set_tickets in Hm. simpl in Hm.
    rewrite insert_insert_eq in Hm.
    eapply (new_mem_submitted room s sa sd); [| | | | |exact Hm|exact H]; first [done|congruence].
  - unfold submit_flush_async in H.
    apply bind_inv in H as (p & sc & [= <- <-] & H).
    eapply (queue_submitted room s _ _ (Ticket tag [] 0 []) (Ticket tag [] 0 []));
      [| | | | |exact H]; simpl; rewrite ?insert_insert_eq; first [congruence|done].
  - done.
Qed.

(** The programs give the enclave blocks of 512 bytes unless told otherwise,
    and their option for it is not in the list of options. On a namespace with
    blocks of 4096 bytes a read is refused after a part of the guest's buffer
    was decrypted, and a write is queued all the same, with what the allocation
    held behind the first 512 bytes of a block. *)
Definition demo_ns4k : nvme_id_ns := NvmeIdNs 0 [12].
Definition demo_aio4k : aio := Aio (Nvme (Some 5) {[ 1 := demo_ns4k ]}) (Mapping ∅ 262144) [] ∅ 0.
Definition demo_write4k : nvme_command :=
  NvmeCommand nvme_cmd_write 0 0 1 0 0 0 0x20000 0 8 0 0 0 0 0.

Example aio_write_other_size :
  let '(r, a) := submit_async demo_lib demo_lib demo_outside (inl 5) (λ _, inl 5) 65536 demo_en
    (λ _, true) (λ _, true) (λ n, replicate (Z.to_nat n) 255) (λ _, 0x100000) demo_write4k 7 demo_aio4k in
  r = Ret None ∧ a_sq a = [Sqe (IoWrite (PBuf 0 0) 4096 32768) 0 true false 0] ∧
  (drop 512 ∘ tk_mem) <$> a_tickets a !! 0 = Some (replicate 3584 255).
Proof. vm_compute. split_and!; reflexivity. Qed.

Example read_other_size :
  (receive demo_lib demo_lib demo_outside (inl 5) (λ _, inl 5) 65536 demo_enters demo_addr demo_pwrite
    demo_bad_read (Host (Encryptor (a_nv demo_aio4k) (Mapping ∅ 1048576) [] [] []) demo_en [])).1
  = Ret sc_internal.
Proof. by vm_compute. Qed.
