(* ===== verification/Multi.v ===== *)
(** * The encryptor for several machines

    encryptor-multi.cpp and nvme/nvme_encryptor_multi.cpp: workers that serve
    queues of several virtual machines. The controllers of the queues of one
    machine share a ring, also when the queues are dealt to different
    threads. *)
From S2P Require Import Prelude Proto Vm Prp NvmeBase Crypto Uring Aio Sender.
From S2P Require Import Encryptor EncryptorAio Worker.

(** ** State *)

(** A ring: the entries queued, taken by the kernel, and completed. *)
Record ring : Type := Ring {
  rg_sq : list io_uring_sqe;
  rg_flight : list io_uring_sqe;
  rg_cqes : list io_uring_cqe;
}.

(** [struct worker_ctx]: the queue, and the numbers of its machine's ring and
    memory. *)
Record worker_ctx : Type := WorkerCtx { cx_sqid : Z; cx_ring : nat; cx_vm : nat }.

(** What the threads share: the rings and memories, one per machine, and the
    heap with its tickets. *)
Record shared : Type := Shared {
  sh_rings : list ring;
  sh_vms : list mapping;
  sh_tickets : gmap Z ticket;
  sh_next : Z;
}.

(** A thread: its contexts, each with a controller's identification cache, the
    commands in its queues and the responses given. *)
Record mworker : Type := MWorker {
  mw_contexts : list worker_ctx;
  mw_nv : list nvme;
  mw_nsq : list (list nvme_command);
  mw_ncq : list (Z * nmntfy_response);
}.

Definition mstate : Type := shared * mworker.
Abbreviation meff := (eff mstate).

Definition set_ring (k : nat) (r : ring) (s : shared) : shared :=
  Shared (<[k := r]> (sh_rings s)) (sh_vms s) (sh_tickets s) (sh_next s).
Definition set_mnsq (x : list (list nvme_command)) (w : mworker) : mworker :=
  MWorker (mw_contexts w) (mw_nv w) x (mw_ncq w).
Definition add_mncq (x : Z * nmntfy_response) (w : mworker) : mworker :=
  MWorker (mw_contexts w) (mw_nv w) (mw_nsq w) (mw_ncq w ++ [x]).

Section multi.
Context {E : Type} {engine_class : tweakable_block_cipher E} (engine : E).
Context (ioc : Z + Z) (iov : Z → Z + nvme_id_ns).
Context (room : list io_uring_sqe → bool).
Context (fresh : Z → list Z).

(** ** The controller

    The code of nvme_encryptor_aio, line for line, on the shared ring. *)

Definition receive_read : nvme_command → aeff Z := EncryptorAio.receive_read engine ioc iov.
Definition submit_write_async : nvme_command → Z → aeff unit :=
  EncryptorAio.submit_write_async engine ioc iov room fresh.
Definition submit_write_zeroes_async : nvme_command → Z → aeff unit :=
  EncryptorAio.submit_write_zeroes_async engine iov room fresh.
Definition submit_flush_async : nvme_command → Z → aeff unit :=
  EncryptorAio.submit_flush_async room.

Definition submit_async (cmd : nvme_command) (tag : Z) : aeff (option Z) :=
  if opcode cmd =? nvme_cmd_read then
    st ← receive_read cmd; mret (Some st)
  else if (opcode cmd =? nvme_cmd_write) && negb (is_sgl cmd) then
    _ ← submit_write_async cmd tag; mret None
  else if opcode cmd =? nvme_cmd_write_zeroes then
    _ ← submit_write_zeroes_async cmd tag; mret None
  else if opcode cmd =? nvme_cmd_flush then
    _ ← submit_flush_async cmd tag; mret None
  else mret (Some sc_invalid_opcode).

(** Run on controller [qi] of the worker. *)
Definition on_controller {A} (qi : nat) (m : aeff A) : meff A := λ s,
  let '(sh, w) := s in
  match mw_contexts w !! qi, mw_nv w !! qi with
  | Some cx, Some nv =>
    match sh_rings sh !! cx_ring cx, sh_vms sh !! cx_vm cx with
    | Some r, Some vm =>
      let '(o, a) := m (Aio nv vm (rg_sq r) (sh_tickets sh) (sh_next sh)) in
      (o, (Shared (<[cx_ring cx := Ring (a_sq a) (rg_flight r) (rg_cqes r)]> (sh_rings sh))
             (<[cx_vm cx := a_vm a]> (sh_vms sh)) (a_tickets a) (a_next a),
           MWorker (mw_contexts w) (<[qi := a_nv a]> (mw_nv w)) (mw_nsq w) (mw_ncq w)))
    | _, _ => (Throw Eub, s)
    end
  | _, _ => (Throw Eub, s)
  end.

(** ** The worker *)

Definition mrespond (qi : Z) (r : nmntfy_response) : meff unit :=
  '(_, w) ← get;
  _ ← ensure ((0 <=? qi) && (qi <? Z.of_nat (length (mw_nsq w)))) Eub;
  modify (λ s, (s.1, add_mncq (qi, r) s.2)).

(** The commands of a burst; how many complete later. *)
Fixpoint submit_cmds (qi : nat) (cmds : list nvme_command) : meff Z :=
  match cmds with
  | [] => mret 0
  | cmd :: cmds =>
    r ← on_controller qi (submit_async cmd (make_tag (Z.of_nat qi) (command_id cmd)));
    n ← (match r with
         | None => mret 1
         | Some st => _ ← mrespond (Z.of_nat qi) (Resp (command_id cmd) st); mret 0
         end);
    rest ← submit_cmds qi cmds;
    mret (n + rest)
  end.

Definition poll_queue (qi : nat) : meff (bool * Z) :=
  '(_, w) ← get;
  match mw_nsq w !! qi with
  | None => throw Eub
  | Some nsq =>
    let ncmds := Nat.min NOTIFYFD_BURST (length nsq) in
    if decide (ncmds = 0%nat) then mret (false, 0) else
    _ ← modify (λ s, (s.1, set_mnsq (<[qi := drop ncmds nsq]> (mw_nsq s.2)) s.2));
    n ← submit_cmds qi (take ncmds nsq);
    mret (true, n)
  end.

(** One try over the queues; [sub] is [submitted_async]. *)
Fixpoint poll_queues (qis : list nat) (sub : list Z) : meff (bool * list Z) :=
  match qis with
  | [] => mret (false, sub)
  | qi :: qis =>
    '(s, n) ← poll_queue qi;
    '(s', sub) ← poll_queues qis (alter (λ x, x + n) qi sub);
    mret (s || s', sub)
  end.

Fixpoint busypoll (ntry : nat) (qis : list nat) (sub : list Z) : meff (bool * list Z) :=
  match ntry with
  | O => mret (false, sub)
  | S ntry =>
    '(s, sub) ← poll_queues qis sub;
    if s : bool then mret (s, sub) else busypoll ntry qis sub
  end.

Definition kick (qi : nat) : meff unit :=
  '(sh, w) ← get;
  match mw_contexts w !! qi with
  | None => throw Eub
  | Some cx =>
    match sh_rings sh !! cx_ring cx with
    | None => throw Eub
    | Some r => modify (λ s, (set_ring (cx_ring cx) (Ring [] (rg_flight r ++ rg_sq r) (rg_cqes r)) s.1, s.2))
    end
  end.

Fixpoint kick_all (qis : list nat) (sub : list Z) : meff unit :=
  match qis with
  | [] => mret tt
  | qi :: qis =>
    _ ← (if truthy (default 0 (sub !! qi)) then kick qi else mret tt);
    kick_all qis sub
  end.

(** One completion of the ring of controller [qc]. *)
Definition reap (k : nat) (cqe : io_uring_cqe) : meff unit :=
  '(sh, _) ← get;
  match sh_tickets sh !! cq_data cqe with
  | None => throw Eub
  | Some t =>
    let '(qi, cid) := unmake_tag (tk_tag t) in
    _ ← modify (λ s, (Shared (sh_rings s.1) (sh_vms s.1) (delete (cq_data cqe) (sh_tickets s.1))
                        (sh_next s.1), s.2));
    _ ← mrespond qi (Resp cid (if cq_res cqe <? 0 then sc_internal else NVME_SC_SUCCESS));
    modify (λ s, match sh_rings s.1 !! k with
                 | Some r => (set_ring k (Ring (rg_sq r) (rg_flight r) (tail (rg_cqes r))) s.1, s.2)
                 | None => s
                 end)
  end.

Fixpoint reap_all (k : nat) (cqes : list io_uring_cqe) : meff unit :=
  match cqes with
  | [] => mret tt
  | cqe :: cqes => _ ← reap k cqe; reap_all k cqes
  end.

Fixpoint reap_controllers (contexts : list worker_ctx) : meff unit :=
  match contexts with
  | [] => mret tt
  | cx :: contexts =>
    '(sh, _) ← get;
    _ ← (match sh_rings sh !! cx_ring cx with
         | None => throw Eub
         | Some r => reap_all (cx_ring cx) (take COMPLETION_BURST (rg_cqes r))
         end);
    reap_controllers contexts
  end.

(** The body of the loop; the result is whether the worker was busy. *)
Definition worker_pass : meff bool :=
  '(_, w) ← get;
  let qis := seq 0 (length (mw_contexts w)) in
  '(succeeded, sub) ← busypoll busypoll_loops qis (replicate (length (mw_contexts w)) 0);
  _ ← kick_all qis sub;
  _ ← reap_controllers (mw_contexts w);
  mret succeeded.

End multi.

(** ** Dealing the queues out (main)

    The queues of machine [m], except its admin queue, go round the threads;
    the counter goes on from machine to machine. No thread is a division by
    zero. *)
Fixpoint deal_queues (nthreads counter : nat) (m : nat) (sqids : list Z)
    (ws : list (list worker_ctx)) : outcome (nat * list (list worker_ctx)) :=
  match sqids with
  | [] => Ret (counter, ws)
  | i :: sqids =>
    if decide (nthreads = 0%nat) then Throw Eub else
    deal_queues nthreads (S counter) m sqids
      (push_at (counter mod nthreads) (WorkerCtx i m m) ws)
  end.

(** [for (auto t : combine(...))]: [machines] are the numbers of descriptors
    that [mdev_open] gives for each. *)
Fixpoint deal_machines (nthreads counter m : nat) (machines : list nat)
    (ws : list (list worker_ctx)) : outcome (list (list worker_ctx)) :=
  match machines with
  | [] => Ret ws
  | nfds :: machines =>
    '(counter, ws) ← deal_queues nthreads counter m (Z.of_nat <$> seq 1 (nfds - 1)) ws;
    deal_machines nthreads counter (S m) machines ws
  end.

Definition assign_contexts (nthreads : nat) (machines : list nat) :
    outcome (list (list worker_ctx)) :=
  deal_machines nthreads 0 0 machines (replicate nthreads []).

(** ** Lemmas *)

Lemma deal_queues_perm nt m : (0 < nt)%nat → ∀ sqids counter ws, length ws = nt →
  ∃ ws', deal_queues nt counter m sqids ws = Ret ((counter + length sqids)%nat, ws') ∧
    length ws' = nt ∧
    concat ws' ≡ₚ concat ws ++ ((λ i, WorkerCtx i m m) <$> sqids).
Proof.
  intros Hnt. induction sqids as [|i sqids IH]; intros counter ws Hl; simpl.
  { exists ws. split_and!; [by rewrite Nat.add_0_r|done|by rewrite app_nil_r]. }
  rewrite decide_False by lia.
  destruct (IH (S counter) (push_at (counter mod nt) (WorkerCtx i m m) ws)) as (ws' & R & R1 & R2).
  { unfold push_at. by rewrite length_alter. }
  exists ws'. split_and!; [by rewrite R, Nat.add_succ_r|done|].
  rewrite R2, concat_push_at by (rewrite Hl; by apply Nat.mod_upper_bound, Nat.neq_0_lt_0).
  simpl. by rewrite Permutation_middle.
Qed.

(** The contexts of machine [m] with [nfds] descriptors. *)
Definition machine_contexts (m nfds : nat) : list worker_ctx :=
  (λ i, WorkerCtx (Z.of_nat i) m m) <$> seq 1 (nfds - 1).

Lemma deal_machines_perm nt : (0 < nt)%nat → ∀ machines counter m ws, length ws = nt →
  ∃ ws', deal_machines nt counter m machines ws = Ret ws' ∧ length ws' = nt ∧
    concat ws' ≡ₚ concat ws ++ concat (imap (λ k, machine_contexts (m + k)) machines).
Proof.
  intros Hnt. induction machines as [|n machines IH]; intros counter m ws Hl; simpl.
  { exists ws. by rewrite app_nil_r. }
  destruct (deal_queues_perm nt m Hnt (Z.of_nat <$> seq 1 (n - 1)) counter ws Hl)
    as (ws1 & -> & H1 & H2). cbn [mbind outcome_bind].
  destruct (IH (counter + length (Z.of_nat <$> seq 1 (n - 1)))%nat (S m) ws1 H1)
    as (ws' & R & R1 & R2).
  exists ws'. split_and!; [done|done|]. rewrite R2, H2, <- app_assoc. f_equiv. f_equiv.
  - rewrite Nat.add_0_r. unfold machine_contexts. by rewrite <- list_fmap_compose.
  - f_equiv. apply reflexive_eq, imap_ext. intros k x _. simpl. by rewrite Nat.add_succ_r.
Qed.

(** Every queue of every machine has exactly one worker, when there is one. *)
Lemma assign_contexts_exact nt machines : (0 < nt)%nat →
  ∃ ws, assign_contexts nt machines = Ret ws ∧ length ws = nt ∧
    concat ws ≡ₚ concat (imap machine_contexts machines).
Proof.
  intros Hnt. destruct (deal_machines_perm nt Hnt machines 0 0 (replicate nt []))
    as (ws & R & R1 & R2); [apply length_replicate|].
  exists ws. split_and!; [done|done|]. rewrite R2.
  assert (concat (replicate nt ([] : list worker_ctx)) = []) as ->; [|done].
  clear. induction nt; simpl; congruence.
Qed.

(** ** Observations

    One machine with two I/O queues and two threads: each thread has a queue
    with number 0 among its own, and both reap the same ring. The second
    thread's command, queue 2's number 5, is completed by the kernel and
    answered by the first thread, in queue 1. *)
Example two_workers_share_a_ring :
  assign_contexts 2 [3%nat] = Ret [[WorkerCtx 1 0 0]; [WorkerCtx 2 0 0]].
Proof. reflexivity. Qed.

Example foreign_completion :
  let pass := worker_pass demo_engine (inl 5) (λ _, inl 5) (λ _, true) (λ _, []) in
  let flush := NvmeCommand nvme_cmd_flush 0 5 1 0 0 0 0 0 0 0 0 0 0 0 in
  let sh0 := Shared [Ring [] [] []] [Mapping ∅ 4096] ∅ 0 in
  let w1 := MWorker [WorkerCtx 1 0 0] [no_id] [[]] [] in
  let w2 := MWorker [WorkerCtx 2 0 0] [no_id] [[flush]] [] in
  let '(_, (sh1, w2')) := pass (sh0, w2) in
  let complete r := Ring (rg_sq r) [] ((λ e, Cqe (sq_data e) 0) <$> rg_flight r) in
  let sh2 := Shared (complete <$> sh_rings sh1) (sh_vms sh1) (sh_tickets sh1) (sh_next sh1) in
  let '(_, (_, w1')) := pass (sh2, w1) in
  (mw_ncq w1', mw_ncq w2') = ([(0, Resp 5 NVME_SC_SUCCESS)], []).
Proof. vm_compute. reflexivity. Qed.
