(* ===== verification/NvmeXcow.v ===== *)
(** * The copy-on-write controller

    include/nvme_xcow.hpp and nvme/nvme_xcow.cpp: requests for a virtual disk
    are answered from the image's tables, forwarded to the data disk with the
    address of their cluster, or turned into entries of the ring. A cluster is
    locked from the allocation of its data until that completes; work for a
    locked cluster waits in a queue. *)
From S2P Require Import Prelude Proto Vm Prp NvmeBase Xcow BlkIter Uring Sender Encryptor.

(** ** Data *)

Record nm_reply : Type := NmReply { rp_tag : Z; rp_status : Z; rp_aux : nmntfy_aux }.
Definition reply (tag status : Z) : nm_reply := NmReply tag status no_aux.
Definition reply_paddr (tag status paddr a0 : Z) : nm_reply :=
  NmReply tag status (set_aux_paddr paddr a0).

(** [set_aux] and [nm_reply] for a leaf. *)
Definition set_aux_leaf (tl a0 : Z) : nmntfy_aux :=
  let a0 := if nt_valid tl then Z.lor a0 AUXBITS_VALID else a0 in
  let a0 := if xb_writable tl then Z.lor a0 AUXBITS_WRITABLE else a0 in
  set_aux_paddr (decode_leaf_unsafe tl) a0.
Definition reply_leaf (tag status tl a0 : Z) : nm_reply :=
  NmReply tag status (set_aux_leaf tl a0).

(** [std::monostate], a reply to give at once, or a ticket to wait for. *)
Inductive nm_outcome : Type :=
  | Deferred
  | Replied (r : nm_reply)
  | Submitted (ticket : Z).

(** [xcow_ticket] with what its derived types add: the vectors of a request
    over several clusters and the buffer of a copy. [xt_last] is the commit
    that its destruction makes: the address of the leaf and the new leaf. *)
Record xcow_ticket : Type := XTicket {
  xt_tag : Z;
  xt_count : Z;
  xt_aux : nmntfy_aux;
  locked_cluster : Z;
  xt_last : option (Z * Z);
  xt_iovecss : list (list iovec);
  xt_nbytes : Z;
}.

Definition new_xcow_ticket (tag : Z) : xcow_ticket :=
  XTicket tag 0 no_aux U64_MAX None [] 0.
Definition set_count (n : Z) (t : xcow_ticket) : xcow_ticket :=
  XTicket (xt_tag t) n (xt_aux t) (locked_cluster t) (xt_last t) (xt_iovecss t) (xt_nbytes t).
Definition set_taux (a : nmntfy_aux) (t : xcow_ticket) : xcow_ticket :=
  XTicket (xt_tag t) (xt_count t) a (locked_cluster t) (xt_last t) (xt_iovecss t) (xt_nbytes t).
Definition set_lock (c : Z) (l : Z * Z) (t : xcow_ticket) : xcow_ticket :=
  XTicket (xt_tag t) (xt_count t) (xt_aux t) c (Some l) (xt_iovecss t) (xt_nbytes t).
Definition set_iovecss (v : list (list iovec)) (t : xcow_ticket) : xcow_ticket :=
  XTicket (xt_tag t) (xt_count t) (xt_aux t) (locked_cluster t) (xt_last t) v (xt_nbytes t).

(** The two kinds of waiting work: a piece of a write over several clusters
    (the index of its vector, the address of its leaf, its offset and flags)
    and a write inside of one cluster. *)
Inductive work : Type :=
  | WriteOne (tag ticket iovi entry off fl : Z)
  | Forward (tag entry : Z).

(** ** State *)

Record nvme_xcow : Type := NvmeXcow {
  x_nv : nvme;
  x_vm : mapping;
  x_file : xfile;
  x_snap : XcowSnap;
  x_sq : list io_uring_sqe;
  x_tickets : gmap Z xcow_ticket;
  x_next : Z;
  x_clock : list bool;
  x_wq : list (Z * work);
}.

Abbreviation xceff := (eff nvme_xcow).

Definition x_in_nv {A} : eff nvme A → xceff A := zoom x_nv (λ x s,
  NvmeXcow x (x_vm s) (x_file s) (x_snap s) (x_sq s) (x_tickets s) (x_next s) (x_clock s) (x_wq s)).
Definition set_xvm (x : mapping) (s : nvme_xcow) : nvme_xcow :=
  NvmeXcow (x_nv s) x (x_file s) (x_snap s) (x_sq s) (x_tickets s) (x_next s) (x_clock s) (x_wq s).
Definition set_file (x : xfile) (s : nvme_xcow) : nvme_xcow :=
  NvmeXcow (x_nv s) (x_vm s) x (x_snap s) (x_sq s) (x_tickets s) (x_next s) (x_clock s) (x_wq s).
Definition set_snap (x : XcowSnap) (s : nvme_xcow) : nvme_xcow :=
  NvmeXcow (x_nv s) (x_vm s) (x_file s) x (x_sq s) (x_tickets s) (x_next s) (x_clock s) (x_wq s).
Definition set_xsq (x : list io_uring_sqe) (s : nvme_xcow) : nvme_xcow :=
  NvmeXcow (x_nv s) (x_vm s) (x_file s) (x_snap s) x (x_tickets s) (x_next s) (x_clock s) (x_wq s).
Definition set_xtickets (x : gmap Z xcow_ticket) (s : nvme_xcow) : nvme_xcow :=
  NvmeXcow (x_nv s) (x_vm s) (x_file s) (x_snap s) (x_sq s) x (x_next s) (x_clock s) (x_wq s).
Definition set_clocks (x : list bool) (s : nvme_xcow) : nvme_xcow :=
  NvmeXcow (x_nv s) (x_vm s) (x_file s) (x_snap s) (x_sq s) (x_tickets s) (x_next s) x (x_wq s).
Definition set_wq (x : list (Z * work)) (s : nvme_xcow) : nvme_xcow :=
  NvmeXcow (x_nv s) (x_vm s) (x_file s) (x_snap s) (x_sq s) (x_tickets s) (x_next s) (x_clock s) x.

Definition x_in_file {A} : xeff A → xceff A := zoom x_file set_file.
Definition x_in_sq {A} : eff (list io_uring_sqe) A → xceff A := zoom x_sq set_xsq.

(** Tickets on the heap. *)
Definition x_new (t : xcow_ticket) : xceff Z :=
  s ← get;
  _ ← put (NvmeXcow (x_nv s) (x_vm s) (x_file s) (x_snap s) (x_sq s)
             (<[x_next s := t]> (x_tickets s)) (x_next s + 1) (x_clock s) (x_wq s));
  mret (x_next s).
Definition x_get (p : Z) : xceff xcow_ticket :=
  s ← get; match x_tickets s !! p with Some t => mret t | None => throw Eub end.
Definition x_upd (p : Z) (f : xcow_ticket → xcow_ticket) : xceff unit :=
  t ← x_get p; modify (λ s, set_xtickets (<[p := f t]> (x_tickets s)) s).

(** The destructor of a ticket: the commit it carries, then the memory. *)
Definition x_delete (p : Z) : xceff unit :=
  t ← x_get p;
  _ ← (match xt_last t with
       | Some (entry, tl) => _ ← x_in_file (tx_write_commit entry tl); mret tt
       | None => mret tt
       end);
  modify (λ s, set_xtickets (delete p (x_tickets s)) s).

(** The lock bit of a cluster; one past the end is undefined. *)
Definition clock_get (vblk : Z) : xceff bool :=
  s ← get;
  if vblk <? 0 then throw Eub else
  match x_clock s !! Z.to_nat vblk with Some b => mret b | None => throw Eub end.
Definition clock_set (vblk : Z) (b : bool) : xceff unit :=
  _ ← clock_get vblk; modify (λ s, set_clocks (<[Z.to_nat vblk := b]> (x_clock s)) s).

Definition wq_emplace (vblk : Z) (w : work) : xceff unit :=
  modify (λ s, set_wq (x_wq s ++ [(vblk, w)]) s).

Section nvme_xcow.
Context (ioc : Z + Z) (iov : Z → Z + nvme_id_ns).
Context (room : list io_uring_sqe → bool).

(** ** Copies and allocations *)

Definition do_cow (tag inoff outoff nbytes : Z) : xceff Z :=
  p ← x_new (XTicket tag 2 no_aux U64_MAX None [] nbytes);
  _ ← x_in_sq (queue_read room p (PBuf p 0) nbytes (-1) true 0 inoff);
  _ ← x_in_sq link_last;
  _ ← x_in_sq (queue_write room p (PBuf p 0) nbytes (-1) true 0 outoff);
  mret p.

(** The ticket and the offset of the new cluster. *)
Definition do_alloc_one_tx (tag vblk entry : Z) : xceff (Z * Z) :=
  s ← get;
  '(outoff, _) ← x_in_file (alloc_data_clusters (x_snap s) 1);
  tl ← x_in_file (rd64 entry);
  cs ← x_in_file cluster_size;
  p ← (if is_empty tl then
         p ← x_new (set_count 1 (new_xcow_ticket tag));
         _ ← x_in_sq (queue_fallocate room p true 0 FALLOC_FL_ZERO_RANGE outoff cs);
         mret p
       else do_cow tag (decode_leaf tl) outoff cs);
  _ ← x_upd p (set_lock vblk (entry, encode_leaf outoff true));
  mret (p, outoff).

(** [location] adds the offset in blocks to the offset in bytes. *)
Definition do_write_one (p : Z) (iovecs : list iovec) (entry off fl : Z) : xceff nm_outcome :=
  tl ← x_in_file (rd64 entry);
  _ ← x_in_sq (queue_writev room p iovecs true 0 (u64 (decode_leaf tl + off)) fl);
  mret (Submitted p).

(** The waiting work when its cluster is released, with the result of the
    allocation. *)
Definition run_work (w : work) (us : Z) : xceff nm_outcome :=
  match w with
  | WriteOne tag p iovi entry off fl =>
    if us <? 0 then
      t ← x_get p;
      _ ← x_upd p (set_count (xt_count t - 1));
      _ ← (if xt_count t - 1 =? 0 then x_delete p else mret tt);
      mret (Replied (reply tag (translate_uring_status us)))
    else
      t ← x_get p;
      do_write_one p (default [] (xt_iovecss t !! Z.to_nat iovi)) entry off fl
  | Forward tag entry =>
    tl ← x_in_file (rd64 entry);
    mret (Replied (reply_leaf tag (translate_uring_status us) tl AUXCMD_FORWARD))
  end.

(** ** Requests *)

Definition fua_flags (cmd : nvme_command) : Z := if is_fua cmd then RWF_DSYNC else 0.

(** [std::fill] of a view with zeros. *)
Definition x_zero (sp : Z * Z) : xceff unit :=
  modify (λ s, set_xvm (view_store (x_vm s) sp (replicate (Z.to_nat sp.2) 0)) s).

(** [size] blocks of the iterator, zeroed or gathered. *)
Fixpoint zero_lbas (size : nat) (lit : nvme_cmd_lba_iter) : xceff nvme_cmd_lba_iter :=
  match size with
  | O => mret lit
  | S size =>
    s ← get;
    dt ← lift (lba_deref (x_vm s) lit);
    _ ← x_zero dt;
    s ← get;
    lit ← lift (lba_incr (x_vm s) lit);
    zero_lbas size lit
  end.
Fixpoint gather_lbas (size : nat) (iovecs : list iovec) (lit : nvme_cmd_lba_iter) :
    xceff (list iovec * nvme_cmd_lba_iter) :=
  match size with
  | O => mret (iovecs, lit)
  | S size =>
    s ← get;
    '(o, l) ← lift (lba_deref (x_vm s) lit);
    lit ← lift (lba_incr (x_vm s) lit);
    gather_lbas size (iovec_append iovecs (PVm o) l) lit
  end.

(** [std::fill] over the pages of a request. *)
Fixpoint zero_pages (fuel : nat) (pit : nvme_cmd_page_iter) : xceff unit :=
  match fuel with
  | O => throw Efuel
  | S fuel =>
    if page_at_end pit then mret tt else
    s ← get;
    dt ← lift (page_deref (x_vm s) pit);
    _ ← x_zero dt;
    s ← get;
    pit ← lift (page_incr (x_vm s) pit);
    zero_pages fuel pit
  end.

(** The cluster geometry of a request: the block shift, the shift of a
    cluster in blocks, and whether it crosses a cluster. *)
Definition cluster_shift (lbas : Z) : xceff Z :=
  cb ← x_in_file cluster_bits; mret (u64 (cb - lbas)).
Definition multi_cluster (cmd : nvme_command) (cls : Z) : bool :=
  negb (Z.shiftr (slba cmd) cls =? Z.shiftr (u64 (slba cmd + length0 cmd)) cls).
Definition in_cluster (addr cls : Z) : Z := addr mod s32 (Z.shiftl 1 cls).

(** The pieces of a read: absent ones are zeroed, the others queued. *)
Fixpoint read_pieces (fuel : nat) (p lbas cls : Z) (bi : blk_iter) (lit : nvme_cmd_lba_iter) :
    xceff unit :=
  match fuel with
  | O => throw Efuel
  | S fuel =>
    if blk_at_end bi then mret tt else
    s ← get;
    tl ← x_in_file (translate_read (x_snap s) (u64 (Z.shiftl (bi_addr bi) lbas)));
    let off := in_cluster (bi_addr bi) cls in
    if is_empty tl then
      lit ← zero_lbas (Z.to_nat (blk_size bi)) lit;
      read_pieces fuel p lbas cls (blk_incr bi) lit
    else
      '(iovecs, lit) ← gather_lbas (Z.to_nat (blk_size bi)) [] lit;
      _ ← x_upd p (λ t, set_iovecss (xt_iovecss t ++ [iovecs]) (set_count (xt_count t + 1) t));
      _ ← x_in_sq (queue_readv room p iovecs true 0
                     (u64 (decode_leaf tl + Z.shiftl off lbas)) 0);
      read_pieces fuel p lbas cls (blk_incr bi) lit
  end.

Definition do_read (cmd : nvme_command) (tag : Z) : xceff nm_outcome :=
  lbas ← x_in_nv (ns_lba_shift iov (nsid cmd));
  cls ← cluster_shift lbas;
  if multi_cluster cmd cls then
    let bi := blk_begin (slba cmd) (nblocks_of cmd) cls in
    lit ← x_in_nv (lba_begin ioc iov cmd);
    p ← x_new (new_xcow_ticket tag);
    _ ← (if is_fua cmd then
           _ ← x_upd p (λ t, set_count (xt_count t + 1) t);
           _ ← x_in_sq (queue_fsync room p true 0 IORING_FSYNC_DATASYNC);
           x_in_sq link_last
         else mret tt);
    _ ← read_pieces (S (Z.to_nat (nblocks_of cmd))) p lbas cls bi lit;
    t ← x_get p;
    if 0 <? xt_count t then
      _ ← x_upd p (λ t, set_taux (NmntfyAux AUXCMD_KEEP (aux1 (xt_aux t)) (aux2 (xt_aux t))) t);
      mret (Submitted p)
    else
      _ ← x_delete p;
      mret (Replied (reply_paddr tag NVME_SC_SUCCESS U64_MAX AUXCMD_KEEP))
  else
    s ← get;
    tl ← x_in_file (translate_read (x_snap s) (u64 (Z.shiftl (slba cmd) lbas)));
    if is_empty tl then
      pit ← x_in_nv (page_begin ioc iov cmd);
      _ ← zero_pages (prp_fuel (pg_nbytes pit)) pit;
      mret (Replied (reply_paddr tag NVME_SC_SUCCESS 0 AUXBITS_VALID))
    else mret (Replied (reply_leaf tag NVME_SC_SUCCESS tl AUXCMD_FORWARD)).

(** The pieces of a write; [i] is the index of the next vector. *)
Fixpoint write_pieces (fuel : nat) (p tag lbas cls fl i : Z) (bi : blk_iter)
    (lit : nvme_cmd_lba_iter) : xceff unit :=
  match fuel with
  | O => throw Efuel
  | S fuel =>
    if blk_at_end bi then mret tt else
    '(iovecs, lit) ← gather_lbas (Z.to_nat (blk_size bi)) [] lit;
    _ ← x_upd p (λ t, set_iovecss (xt_iovecss t ++ [iovecs]) t);
    s ← get;
    entry ← x_in_file (tx_write_prep (x_snap s) (u64 (Z.shiftl (bi_addr bi) lbas)));
    let vblk := Z.shiftr (bi_addr bi) cls in
    let off := in_cluster (bi_addr bi) cls in
    tl ← x_in_file (rd64 entry);
    _ ← (if needs_alloc tl then
           c ← clock_get vblk;
           if negb c then
             _ ← do_alloc_one_tx noop_tag vblk entry;
             clock_set vblk true
           else mret tt
         else mret tt);
    _ ← x_upd p (λ t, set_count (xt_count t + 1) t);
    c ← clock_get vblk;
    _ ← (if c : bool then
           _ ← wq_emplace vblk (WriteOne tag p i entry off fl); mret tt
         else _ ← do_write_one p iovecs entry off fl; mret tt);
    write_pieces fuel p tag lbas cls fl (i + 1) (blk_incr bi) lit
  end.

Definition do_write (cmd : nvme_command) (tag : Z) : xceff nm_outcome :=
  lbas ← x_in_nv (ns_lba_shift iov (nsid cmd));
  cls ← cluster_shift lbas;
  if multi_cluster cmd cls then
    let bi := blk_begin (slba cmd) (nblocks_of cmd) cls in
    lit ← x_in_nv (lba_begin ioc iov cmd);
    p ← x_new (new_xcow_ticket tag);
    _ ← write_pieces (S (Z.to_nat (nblocks_of cmd))) p tag lbas cls (fua_flags cmd) 0 bi lit;
    mret (Submitted p)
  else
    let vblk := Z.shiftr (slba cmd) cls in
    s ← get;
    entry ← x_in_file (tx_write_prep (x_snap s) (u64 (Z.shiftl (slba cmd) lbas)));
    tl ← x_in_file (rd64 entry);
    c ← (if needs_alloc tl then clock_get vblk else mret true);
    if needs_alloc tl && negb c then
      '(p, outoff) ← do_alloc_one_tx tag vblk entry;
      _ ← clock_set vblk true;
      _ ← x_upd p (set_taux (set_aux_paddr outoff
            (Z.lor (Z.lor AUXBITS_VALID AUXBITS_WRITABLE) AUXCMD_FORWARD)));
      mret (Submitted p)
    else
      c ← clock_get vblk;
      if c : bool then
        _ ← wq_emplace vblk (Forward tag entry);
        mret Deferred
      else mret (Replied (reply_leaf tag NVME_SC_SUCCESS tl AUXCMD_FORWARD)).

(** Write zeroes; [submit_async] does not call it. A whole cluster is erased, a
    part of a writable one is zeroed on the disk, a part of a shared one is
    copied first. *)
Fixpoint zeroes_pieces (fuel : nat) (p lbas cls : Z) (bi : blk_iter) : xceff unit :=
  match fuel with
  | O => throw Efuel
  | S fuel =>
    if blk_at_end bi then mret tt else
    s ← get;
    let addr := u64 (Z.shiftl (bi_addr bi) lbas) in
    let off := in_cluster (bi_addr bi) cls in
    let zero := λ base, queue_fallocate room p true 0 FALLOC_FL_ZERO_RANGE
      (u64 (base + Z.shiftl off lbas)) (u64 (Z.shiftl (blk_size bi) lbas)) in
    old ← x_in_file (translate_read (x_snap s) addr);
    _ ← (if is_empty old then mret tt
         else if blk_size bi =? s32 (Z.shiftl 1 cls) then x_in_file (erase (x_snap s) addr)
         else if xb_writable old then
           _ ← x_upd p (λ t, set_count (xt_count t + 1) t);
           x_in_sq (zero (decode_leaf old))
         else
           '(tl, prev) ← x_in_file (translate_write (x_snap s) addr);
           cs ← x_in_file cluster_size;
           _ ← do_cow noop_tag (decode_leaf prev) (decode_leaf tl) cs;
           _ ← x_in_sq link_last;
           _ ← x_upd p (λ t, set_count (xt_count t + 1) t);
           x_in_sq (zero (decode_leaf tl)));
    zeroes_pieces fuel p lbas cls (blk_incr bi)
  end.

Definition do_write_zeroes (cmd : nvme_command) (tag : Z) : xceff nm_outcome :=
  lbas ← x_in_nv (ns_lba_shift iov (nsid cmd));
  cls ← cluster_shift lbas;
  if multi_cluster cmd cls then
    let bi := blk_begin (slba cmd) (nblocks_of cmd) cls in
    p ← x_new (new_xcow_ticket tag);
    _ ← zeroes_pieces (S (Z.to_nat (nblocks_of cmd))) p lbas cls bi;
    t ← x_get p;
    if 0 <? xt_count t then mret (Submitted p)
    else _ ← x_delete p; mret (Replied (reply tag NVME_SC_SUCCESS))
  else
    s ← get;
    let addr := u64 (Z.shiftl (slba cmd) lbas) in
    old ← x_in_file (translate_read (x_snap s) addr);
    if is_empty old then mret (Replied (reply tag NVME_SC_SUCCESS))
    else if nblocks_of cmd =? s32 (Z.shiftl 1 cls) then
      _ ← x_in_file (erase (x_snap s) addr); mret (Replied (reply tag NVME_SC_SUCCESS))
    else if negb (xb_writable old) then
      '(tl, prev) ← x_in_file (translate_write (x_snap s) addr);
      cs ← x_in_file cluster_size;
      p ← do_cow noop_tag (decode_leaf prev) (decode_leaf tl) cs;
      _ ← x_upd p (set_taux (set_aux_leaf tl AUXCMD_FORWARD));
      mret (Submitted p)
    else mret (Replied (reply_leaf tag NVME_SC_SUCCESS old AUXCMD_FORWARD)).

Definition do_flush (tag : Z) : xceff nm_outcome :=
  p ← x_new (set_count 1 (new_xcow_ticket tag));
  _ ← x_in_sq (queue_fsync room p true 0 IORING_FSYNC_DATASYNC);
  _ ← x_upd p (set_taux (NmntfyAux (Z.lor AUXCMD_KEEP AUXCMD_FORWARD) 0 0));
  mret (Submitted p).

Definition do_snapshot (cmd : nvme_command) (tag : Z) : xceff nm_outcome :=
  ns ← x_in_nv (id_vns iov (nsid cmd));
  match ns with
  | None => mret (Replied (reply tag (Z.lor NVME_SC_DNR NVME_SC_INVALID_NS)))
  | Some _ =>
    if existsb truthy [cdw2_0 cmd; cdw2_1 cmd; metadata cmd; prp1 cmd; prp2 cmd; cdw10 cmd;
                       cdw11 cmd; cdw12 cmd; cdw13 cmd; cdw14 cmd; cdw15 cmd]
    then mret (Replied (reply tag sc_invalid_field))
    else
      s ← get;
      '(sn, _) ← x_in_file (snap_create (x_snap s));
      _ ← modify (set_snap sn);
      mret (Replied (reply tag NVME_SC_SUCCESS))
  end.

Definition sc_cap_exceeded : Z := Z.lor NVME_SC_DNR NVME_SC_CAP_EXCEEDED.

Definition submit_async (sq : Z) (cmd : nvme_command) (tag : Z) : xceff nm_outcome :=
  catch
    (if sq =? 0 then mret (Replied (reply tag sc_invalid_opcode))
     else if opcode cmd =? nvme_cmd_read then do_read cmd tag
     else if opcode cmd =? nvme_cmd_write then do_write cmd tag
     else if opcode cmd =? nvme_cmd_flush then do_flush tag
     else if opcode cmd =? nvme_cmd_snapshot then do_snapshot cmd tag
     else mret (Replied (reply tag sc_invalid_opcode)))
    (λ e, match e with
          | Ehwm | Edisk_hwm => mret (Replied (reply tag sc_cap_exceeded))
          | _ => throw e
          end).

End nvme_xcow.

(** ** Specification *)

(** The entries that fill a new cluster: zeroes, or a copy of the cluster it
    replaces whose write waits for the read. *)
Definition alloc_entries (p tl outoff cs : Z) : list io_uring_sqe :=
  if is_empty tl then [Sqe (IoFallocate FALLOC_FL_ZERO_RANGE outoff cs) 0 true false p]
  else [Sqe (IoRead (PBuf p 0) (u32 cs) (decode_leaf tl)) 0 true true p;
        Sqe (IoWrite (PBuf p 0) (u32 cs) outoff) 0 true false p].

(** The ticket of the allocation of cluster [vblk]. *)
Definition alloc_ticket (tag vblk entry tl outoff cs : Z) (a : nmntfy_aux) : xcow_ticket :=
  if is_empty tl then XTicket tag 1 a vblk (Some (entry, encode_leaf outoff true)) [] 0
  else XTicket tag 2 a vblk (Some (entry, encode_leaf outoff true)) [] cs.

(** A request inside of one cluster of the image, for a namespace that is
    cached; the cluster and the byte address of its first block. *)
Record one_cluster (x : nvme_xcow) (cmd : nvme_command) (ns : nvme_id_ns) (cb : Z) : Prop := {
  oc_nsid : 0 < nsid cmd < MAX_VIRTUAL_NAMESPACES;
  oc_ns : nv_idns (x_nv x) !! nsid cmd = Some ns;
  oc_bits : cluster_bits (x_file x) = (Ret cb, x_file x);
  oc_shift : 0 <= lba_shift ns <= cb;
  oc_cb : cb <= 24;
  oc_one : multi_cluster cmd (cb - lba_shift ns) = false;
}.
Definition cluster_of (cmd : nvme_command) (ns : nvme_id_ns) (cb : Z) : Z :=
  Z.shiftr (slba cmd) (cb - lba_shift ns).
Definition addr_of (cmd : nvme_command) (ns : nvme_id_ns) : Z :=
  u64 (Z.shiftl (slba cmd) (lba_shift ns)).

(** ** Lemmas *)

Lemma x_in_file_Ret {A} (m : xeff A) s v f :
  m (x_file s) = (Ret v, f) → x_in_file m s = (Ret v, set_file f s).
Proof. intros H. unfold x_in_file, zoom. by rewrite H. Qed.

Lemma x_in_file_same {A} (m : xeff A) s v :
  m (x_file s) = (Ret v, x_file s) → x_in_file m s = (Ret v, s).
Proof. intros H. unfold x_in_file, zoom. rewrite H. by destruct s. Qed.

Lemma x_in_nv_same {A} (m : eff nvme A) s v :
  m (x_nv s) = (Ret v, x_nv s) → x_in_nv m s = (Ret v, s).
Proof. intros H. unfold x_in_nv, zoom. rewrite H. by destruct s. Qed.

Lemma x_upd_Ret p f s t : x_tickets s !! p = Some t →
  x_upd p f s = (Ret tt, set_xtickets (<[p := f t]> (x_tickets s)) s).
Proof. intros H. unfold x_upd, x_get, mbind, eff_bind, get. by rewrite H. Qed.

Lemma x_get_Ret p s t : x_tickets s !! p = Some t → x_get p s = (Ret t, s).
Proof. intros H. unfold x_get, mbind, eff_bind, get. by rewrite H. Qed.

(** What the commit of a destroyed ticket leaves of the file. *)
Definition commit_of (t : xcow_ticket) (f f' : xfile) : Prop :=
  match xt_last t with
  | Some (entry, tl) => ∃ r, tx_write_commit entry tl f = (Ret r, f')
  | None => f' = f
  end.

Lemma x_delete_Ret p s t f : x_tickets s !! p = Some t → commit_of t (x_file s) f →
  x_delete p s = (Ret tt, set_xtickets (delete p (x_tickets s)) (set_file f s)).
Proof.
  intros Ht Hf. unfold x_delete. rewrite (bind_Ret _ _ _ _ _ (x_get_Ret _ _ _ Ht)).
  unfold commit_of in Hf. destruct (xt_last t) as [[entry tl]|].
  - destruct Hf as [r Hf].
    rewrite (bind_Ret _ _ s tt (set_file f s)); [done|].
    by rewrite (bind_Ret _ _ _ _ _ (x_in_file_Ret _ s _ _ Hf)).
  - subst f. destruct s. done.
Qed.

Lemma clock_get_Ret v s b : 0 <= v → x_clock s !! Z.to_nat v = Some b →
  clock_get v s = (Ret b, s).
Proof.
  intros Hv H. unfold clock_get, mbind, eff_bind, get.
  replace (v <? 0) with false by lia. by rewrite H.
Qed.

Lemma clock_set_Ret v s b c : 0 <= v → x_clock s !! Z.to_nat v = Some b →
  clock_set v c s = (Ret tt, set_clocks (<[Z.to_nat v := c]> (x_clock s)) s).
Proof.
  intros Hv H. unfold clock_set. by rewrite (bind_Ret _ _ _ _ _ (clock_get_Ret _ _ _ Hv H)).
Qed.

(** Entering a request of one cluster. *)
Lemma one_cluster_run {A} iov x cmd ns cb (f : Z → Z → xceff A) : one_cluster x cmd ns cb →
  (lbas ← x_in_nv (ns_lba_shift iov (nsid cmd)); cls ← cluster_shift lbas; f lbas cls) x =
  f (lba_shift ns) (cb - lba_shift ns) x.
Proof.
  intros [H1 H2 H3 H4 H5 H6].
  rewrite (bind_Ret _ _ x (lba_shift ns) x)
    by (apply x_in_nv_same; by apply ns_lba_shift_cached).
  unfold cluster_shift. rewrite (bind_Ret _ _ x (cb - lba_shift ns) x); [done|].
  rewrite (bind_Ret _ _ x cb x) by by apply x_in_file_same.
  unfold mret, eff_ret. rewrite u64_small by lia. done.
Qed.

Lemma do_alloc_one_tx_run room tag vblk entry x tl outoff n f cs :
  (∀ q, room q = true) →
  alloc_data_clusters (x_snap x) 1 (x_file x) = (Ret (outoff, n), f) →
  rd64 entry f = (Ret tl, f) → cluster_size f = (Ret cs, f) →
  do_alloc_one_tx room tag vblk entry x = (Ret (x_next x, outoff),
    NvmeXcow (x_nv x) (x_vm x) f (x_snap x) (x_sq x ++ alloc_entries (x_next x) tl outoff cs)
      (<[x_next x := alloc_ticket tag vblk entry tl outoff cs no_aux]> (x_tickets x))
      (x_next x + 1) (x_clock x) (x_wq x)).
Proof.
  intros Hroom Ha Hr Hc. unfold do_alloc_one_tx.
  rewrite (bind_Ret get _ x x x) by done.
  rewrite (bind_Ret _ _ _ _ _ (x_in_file_Ret _ x _ _ Ha)).
  rewrite (bind_Ret _ _ (set_file f x) tl (set_file f x)) by by apply x_in_file_same.
  rewrite (bind_Ret _ _ (set_file f x) cs (set_file f x)) by by apply x_in_file_same.
  unfold alloc_entries, alloc_ticket. destruct (is_empty tl).
  - set (y := NvmeXcow (x_nv x) (x_vm x) f (x_snap x)
      (x_sq x ++ [Sqe (IoFallocate FALLOC_FL_ZERO_RANGE outoff cs) 0 true false (x_next x)])
      (<[x_next x := set_count 1 (new_xcow_ticket tag)]> (x_tickets x)) (x_next x + 1)
      (x_clock x) (x_wq x)).
    rewrite (bind_Ret _ _ (set_file f x) (x_next x) y).
    2:{ unfold x_new, x_in_sq, zoom, queue_fallocate, queue_sqe, mbind, eff_bind, get, put, mret, eff_ret.
        simpl. by rewrite Hroom. }
    rewrite (bind_Ret _ _ y tt _) by (apply x_upd_Ret, lookup_insert_eq).
    unfold mret, eff_ret, set_xtickets, y. simpl. by rewrite insert_insert_eq.
  - set (y := NvmeXcow (x_nv x) (x_vm x) f (x_snap x)
      (x_sq x ++ [Sqe (IoRead (PBuf (x_next x) 0) (u32 cs) (decode_leaf tl)) 0 true true (x_next x);
                  Sqe (IoWrite (PBuf (x_next x) 0) (u32 cs) outoff) 0 true false (x_next x)])
      (<[x_next x := XTicket tag 2 no_aux U64_MAX None [] cs]> (x_tickets x)) (x_next x + 1)
      (x_clock x) (x_wq x)).
    rewrite (bind_Ret _ _ (set_file f x) (x_next x) y).
    2:{ unfold do_cow, x_new, x_in_sq, zoom, queue_read, queue_write, link_last, queue_sqe,
          mbind, eff_bind, get, put, modify, mret, eff_ret.
        simpl. rewrite Hroom. simpl. rewrite Hroom. simpl.
        rewrite last_snoc, removelast_last. simpl. by rewrite <- app_assoc. }
    rewrite (bind_Ret _ _ y tt _) by (apply x_upd_Ret, lookup_insert_eq).
    unfold mret, eff_ret, set_xtickets, y. simpl. by rewrite insert_insert_eq.
Qed.

(** *** Zero-filling a request *)

Lemma page_begin_ok ioc iov x cmd ns pages : transfer_ok (x_nv x) (x_vm x) cmd ns pages →
  x_in_nv (page_begin ioc iov cmd) x = (Ret (PageIter (lba_shift ns) (slba cmd) (cmd_bytes cmd ns)
    (PrpIter (CmdList (prp1 cmd) (prp2 cmd)) 0 (cmd_bytes cmd ns)) 0), x).
Proof.
  intros Hok. pose proof (cmd_bytes_range cmd ns (to_shift _ _ _ _ _ Hok)) as Hn.
  destruct Hok as [Hnsid (mdts & Hid & Hc) Hns Hsh _ _ _ _].
  apply x_in_nv_same. unfold page_begin.
  rewrite (bind_Ret _ _ _ _ _ (ns_lba_shift_cached iov _ _ _ Hnsid Hns)).
  rewrite (bind_Ret _ _ _ _ _ (ns_cmd_check_cached ioc _ _ _ _ Hid Hc)).
  unfold mret, eff_ret, cmd_bytes in *. by rewrite Z.shiftl_mul_pow2, (u64_small _ ) by lia.
Qed.

(** The addresses that a list of segments covers. *)
Definition covers (segs : list (Z * Z)) (i : Z) : bool :=
  existsb (λ x, (x.1 <=? i) && (i <? x.1 + x.2)) segs.

Lemma aget_view_zero vm sp i : 0 <= sp.2 →
  aget (vm_bytes (view_store vm sp (replicate (Z.to_nat sp.2) 0))) i =
  if covers [sp] i then 0 else aget (vm_bytes vm) i.
Proof.
  intros Hn. unfold covers, view_store. cbn [existsb vm_bytes]. rewrite orb_false_r.
  destruct ((sp.1 <=? i) && (i <? sp.1 + sp.2)) eqn:E.
  - to_prop. replace i with (sp.1 + Z.of_nat (Z.to_nat (i - sp.1))) by lia.
    apply aget_store_in. apply lookup_replicate. lia.
  - apply aget_store_out. rewrite length_replicate. apply andb_false_iff in E as [E|E]; to_prop; lia.
Qed.

Lemma zero_pages_spec vm0 fuel : ∀ it segs s,
  prp_walk fuel vm0 (pg_prp it) = Ret segs →
  Forall (λ x : Z * Z, 0 <= x.2 ∧ in_vm vm0 x) segs → vm_size (x_vm s) = vm_size vm0 →
  (∀ w, reads_word vm0 (pg_prp it) w → load64 (x_vm s) w = load64 vm0 w) →
  (∀ w, reads_word vm0 (pg_prp it) w → Forall (λ x, apart x (w, 8)) segs) →
  ∃ vm1, zero_pages fuel it s = (Ret tt, set_xvm vm1 s) ∧
    ∀ i, aget (vm_bytes vm1) i = if covers segs i then 0 else aget (vm_bytes (x_vm s)) i.
Proof.
  induction fuel as [|fuel IH]; intros it segs s Hw Hs Hsz Hsame Hap; [done|].
  destruct (prp_walk_cons _ _ _ _ Hw) as
    [(He & ->)|(a & n & it' & segs' & He & Ha & Hn & Hi & Hw' & ->)];
    simpl; unfold page_at_end; rewrite He.
  { exists (x_vm s). split; [by destruct s|done]. }
  apply Forall_cons in Hs as [[Hn0 Hin] Hs]. unfold in_vm in Hin. simpl in Hn0, Hin.
  destruct (prp_step_same vm0 (x_vm s) _ Hsz He Hsame) as (D & N & _).
  set (vm' := view_store (x_vm s) (a, n) (replicate (Z.to_nat n) 0)).
  assert (∀ w, reads_word vm0 (pg_prp it) w → load64 vm' w = load64 vm0 w) as Hsame'.
  { intros w Hr. specialize (Hap w Hr). apply Forall_cons in Hap as [Hap _].
    unfold vm'. rewrite view_store_word; [by apply Hsame|rewrite length_replicate; simpl; lia|done]. }
  destruct (prp_step_same vm0 vm' _ Hsz He Hsame') as (_ & _ & I).
  destruct (IH (PageIter (pg_shift it) (pg_slba it) (pg_nbytes it) it' (pg_cli it)) segs'
    (set_xvm vm' s)) as (vm1 & R & R1); try done.
  { intros w Hr. apply Hsame'. by eapply reads_next. }
  { intros w Hr. assert (reads_word vm0 (pg_prp it) w) as Hr' by by eapply reads_next.
    specialize (Hap w Hr'). by apply Forall_cons in Hap as [_ Hap]. }
  exists vm1. split.
  - rewrite (bind_Ret get _ s s s) by done.
    rewrite (bind_Ret _ _ s (a, n) s).
    2:{ unfold lift, page_deref. rewrite D, N, Ha, Hn. cbn [mbind outcome_bind].
        unfold get_span in *. by rewrite Hsz, Hin. }
    rewrite (bind_Ret _ _ s tt (set_xvm vm' s)) by done.
    rewrite (bind_Ret get _ (set_xvm vm' s) (set_xvm vm' s) (set_xvm vm' s)) by done.
    erewrite (bind_Ret (lift _)); [|unfold lift, page_incr; cbn [x_vm set_xvm];
      rewrite I, Hi; cbn [mbind outcome_bind]; reflexivity].
    exact R.
  - intros i. rewrite R1. cbn [x_vm set_xvm]. unfold vm'. rewrite aget_view_zero by done.
    unfold covers. cbn [existsb]. rewrite orb_false_r.
    destruct (existsb _ segs'); [by rewrite orb_true_r|by rewrite orb_false_r].
Qed.

