(* ===== verification/XcowSrv.v ===== *)
(** * The copy-on-write server

    xcowsrv.cpp: the loop that gives the commands of the queues to the
    controller of file NvmeXcow, answers their completions and runs the work
    that waited for a cluster. *)
From S2P Require Import Prelude Proto Vm Prp NvmeBase Xcow BlkIter Uring Sender.
From S2P Require Import Encryptor NvmeXcow.

Definition NOTIFYFD_BURST : nat := 16.
Definition COMPLETION_BURST : nat := 128.
Definition busypoll_loops : nat := 20.

(** [struct nmntfy_response] with its auxiliary words. *)
Record response : Type := Response { xr_ucid : Z; xr_status : Z; xr_aux : nmntfy_aux }.

(** ** State

    The controller; the entries the kernel has taken and those it has
    completed; the commands each queue holds, and the admin queue if this
    worker serves it; the responses given so far, each with its queue. *)

Record server : Type := Server {
  sv_ctl : nvme_xcow;
  sv_flight : list io_uring_sqe;
  sv_cqes : list io_uring_cqe;
  sv_nsq : list (list nvme_command);
  sv_adm : option (list nvme_command);
  sv_ncq : list (Z * response);
}.

Abbreviation seff := (eff server).

Definition set_ctl (x : nvme_xcow) (s : server) : server :=
  Server x (sv_flight s) (sv_cqes s) (sv_nsq s) (sv_adm s) (sv_ncq s).
Definition sset_nsq (x : list (list nvme_command)) (s : server) : server :=
  Server (sv_ctl s) (sv_flight s) (sv_cqes s) x (sv_adm s) (sv_ncq s).
Definition set_adm (x : option (list nvme_command)) (s : server) : server :=
  Server (sv_ctl s) (sv_flight s) (sv_cqes s) (sv_nsq s) x (sv_ncq s).
Definition sset_cqes (x : list io_uring_cqe) (s : server) : server :=
  Server (sv_ctl s) (sv_flight s) x (sv_nsq s) (sv_adm s) (sv_ncq s).
Definition sadd_ncq (x : Z * response) (s : server) : server :=
  Server (sv_ctl s) (sv_flight s) (sv_cqes s) (sv_nsq s) (sv_adm s) (sv_ncq s ++ [x]).

Definition in_ctl {A} : eff nvme_xcow A → seff A := zoom sv_ctl set_ctl.

(** The completion ring of a queue; there is none for an index past the queues
    or for the admin queue of a worker that does not serve it. *)
Definition has_queue (s : server) (qi : Z) : bool :=
  if qi =? qi_admin then bool_decide (is_Some (sv_adm s))
  else (0 <=? qi) && (qi <? Z.of_nat (length (sv_nsq s))).

Definition process_reply (qi ucid : Z) (r : nm_reply) : seff unit :=
  s ← get;
  _ ← ensure (has_queue s qi) Eub;
  modify (sadd_ncq (qi, Response ucid (rp_status r) (rp_aux r))).

Section server.
Context (ioc : Z + Z) (iov : Z → Z + nvme_id_ns).
Context (room : list io_uring_sqe → bool).

(** [wq.extract(vblk)]: one of the entries under a key, and the rest. *)
Context (extract : Z → list (Z * work) → option (work * list (Z * work))).

(** ** Polling *)

(** The commands of a burst; whether a ticket was submitted. *)
Fixpoint submit_cmds (qi sq : Z) (cmds : list nvme_command) : seff bool :=
  match cmds with
  | [] => mret false
  | cmd :: cmds =>
    o ← in_ctl (submit_async ioc iov room sq cmd (make_tag qi (command_id cmd)));
    a ← (match o with
         | Submitted _ => mret true
         | Replied r => _ ← process_reply qi (command_id cmd) r; mret false
         | Deferred => mret false
         end);
    rest ← submit_cmds qi sq cmds;
    mret (a || rest)
  end.

(** [queue_poll_once] for a queue and for the admin queue. *)
Definition queue_poll_once (qi : nat) (sq : Z) : seff (bool * bool) :=
  s ← get;
  match sv_nsq s !! qi with
  | None => throw Eub
  | Some nsq =>
    let ncmds := Nat.min NOTIFYFD_BURST (length nsq) in
    if decide (ncmds = 0%nat) then mret (false, false) else
    _ ← modify (λ s, sset_nsq (<[qi := drop ncmds nsq]> (sv_nsq s)) s);
    a ← submit_cmds (Z.of_nat qi) sq (take ncmds nsq);
    mret (true, a)
  end.
Definition adm_poll_once : seff (bool * bool) :=
  s ← get;
  match sv_adm s with
  | None => mret (false, false)
  | Some nsq =>
    let ncmds := Nat.min NOTIFYFD_BURST (length nsq) in
    if decide (ncmds = 0%nat) then mret (false, false) else
    _ ← modify (set_adm (Some (drop ncmds nsq)));
    a ← submit_cmds qi_admin 0 (take ncmds nsq);
    mret (true, a)
  end.

Fixpoint poll_all (qi : nat) (sqids : list Z) : seff (bool * bool) :=
  match sqids with
  | [] => mret (false, false)
  | sq :: sqids =>
    '(s, a) ← queue_poll_once qi sq;
    '(s', a') ← poll_all (S qi) sqids;
    mret (s || s', a || a')
  end.

Fixpoint busypoll (ntry : nat) (sqids : list Z) : seff (bool * bool) :=
  match ntry with
  | O => mret (false, false)
  | S ntry =>
    '(s, a) ← poll_all 0 sqids;
    if s : bool then mret (s, a) else
    '(s', a') ← busypoll ntry sqids;
    mret (s', a || a')
  end.

(** ** Completions *)

(** The loop over the work that waits for a cluster: it ends at the first work
    that submits a ticket. *)
Fixpoint drain (fuel : nat) (vblk us : Z) : seff bool :=
  match fuel with
  | O => throw Efuel
  | S fuel =>
    s ← get;
    match extract vblk (x_wq (sv_ctl s)) with
    | None => mret false
    | Some (w, wq) =>
      _ ← in_ctl (modify (set_wq wq));
      o ← in_ctl (run_work room w us);
      match o with
      | Submitted _ => mret true
      | Replied r =>
        let '(qi, ucid) := unmake_tag (rp_tag r) in
        _ ← (if negb (qi =? qi_invalid) then process_reply qi ucid r else mret tt);
        drain fuel vblk us
      | Deferred => drain fuel vblk us
      end
    end
  end.

(** One completion: the last one of a ticket answers it, commits its leaf
    unless the operation failed, and unlocks its cluster. *)
Definition complete (cqe : io_uring_cqe) : seff bool :=
  let p := cq_data cqe in
  t ← in_ctl (x_get p);
  let count := xt_count t - 1 in
  _ ← in_ctl (x_upd p (set_count count));
  if negb (count =? 0) then mret false else
  _ ← (if negb (xt_tag t =? noop_tag) then
         let '(qi, ucid) := unmake_tag (xt_tag t) in
         process_reply qi ucid
           (NmReply (xt_tag t) (translate_uring_status (cq_res cqe)) (xt_aux t))
       else mret tt);
  _ ← (if cq_res cqe <? 0
       then in_ctl (x_upd p (λ t, XTicket (xt_tag t) (xt_count t) (xt_aux t) (locked_cluster t)
                               None (xt_iovecss t) (xt_nbytes t)))
       else mret tt);
  _ ← in_ctl (x_delete p);
  if locked_cluster t =? U64_MAX then mret false else
  _ ← in_ctl (clock_set (locked_cluster t) false);
  s ← get;
  drain (S (length (x_wq (sv_ctl s)))) (locked_cluster t) (cq_res cqe).

Fixpoint complete_all (cqes : list io_uring_cqe) : seff bool :=
  match cqes with
  | [] => mret false
  | cqe :: cqes => a ← complete cqe; a' ← complete_all cqes; mret (a || a')
  end.

Definition kick (a : bool) : seff unit :=
  if a then modify (λ s, Server (set_xsq [] (sv_ctl s)) (sv_flight s ++ x_sq (sv_ctl s))
                           (sv_cqes s) (sv_nsq s) (sv_adm s) (sv_ncq s))
  else mret tt.

(** ** The body of [run] *)

Definition run_pass (sqids : list Z) : seff bool :=
  '(succeeded, a) ← busypoll busypoll_loops sqids;
  _ ← kick a;
  s ← get;
  let wnd := take COMPLETION_BURST (sv_cqes s) in
  a ← complete_all wnd;
  _ ← modify (λ s, sset_cqes (drop (length wnd) (sv_cqes s)) s);
  _ ← kick a;
  _ ← (if succeeded : bool then mret tt
       else '(_, a) ← adm_poll_once; kick a);
  mret succeeded.

End server.

(** What the code relies on in [extract]. *)
Record extract_ok (extract : Z → list (Z * work) → option (work * list (Z * work))) : Prop := {
  ex_some k q w q' : extract k q = Some (w, q') → q ≡ₚ (k, w) :: q';
  ex_none k q : extract k q = None ↔ ∀ w, (k, w) ∉ q;
}.

(** The first entry under the key. *)
Fixpoint extract_first (k : Z) (q : list (Z * work)) : option (work * list (Z * work)) :=
  match q with
  | [] => None
  | (k', w) :: q =>
    if k' =? k then Some (w, q)
    else match extract_first k q with Some (w', q') => Some (w', (k', w) :: q') | None => None end
  end.

Lemma extract_first_ok : extract_ok extract_first.
Proof.
  split.
  - intros k q. induction q as [|[k' w'] q IH]; intros w q'; simpl; [done|].
    destruct (Z.eqb_spec k' k) as [->|]; [by intros [= <- <-]|].
    destruct (extract_first k q) as [[w1 q1]|]; [|done]. intros [= <- <-].
    rewrite (IH w1 q1) by done. apply Permutation_swap.
  - intros k q. induction q as [|[k' w'] q IH]; simpl.
    { split; [|done]. intros _ w. apply not_elem_of_nil. }
    destruct (Z.eqb_spec k' k) as [->|Hne].
    + split; [done|]. intros H. destruct (H w'). left.
    + destruct (extract_first k q) as [[w1 q1]|].
      * split; [done|]. intros H. exfalso. assert (Some (w1, q1) = None) as [=].
        apply IH. intros w Hin. apply (H w). by right.
      * split; [|done]. intros _ w [[= Hk _]|Hin]%elem_of_cons; [done|].
        by apply (proj1 IH eq_refl w).
Qed.
