(* ===== verification/CowRuns.v ===== *)
(** * Runs of the copy-on-write handlers

    What [submit_async] and [complete] (files NvmeXcow and XcowSrv) compute on
    each branch for a request inside of one cluster, as equations. *)
From S2P Require Import Prelude Proto Vm Prp NvmeBase Xcow BlkIter Uring Sender.
From S2P Require Import Encryptor NvmeXcow XcowSrv.

Lemma in_ctl_Ret {A} (m : eff nvme_xcow A) s v c :
  m (sv_ctl s) = (Ret v, c) → in_ctl m s = (Ret v, set_ctl c s).
Proof. intros H. unfold in_ctl, zoom. by rewrite H. Qed.

Lemma process_reply_Ret qi ucid r s : has_queue s qi = true →
  process_reply qi ucid r s =
    (Ret tt, sadd_ncq (qi, Response ucid (rp_status r) (rp_aux r)) s).
Proof. intros H. unfold process_reply, mbind, eff_bind, get, ensure. by rewrite H. Qed.

Lemma x_in_file_Throw {A} (m : xeff A) s e f :
  m (x_file s) = (Throw e, f) → x_in_file m s = (Throw e, set_file f s).
Proof. intros H. unfold x_in_file, zoom. by rewrite H. Qed.

(** An operation on the file whose result is known. *)
Lemma ret_val {A} (r : outcome A * xfile) (v : A) : r.1 = Ret v → r = (Ret v, r.2).
Proof. destruct r. simpl. by intros ->. Qed.

(** ** Requests *)

Section requests.
Context (ioc : Z + Z) (iov : Z → Z + nvme_id_ns) (room : list io_uring_sqe → bool).
Context (x : nvme_xcow) (sq : Z) (cmd : nvme_command) (tag : Z) (Hsq : sq ≠ 0).

(** What [submit_async] makes of an exception of a handler. *)
Definition on_hwm (tag : Z) (e : exn) : xceff nm_outcome :=
  match e with
  | Ehwm | Edisk_hwm => mret (Replied (reply tag sc_cap_exceeded))
  | _ => throw e
  end.

Lemma submit_read : opcode cmd = nvme_cmd_read →
  submit_async ioc iov room sq cmd tag x = catch (do_read ioc iov room cmd tag) (on_hwm tag) x.
Proof using Hsq.
  intros Ho. unfold submit_async, catch. replace (sq =? 0) with false by lia.
  by rewrite Ho.
Qed.

Lemma submit_write : opcode cmd = nvme_cmd_write →
  submit_async ioc iov room sq cmd tag x = catch (do_write ioc iov room cmd tag) (on_hwm tag) x.
Proof using Hsq.
  intros Ho. unfold submit_async, catch. replace (sq =? 0) with false by lia.
  by rewrite Ho.
Qed.

Lemma submit_snapshot : opcode cmd = nvme_cmd_snapshot →
  submit_async ioc iov room sq cmd tag x = catch (do_snapshot iov cmd tag) (on_hwm tag) x.
Proof using Hsq.
  intros Ho. unfold submit_async, catch. replace (sq =? 0) with false by lia.
  by rewrite Ho.
Qed.

Section one.
Context (ns : nvme_id_ns) (cb : Z) (Hoc : one_cluster x cmd ns cb).

(** *** Reads *)

Definition first_page : nvme_cmd_page_iter :=
  PageIter (lba_shift ns) (slba cmd) (cmd_bytes cmd ns)
    (PrpIter (CmdList (prp1 cmd) (prp2 cmd)) 0 (cmd_bytes cmd ns)) 0.

Lemma do_read_run tl pages : transfer_ok (x_nv x) (x_vm x) cmd ns pages →
  translate_read (x_snap x) (addr_of cmd ns) (x_file x) = (Ret tl, x_file x) →
  do_read ioc iov room cmd tag x =
    (if is_empty tl then
       _ ← zero_pages (prp_fuel (cmd_bytes cmd ns)) first_page;
       mret (Replied (reply_paddr tag NVME_SC_SUCCESS 0 AUXBITS_VALID))
     else mret (Replied (reply_leaf tag NVME_SC_SUCCESS tl AUXCMD_FORWARD))) x.
Proof using Hoc.
  intros Hok Htr. unfold do_read. rewrite (one_cluster_run iov x cmd ns cb) by done.
  rewrite (oc_one _ _ _ _ Hoc). rewrite (bind_Ret get _ x x x) by done. fold (addr_of cmd ns).
  rewrite (bind_Ret _ _ x tl x) by by apply x_in_file_same.
  destruct (is_empty tl); [|done].
  by rewrite (bind_Ret _ _ _ _ _ (page_begin_ok ioc iov x cmd ns pages Hok)).
Qed.

Lemma read_present tl pages : transfer_ok (x_nv x) (x_vm x) cmd ns pages →
  opcode cmd = nvme_cmd_read →
  translate_read (x_snap x) (addr_of cmd ns) (x_file x) = (Ret tl, x_file x) →
  is_empty tl = false →
  submit_async ioc iov room sq cmd tag x =
    (Ret (Replied (reply_leaf tag NVME_SC_SUCCESS tl AUXCMD_FORWARD)), x).
Proof using Hsq Hoc.
  intros Hok Ho Htr He. rewrite submit_read by done. unfold catch.
  by rewrite (do_read_run tl pages Hok Htr), He.
Qed.

Lemma read_absent tl pages : let segs := segments pages (cmd_bytes cmd ns) in
  transfer_ok (x_nv x) (x_vm x) cmd ns pages → opcode cmd = nvme_cmd_read →
  translate_read (x_snap x) (addr_of cmd ns) (x_file x) = (Ret tl, x_file x) →
  is_empty tl = true →
  (∀ w, reads_word (x_vm x) (PrpIter (CmdList (prp1 cmd) (prp2 cmd)) 0 (cmd_bytes cmd ns)) w →
    Forall (λ y, apart y (w, 8)) segs) →
  ∃ vm1, submit_async ioc iov room sq cmd tag x =
    (Ret (Replied (reply_paddr tag NVME_SC_SUCCESS 0 AUXBITS_VALID)), set_xvm vm1 x) ∧
    ∀ i, aget (vm_bytes vm1) i = if covers segs i then 0 else aget (vm_bytes (x_vm x)) i.
Proof using Hsq Hoc.
  intros segs Hok Ho Htr He Hap. destruct (transfer_segments _ _ _ _ _ Hok) as [Hw Hs].
  destruct (zero_pages_spec (x_vm x) _ first_page _ x Hw Hs) as (vm1 & R & R1); try done.
  exists vm1. split; [|exact R1]. rewrite submit_read by done. unfold catch.
  rewrite (do_read_run tl pages Hok Htr), He. by rewrite (bind_Ret _ _ _ _ _ R).
Qed.

(** *** Writes *)

Context (Hop : opcode cmd = nvme_cmd_write) (Hslba : 0 <= slba cmd).
Abbreviation v := (cluster_of cmd ns cb).

Lemma cluster_of_nonneg : 0 <= v.
Proof using Hslba. by apply Z.shiftr_nonneg. Qed.

Lemma write_prep_fails e f : tx_write_prep (x_snap x) (addr_of cmd ns) (x_file x) = (Throw e, f) →
  submit_async ioc iov room sq cmd tag x = on_hwm tag e (set_file f x).
Proof using Hsq Hoc Hop.
  intros Hp. rewrite submit_write by done. unfold catch, do_write.
  rewrite (one_cluster_run iov x cmd ns cb) by done. rewrite (oc_one _ _ _ _ Hoc).
  rewrite (bind_Ret get _ x x x) by done. fold (addr_of cmd ns).
  by rewrite (bind_Throw _ _ _ _ _ (x_in_file_Throw _ x _ _ Hp)).
Qed.

(** The cluster is the snapshot's own: the request is forwarded. *)
Lemma write_ready entry tl f1 :
  tx_write_prep (x_snap x) (addr_of cmd ns) (x_file x) = (Ret entry, f1) →
  rd64 entry f1 = (Ret tl, f1) → needs_alloc tl = false →
  x_clock x !! Z.to_nat v = Some false →
  submit_async ioc iov room sq cmd tag x =
    (Ret (Replied (reply_leaf tag NVME_SC_SUCCESS tl AUXCMD_FORWARD)), set_file f1 x).
Proof using Hsq Hoc Hop Hslba.
  intros Hp Hr Hn Hc. rewrite submit_write by done. unfold catch, do_write.
  rewrite (one_cluster_run iov x cmd ns cb) by done. rewrite (oc_one _ _ _ _ Hoc).
  rewrite (bind_Ret get _ x x x) by done. fold (addr_of cmd ns).
  rewrite (bind_Ret _ _ _ _ _ (x_in_file_Ret _ x _ _ Hp)). set (y := set_file f1 x).
  rewrite (bind_Ret _ _ y tl y) by by apply x_in_file_same. rewrite Hn.
  rewrite (bind_Ret (mret true) _ y true y) by done. cbn [andb].
  rewrite (bind_Ret (clock_get _) _ y false y) by (apply clock_get_Ret; [apply cluster_of_nonneg|done]).
  done.
Qed.

(** The cluster is locked: the request waits. *)
Lemma write_locked entry tl f1 :
  tx_write_prep (x_snap x) (addr_of cmd ns) (x_file x) = (Ret entry, f1) →
  rd64 entry f1 = (Ret tl, f1) → x_clock x !! Z.to_nat v = Some true →
  submit_async ioc iov room sq cmd tag x =
    (Ret Deferred, set_wq (x_wq x ++ [(v, Forward tag entry)]) (set_file f1 x)).
Proof using Hsq Hoc Hop Hslba.
  intros Hp Hr Hc. rewrite submit_write by done. unfold catch, do_write.
  rewrite (one_cluster_run iov x cmd ns cb) by done. rewrite (oc_one _ _ _ _ Hoc).
  rewrite (bind_Ret get _ x x x) by done. fold (addr_of cmd ns) v.
  rewrite (bind_Ret _ _ _ _ _ (x_in_file_Ret _ x _ _ Hp)). set (y := set_file f1 x).
  rewrite (bind_Ret _ _ y tl y) by by apply x_in_file_same.
  pose proof cluster_of_nonneg as Hv.
  rewrite (bind_Ret _ _ y true y)
    by (destruct (needs_alloc tl); [by apply clock_get_Ret|done]).
  rewrite andb_false_r. by rewrite (bind_Ret _ _ y true y) by by apply clock_get_Ret.
Qed.

(** The cluster needs data of its own and none is left. *)
Lemma write_alloc_fails entry tl f1 e f2 :
  tx_write_prep (x_snap x) (addr_of cmd ns) (x_file x) = (Ret entry, f1) →
  rd64 entry f1 = (Ret tl, f1) → needs_alloc tl = true →
  x_clock x !! Z.to_nat v = Some false →
  alloc_data_clusters (x_snap x) 1 f1 = (Throw e, f2) →
  submit_async ioc iov room sq cmd tag x = on_hwm tag e (set_file f2 x).
Proof using Hsq Hoc Hop Hslba.
  intros Hp Hr Hn Hc Ha. rewrite submit_write by done. unfold catch, do_write.
  rewrite (one_cluster_run iov x cmd ns cb) by done. rewrite (oc_one _ _ _ _ Hoc).
  rewrite (bind_Ret get _ x x x) by done. fold (addr_of cmd ns) v.
  rewrite (bind_Ret _ _ _ _ _ (x_in_file_Ret _ x _ _ Hp)). set (y := set_file f1 x).
  rewrite (bind_Ret _ _ y tl y) by by apply x_in_file_same. rewrite Hn.
  rewrite (bind_Ret (clock_get _) _ y false y) by (apply clock_get_Ret; [apply cluster_of_nonneg|done]).
  cbn [andb negb].
  assert (do_alloc_one_tx room tag v entry y = (Throw e, set_file f2 x)) as E.
  { unfold do_alloc_one_tx. rewrite (bind_Ret get _ y y y) by done.
    by rewrite (bind_Throw _ _ _ _ _ (x_in_file_Throw _ y _ _ Ha)). }
  by rewrite (bind_Throw _ _ _ _ _ E).
Qed.

(** It needs data of its own: a transaction begins. *)
Definition alloc_answer (outoff : Z) : nmntfy_aux :=
  set_aux_paddr outoff (Z.lor (Z.lor AUXBITS_VALID AUXBITS_WRITABLE) AUXCMD_FORWARD).
Definition alloc_begun (entry tl outoff cs : Z) (f2 : xfile) : nvme_xcow :=
  NvmeXcow (x_nv x) (x_vm x) f2 (x_snap x)
    (x_sq x ++ alloc_entries (x_next x) tl outoff cs)
    (<[x_next x := alloc_ticket tag v entry tl outoff cs (alloc_answer outoff)]> (x_tickets x))
    (x_next x + 1) (<[Z.to_nat v := true]> (x_clock x)) (x_wq x).

Lemma write_begins entry tl f1 outoff n f2 cs : (∀ q, room q = true) →
  tx_write_prep (x_snap x) (addr_of cmd ns) (x_file x) = (Ret entry, f1) →
  rd64 entry f1 = (Ret tl, f1) → needs_alloc tl = true →
  x_clock x !! Z.to_nat v = Some false →
  alloc_data_clusters (x_snap x) 1 f1 = (Ret (outoff, n), f2) →
  rd64 entry f2 = (Ret tl, f2) → cluster_size f2 = (Ret cs, f2) →
  submit_async ioc iov room sq cmd tag x =
    (Ret (Submitted (x_next x)), alloc_begun entry tl outoff cs f2).
Proof using Hsq Hoc Hop Hslba.
  intros Hroom Hp Hr Hn Hc Ha Hr2 Hcs. rewrite submit_write by done. unfold catch, do_write.
  rewrite (one_cluster_run iov x cmd ns cb) by done. rewrite (oc_one _ _ _ _ Hoc).
  rewrite (bind_Ret get _ x x x) by done. fold (addr_of cmd ns) v.
  rewrite (bind_Ret _ _ _ _ _ (x_in_file_Ret _ x _ _ Hp)). set (y := set_file f1 x).
  rewrite (bind_Ret _ _ y tl y) by by apply x_in_file_same. rewrite Hn.
  pose proof cluster_of_nonneg as Hv.
  rewrite (bind_Ret (clock_get _) _ y false y) by by apply clock_get_Ret.
  cbn [andb negb].
  rewrite (bind_Ret _ _ _ _ _ (do_alloc_one_tx_run room tag v entry y
    tl outoff n f2 cs Hroom Ha Hr2 Hcs)).
  cbn [x_nv x_vm x_snap x_sq x_tickets x_next x_clock x_wq set_file y].
  erewrite (bind_Ret (clock_set _ _)); [|by eapply clock_set_Ret].
  erewrite (bind_Ret (x_upd _ _)); [|apply x_upd_Ret, lookup_insert_eq].
  unfold mret, eff_ret, alloc_begun, set_xtickets, set_clocks. simpl. rewrite insert_insert_eq.
  unfold alloc_ticket. by destruct (is_empty tl).
Qed.
End one.

(** *** Snapshots *)

Lemma snapshot_run ns : opcode cmd = nvme_cmd_snapshot →
  0 < nsid cmd < MAX_VIRTUAL_NAMESPACES → nv_idns (x_nv x) !! nsid cmd = Some ns →
  existsb truthy [cdw2_0 cmd; cdw2_1 cmd; metadata cmd; prp1 cmd; prp2 cmd; cdw10 cmd;
                  cdw11 cmd; cdw12 cmd; cdw13 cmd; cdw14 cmd; cdw15 cmd] = false →
  submit_async ioc iov room sq cmd tag x =
    match snap_create (x_snap x) (x_file x) with
    | (Ret (sn, _), f) => (Ret (Replied (reply tag NVME_SC_SUCCESS)), set_snap sn (set_file f x))
    | (Throw e, f) => on_hwm tag e (set_file f x)
    end.
Proof using Hsq.
  intros Ho Hn Hns Hz. rewrite submit_snapshot by done. unfold catch, do_snapshot.
  assert (id_vns iov (nsid cmd) (x_nv x) = (Ret (Some ns), x_nv x)) as Hid.
  { unfold id_vns.
    replace ((nsid cmd =? 0) || (MAX_VIRTUAL_NAMESPACES <=? nsid cmd)) with false by lia.
    unfold get, gets, mbind, mret, eff_bind, eff_ret. rewrite Hns. cbv beta iota. by rewrite Hns. }
  rewrite (bind_Ret _ _ x (Some ns) x) by by apply x_in_nv_same.
  rewrite Hz. rewrite (bind_Ret get _ x x x) by done.
  destruct (snap_create (x_snap x) (x_file x)) as [[[sn sn0]|e] f] eqn:E.
  - by rewrite (bind_Ret _ _ _ _ _ (x_in_file_Ret _ x _ _ E)).
  - by rewrite (bind_Throw _ _ _ _ _ (x_in_file_Throw _ x _ _ E)).
Qed.
End requests.

(** ** Completions *)

Section completions.
Context (room : list io_uring_sqe → bool).
Context (extract : Z → list (Z * work) → option (work * list (Z * work))).
Context (s : server) (cqe : io_uring_cqe) (t : xcow_ticket).
Abbreviation c := (sv_ctl s).
Abbreviation p := (cq_data cqe).
Context (Ht : x_tickets (sv_ctl s) !! cq_data cqe = Some t).

Lemma in_ctl_get : in_ctl (x_get p) s = (Ret t, s).
Proof using Ht. rewrite (in_ctl_Ret (x_get p) s t c); [by destruct s|]. by apply x_get_Ret. Qed.

(** A completion that is not the ticket's last. *)
Lemma complete_more : xt_count t - 1 ≠ 0 →
  complete room extract cqe s =
    (Ret false, set_ctl (set_xtickets (<[p := set_count (xt_count t - 1) t]> (x_tickets c)) c) s).
Proof using Ht.
  intros Hn. unfold complete. rewrite (bind_Ret _ _ _ _ _ in_ctl_get).
  rewrite (bind_Ret _ _ _ _ _ (in_ctl_Ret _ s _ _ (x_upd_Ret p _ c t Ht))).
  by replace (xt_count t - 1 =? 0) with false by lia.
Qed.

(** The last completion of an allocation: the state in which the waiting work
    is looked at. *)
Definition alloc_ended (f : xfile) (qi ucid : Z) : server :=
  Server (NvmeXcow (x_nv c) (x_vm c) f (x_snap c) (x_sq c) (delete p (x_tickets c)) (x_next c)
            (<[Z.to_nat (locked_cluster t) := false]> (x_clock c)) (x_wq c))
    (sv_flight s) (sv_cqes s) (sv_nsq s) (sv_adm s)
    (sv_ncq s ++ [(qi, Response ucid (translate_uring_status (cq_res cqe)) (xt_aux t))]).

Lemma complete_last entry tl f qi ucid :
  let v := locked_cluster t in
  xt_count t = 1 → xt_last t = Some (entry, tl) →
  0 <= v < U64_MAX → is_Some (x_clock c !! Z.to_nat v) →
  unmake_tag (xt_tag t) = (qi, ucid) → has_queue s qi = true → qi ≠ qi_invalid →
  (cq_res cqe < 0 → f = x_file c) →
  (0 <= cq_res cqe → ∃ r, tx_write_commit entry tl (x_file c) = (Ret r, f)) →
  complete room extract cqe s =
    drain room extract (S (length (x_wq c))) v (cq_res cqe) (alloc_ended f qi ucid).
Proof using Ht.
  intros v Hn Hlast Hv [b Hb] Htag Hq Hqi Hneg Hpos. set (t1 := set_count 0 t).
  set (s1 := set_ctl (set_xtickets (<[p := t1]> (x_tickets c)) c) s).
  set (s2 := sadd_ncq (qi, Response ucid (translate_uring_status (cq_res cqe)) (xt_aux t)) s1).
  set (c3 := NvmeXcow (x_nv c) (x_vm c) f (x_snap c) (x_sq c) (delete p (x_tickets c))
    (x_next c) (x_clock c) (x_wq c)).
  set (s3 := set_ctl c3 s2).
  unfold complete. rewrite (bind_Ret _ _ _ _ _ in_ctl_get). rewrite Hn. change (1 - 1) with 0.
  rewrite (bind_Ret _ _ _ _ _ (in_ctl_Ret _ s _ _ (x_upd_Ret p (set_count 0) c t Ht))).
  fold t1 s1. cbn [negb Z.eqb].
  assert ((xt_tag t =? noop_tag) = false) as ->.
  { apply Z.eqb_neq. intros E. rewrite E in Htag. by injection Htag as <- _. }
  cbn [negb]. rewrite Htag.
  rewrite (bind_Ret _ _ _ _ _ (process_reply_Ret _ _ _ s1 Hq)).
  cbn [rp_status rp_aux]. fold s2.
  assert (x_tickets (sv_ctl s2) !! p = Some t1) as Ht2 by apply lookup_insert_eq.
  set (g := λ t, XTicket (xt_tag t) (xt_count t) (xt_aux t) (locked_cluster t)
    None (xt_iovecss t) (xt_nbytes t)).
  set (t2 := if cq_res cqe <? 0 then g t1 else t1).
  set (s2' := set_ctl (set_xtickets (<[p := t2]> (x_tickets c)) c) s2).
  rewrite (bind_Ret _ _ s2 tt s2').
  2:{ unfold s2', t2. destruct (cq_res cqe <? 0); [|by destruct s].
      rewrite (in_ctl_Ret _ s2 _ _ (x_upd_Ret p g _ t1 Ht2)).
      unfold set_xtickets. simpl. by rewrite insert_insert_eq. }
  rewrite (bind_Ret _ _ s2' tt s3).
  2:{ apply (in_ctl_Ret (x_delete p) s2' tt c3).
      rewrite (x_delete_Ret p _ t2 f); [|apply lookup_insert_eq|].
      - unfold set_xtickets, set_file, c3. simpl. by rewrite delete_insert_eq.
      - unfold commit_of, t2, g. simpl. destruct (Z.ltb_spec (cq_res cqe) 0); simpl; [by auto|].
        rewrite Hlast. auto. }
  fold v. replace (v =? U64_MAX) with false by lia.
  rewrite (bind_Ret _ _ _ _ _ (in_ctl_Ret _ s3 _ _ (clock_set_Ret v c3 b false (proj1 Hv) Hb))).
  set (s4 := set_ctl _ s3). by rewrite (bind_Ret get _ s4 s4 s4).
Qed.
End completions.

(** Nothing waits for the cluster. *)
Lemma drain_none room extract fuel v us s : extract_ok extract →
  (∀ w, (v, w) ∉ x_wq (sv_ctl s)) →
  drain room extract (S fuel) v us s = (Ret false, s).
Proof.
  intros Hex Hn. cbn [drain]. rewrite (bind_Ret get _ s s s) by done.
  by rewrite (proj2 (ex_none _ Hex v (x_wq (sv_ctl s))) Hn).
Qed.

(** ** Passes of a server with one queue *)

Section passes.
Context (ioc : Z + Z) (iov : Z → Z + nvme_id_ns) (room : list io_uring_sqe → bool).
Context (extract : Z → list (Z * work) → option (work * list (Z * work))) (sq : Z).

(** The queue is empty: the loop finds nothing in any of its turns. *)
Lemma busypoll_idle s n : sv_nsq s = [[]] →
  busypoll ioc iov room n [sq] s = (Ret (false, false), s).
Proof.
  intros Hn.
  assert (poll_all ioc iov room 0 [sq] s = (Ret (false, false), s)) as Hp.
  { unfold poll_all. rewrite (bind_Ret _ _ s (false, false) s); [done|].
    unfold queue_poll_once. rewrite (bind_Ret get _ s s s) by done. by rewrite Hn. }
  induction n as [|n IH]; [done|]. simpl. rewrite (bind_Ret _ _ _ _ _ Hp).
  by rewrite (bind_Ret _ _ _ _ _ IH).
Qed.

(** What the outcome of the one command of the queue leaves. *)
Definition after_submit (s : server) (cmd : nvme_command) (o : nm_outcome) (x : nvme_xcow) : server :=
  match o with
  | Replied r => Server x (sv_flight s) [] [[]] None
      (sv_ncq s ++ [(0, Response (command_id cmd) (rp_status r) (rp_aux r))])
  | Submitted _ => Server (set_xsq [] x) (sv_flight s ++ x_sq x) [] [[]] None (sv_ncq s)
  | Deferred => Server x (sv_flight s) [] [[]] None (sv_ncq s)
  end.

Lemma pass_submit s cmd o x : sv_nsq s = [[cmd]] → sv_cqes s = [] → sv_adm s = None →
  submit_async ioc iov room sq cmd (make_tag 0 (command_id cmd)) (sv_ctl s) = (Ret o, x) →
  run_pass ioc iov room extract [sq] s = (Ret true, after_submit s cmd o x).
Proof.
  intros Hn Hc Ha Hs. set (s0 := sset_nsq [[]] s). set (s1 := set_ctl x s0).
  set (a := match o with Submitted _ => true | _ => false end).
  set (s2 := match o with
             | Replied r => sadd_ncq (0, Response (command_id cmd) (rp_status r) (rp_aux r)) s1
             | _ => s1 end).
  assert (submit_cmds ioc iov room 0 sq [cmd] s0 = (Ret a, s2)) as Hsub.
  { cbn [submit_cmds]. rewrite (bind_Ret _ _ s0 o s1) by by apply in_ctl_Ret.
    rewrite (bind_Ret _ _ s1 a s2).
    - unfold mret, eff_ret, mbind, eff_bind. by rewrite orb_false_r.
    - unfold a, s2. destruct o; [done| |done].
      assert (has_queue s1 0 = true) as Hq by done.
      by rewrite (bind_Ret _ _ _ _ _ (process_reply_Ret _ _ _ s1 Hq)). }
  assert (queue_poll_once ioc iov room 0 sq s = (Ret (true, a), s2)) as Hq.
  { unfold queue_poll_once. rewrite (bind_Ret get _ s s s) by done. rewrite Hn. simpl.
    rewrite (bind_Ret (modify _) _ s tt s0) by (unfold modify, s0; by rewrite Hn).
    by rewrite (bind_Ret _ _ _ _ _ Hsub). }
  assert (busypoll ioc iov room busypoll_loops [sq] s = (Ret (true, a), s2)) as Hb.
  { unfold busypoll_loops. cbn [busypoll poll_all]. rewrite (bind_Ret _ _ s (true, a) s2); [done|].
    rewrite (bind_Ret _ _ _ _ _ Hq). unfold mbind, eff_bind, mret, eff_ret. by rewrite !orb_false_r. }
  unfold run_pass. rewrite (bind_Ret _ _ _ _ _ Hb).
  set (s3 := after_submit s cmd o x).
  rewrite (bind_Ret (kick a) _ s2 tt s3).
  2:{ unfold s3, a, s2, s1, s0. destruct s; simpl in *; subst. by destruct o. }
  rewrite (bind_Ret get _ s3 s3 s3) by done.
  assert (sv_cqes s3 = []) as Hc3 by (unfold s3; by destruct o).
  rewrite Hc3, take_nil. cbn [complete_all length].
  rewrite (bind_Ret (mret false) _ s3 false s3) by done.
  rewrite (bind_Ret (modify _) _ s3 tt s3).
  2:{ unfold modify. rewrite Hc3. unfold s3. by destruct o. }
  rewrite (bind_Ret (kick false) _ s3 tt s3) by done. done.
Qed.

(** The queue is empty and completions are ready. *)
Lemma pass_complete s s' : sv_nsq s = [[]] → sv_adm s = None →
  (length (sv_cqes s) <= COMPLETION_BURST)%nat →
  complete_all room extract (sv_cqes s) s = (Ret false, s') →
  sv_adm s' = None → sv_cqes s' = sv_cqes s →
  run_pass ioc iov room extract [sq] s = (Ret false, sset_cqes [] s').
Proof.
  intros Hn Ha Hl Hc Ha' Hc'. unfold run_pass. rewrite (bind_Ret _ _ _ _ _ (busypoll_idle s _ Hn)).
  rewrite (bind_Ret (kick false) _ s tt s) by done. rewrite (bind_Ret get _ s s s) by done.
  rewrite take_ge by done. rewrite (bind_Ret _ _ _ _ _ Hc).
  rewrite (bind_Ret (modify _) _ s' tt (sset_cqes [] s'))
    by (unfold modify; rewrite Hc', drop_all; done).
  rewrite (bind_Ret (kick false) _ _ tt (sset_cqes [] s')) by done.
  unfold adm_poll_once. rewrite (bind_Ret _ _ (sset_cqes [] s') tt (sset_cqes [] s')); [done|].
  rewrite (bind_Ret _ _ (sset_cqes [] s') (false, false) (sset_cqes [] s')); [done|].
  rewrite (bind_Ret get _ _ _ _ eq_refl). cbn [sv_adm sset_cqes]. by rewrite Ha'.
Qed.
End passes.
