(* ===== verification/XcowSrvThms.v ===== *)
(** * Properties of the copy-on-write server

    The transaction of a write to a new cluster, from the request (file
    NvmeXcow) to the completion (file XcowSrv), and the answers to reads. *)
From S2P Require Import Prelude Proto Vm Prp NvmeBase Xcow XcowThms BlkIter Uring.
From S2P Require Import Sender Encryptor NvmeXcow XcowSrv CowRuns.

(** A run with a known result. *)
(** ** A concrete controller on the image of file XcowThms *)

Definition demo_ctl : nvme_xcow :=
  NvmeXcow demo_ctrl (Mapping ∅ 262144) demo_xf demo_sn [] ∅ 0 [false; false; false] [].
(** Four blocks from block 16 on: a part of cluster 2. *)
Definition demo_cow_write (cid : Z) : nvme_command :=
  NvmeCommand nvme_cmd_write 0 cid 1 0 0 0 0x10000 0 16 0 3 0 0 0.
Definition demo_cow_read : nvme_command :=
  NvmeCommand nvme_cmd_read 0 9 1 0 0 0 0x10000 0 16 0 3 0 0 0.

Lemma demo_one_cluster x op cid : x_nv x = demo_ctrl →
  cluster_bits (x_file x) = (Ret 12, x_file x) →
  one_cluster x (NvmeCommand op 0 cid 1 0 0 0 0x10000 0 16 0 3 0 0 0) demo_ns 12.
Proof. intros Hn Hc. split; try done. by rewrite Hn. Qed.

(** The state of the file at each point of the transaction. *)
Definition demo_prep : outcome Z * xfile := tx_write_prep demo_sn 8192 demo_xf.
Definition demo_alloc : outcome (Z * Z) * xfile := alloc_data_clusters demo_sn 1 demo_prep.2.

Lemma demo_prep_run : tx_write_prep (x_snap demo_ctl) 8192 (x_file demo_ctl) =
  (Ret 16400, demo_prep.2).
Proof.
  unfold demo_prep. cbn [x_snap x_file demo_ctl].
  apply ret_val. vm_cast_no_check (eq_refl (@Ret Z 16400)).
Qed.
Lemma demo_prep_leaf : rd64 16400 demo_prep.2 = (Ret 0, demo_prep.2).
Proof. vm_cast_no_check (eq_refl (@Ret Z 0, demo_prep.2)). Qed.
Lemma demo_alloc_run : alloc_data_clusters (x_snap demo_ctl) 1 demo_prep.2 =
  (Ret (4096, 4096), demo_alloc.2).
Proof.
  unfold demo_alloc. cbn [x_snap demo_ctl].
  apply ret_val. vm_cast_no_check (eq_refl (@Ret (Z * Z) (4096, 4096))).
Qed.
Lemma demo_alloc_leaf : rd64 16400 demo_alloc.2 = (Ret 0, demo_alloc.2).
Proof. vm_cast_no_check (eq_refl (@Ret Z 0, demo_alloc.2)). Qed.
Lemma demo_alloc_size : cluster_size demo_alloc.2 = (Ret 4096, demo_alloc.2).
Proof. vm_cast_no_check (eq_refl (@Ret Z 4096, demo_alloc.2)). Qed.
Definition demo_vm_ctl : nvme_xcow :=
  set_xvm (Mapping {[0x10000 := 7; 0x20000 := 9]} 262144) demo_ctl.
Lemma demo_read_run : translate_read (x_snap demo_ctl) 8192 (x_file demo_ctl) =
  (Ret 0, x_file demo_ctl).
Proof. vm_cast_no_check (eq_refl (@Ret Z 0, x_file demo_ctl)). Qed.

(** A server whose cluster 2 is locked by an allocation; a write to it and one
    to cluster 1 wait. *)
Definition demo_ticket : xcow_ticket :=
  alloc_ticket (make_tag 0 3) 2 16400 0 4096 4096
    (set_aux_paddr 4096 (Z.lor (Z.lor AUXBITS_VALID AUXBITS_WRITABLE) AUXCMD_FORWARD)).
Definition demo_server : server :=
  Server (NvmeXcow demo_ctrl (Mapping ∅ 262144) demo_alloc.2 demo_sn [] {[0 := demo_ticket]} 1
            [false; true; true] [(2, Forward (make_tag 0 4) 16400); (1, Forward (make_tag 0 5) 16392)])
    [] [] [[]; []] None [].
Definition demo_commit : outcome (Z * Z) * xfile :=
  tx_write_commit 16400 (encode_leaf 4096 true) demo_alloc.2.
Lemma demo_commit_run : tx_write_commit 16400 (encode_leaf 4096 true) demo_alloc.2 =
  (Ret (encode_leaf 4096 true, 0), demo_commit.2).
Proof.
  unfold demo_commit. apply ret_val.
  vm_cast_no_check (eq_refl (@Ret (Z * Z) (encode_leaf 4096 true, 0))).
Qed.
Lemma demo_commit_leaf : rd64 16400 demo_commit.2 = (Ret (encode_leaf 4096 true), demo_commit.2).
Proof. vm_cast_no_check (eq_refl (@Ret Z (encode_leaf 4096 true), demo_commit.2)). Qed.

Lemma demo_bits : cluster_bits (x_file demo_ctl) = (Ret 12, x_file demo_ctl).
Proof. vm_cast_no_check (eq_refl (@Ret Z 12, x_file demo_ctl)). Qed.
Lemma demo_two op cid : cluster_of (NvmeCommand op 0 cid 1 0 0 0 0x10000 0 16 0 3 0 0 0) demo_ns 12 = 2.
Proof. reflexivity. Qed.

(** ** The work that waits for a cluster *)

(** What a completion with result [us] answers to a waiting request: the leaf
    its table holds by then, marked for forwarding. *)
Definition leaf_at (f : xfile) (entry : Z) : Z :=
  match rd64 entry f with (Ret tl, _) => tl | _ => 0 end.
Definition wait_answer (us : Z) (f : xfile) (we : Z * work) : list (Z * response) :=
  match we.2 with
  | Forward tag entry =>
    [((unmake_tag tag).1, Response (unmake_tag tag).2 (translate_uring_status us)
        (set_aux_leaf (leaf_at f entry) AUXCMD_FORWARD))]
  | WriteOne _ _ _ _ _ _ => []
  end.

(** The entries under a key, and the others. *)
Definition waits_for (v : Z) (q : list (Z * work)) := filter (λ we, we.1 = v) q.
Definition waits_else (v : Z) (q : list (Z * work)) := filter (λ we, we.1 ≠ v) q.

Lemma waits_none v q : (∀ w, (v, w) ∉ q) → waits_for v q = [] ∧ waits_else v q = q.
Proof.
  unfold waits_for, waits_else. induction q as [|[k w] q IH]; intros Hn; [done|].
  assert (k ≠ v) by (intros ->; apply (Hn w); left).
  rewrite filter_cons_False, filter_cons_True by done.
  destruct IH as [-> ->]; [|done]. intros w' Hin. apply (Hn w'). by right.
Qed.

(** A waiting request that can be answered: its queue exists and its entry is
    in the file. *)
Definition answerable (s : server) (f : xfile) (we : Z * work) : Prop :=
  ∃ tag entry tl, we.2 = Forward tag entry ∧ rd64 entry f = (Ret tl, f) ∧
    has_queue s (unmake_tag tag).1 = true ∧ (unmake_tag tag).1 ≠ qi_invalid.

(** The server after the work of the queue has become [q] and the answers [rs]
    were given. *)
Definition served (s : server) (q : list (Z * work)) (rs : list (Z * response)) : server :=
  Server (set_wq q (sv_ctl s)) (sv_flight s) (sv_cqes s) (sv_nsq s) (sv_adm s) (sv_ncq s ++ rs).

(** One turn of the loop over waiting requests. *)
Lemma drain_forward room extract fuel v us s tag entry wq tl :
  extract v (x_wq (sv_ctl s)) = Some (Forward tag entry, wq) →
  rd64 entry (x_file (sv_ctl s)) = (Ret tl, x_file (sv_ctl s)) →
  has_queue s (unmake_tag tag).1 = true → (unmake_tag tag).1 ≠ qi_invalid →
  drain room extract (S fuel) v us s = drain room extract fuel v us
    (served s wq (wait_answer us (x_file (sv_ctl s)) (v, Forward tag entry))).
Proof.
  intros Hex Hrd Hq Hi. cbn [drain]. rewrite (bind_Ret get _ s s s) by done. rewrite Hex.
  rewrite (bind_Ret _ _ _ _ _ (in_ctl_Ret (modify (set_wq wq)) s tt _ eq_refl)).
  set (c := set_wq wq (sv_ctl s)). set (s1 := set_ctl c s).
  rewrite (bind_Ret _ _ s1
    (Replied (reply_leaf tag (translate_uring_status us) tl AUXCMD_FORWARD)) s1).
  2:{ change s1 with (set_ctl c s1) at 2. apply in_ctl_Ret. unfold run_work.
      by rewrite (bind_Ret _ _ c tl c) by by apply x_in_file_same. }
  cbn [rp_tag reply_leaf]. destruct (unmake_tag tag) as [qi ucid] eqn:Et. simpl in Hq, Hi.
  replace (qi =? qi_invalid) with false by lia. cbn [negb].
  rewrite (bind_Ret _ _ _ _ _ (process_reply_Ret _ _ _ s1 Hq)).
  unfold served, s1, c, wait_answer, leaf_at. cbn [snd]. by rewrite Et, Hrd.
Qed.

(** All the waiting requests are answered, whichever order the container gives
    them in, and the rest of the work stays. *)
Lemma drain_answers room extract v us : extract_ok extract → ∀ fuel s,
  (length (x_wq (sv_ctl s)) < fuel)%nat →
  (∀ w, (v, w) ∈ x_wq (sv_ctl s) → answerable s (x_file (sv_ctl s)) (v, w)) →
  ∃ q rs, drain room extract fuel v us s = (Ret false, served s q rs) ∧
    q ≡ₚ waits_else v (x_wq (sv_ctl s)) ∧
    rs ≡ₚ waits_for v (x_wq (sv_ctl s)) ≫= wait_answer us (x_file (sv_ctl s)).
Proof.
  intros Hex. induction fuel as [|fuel IH]; intros s Hlen Hans; [lia|].
  destruct (extract v (x_wq (sv_ctl s))) as [[w wq]|] eqn:E.
  - pose proof (ex_some _ Hex _ _ _ _ E) as HP.
    destruct (Hans w) as (tag & entry & tl & Hw & Hrd & Hq & Hi); [by rewrite HP; left|].
    simpl in Hw. subst w. rewrite (drain_forward _ _ _ _ _ _ _ _ _ _ E Hrd Hq Hi).
    set (s1 := served _ _ _). destruct (IH s1) as (q & rs & Hd & Hq' & Hrs).
    { apply Permutation_length in HP. simpl in HP |- *. lia. }
    { intros w Hin. apply Hans. rewrite HP. by right. }
    exists q, (wait_answer us (x_file (sv_ctl s)) (v, Forward tag entry) ++ rs). split_and!.
    + rewrite Hd. unfold served, s1, served. simpl. by rewrite <- app_assoc.
    + rewrite Hq'. unfold waits_else. rewrite HP. rewrite filter_cons_False by (simpl; tauto). done.
    + rewrite Hrs. unfold waits_for. rewrite HP. by rewrite filter_cons_True.
  - rewrite (ex_none _ Hex) in E. exists (x_wq (sv_ctl s)), []. split_and!.
    + cbn [drain]. rewrite (bind_Ret get _ s s s) by done.
      rewrite (proj2 (ex_none _ Hex v (x_wq (sv_ctl s))) E).
      unfold mret, eff_ret, served. rewrite app_nil_r. by destruct s as [[]].
    + by rewrite (proj2 (waits_none _ _ E)).
    + by rewrite (proj1 (waits_none _ _ E)).
Qed.

(** ** Properties *)

(** A write to a cluster without data of its own is a transaction that is
    begun: the request waits under a ticket for a new cluster, which is
    zeroed, or filled by a copy whose write is linked to its read; the
    ticket holds the cluster, the commit of the leaf and the answer, the
    address of the new cluster marked writable; the cluster is locked and its
    leaf is the old one. While it is locked another write to it is put in the
    queue of waiting work and allocates nothing. *)
Theorem write_begins_transaction ioc iov room x sq cmd tag ns cb entry tl f1 f2 outoff n cs :
  let v := cluster_of cmd ns cb in
  let ans := set_aux_paddr outoff (Z.lor (Z.lor AUXBITS_VALID AUXBITS_WRITABLE) AUXCMD_FORWARD) in
  let t := alloc_ticket tag v entry tl outoff cs ans in
  one_cluster x cmd ns cb → sq ≠ 0 → opcode cmd = nvme_cmd_write → 0 <= slba cmd →
  (∀ q, room q = true) →
  tx_write_prep (x_snap x) (addr_of cmd ns) (x_file x) = (Ret entry, f1) →
  rd64 entry f1 = (Ret tl, f1) → needs_alloc tl = true →
  x_clock x !! Z.to_nat v = Some false →
  alloc_data_clusters (x_snap x) 1 f1 = (Ret (outoff, n), f2) →
  rd64 entry f2 = (Ret tl, f2) → cluster_size f2 = (Ret cs, f2) →
  ∃ x1, submit_async ioc iov room sq cmd tag x = (Ret (Submitted (x_next x)), x1) ∧
    x_file x1 = f2 ∧ x_snap x1 = x_snap x ∧
    x_sq x1 = x_sq x ++ alloc_entries (x_next x) tl outoff cs ∧
    x_tickets x1 = <[x_next x := t]> (x_tickets x) ∧
    x_clock x1 = <[Z.to_nat v := true]> (x_clock x) ∧ x_wq x1 = x_wq x ∧
    ∀ cmd' tag' f3 entry' tl',
      one_cluster x1 cmd' ns cb → opcode cmd' = nvme_cmd_write → cluster_of cmd' ns cb = v →
      tx_write_prep (x_snap x) (addr_of cmd' ns) f2 = (Ret entry', f3) →
      rd64 entry' f3 = (Ret tl', f3) →
      submit_async ioc iov room sq cmd' tag' x1 =
        (Ret Deferred, set_wq (x_wq x ++ [(v, Forward tag' entry')]) (set_file f3 x1)).
Proof.
  intros v ans t Hoc Hsq Hop Hslba Hroom Hprep Hrd Hna Hck Hal Hrd2 Hcs.
  set (x1 := alloc_begun x cmd tag ns cb entry tl outoff cs f2).
  exists x1. split_and!; try done.
  - by apply (write_begins ioc iov room x sq cmd tag Hsq ns cb Hoc Hop Hslba entry tl f1 outoff n).
  - intros cmd' tag' f3 entry' tl' Hoc' Hop' Hv' Hprep' Hrd'.
    assert (0 <= slba cmd') as Hslba'.
    { destruct (Z.le_gt_cases 0 (slba cmd')) as [|Hneg]; [done|]. exfalso.
      assert (cluster_of cmd' ns cb < 0) by (apply Z.shiftr_neg; lia).
      assert (0 <= cluster_of cmd ns cb) by (by apply Z.shiftr_nonneg). fold v in H0. lia. }
    rewrite (write_locked ioc iov room x1 sq cmd' tag' Hsq ns cb Hoc' Hop' Hslba' entry' tl' f3);
      [by rewrite Hv'|done|done|].
    rewrite Hv'. apply list_lookup_insert_eq. by eapply lookup_lt_Some.
Qed.

Lemma write_begins_transaction_witness :
  let cmd := demo_cow_write 3 in
  let v := cluster_of cmd demo_ns 12 in
  let ans := set_aux_paddr 4096 (Z.lor (Z.lor AUXBITS_VALID AUXBITS_WRITABLE) AUXCMD_FORWARD) in
  let t := alloc_ticket 7 v 16400 0 4096 4096 ans in
  ∃ x1, submit_async (inl 5) (λ _, inl 5) (λ _, true) 1 cmd 7 demo_ctl =
      (Ret (Submitted (x_next demo_ctl)), x1) ∧
    x_file x1 = demo_alloc.2 ∧ x_snap x1 = x_snap demo_ctl ∧
    x_sq x1 = x_sq demo_ctl ++ alloc_entries (x_next demo_ctl) 0 4096 4096 ∧
    x_tickets x1 = <[x_next demo_ctl := t]> (x_tickets demo_ctl) ∧
    x_clock x1 = <[Z.to_nat v := true]> (x_clock demo_ctl) ∧ x_wq x1 = x_wq demo_ctl ∧
    ∀ cmd' tag' f3 entry' tl',
      one_cluster x1 cmd' demo_ns 12 → opcode cmd' = nvme_cmd_write →
      cluster_of cmd' demo_ns 12 = v →
      tx_write_prep (x_snap demo_ctl) (addr_of cmd' demo_ns) demo_alloc.2 = (Ret entry', f3) →
      rd64 entry' f3 = (Ret tl', f3) →
      submit_async (inl 5) (λ _, inl 5) (λ _, true) 1 cmd' tag' x1 =
        (Ret Deferred, set_wq (x_wq demo_ctl ++ [(v, Forward tag' entry')]) (set_file f3 x1)).
Proof.
  apply (write_begins_transaction (inl 5) (λ _, inl 5) (λ _, true) demo_ctl 1 (demo_cow_write 3) 7
    demo_ns 12 16400 0 demo_prep.2 demo_alloc.2 4096 4096 4096).
  - by apply demo_one_cluster, demo_bits.
  - discriminate.
  - reflexivity.
  - by vm_compute.
  - reflexivity.
  - exact demo_prep_run.
  - exact demo_prep_leaf.
  - reflexivity.
  - reflexivity.
  - exact demo_alloc_run.
  - exact demo_alloc_leaf.
  - exact demo_alloc_size.
Defined.

(** C38. The last completion of an allocation ends its transaction: the
    request is answered with the status of the result and the words its
    ticket holds, the new leaf is committed if the operation succeeded and
    the table is left alone if it failed, the ticket is gone, the cluster is
    unlocked, and the work that waited for it, in whatever order the container
    gives it, is answered with the leaf the table holds by then; work for other
    clusters goes on waiting. The work must be requests of one cluster whose
    tickets are those of the guest ([answerable]): a piece of a larger request
    that submits an operation ends the loop, and what waits behind it is left
    (see [second_piece_stays]). *)
Theorem completion_ends_transaction room extract s cqe t entry tl f qi ucid :
  let c := sv_ctl s in
  let v := locked_cluster t in
  extract_ok extract →
  x_tickets c !! cq_data cqe = Some t → xt_count t = 1 → xt_last t = Some (entry, tl) →
  0 <= v < U64_MAX → is_Some (x_clock c !! Z.to_nat v) →
  unmake_tag (xt_tag t) = (qi, ucid) → has_queue s qi = true → qi ≠ qi_invalid →
  (cq_res cqe < 0 → f = x_file c) →
  (0 <= cq_res cqe → ∃ r, tx_write_commit entry tl (x_file c) = (Ret r, f)) →
  (∀ w, (v, w) ∈ x_wq c → answerable s f (v, w)) →
  ∃ s' rs, complete room extract cqe s = (Ret false, s') ∧
    x_file (sv_ctl s') = f ∧ x_snap (sv_ctl s') = x_snap c ∧ x_sq (sv_ctl s') = x_sq c ∧
    x_tickets (sv_ctl s') = delete (cq_data cqe) (x_tickets c) ∧
    x_clock (sv_ctl s') = <[Z.to_nat v := false]> (x_clock c) ∧
    x_wq (sv_ctl s') ≡ₚ waits_else v (x_wq c) ∧
    sv_ncq s' = sv_ncq s ++
      (qi, Response ucid (translate_uring_status (cq_res cqe)) (xt_aux t)) :: rs ∧
    rs ≡ₚ waits_for v (x_wq c) ≫= wait_answer (cq_res cqe) f.
Proof.
  intros c v Hex Ht Hn Hlast Hv Hb Htag Hq Hqi Hneg Hpos Hans.
  set (s4 := alloc_ended s cqe t f qi ucid).
  destruct (drain_answers room extract v (cq_res cqe) Hex (S (length (x_wq c))) s4)
    as (q & rs & Hd & Hqp & Hrs); [exact (Nat.lt_succ_diag_r _)|exact Hans|].
  exists (served s4 q rs), rs. split_and!; try done; [|by simpl; rewrite <- app_assoc].
  rewrite <- Hd. by apply complete_last with entry tl.
Qed.

Lemma completion_ends_transaction_witness :
  let c := sv_ctl demo_server in
  ∃ s' rs, complete (λ _, true) extract_first (Cqe 0 0) demo_server = (Ret false, s') ∧
    x_file (sv_ctl s') = demo_commit.2 ∧ x_snap (sv_ctl s') = x_snap c ∧
    x_sq (sv_ctl s') = x_sq c ∧ x_tickets (sv_ctl s') = delete 0 (x_tickets c) ∧
    x_clock (sv_ctl s') = <[Z.to_nat 2 := false]> (x_clock c) ∧
    x_wq (sv_ctl s') ≡ₚ waits_else 2 (x_wq c) ∧
    sv_ncq s' = sv_ncq demo_server ++
      (0, Response 3 (translate_uring_status 0) (xt_aux demo_ticket)) :: rs ∧
    rs ≡ₚ waits_for 2 (x_wq c) ≫= wait_answer 0 demo_commit.2.
Proof.
  apply (completion_ends_transaction (λ _, true) extract_first demo_server (Cqe 0 0) demo_ticket
    16400 (encode_leaf 4096 true) demo_commit.2 0 3).
  - exact extract_first_ok.
  - reflexivity.
  - reflexivity.
  - reflexivity.
  - by vm_compute.
  - by eexists.
  - reflexivity.
  - reflexivity.
  - discriminate.
  - intros H. discriminate H.
  - intros _. eexists. exact demo_commit_run.
  - intros w Hw. assert (w = Forward (make_tag 0 4) 16400) as ->.
    { simpl in Hw. apply elem_of_cons in Hw as [[= ->]|Hw]; [done|].
      by apply list_elem_of_singleton in Hw as [= ]. }
    exists (make_tag 0 4), 16400, (encode_leaf 4096 true). split_and!;
      [reflexivity|exact demo_commit_leaf|reflexivity|discriminate].
Defined.

(** C39. A read inside of one cluster is forwarded to the cluster's leaf when
    it has data, and nothing else changes. When it has none, the pages of the
    request are filled with zeros, every other byte of guest memory keeps its
    value, and the request is answered without going to the disk. The pages
    must not overlap the PRP lists that describe them. *)
Theorem read_one_cluster_exact ioc iov room x sq cmd tag ns cb tl pages :
  let segs := segments pages (cmd_bytes cmd ns) in
  one_cluster x cmd ns cb → transfer_ok (x_nv x) (x_vm x) cmd ns pages →
  sq ≠ 0 → opcode cmd = nvme_cmd_read →
  translate_read (x_snap x) (addr_of cmd ns) (x_file x) = (Ret tl, x_file x) →
  (∀ w, reads_word (x_vm x) (PrpIter (CmdList (prp1 cmd) (prp2 cmd)) 0 (cmd_bytes cmd ns)) w →
    Forall (λ y, apart y (w, 8)) segs) →
  if is_empty tl then
    ∃ vm1, submit_async ioc iov room sq cmd tag x =
      (Ret (Replied (reply_paddr tag NVME_SC_SUCCESS 0 AUXBITS_VALID)), set_xvm vm1 x) ∧
      ∀ i, aget (vm_bytes vm1) i = if covers segs i then 0 else aget (vm_bytes (x_vm x)) i
  else submit_async ioc iov room sq cmd tag x =
    (Ret (Replied (reply_leaf tag NVME_SC_SUCCESS tl AUXCMD_FORWARD)), x).
Proof.
  intros segs Hoc Hok Hsq Hop Htr Hap. destruct (is_empty tl) eqn:He.
  - by apply (read_absent ioc iov room x sq cmd tag Hsq ns cb Hoc tl pages).
  - by apply (read_present ioc iov room x sq cmd tag Hsq ns cb Hoc tl pages).
Qed.

Lemma read_one_cluster_exact_witness :
  ∃ vm1, submit_async (inl 5) (λ _, inl 5) (λ _, true) 1 demo_cow_read 7 demo_vm_ctl =
    (Ret (Replied (reply_paddr 7 NVME_SC_SUCCESS 0 AUXBITS_VALID)), set_xvm vm1 demo_vm_ctl) ∧
    ∀ i, aget (vm_bytes vm1) i =
      if covers (segments [0x10000] 2048) i then 0 else aget {[0x10000 := 7; 0x20000 := 9]} i.
Proof.
  apply (read_one_cluster_exact (inl 5) (λ _, inl 5) (λ _, true) demo_vm_ctl 1 demo_cow_read 7
    demo_ns 12 0 [0x10000]).
  - by apply demo_one_cluster, demo_bits.
  - split; try done; [by exists 5|by apply layout_one|]. repeat constructor; discriminate.
  - discriminate.
  - reflexivity.
  - exact demo_read_run.
  - intros w Hr. exfalso. inversion Hr as [_ Hw|it' Hi Hr']; [by apply elem_of_nil in Hw|].
    vm_compute in Hi. injection Hi as <-. by inversion Hr' as [He|? Hi].
Defined.

(** ** Observations

    Three behaviours of the code that its comments do not announce. *)

(** The offset of a piece of a write is in blocks, but it is added to the byte
    address of the cluster; a read shifts it first. *)
Lemma write_one_location room p iovecs entry off fl x tl :
  room (x_sq x) = true → rd64 entry (x_file x) = (Ret tl, x_file x) →
  do_write_one room p iovecs entry off fl x =
    (Ret (Submitted p), set_xsq (x_sq x ++
       [Sqe (IoWritev iovecs (u64 (decode_leaf tl + off)) fl) 0 true false p]) x).
Proof.
  intros Hr Hrd. unfold do_write_one.
  rewrite (bind_Ret _ _ x tl x) by by apply x_in_file_same.
  unfold x_in_sq, zoom, queue_writev, queue_sqe, mbind, eff_bind, get, put, mret, eff_ret.
  simpl. by rewrite Hr.
Qed.

(** A ticket of two completions takes its status from the last one: the error
    of the first is lost. *)
Example piece_error_is_lost f :
  let t := set_count 2 (new_xcow_ticket (make_tag 0 3)) in
  let s := Server (NvmeXcow no_id (Mapping ∅ 0) f demo_sn [] {[0 := t]} 1 [] []) [] [] [[]] None [] in
  sv_ncq (complete_all (λ _, true) extract_first [Cqe 0 (-5); Cqe 0 512] s).2 =
    [(0, Response 3 NVME_SC_SUCCESS no_aux)].
Proof. vm_compute. reflexivity. Qed.

(** Work that submits a ticket ends the loop over a cluster's waiting work: the
    cluster is free, nothing is under way for it, and the second piece waits
    until some later allocation of the same cluster. *)
Example second_piece_stays :
  let w p := (2, WriteOne 7 p 0 16400 0 0) in
  let s := Server (NvmeXcow demo_ctrl (Mapping ∅ 262144) demo_alloc.2 demo_sn []
    {[0 := demo_ticket; 1 := set_count 1 (new_xcow_ticket 7); 2 := set_count 1 (new_xcow_ticket 9)]}
    3 [false; true; true] [w 1; w 2]) [] [] [[]] None [] in
  let s' := sv_ctl (complete (λ _, true) extract_first (Cqe 0 0) s).2 in
  (x_wq s', x_clock s', length (x_sq s')) = ([w 2], [false; true; false], 1%nat).
Proof.
  cbv zeta. vm_cast_no_check (eq_refl ([(2, WriteOne 7 2 0 16400 0 0)], [false; true; false], 1%nat)).
Qed.
