(* ===== verification/XcowSrvInv.v ===== *)
(** * The cluster locks of the copy-on-write server

    The relation between locked clusters and the tickets that hold them, kept
    by every operation of the controller (file NvmeXcow) and by every pass of
    the server (file XcowSrv), whether it returns or throws. *)
From S2P Require Import Prelude Proto Vm Prp NvmeBase Xcow XcowThms BlkIter Uring.
From S2P Require Import Sender Encryptor NvmeXcow XcowSrv CowRuns XcowSrvThms.

(** ** The invariant *)

(** A ticket that locks no cluster; its number is not given again. *)
Definition plain (p : Z) (s : nvme_xcow) : Prop :=
  p < x_next s ∧ ∀ t, x_tickets s !! p = Some t → locked_cluster t = U64_MAX.

Record locks_ok (s : nvme_xcow) : Prop := {
  lo_size : Z.of_nat (length (x_clock s)) < U64_MAX;
  lo_fresh p t : x_tickets s !! p = Some t → p < x_next s;
  lo_held p t : x_tickets s !! p = Some t → locked_cluster t ≠ U64_MAX →
    0 <= locked_cluster t ∧ x_clock s !! Z.to_nat (locked_cluster t) = Some true;
  lo_unique p q t u : x_tickets s !! p = Some t → x_tickets s !! q = Some u →
    locked_cluster t = locked_cluster u → locked_cluster t ≠ U64_MAX → p = q;
  lo_owner (v : nat) : x_clock s !! v = Some true →
    ∃ p t, x_tickets s !! p = Some t ∧ locked_cluster t = Z.of_nat v;
  lo_work k tag p i e o fl : (k, WriteOne tag p i e o fl) ∈ x_wq s → plain p s;
}.

(** [m] run on [s] leaves the invariant and the tickets [ps] plain. *)
Definition post {A} (ps : list Z) (m : xceff A) (s : nvme_xcow) : Prop :=
  locks_ok (m s).2 ∧ Forall (λ p, plain p (m s).2) ps.
Definition keeps {A} (ps : list Z) (m : xceff A) : Prop :=
  ∀ s, locks_ok s → Forall (λ p, plain p s) ps → post ps m s.

Create HintDb locks.

Lemma post_bind {A B} ps (m : xceff A) (f : A → xceff B) s :
  post ps m s → (∀ a s', m s = (Ret a, s') → locks_ok s' → Forall (λ p, plain p s') ps →
    post ps (f a) s') → post ps (m ≫= f) s.
Proof.
  unfold post, mbind, eff_bind. destruct (m s) as [[a|e] s'] eqn:E; [|done].
  intros [H1 H2] Hf. by apply Hf.
Qed.

Lemma keeps_bind {A B} ps (m : xceff A) (f : A → xceff B) :
  keeps ps m → (∀ a, keeps ps (f a)) → keeps ps (m ≫= f).
Proof. intros Hm Hf s Hs Hp. apply post_bind; [by apply Hm|]. intros a s' _ ??. by apply Hf. Qed.

Lemma keeps_catch {A} ps (m : xceff A) h : keeps ps m → (∀ e, keeps ps (h e)) →
  keeps ps (catch m h).
Proof.
  intros Hm Hh s Hs Hp. specialize (Hm s Hs Hp). unfold post, catch in *.
  destruct (m s) as [[a|e] s']; [done|]. destruct Hm. by apply Hh.
Qed.

(** Operations that do not touch the tickets, the locks or the waiting work. *)
Definition core (s : nvme_xcow) := (x_tickets s, x_next s, x_clock s, x_wq s).
Definition quiet {A} (m : xceff A) : Prop := ∀ s, core (m s).2 = core s.

Lemma core_locks s s' : core s' = core s → locks_ok s → locks_ok s'.
Proof.
  unfold core. intros [= E1 E2 E3 E4] [H1 H2 H3 H4 H5 H6].
  split; unfold plain in *; rewrite ?E1, ?E2, ?E3, ?E4; eauto.
Qed.
Lemma core_plain s s' p : core s' = core s → plain p s → plain p s'.
Proof. unfold core, plain. intros [= E1 E2 _ _]. by rewrite E1, E2. Qed.

Lemma quiet_keeps {A} ps (m : xceff A) : quiet m → keeps ps m.
Proof.
  intros Hq s Hs Hp. split; [by apply (core_locks s)|].
  eapply Forall_impl; [exact Hp|]. intros p. by apply core_plain.
Qed.

Lemma quiet_bind {A B} (m : xceff A) (f : A → xceff B) : quiet m → (∀ a, quiet (f a)) →
  quiet (m ≫= f).
Proof.
  intros Hm Hf s. specialize (Hm s). unfold mbind, eff_bind. destruct (m s) as [[a|e] s']; [|done].
  by rewrite Hf.
Qed.
Lemma quiet_ret {A} (a : A) : quiet (mret a). Proof. done. Qed.
Lemma quiet_throw {A} e : quiet (throw e : xceff A). Proof. done. Qed.
Lemma quiet_get : quiet get. Proof. done. Qed.
Lemma quiet_lift {A} (o : outcome A) : quiet (lift o). Proof. done. Qed.
Lemma quiet_file {A} (m : xeff A) : quiet (x_in_file m).
Proof. intros s. unfold x_in_file, zoom. by destruct (m (x_file s)). Qed.
Lemma quiet_nv {A} (m : eff nvme A) : quiet (x_in_nv m).
Proof. intros s. unfold x_in_nv, zoom. by destruct (m (x_nv s)). Qed.
Lemma quiet_sq {A} (m : eff (list io_uring_sqe) A) : quiet (x_in_sq m).
Proof. intros s. unfold x_in_sq, zoom. by destruct (m (x_sq s)). Qed.
Lemma quiet_zero sp : quiet (x_zero sp). Proof. done. Qed.
Lemma quiet_snap sn : quiet (modify (set_snap sn)). Proof. done. Qed.
Lemma quiet_clock_get v : quiet (clock_get v).
Proof.
  intros s. unfold clock_get, mbind, eff_bind, get. destruct (v <? 0); [done|].
  by destruct (x_clock s !! Z.to_nat v).
Qed.
Lemma quiet_x_get p : quiet (x_get p).
Proof. intros s. unfold x_get, mbind, eff_bind, get. by destruct (x_tickets s !! p). Qed.

#[export] Hint Resolve quiet_bind quiet_ret quiet_throw quiet_get quiet_lift quiet_file quiet_nv
  quiet_sq quiet_zero quiet_snap quiet_clock_get quiet_x_get : locks.

Lemma quiet_cluster_shift lbas : quiet (cluster_shift lbas).
Proof. unfold cluster_shift. apply quiet_bind; auto with locks. Qed.
Lemma quiet_zero_lbas n : ∀ lit, quiet (zero_lbas n lit).
Proof.
  induction n as [|n IH]; intros lit; simpl; [done|].
  repeat (apply quiet_bind; [auto with locks|intros ?]). apply IH.
Qed.
Lemma quiet_gather_lbas n : ∀ v lit, quiet (gather_lbas n v lit).
Proof.
  induction n as [|n IH]; intros v lit; simpl; [done|].
  apply quiet_bind; [auto with locks|intros s]. apply quiet_bind; [auto with locks|intros [o l]].
  apply quiet_bind; [auto with locks|intros ?]. apply IH.
Qed.
Lemma quiet_zero_pages n : ∀ pit, quiet (zero_pages n pit).
Proof.
  induction n as [|n IH]; intros pit; simpl; [done|]. case_match; [done|].
  repeat (apply quiet_bind; [auto with locks|intros ?]). apply IH.
Qed.
Lemma quiet_write_one room p v e o fl : quiet (do_write_one room p v e o fl).
Proof. unfold do_write_one. repeat (apply quiet_bind; [auto with locks|intros ?]). done. Qed.
#[export] Hint Resolve quiet_cluster_shift quiet_zero_lbas quiet_gather_lbas quiet_zero_pages
  quiet_write_one quiet_keeps : locks.

(** ** Tickets *)

(** A state whose tickets hold the same locks. *)
Lemma same_locks s p t t' : x_tickets s !! p = Some t → locked_cluster t' = locked_cluster t →
  ∀ q u, x_tickets (set_xtickets (<[p := t']> (x_tickets s)) s) !! q = Some u →
    ∃ u0, x_tickets s !! q = Some u0 ∧ locked_cluster u = locked_cluster u0.
Proof.
  intros Ht He q u. simpl. destruct (decide (q = p)) as [->|Hne].
  - rewrite lookup_insert_eq. intros [= <-]. by exists t.
  - rewrite lookup_insert_ne by done. intros H. by exists u.
Qed.

Lemma upd_plain s p t t' q : x_tickets s !! p = Some t → locked_cluster t' = locked_cluster t →
  plain q s → plain q (set_xtickets (<[p := t']> (x_tickets s)) s).
Proof.
  intros Ht He [H1 H2]. split; [done|]. intros u Hu.
  destruct (same_locks _ _ _ _ Ht He _ _ Hu) as (u0 & Hu0 & ->). eauto.
Qed.

Lemma upd_locks s p t t' : x_tickets s !! p = Some t → locked_cluster t' = locked_cluster t →
  locks_ok s → locks_ok (set_xtickets (<[p := t']> (x_tickets s)) s).
Proof.
  intros Ht He [H1 H2 H3 H4 H5 H6]. pose proof (same_locks _ _ _ _ Ht He) as Hs.
  split; [done|..].
  - intros q u Hu. destruct (Hs _ _ Hu) as (u0 & Hu0 & _). by apply (H2 q u0).
  - intros q u Hu. destruct (Hs _ _ Hu) as (u0 & Hu0 & ->). eauto.
  - intros q r u w Hu Hw. destruct (Hs _ _ Hu) as (u0 & Hu0 & ->).
    destruct (Hs _ _ Hw) as (w0 & Hw0 & ->). eauto.
  - intros v Hv. destruct (H5 v Hv) as (q & u & Hu & Hl). simpl.
    destruct (decide (q = p)) as [->|Hne].
    + exists p, t'. rewrite lookup_insert_eq. split; [done|]. rewrite He. congruence.
    + exists q, u. by rewrite lookup_insert_ne.
  - intros k tag q i e o fl Hw. apply (upd_plain _ _ t); [done..|]. by eapply H6.
Qed.

Lemma keeps_upd ps p f : (∀ t, locked_cluster (f t) = locked_cluster t) → keeps ps (x_upd p f).
Proof.
  intros Hf s Hs Hp. unfold post, x_upd. destruct (x_tickets s !! p) as [t|] eqn:E.
  - rewrite (bind_Ret _ _ _ _ _ (x_get_Ret _ _ _ E)). simpl. split.
    + by apply (upd_locks _ _ t).
    + eapply Forall_impl; [exact Hp|]. intros q. by apply (upd_plain _ _ t).
  - unfold x_get, mbind, eff_bind, get. by rewrite E.
Qed.

(** A state in which ticket [p] is gone. *)
Definition without (p : Z) (s : nvme_xcow) : nvme_xcow :=
  set_xtickets (delete p (x_tickets s)) s.

Lemma without_lookup p s q u : x_tickets (without p s) !! q = Some u →
  q ≠ p ∧ x_tickets s !! q = Some u.
Proof. simpl. by intros [? ?]%lookup_delete_Some. Qed.

Lemma without_plain p s q : plain q s → plain q (without p s).
Proof. intros [H1 H2]. split; [done|]. intros t [_ Ht]%without_lookup. eauto. Qed.

Lemma without_locks p s : locks_ok s → plain p s → locks_ok (without p s).
Proof.
  intros [H1 H2 H3 H4 H5 H6] [_ Hpl]. split; [done|..].
  - intros q u [_ Hu]%without_lookup. eauto.
  - intros q u [_ Hu]%without_lookup. eauto.
  - intros q r u w [_ Hu]%without_lookup [_ Hw]%without_lookup. eauto.
  - intros v Hv. destruct (H5 v Hv) as (q & u & Hu & Hl). exists q, u. split; [|done].
    simpl. apply lookup_delete_Some. split; [|done]. intros ->.
    apply Hpl in Hu. apply lookup_lt_Some in Hv. simpl in Hv. lia.
  - intros k tag q i e o fl Hw. apply without_plain. by eapply H6.
Qed.

(** The destructor either throws out of the commit or removes the ticket. *)
Lemma x_delete_run p s : ∃ s', core s' = core s ∧
  (x_delete p s = (Ret tt, without p s') ∨ ∃ e, x_delete p s = (Throw e, s')).
Proof.
  unfold x_delete, x_get, mbind, eff_bind, get.
  destruct (x_tickets s !! p) as [t|]; [|by exists s; split; [|right; eexists]].
  cbn [mret eff_ret]. unfold mret, eff_ret. destruct (xt_last t) as [[entry tl]|].
  - pose proof (quiet_file (tx_write_commit entry tl) s) as Hq.
    destruct (x_in_file _ s) as [[r|e] s']; exists s'; split; try done; [by left|].
    right. by exists e.
  - exists s. split; [done|]. by left.
Qed.

Lemma keeps_delete ps p : p ∈ ps → keeps ps (x_delete p).
Proof.
  intros Hin s Hs Hp. rewrite Forall_forall in Hp.
  destruct (x_delete_run p s) as (s' & Hc & Hr). unfold post.
  assert (locks_ok s') as Hs' by by apply (core_locks s).
  assert (∀ q, q ∈ ps → plain q s') as Hp'
    by (intros q Hq; apply (core_plain s); [done|by apply Hp]).
  destruct Hr as [->|(e & ->)]; simpl.
  - split; [apply without_locks; auto|]. apply Forall_forall. intros q Hq. apply without_plain. auto.
  - split; [done|]. by apply Forall_forall.
Qed.

(** A new ticket. *)
Definition with_ticket (t : xcow_ticket) (s : nvme_xcow) : nvme_xcow :=
  NvmeXcow (x_nv s) (x_vm s) (x_file s) (x_snap s) (x_sq s)
    (<[x_next s := t]> (x_tickets s)) (x_next s + 1) (x_clock s) (x_wq s).

Lemma with_ticket_lookup t s q u : locks_ok s →
  x_tickets (with_ticket t s) !! q = Some u ↔
    (q = x_next s ∧ u = t) ∨ (q < x_next s ∧ x_tickets s !! q = Some u).
Proof.
  intros Hs. simpl. destruct (decide (q = x_next s)) as [->|Hne].
  - rewrite lookup_insert_eq. split; [intros [= <-]; by left|]. intros [[_ ->]|[? _]]; [done|lia].
  - rewrite lookup_insert_ne by done. split.
    + intros Hu. right. split; [by eapply lo_fresh|done].
    + intros [[? _]|[_ ?]]; done.
Qed.

Lemma with_ticket_plain t s q : locks_ok s → plain q s → plain q (with_ticket t s).
Proof.
  intros Hs [H1 H2]. split; [simpl; lia|]. intros u Hu.
  apply with_ticket_lookup in Hu as [[-> _]|[_ Hu]]; [lia|by apply H2|done].
Qed.
Lemma with_ticket_new t s : locked_cluster t = U64_MAX → plain (x_next s) (with_ticket t s).
Proof. intros H. split; [simpl; lia|]. simpl. rewrite lookup_insert_eq. by intros u [= <-]. Qed.

Lemma with_ticket_locks t s : locked_cluster t = U64_MAX → locks_ok s →
  locks_ok (with_ticket t s).
Proof.
  intros Ht Hs. pose proof Hs as [H1 H2 H3 H4 H5 H6]. split; [done|..].
  - intros p u [[-> ->]|[? _]]%with_ticket_lookup; simpl; try lia; done.
  - intros p u [[-> ->]|[_ Hu]]%with_ticket_lookup Hl; try done; eauto.
  - intros p q u w Hu Hw He Hl.
    apply with_ticket_lookup in Hu as [[-> ->]|[_ Hu]], Hw as [[-> ->]|[_ Hw]];
      try done; [congruence|eauto].
  - intros v Hv. destruct (H5 v Hv) as (q & u & Hu & Hl). exists q, u. split; [|done].
    apply with_ticket_lookup; [done|]. right. eauto.
  - intros k tag q i e o fl Hw. apply with_ticket_plain; [done|]. by eapply H6.
Qed.

Lemma keeps_new {A} ps t (f : Z → xceff A) : locked_cluster t = U64_MAX →
  (∀ p, keeps (p :: ps) (f p)) → keeps ps (x_new t ≫= f).
Proof.
  intros Ht Hf s Hs Hp. unfold post.
  rewrite (bind_Ret _ _ s (x_next s) (with_ticket t s)) by done.
  destruct (Hf (x_next s) (with_ticket t s)) as [H1 H2].
  - by apply with_ticket_locks.
  - apply Forall_cons. split; [by apply with_ticket_new|].
    eapply Forall_impl; [exact Hp|]. intros q. by apply with_ticket_plain.
  - split; [done|]. by apply Forall_cons in H2 as [_ H2].
Qed.

(** Waiting work. *)
Lemma keeps_emplace ps k w : (∀ tag p i e o fl, w = WriteOne tag p i e o fl → p ∈ ps) →
  keeps ps (wq_emplace k w).
Proof.
  intros Hw s Hs Hp. unfold post, wq_emplace, modify. simpl. split; [|done].
  destruct Hs as [H1 H2 H3 H4 H5 H6]. split; try done.
  intros k' tag p i e o fl [Hin|Hin]%elem_of_app; [by eapply H6|].
  apply list_elem_of_singleton in Hin as [= _ <-]. rewrite Forall_forall in Hp.
  apply Hp. by eapply Hw.
Qed.

#[export] Hint Resolve keeps_upd keeps_delete : locks.

(** ** Allocations

    Between the ticket of an allocation and the lock bit of its cluster the
    relation does not hold; the two are taken together. *)

Definition returns {A} (a : A) (m : xceff A) : Prop := ∀ s, ∃ s', core s' = core s ∧
  (m s = (Ret a, s') ∨ ∃ e, m s = (Throw e, s')).

Lemma returns_ret {A} (a : A) : returns a (mret a).
Proof. intros s. exists s. split; [done|by left]. Qed.
Lemma returns_bind {A B} (b : B) (m : xceff A) f : quiet m → (∀ a, returns b (f a)) →
  returns b (m ≫= f).
Proof.
  intros Hm Hf s. specialize (Hm s). unfold mbind, eff_bind. destruct (m s) as [[a|e] s'].
  - destruct (Hf a s') as (s2 & Hc & Hr). exists s2. split; [by rewrite Hc|done].
  - exists s'. split; [done|]. right. by exists e.
Qed.

Lemma core_with_ticket t s s' : core s = core s' → core (with_ticket t s) = core (with_ticket t s').
Proof. unfold core, with_ticket. simpl. by intros [= -> -> -> ->]. Qed.

Lemma new_returns t (f : Z → xceff Z) s : locked_cluster t = U64_MAX → (∀ p, returns p (f p)) →
  ∃ t' s', locked_cluster t' = U64_MAX ∧ core s' = core (with_ticket t' s) ∧
    ((x_new t ≫= f) s = (Ret (x_next s), s') ∨ ∃ e, (x_new t ≫= f) s = (Throw e, s')).
Proof.
  intros Ht Hf. exists t. rewrite (bind_Ret _ _ s (x_next s) (with_ticket t s)) by done.
  destruct (Hf (x_next s) (with_ticket t s)) as (s' & H). by exists s'.
Qed.

(** What an allocation leaves: nothing new, a ticket without a lock, or the
    ticket of the cluster. *)
Inductive alloc_result (v : Z) (s : nvme_xcow) : outcome (Z * Z) → nvme_xcow → Prop :=
  | alloc_none e s' : core s' = core s → alloc_result v s (Throw e) s'
  | alloc_lost e t s' : locked_cluster t = U64_MAX → core s' = core (with_ticket t s) →
      alloc_result v s (Throw e) s'
  | alloc_done off t s' : locked_cluster t = v → core s' = core (with_ticket t s) →
      alloc_result v s (Ret (x_next s, off)) s'.

Lemma alloc_quiet {A} v s (m : xceff A) (f : A → xceff (Z * Z)) : quiet m →
  (∀ a s', core s' = core s → alloc_result v s' (f a s').1 (f a s').2) →
  alloc_result v s ((m ≫= f) s).1 ((m ≫= f) s).2.
Proof.
  intros Hm Hf. specialize (Hm s). unfold mbind, eff_bind. destruct (m s) as [[a|e] s'].
  - specialize (Hf a s' Hm). destruct Hf as [e s2 H|e t s2 Ht H|off t s2 Ht H].
    + apply alloc_none. by rewrite H.
    + apply (alloc_lost _ _ _ t); [done|]. rewrite H. by apply core_with_ticket.
    + replace (x_next s') with (x_next s) by (unfold core in Hm; simpl in Hm; congruence).
      apply (alloc_done _ _ _ t); [done|]. rewrite H. by apply core_with_ticket.
  - by apply alloc_none.
Qed.

Lemma do_alloc_result room tag v entry s :
  alloc_result v s (do_alloc_one_tx room tag v entry s).1 (do_alloc_one_tx room tag v entry s).2.
Proof.
  unfold do_alloc_one_tx. apply alloc_quiet; [done|intros s0 s1 _].
  apply alloc_quiet; [auto with locks|intros [off n] s2 _].
  apply alloc_quiet; [auto with locks|intros tl s3 _].
  apply alloc_quiet; [auto with locks|intros cs s4 _].
  set (m := if is_empty tl then _ else _).
  assert (∃ t s', locked_cluster t = U64_MAX ∧ core s' = core (with_ticket t s4) ∧
    (m s4 = (Ret (x_next s4), s') ∨ ∃ e, m s4 = (Throw e, s'))) as (t & s' & Ht & Hc & Hm).
  { subst m. unfold do_cow. destruct (is_empty tl); apply new_returns; try done; intros p;
      repeat (apply returns_bind; [auto with locks|intros ?]); apply returns_ret. }
  unfold mbind, eff_bind. destruct Hm as [->|(e & ->)]; [|by eapply alloc_lost].
  assert (x_tickets s' !! x_next s4 = Some t) as Hl.
  { unfold core in Hc. injection Hc as Hc _ _ _. rewrite Hc. simpl. apply lookup_insert_eq. }
  rewrite (x_upd_Ret _ _ _ _ Hl). cbn [mret eff_ret fst snd]. unfold mret, eff_ret.
  apply (alloc_done _ _ _ (set_lock v (entry, encode_leaf off true) t)); [done|].
  unfold core in *. simpl. injection Hc as E1 E2 E3 E4. rewrite E1, E2, E3, E4. simpl.
  by rewrite insert_insert_eq.
Qed.

(** The ticket of a free cluster and its lock bit. *)
Lemma lock_taken v t s : locks_ok s → 0 <= v → x_clock s !! Z.to_nat v = Some false →
  locked_cluster t = v →
  locks_ok (set_clocks (<[Z.to_nat v := true]> (x_clock s)) (with_ticket t s)).
Proof.
  intros Hs Hv Hb Ht. pose proof Hs as [H1 H2 H3 H4 H5 H6].
  set (s' := set_clocks _ _). pose proof (lookup_lt_Some _ _ _ Hb) as Hlt.
  assert (v ≠ U64_MAX) as HM by lia.
  assert (∀ q u, x_tickets s' !! q = Some u ↔
    (q = x_next s ∧ u = t) ∨ (q < x_next s ∧ x_tickets s !! q = Some u)) as Hl
    by (intros q u; by apply (with_ticket_lookup t)).
  assert (∀ q u, x_tickets s !! q = Some u → locked_cluster u ≠ v) as Hfree.
  { intros q u Hu He. rewrite <- He in Hb, HM. destruct (H3 _ _ Hu HM) as [_ Hc]. congruence. }
  split.
  - simpl. by rewrite length_insert.
  - intros p u [[-> _]|[? _]]%Hl; simpl; lia.
  - intros p u [[-> ->]|[_ Hu]]%Hl Hn; simpl.
    + rewrite Ht. split; [done|]. by apply list_lookup_insert_eq.
    + destruct (H3 _ _ Hu Hn) as [? Hc]. split; [done|].
      rewrite list_lookup_insert_ne; [done|]. intros E. apply (Hfree _ _ Hu). lia.
  - intros p q u w [[-> ->]|[_ Hu]]%Hl [[-> ->]|[_ Hw]]%Hl He Hn; [done|..].
    + exfalso. apply (Hfree _ _ Hw). congruence.
    + exfalso. apply (Hfree _ _ Hu). congruence.
    + eauto.
  - intros k Hk. simpl in Hk. destruct (decide (k = Z.to_nat v)) as [->|Hne].
    + exists (x_next s), t. rewrite Hl. split; [by left|]. lia.
    + rewrite list_lookup_insert_ne in Hk by done. destruct (H5 _ Hk) as (q & u & Hu & He).
      exists q, u. rewrite Hl. split; [|done]. right. eauto.
  - intros k tag q i e o fl Hw. apply (with_ticket_plain t s); [done|]. by eapply H6.
Qed.

Lemma alloc_lock ps room tag v entry s : locks_ok s → Forall (λ p, plain p s) ps → 0 <= v →
  x_clock s !! Z.to_nat v = Some false →
  match do_alloc_one_tx room tag v entry s with
  | (Ret _, s1) => ∃ s2, clock_set v true s1 = (Ret tt, s2) ∧ locks_ok s2 ∧
                     Forall (λ p, plain p s2) ps
  | (Throw _, s1) => locks_ok s1 ∧ Forall (λ p, plain p s1) ps
  end.
Proof.
  intros Hs Hp Hv Hb. pose proof (do_alloc_result room tag v entry s) as H.
  destruct (do_alloc_one_tx room tag v entry s) as [r s1]. simpl in H.
  assert (∀ t, Forall (λ p, plain p (with_ticket t s)) ps) as Hp'.
  { intros t. eapply Forall_impl; [exact Hp|]. intros q. by apply with_ticket_plain. }
  destruct H as [e s1 H|e t s1 Ht H|off t s1 Ht H].
  - split; [by apply (core_locks s)|].
    eapply Forall_impl; [exact Hp|]. intros q. by apply core_plain.
  - split; [by apply (core_locks (with_ticket t s)); [|apply with_ticket_locks]|].
    eapply Forall_impl; [apply (Hp' t)|]. intros q. by apply core_plain.
  - assert (x_clock s1 = x_clock s) as Ec by (unfold core in H; simpl in H; congruence).
    eexists. split; [apply (clock_set_Ret v s1 false true Hv); by rewrite Ec|].
    assert (core (set_clocks (<[Z.to_nat v := true]> (x_clock s1)) s1) =
      core (set_clocks (<[Z.to_nat v := true]> (x_clock s)) (with_ticket t s))) as E.
    { rewrite Ec. unfold core in *. simpl in *. congruence. }
    split; [by eapply core_locks; [exact E|apply lock_taken]|].
    eapply Forall_impl; [apply (Hp' t)|]. intros q Hq. by eapply core_plain; [exact E|].
Qed.

Lemma post_alloc ps room tag v entry s : locks_ok s → Forall (λ p, plain p s) ps → 0 <= v →
  x_clock s !! Z.to_nat v = Some false →
  post ps (_ ← do_alloc_one_tx room tag v entry; clock_set v true) s.
Proof.
  intros Hs Hp Hv Hb. pose proof (alloc_lock ps room tag v entry s Hs Hp Hv Hb) as H.
  unfold post, mbind, eff_bind. destruct (do_alloc_one_tx room tag v entry s) as [[r|e] s1]; [|done].
  destruct H as (s2 & -> & H). done.
Qed.

Lemma post_alloc_then {A} ps room tag v entry (f : Z * Z → xceff A) s : locks_ok s →
  Forall (λ p, plain p s) ps → 0 <= v → x_clock s !! Z.to_nat v = Some false →
  (∀ r, keeps ps (f r)) →
  post ps (r ← do_alloc_one_tx room tag v entry; _ ← clock_set v true; f r) s.
Proof.
  intros Hs Hp Hv Hb Hf. pose proof (alloc_lock ps room tag v entry s Hs Hp Hv Hb) as H.
  unfold post, mbind, eff_bind. destruct (do_alloc_one_tx room tag v entry s) as [[r|e] s1]; [|done].
  destruct H as (s2 & -> & H1 & H2). by apply Hf.
Qed.

Lemma clock_get_inv v s b s' : clock_get v s = (Ret b, s') →
  0 <= v ∧ x_clock s !! Z.to_nat v = Some b ∧ s' = s.
Proof.
  unfold clock_get, mbind, eff_bind, get. destruct (Z.ltb_spec v 0); [done|].
  destruct (x_clock s !! Z.to_nat v) eqn:E; [|done]. intros [= <- <-]. done.
Qed.

(** ** Requests *)

Ltac keep := repeat (apply keeps_bind; [by auto with locks|intros ?]).

Lemma keeps_read_pieces room p lbas cls ps : ∀ fuel bi lit,
  keeps ps (read_pieces room fuel p lbas cls bi lit).
Proof.
  induction fuel as [|fuel IH]; intros bi lit; simpl; [auto with locks|].
  case_match; [auto with locks|]. keep. case_match.
  - apply keeps_bind; [auto with locks|intros ?]. apply IH.
  - apply keeps_bind; [auto with locks|intros [iovecs lit']].
    apply keeps_bind; [by apply keeps_upd|intros ?]. keep. apply IH.
Qed.

Lemma keeps_do_read ioc iov room cmd tag : keeps [] (do_read ioc iov room cmd tag).
Proof.
  unfold do_read. keep. case_match.
  - keep. apply keeps_new; [done|]. intros p.
    apply keeps_bind.
    { case_match; [|auto with locks]. apply keeps_bind; [by apply keeps_upd|intros ?]. keep.
      auto with locks. }
    intros _. apply keeps_bind; [apply keeps_read_pieces|intros _].
    apply keeps_bind; [auto with locks|intros t]. case_match.
    + apply keeps_bind; [by apply keeps_upd|intros _]. auto with locks.
    + apply keeps_bind; [apply keeps_delete; by left|intros _]. auto with locks.
  - keep. case_match; keep; auto with locks.
Qed.

Lemma keeps_write_pieces room p tag lbas cls fl ps : p ∈ ps → ∀ fuel i bi lit,
  keeps ps (write_pieces room fuel p tag lbas cls fl i bi lit).
Proof.
  intros Hin. induction fuel as [|fuel IH]; intros i bi lit; simpl; [auto with locks|].
  case_match; [auto with locks|].
  apply keeps_bind; [auto with locks|intros [iovecs lit']].
  apply keeps_bind; [by apply keeps_upd|intros _]. keep.
  apply keeps_bind.
  { case_match; [|auto with locks]. intros s Hs Hp.
    apply post_bind; [by apply quiet_keeps; auto with locks|]. intros c s' Hc Hs' Hp'.
    apply clock_get_inv in Hc as (Hv & Hb & ->). destruct c; simpl.
    - by apply quiet_keeps; auto with locks.
    - by apply post_alloc. }
  intros _. apply keeps_bind; [by apply keeps_upd|intros _]. keep.
  apply keeps_bind; [|intros _; apply IH]. case_match.
  - apply keeps_bind; [|auto with locks]. apply keeps_emplace. by intros ?????? [= _ <-].
  - keep. auto with locks.
Qed.

Lemma keeps_wait ps v tag entry tl :
  keeps ps (c ← clock_get v;
            if c : bool then _ ← wq_emplace v (Forward tag entry); mret Deferred
            else mret (Replied (reply_leaf tag NVME_SC_SUCCESS tl AUXCMD_FORWARD))).
Proof.
  keep. case_match; [|auto with locks]. apply keeps_bind; [by apply keeps_emplace|auto with locks].
Qed.

Lemma keeps_do_write ioc iov room cmd tag : keeps [] (do_write ioc iov room cmd tag).
Proof.
  unfold do_write. apply keeps_bind; [auto with locks|intros lbas].
  apply keeps_bind; [auto with locks|intros cls]. case_match.
  - keep. apply keeps_new; [done|]. intros p.
    apply keeps_bind; [apply keeps_write_pieces; by left|auto with locks].
  - apply keeps_bind; [auto with locks|intros s0].
    apply keeps_bind; [auto with locks|intros entry].
    apply keeps_bind; [auto with locks|intros tl].
    set (v := Z.shiftr (slba cmd) cls). intros s Hs Hp. destruct (needs_alloc tl); cbn [andb].
    + apply post_bind; [by apply quiet_keeps; auto with locks|]. intros c s' Hc _ _.
      apply clock_get_inv in Hc as (Hv & Hb & ->). destruct c; cbn [negb]; [by apply keeps_wait|].
      set (answer := λ r : Z * Z, _ ← x_upd r.1 (set_taux (set_aux_paddr r.2
        (Z.lor (Z.lor AUXBITS_VALID AUXBITS_WRITABLE) AUXCMD_FORWARD))); mret (Submitted r.1)).
      pose proof (post_alloc_then [] room tag v entry answer s Hs Hp Hv Hb) as Hpost.
      assert (∀ r, keeps [] (answer r)) as Ha
        by (intros r; apply keeps_bind; [by apply keeps_upd|auto with locks]).
      specialize (Hpost Ha). unfold post, mbind, eff_bind in *.
      by destruct (do_alloc_one_tx _ _ _ _ s) as [[[p off]|e] s1].
    + apply post_bind; [by apply quiet_keeps; auto with locks|]. intros c s' [= <- <-] _ _.
      by apply keeps_wait.
Qed.

Lemma keeps_do_flush room tag : keeps [] (do_flush room tag).
Proof.
  unfold do_flush. apply keeps_new; [done|]. intros p.
  apply keeps_bind; [auto with locks|intros _].
  apply keeps_bind; [by apply keeps_upd|auto with locks].
Qed.

Lemma keeps_do_snapshot iov cmd tag : keeps [] (do_snapshot iov cmd tag).
Proof.
  unfold do_snapshot. keep. case_match; [|auto with locks]. case_match; [auto with locks|].
  apply keeps_bind; [auto with locks|intros s]. apply keeps_bind; [auto with locks|intros [sn q]].
  keep. auto with locks.
Qed.

(** Every request keeps the relation, whether it is answered, deferred,
    submitted or thrown out of. *)
Lemma keeps_submit_async ioc iov room sq cmd tag : keeps [] (submit_async ioc iov room sq cmd tag).
Proof.
  unfold submit_async. apply keeps_catch; [|intros e; destruct e; auto with locks].
  repeat case_match; auto with locks;
    [apply keeps_do_read|apply keeps_do_write|apply keeps_do_flush|apply keeps_do_snapshot].
Qed.

Lemma keeps_run_work room w us ps : (∀ tag p i e o fl, w = WriteOne tag p i e o fl → p ∈ ps) →
  keeps ps (run_work room w us).
Proof.
  intros Hw. destruct w as [tag p i e o fl|tag e]; simpl.
  - assert (p ∈ ps) as Hin by by eapply Hw. case_match.
    + apply keeps_bind; [auto with locks|intros t]. apply keeps_bind; [by apply keeps_upd|intros _].
      apply keeps_bind; [|auto with locks]. case_match; auto with locks.
    + keep. auto with locks.
  - keep. auto with locks.
Qed.

(** ** The server *)

Definition skeeps {A} (m : seff A) : Prop :=
  ∀ s, locks_ok (sv_ctl s) → locks_ok (sv_ctl (m s).2).

Lemma skeeps_bind {A B} (m : seff A) (f : A → seff B) : skeeps m → (∀ a, skeeps (f a)) →
  skeeps (m ≫= f).
Proof.
  intros Hm Hf s Hs. specialize (Hm s Hs). unfold mbind, eff_bind.
  destruct (m s) as [[a|e] s']; [|done]. by apply Hf.
Qed.
Lemma skeeps_ctl {A} (m : xceff A) : keeps [] m → skeeps (in_ctl m).
Proof.
  intros Hm s Hs. destruct (Hm (sv_ctl s) Hs) as [H _]; [constructor|].
  unfold in_ctl, zoom. by destruct (m (sv_ctl s)).
Qed.
Lemma skeeps_same {A} (m : seff A) : (∀ s, sv_ctl (m s).2 = sv_ctl s) → skeeps m.
Proof. intros Hm s. by rewrite Hm. Qed.
Lemma skeeps_ret {A} (a : A) : skeeps (mret a). Proof. by apply skeeps_same. Qed.
Lemma skeeps_get : skeeps get. Proof. by apply skeeps_same. Qed.
Lemma skeeps_throw {A} e : skeeps (throw e : seff A). Proof. by apply skeeps_same. Qed.
Lemma skeeps_reply qi ucid r : skeeps (process_reply qi ucid r).
Proof.
  apply skeeps_same. intros s. unfold process_reply, mbind, eff_bind, get, ensure.
  by destruct (has_queue s qi).
Qed.
#[export] Hint Resolve skeeps_ret skeeps_get skeeps_throw skeeps_reply skeeps_ctl
  keeps_submit_async : locks.

(** The end of a transaction: the ticket is gone and its cluster is free. *)
Lemma lock_released p t s : locks_ok s → x_tickets s !! p = Some t → locked_cluster t ≠ U64_MAX →
  locks_ok (set_clocks (<[Z.to_nat (locked_cluster t) := false]> (x_clock s)) (without p s)).
Proof.
  intros Hs Ht Hn. pose proof Hs as [H1 H2 H3 H4 H5 H6].
  destruct (H3 _ _ Ht Hn) as [Hv Hb]. set (v := locked_cluster t) in *.
  split.
  - simpl. by rewrite length_insert.
  - intros q u [_ Hu]%without_lookup. simpl. eauto.
  - intros q u [Hne Hu]%without_lookup Hl. destruct (H3 _ _ Hu Hl) as [? Hc]. split; [done|].
    simpl. rewrite list_lookup_insert_ne; [done|]. intros E. apply Hne.
    apply (H4 q p u t); try done. fold v. lia.
  - intros q r u w [_ Hu]%without_lookup [_ Hw]%without_lookup. eauto.
  - intros k Hk. simpl in Hk. destruct (decide (k = Z.to_nat v)) as [->|Hne].
    { rewrite list_lookup_insert_eq in Hk by by eapply lookup_lt_Some. done. }
    rewrite list_lookup_insert_ne in Hk by done. destruct (H5 _ Hk) as (q & u & Hu & Hl).
    exists q, u. split; [|done]. simpl. apply lookup_delete_Some. split; [|done].
    intros ->. assert (u = t) as -> by congruence. fold v in Hl. lia.
  - intros k tag q i e o fl Hw. apply (without_plain p s). by eapply H6.
Qed.

(** Work taken out of the queue. *)
Lemma wq_locks s k w q : x_wq s ≡ₚ (k, w) :: q → locks_ok s →
  locks_ok (set_wq q s) ∧ ∀ tag p i e o fl, w = WriteOne tag p i e o fl → plain p s.
Proof.
  intros HP [H1 H2 H3 H4 H5 H6]. split.
  - split; try done. intros k' tag p i e o fl Hin. apply (H6 k' tag p i e o fl).
    rewrite HP. by right.
  - intros tag p i e o fl ->. apply (H6 k tag p i e o fl). rewrite HP. by left.
Qed.

Section server.
Context (ioc : Z + Z) (iov : Z → Z + nvme_id_ns) (room : list io_uring_sqe → bool).
Context (extract : Z → list (Z * work) → option (work * list (Z * work))) (Hex : extract_ok extract).

Ltac skeep := repeat (apply skeeps_bind; [by auto with locks|intros ?]).

Lemma skeeps_submit_cmds qi sq cmds : skeeps (submit_cmds ioc iov room qi sq cmds).
Proof.
  induction cmds as [|cmd cmds IH]; simpl; [auto with locks|]. skeep.
  apply skeeps_bind; [case_match; try apply skeeps_bind; auto with locks|intros ?].
  apply skeeps_bind; [apply IH|auto with locks].
Qed.

Lemma skeeps_queue_poll_once qi sq : skeeps (queue_poll_once ioc iov room qi sq).
Proof.
  unfold queue_poll_once. skeep. case_match; [|auto with locks]. case_match; [auto with locks|].
  apply skeeps_bind; [by apply skeeps_same|intros _].
  apply skeeps_bind; [apply skeeps_submit_cmds|auto with locks].
Qed.

Lemma skeeps_adm_poll_once : skeeps (adm_poll_once ioc iov room).
Proof.
  unfold adm_poll_once. skeep. case_match; [|auto with locks]. case_match; [auto with locks|].
  apply skeeps_bind; [by apply skeeps_same|intros _].
  apply skeeps_bind; [apply skeeps_submit_cmds|auto with locks].
Qed.

Lemma skeeps_poll_all sqids : ∀ qi, skeeps (poll_all ioc iov room qi sqids).
Proof.
  induction sqids as [|sq sqids IH]; intros qi; simpl; [auto with locks|].
  apply skeeps_bind; [apply skeeps_queue_poll_once|intros [s a]].
  apply skeeps_bind; [apply IH|intros [s' a']]. auto with locks.
Qed.

Lemma skeeps_busypoll n sqids : skeeps (busypoll ioc iov room n sqids).
Proof.
  induction n as [|n IH]; simpl; [auto with locks|].
  apply skeeps_bind; [apply skeeps_poll_all|intros [s a]]. case_match; [auto with locks|].
  apply skeeps_bind; [apply IH|intros [s' a']]. auto with locks.
Qed.

Lemma skeeps_drain v us : ∀ fuel, skeeps (drain room extract fuel v us).
Proof.
  induction fuel as [|fuel IH]; intros s Hs; [done|]. cbn [drain].
  rewrite (bind_Ret get _ s s s) by done.
  destruct (extract v (x_wq (sv_ctl s))) as [[w wq]|] eqn:E; [|done].
  pose proof (ex_some _ Hex _ _ _ _ E) as HP.
  destruct (wq_locks _ _ _ _ HP Hs) as [Hs1 Hw].
  rewrite (bind_Ret _ _ _ _ _ (in_ctl_Ret (modify (set_wq wq)) s tt _ eq_refl)).
  set (c := set_wq wq (sv_ctl s)) in *.
  assert (locks_ok (run_work room w us c).2) as Hr.
  { destruct w as [tag p i e o fl|tag e].
    - destruct (keeps_run_work room (WriteOne tag p i e o fl) us [p]) with (s := c) as [H _]; try done.
      + intros ?????? [= _ <-]. by left.
      + apply Forall_cons. split; [|done]. by eapply Hw.
    - by destruct (keeps_run_work room (Forward tag e) us []) with (s := c) as [H _]. }
  unfold mbind at 1, eff_bind at 1, in_ctl, zoom. cbn [sv_ctl set_ctl].
  destruct (run_work room w us c) as [[o|e] c']; [|done].
  revert Hr. cbn [snd]. intros Hr. destruct o as [|r|p]; [by apply IH| |done].
  destruct (unmake_tag (rp_tag r)) as [qi ucid].
  apply skeeps_bind; [case_match; auto with locks|intros _; apply IH|done].
Qed.

Lemma skeeps_complete cqe : skeeps (complete room extract cqe).
Proof.
  intros s Hs. unfold complete. set (p := cq_data cqe).
  destruct (x_tickets (sv_ctl s) !! p) as [t|] eqn:Ht.
  2:{ rewrite (bind_Throw _ _ s Eub (set_ctl (sv_ctl s) s)); [done|].
      unfold in_ctl, zoom, x_get, mbind, eff_bind, get. by rewrite Ht. }
  rewrite (bind_Ret _ _ _ _ _ (in_ctl_Ret _ _ _ _ (x_get_Ret _ _ _ Ht))).
  set (s0 := set_ctl (sv_ctl s) s). cbv zeta.
  rewrite (bind_Ret _ _ _ _ _ (in_ctl_Ret _ s0 _ _ (x_upd_Ret p _ _ t Ht))).
  set (t1 := set_count _ t). set (s1 := set_ctl _ s0).
  assert (locks_ok (sv_ctl s1)) as Hs1 by by apply (upd_locks _ _ t).
  assert (x_tickets (sv_ctl s1) !! p = Some t1) as Ht1 by apply lookup_insert_eq.
  case_match; [done|].
  set (m := if negb (xt_tag t =? noop_tag) then _ else _).
  assert (sv_ctl (m s1).2 = sv_ctl s1) as Hm.
  { subst m. case_match; [|done]. unfold process_reply, mbind, eff_bind, get, ensure.
    destruct (unmake_tag (xt_tag t)) as [qi ucid]. by destruct (has_queue s1 qi). }
  destruct (m s1) as [[[]|e] s2] eqn:Em; cbn [snd] in Hm;
    [|rewrite (bind_Throw _ _ _ _ _ Em); cbn [snd]; by rewrite Hm].
  rewrite (bind_Ret _ _ _ _ _ Em). clear Em.
  rewrite <- Hm in Hs1, Ht1. clear Hm m.
  set (m := if cq_res cqe <? 0 then _ else _).
  assert (∃ t2 s3, m s2 = (Ret tt, s3) ∧ locks_ok (sv_ctl s3) ∧
    x_tickets (sv_ctl s3) !! p = Some t2 ∧ locked_cluster t2 = locked_cluster t)
    as (t2 & s3 & E & Hs3 & Ht3 & Hl3).
  { subst m. case_match; [|by exists t1, s2]. eexists _, _.
    rewrite (in_ctl_Ret _ s2 _ _ (x_upd_Ret p _ _ t1 Ht1)). split; [done|]. simpl.
    split; [by apply (upd_locks _ _ t1)|]. rewrite lookup_insert_eq. by split. }
  rewrite (bind_Ret _ _ _ _ _ E). clear E m.
  destruct (x_delete_run p (sv_ctl s3)) as (c & Hc & [E|(e & E)]).
  2:{ rewrite (bind_Throw _ _ s3 e (set_ctl c s3)) by (unfold in_ctl, zoom; by rewrite E).
      by apply (core_locks (sv_ctl s3)). }
  rewrite (bind_Ret _ _ _ _ _ (in_ctl_Ret _ s3 _ _ E)).
  assert (locks_ok c) as Hc' by by apply (core_locks (sv_ctl s3)).
  assert (x_tickets c !! p = Some t2) as Htc by (unfold core in Hc; congruence).
  rewrite <- Hl3. set (s4 := set_ctl (without p c) s3).
  destruct (Z.eqb_spec (locked_cluster t2) U64_MAX) as [He|Hne].
  - apply without_locks; [done|]. split; [by eapply lo_fresh|]. intros u Hu. congruence.
  - destruct (lo_held _ Hc' _ _ Htc Hne) as [Hv Hb].
    rewrite (bind_Ret _ _ _ _ _ (in_ctl_Ret _ s4 _ _
      (clock_set_Ret _ (without p c) true false Hv Hb))).
    rewrite (bind_Ret get _ _ _ _) by done.
    apply skeeps_drain. exact (lock_released p t2 c Hc' Htc Hne).
Qed.

Lemma skeeps_complete_all cqes : skeeps (complete_all room extract cqes).
Proof.
  induction cqes as [|cqe cqes IH]; simpl; [auto with locks|].
  apply skeeps_bind; [apply skeeps_complete|intros a].
  apply skeeps_bind; [apply IH|auto with locks].
Qed.

Lemma skeeps_kick a : skeeps (kick a).
Proof.
  destruct a; [|apply skeeps_ret]. intros s Hs. simpl. by apply (core_locks (sv_ctl s)).
Qed.

Lemma skeeps_run_pass sqids : skeeps (run_pass ioc iov room extract sqids).
Proof.
  unfold run_pass. apply skeeps_bind; [apply skeeps_busypoll|intros [succ a]].
  apply skeeps_bind; [apply skeeps_kick|intros _]. skeep.
  apply skeeps_bind; [apply skeeps_complete_all|intros b].
  apply skeeps_bind; [by apply skeeps_same|intros _].
  apply skeeps_bind; [apply skeeps_kick|intros _].
  apply skeeps_bind; [|auto with locks]. case_match; [auto with locks|].
  apply skeeps_bind; [apply skeeps_adm_poll_once|intros [s' a']]. apply skeeps_kick.
Qed.

End server.

(** ** Properties *)

(** A worker over time: it runs passes, and the kernel and the guest change
    everything but the controller between them (new commands, completions,
    entries taken). *)
Inductive server_step (pass : server → outcome bool * server) : server → server → Prop :=
  | step_pass s : server_step pass s (pass s).2
  | step_env s s' : sv_ctl s' = sv_ctl s → server_step pass s s'.

(** A controller that has just been set up: no ticket, no lock, no work. *)
Definition fresh_ctl (x : nvme_xcow) : Prop :=
  x_tickets x = ∅ ∧ x_wq x = [] ∧ Z.of_nat (length (x_clock x)) < U64_MAX ∧
  ∀ v : nat, x_clock x !! v ≠ Some true.

Lemma fresh_locks x : fresh_ctl x → locks_ok x.
Proof.
  intros (Ht & Hw & Hl & Hc). split; rewrite ?Ht, ?Hw; try done.
  - intros v Hv. by apply Hc in Hv.
  - intros k tag p i e o fl Hin. by apply elem_of_nil in Hin.
Qed.

(** C40. At every time of a worker's life, whatever requests, completions and
    errors there were: a locked cluster is held by exactly one ticket, whose
    completion will free it, and every ticket that holds a cluster holds a
    locked one. So two allocations of one cluster are never under way
    together, and no lock is left without an owner. *)
Theorem cluster_locks_owned ioc iov room extract sqids s0 s : extract_ok extract →
  fresh_ctl (sv_ctl s0) →
  rtc (server_step (run_pass ioc iov room extract sqids)) s0 s →
  (∀ v : nat, x_clock (sv_ctl s) !! v = Some true →
    ∃ p t, x_tickets (sv_ctl s) !! p = Some t ∧ locked_cluster t = Z.of_nat v ∧
      ∀ q u, x_tickets (sv_ctl s) !! q = Some u → locked_cluster u = Z.of_nat v → q = p) ∧
  ∀ p t, x_tickets (sv_ctl s) !! p = Some t → locked_cluster t ≠ U64_MAX →
    x_clock (sv_ctl s) !! Z.to_nat (locked_cluster t) = Some true.
Proof.
  intros Hex H0 Hr. assert (locks_ok (sv_ctl s)) as Hs.
  { apply fresh_locks in H0. revert H0. induction Hr as [|s1 s2 s3 Hst _ IH]; [done|].
    intros H1. apply IH. destruct Hst as [s1|s1 s2 E]; [|by rewrite E].
    by apply skeeps_run_pass. }
  split.
  - intros v Hv. destruct (lo_owner _ Hs _ Hv) as (p & t & Ht & Hl). exists p, t.
    split_and!; [done..|]. intros q u Hu Hlu. apply (lo_unique _ Hs q p u t); try done; [congruence|].
    apply lookup_lt_Some in Hv. pose proof (lo_size _ Hs). lia.
  - intros p t Ht Hn. by apply (lo_held _ Hs p).
Qed.

(** A write to a new cluster arrives and a pass is run: its cluster is locked. *)
Definition demo_sv : server :=
  Server demo_ctl [] [] [[]] None [].
Definition demo_sv_cmd : server := sset_nsq [[demo_cow_write 3]] demo_sv.
Definition demo_pass : server → outcome bool * server :=
  run_pass (inl 5) (λ _, inl 5) (λ _, true) extract_first [1].

Lemma demo_pass_locks : x_clock (sv_ctl (demo_pass demo_sv_cmd).2) = [false; false; true].
Proof. vm_cast_no_check (eq_refl [false; false; true]). Qed.

Lemma cluster_locks_owned_witness :
  let s := (demo_pass demo_sv_cmd).2 in
  x_clock (sv_ctl s) !! 2%nat = Some true ∧
  (∀ v : nat, x_clock (sv_ctl s) !! v = Some true →
    ∃ p t, x_tickets (sv_ctl s) !! p = Some t ∧ locked_cluster t = Z.of_nat v ∧
      ∀ q u, x_tickets (sv_ctl s) !! q = Some u → locked_cluster u = Z.of_nat v → q = p) ∧
  ∀ p t, x_tickets (sv_ctl s) !! p = Some t → locked_cluster t ≠ U64_MAX →
    x_clock (sv_ctl s) !! Z.to_nat (locked_cluster t) = Some true.
Proof.
  cbv zeta. split; [by rewrite demo_pass_locks|].
  apply (cluster_locks_owned (inl 5) (λ _, inl 5) (λ _, true) extract_first [1] demo_sv).
  - exact extract_first_ok.
  - split_and!; [reflexivity|reflexivity|reflexivity|].
    intros [|[|[|v]]]; discriminate.
  - apply (rtc_l _ _ demo_sv_cmd); [by apply step_env|].
    apply rtc_once. apply step_pass.
Defined.
