(* ===== verification/Disk.v ===== *)
(** * What a guest sees of its disk

    The requests of a guest and their answers, the plain disk that the systems
    of the files CowSystem, EncSystem and ReplSystem are compared with, and the
    transfer of a device's data to the pages of a command. *)
From Stdlib Require Import Sorting.Sorted.
From S2P Require Import Prelude Proto Vm Prp NvmeBase Encryptor.

(** ** Bytes by address *)

(** The bytes [off], [off + 1], ... of a function from addresses. *)
Definition bytes_at (f : Z → Z) (off n : Z) : list Z :=
  (λ k : nat, f (off + Z.of_nat k)) <$> seq 0 (Z.to_nat n).

(** A disk after [bs] is stored at [off]. *)
Definition put_bytes (f : Z → Z) (off : Z) (bs : list Z) (i : Z) : Z :=
  if (off <=? i) && (i <? off + Z.of_nat (length bs))
  then default 0 (bs !! Z.to_nat (i - off)) else f i.

Lemma length_bytes_at f off n : 0 <= n → Z.of_nat (length (bytes_at f off n)) = n.
Proof. intros. unfold bytes_at. rewrite length_map, length_seq. lia. Qed.

Lemma lookup_bytes_at f off n (k : nat) : Z.of_nat k < n →
  bytes_at f off n !! k = Some (f (off + Z.of_nat k)).
Proof. intros. unfold bytes_at. by rewrite list_lookup_fmap, lookup_seq_lt by lia. Qed.

Lemma bytes_at_ext f g a b n : (∀ k, 0 <= k < n → f (a + k) = g (b + k)) →
  bytes_at f a n = bytes_at g b n.
Proof.
  intros E. unfold bytes_at. apply list_fmap_ext. intros i x Hx.
  apply lookup_seq in Hx as [-> Hi]. apply E. lia.
Qed.

Lemma bytes_at_zero a n : bytes_at (λ _, 0) a n = replicate (Z.to_nat n) 0.
Proof.
  unfold bytes_at. generalize 0%nat. induction (Z.to_nat n) as [|m IH]; intros b; simpl; [done|].
  by rewrite IH.
Qed.

Lemma put_bytes_in f off bs i : off <= i < off + Z.of_nat (length bs) →
  put_bytes f off bs i = default 0 (bs !! Z.to_nat (i - off)).
Proof. intros. unfold put_bytes. by replace (_ && _) with true by lia. Qed.

Lemma put_bytes_out f off bs i : i < off ∨ off + Z.of_nat (length bs) <= i →
  put_bytes f off bs i = f i.
Proof. intros. unfold put_bytes. by replace (_ && _) with false by lia. Qed.

Lemma put_bytes_ext f g off bs i : f i = g i → put_bytes f off bs i = put_bytes g off bs i.
Proof. intros E. unfold put_bytes. by rewrite E. Qed.

(** Storing is putting, byte by byte. *)
Lemma aget_store_bytes m off l i : aget (store_bytes m off l) i = put_bytes (aget m) off l i.
Proof.
  destruct (decide (off <= i < off + Z.of_nat (length l))) as [Hi|Hi].
  - rewrite put_bytes_in by done. destruct (l !! Z.to_nat (i - off)) as [x|] eqn:E.
    + simpl. replace i with (off + Z.of_nat (Z.to_nat (i - off))) by lia. by apply aget_store_in.
    + apply lookup_ge_None_1 in E. lia.
  - rewrite put_bytes_out, aget_store_out by lia. done.
Qed.

(** ** Requests

    A command, the guest memory it is submitted with, and the pages its
    pointers name. *)

Record request : Type := Request {
  rq_vm : mapping;
  rq_cmd : nvme_command;
  rq_pages : list Z;
}.

(** The data of the answer, or an error status. *)
Inductive answer : Type :=
  | Done (data : list Z)
  | Failed (status : Z).

(** The bytes of a list of ranges of guest memory. *)
Definition gather (vm : mapping) (segs : list (Z * Z)) : list Z := segs ≫= view_bytes vm.

(** What the guest sees when its command ends with a status: a read has the
    data in its pages. *)
Definition answer_of (r : request) (status : Z) (data : list Z) : answer :=
  if status =? NVME_SC_SUCCESS
  then Done (if opcode (rq_cmd r) =? nvme_cmd_read then data else [])
  else Failed status.

Section request.
Context (ns : nvme_id_ns).
Definition rq_bytes (r : request) : Z := cmd_bytes (rq_cmd r) ns.
Definition rq_segs (r : request) : list (Z * Z) := segments (rq_pages r) (rq_bytes r).
Definition rq_off (r : request) : Z := Z.shiftl (slba (rq_cmd r)) (lba_shift ns).

(** ** The plain disk *)

Inductive disk_step (V : Z → Z) (r : request) : answer → (Z → Z) → Prop :=
  | disk_read : opcode (rq_cmd r) = nvme_cmd_read →
      disk_step V r (Done (bytes_at V (rq_off r) (rq_bytes r))) V
  | disk_write : opcode (rq_cmd r) = nvme_cmd_write →
      disk_step V r (Done []) (put_bytes V (rq_off r) (gather (rq_vm r) (rq_segs r)))
  | disk_write_zeroes : opcode (rq_cmd r) = nvme_cmd_write_zeroes →
      disk_step V r (Done []) (put_bytes V (rq_off r) (replicate (Z.to_nat (rq_bytes r)) 0))
  | disk_flush : opcode (rq_cmd r) = nvme_cmd_flush → disk_step V r (Done []) V.

Inductive disk_run (V : Z → Z) : list request → list answer → (Z → Z) → Prop :=
  | disk_nil : disk_run V [] [] V
  | disk_cons r rs a l V1 V2 :
      disk_step V r a V1 → disk_run V1 rs l V2 → disk_run V (r :: rs) (a :: l) V2.
End request.

(** ** A guest that sends one request after another *)

Section each.
Context {S : Type} (serve : request → S → option (answer * S)).

Fixpoint serve_each (rs : list request) (s : S) : option (list answer * S) :=
  match rs with
  | [] => Some ([], s)
  | r :: rs =>
    match serve r s with
    | None => None
    | Some (a, s) =>
      match serve_each rs s with
      | None => None
      | Some (l, s) => Some (a :: l, s)
      end
    end
  end.

(** A system whose every request is a step of the plain disk. *)
Lemma serve_each_run ns (I : (Z → Z) → S → Prop) (P : request → Prop) :
  (∀ r V s, P r → I V s → ∃ a s' V', serve r s = Some (a, s') ∧ disk_step ns V r a V' ∧ I V' s') →
  ∀ rs V s, Forall P rs → I V s →
  ∃ l s' V', serve_each rs s = Some (l, s') ∧ disk_run ns V rs l V' ∧ I V' s'.
Proof.
  intros Hstep rs V s Hrs. revert V s. induction Hrs as [|r rs Hr _ IH]; intros V s Hi.
  { exists [], s, V. by repeat split; [constructor|]. }
  destruct (Hstep r V s Hr Hi) as (a & s1 & V1 & E1 & D1 & I1).
  destruct (IH V1 s1 I1) as (l & s2 & V2 & E2 & D2 & I2).
  exists (a :: l), s2, V2. split_and!; [simpl; by rewrite E1, E2|by econstructor|done].
Qed.
End each.

(** ** Data in the pages of a command *)

Lemma length_gather vm segs : Forall (λ x : Z * Z, 0 <= x.2) segs →
  Z.of_nat (length (gather vm segs)) = total segs.
Proof.
  induction 1 as [|x l Hx _ IH]; [done|]. unfold gather in *. rewrite bind_cons.
  rewrite length_app, length_view_bytes. simpl. simpl in IH. lia.
Qed.

(** The transfer of a device: byte by byte into the ranges, in their order. *)
Fixpoint dma (vm : mapping) (segs : list (Z * Z)) (bs : list Z) : mapping :=
  match segs with
  | [] => vm
  | sp :: segs =>
    dma (view_store vm sp (take (Z.to_nat sp.2) bs)) segs (drop (Z.to_nat sp.2) bs)
  end.

(** Memory that differs in the ranges only. *)
Definition same_outside (segs : list (Z * Z)) (vm vm' : mapping) : Prop :=
  vm_size vm' = vm_size vm ∧
  ∀ i, Forall (λ y, apart y (i, 1)) segs → aget (vm_bytes vm') i = aget (vm_bytes vm) i.

Lemma same_outside_refl segs vm : same_outside segs vm vm.
Proof. done. Qed.
Lemma same_outside_trans segs vm1 vm2 vm3 :
  same_outside segs vm1 vm2 → same_outside segs vm2 vm3 → same_outside segs vm1 vm3.
Proof.
  intros [S1 E1] [S2 E2]. split; [congruence|]. intros i Hi. by rewrite E2, E1.
Qed.

Lemma dma_outside segs vm bs : Forall (λ x : Z * Z, 0 <= x.2) segs →
  same_outside segs vm (dma vm segs bs).
Proof.
  intros Hs. revert vm bs. induction Hs as [|sp l H0 _ IH]; intros vm bs; [done|].
  destruct (IH (view_store vm sp (take (Z.to_nat sp.2) bs)) (drop (Z.to_nat sp.2) bs)) as [Sz E].
  cbn [dma]. split; [by rewrite Sz|]. intros i Hi. apply Forall_cons in Hi as [Ha Hi].
  rewrite E by done. apply aget_store_out. rewrite length_take.
  destruct Ha as [Ha|Ha]; simpl in Ha; lia.
Qed.

Lemma gather_dma segs vm bs : StronglySorted apart segs → Forall (λ x : Z * Z, 0 <= x.2) segs →
  Z.of_nat (length bs) = total segs → gather (dma vm segs bs) segs = bs.
Proof.
  intros Ha Hs. revert vm bs. induction Hs as [|sp l H0 Hs IH]; intros vm bs Hb.
  { by destruct bs. }
  apply StronglySorted_inv in Ha as [Ha Hhd]. unfold gather. rewrite bind_cons. cbn [dma].
  change (total (sp :: l)) with (sp.2 + total l) in Hb.
  assert (0 <= total l) as Ht.
  { pose proof (length_gather vm l Hs). lia. }
  transitivity (take (Z.to_nat sp.2) bs ++ drop (Z.to_nat sp.2) bs); [f_equal|apply take_drop].
  - etransitivity; [|apply (view_store_same vm sp (take (Z.to_nat sp.2) bs)); rewrite length_take; lia].
    apply view_bytes_agree. intros i Hi.
    destruct (dma_outside l (view_store vm sp (take (Z.to_nat sp.2) bs)) (drop (Z.to_nat sp.2) bs) Hs) as [_ E].
    apply E. eapply Forall_impl; [exact Hhd|]. intros y [Hy|Hy]; [right|left]; simpl; lia.
  - apply IH; [done|]. rewrite length_drop. lia.
Qed.

(** ** Blocks *)

Lemma load_bytes_at m off n : load_bytes m off (Z.to_nat n) = bytes_at (aget m) off n.
Proof.
  unfold bytes_at. set (k := Z.to_nat n). clearbody k. clear n. revert off.
  induction k as [|k IH]; intros off; simpl; [done|]. rewrite IH, Z.add_0_r. f_equal.
  rewrite <- (fmap_S_seq 0 k), <- list_fmap_compose. apply list_fmap_ext. intros i x _.
  simpl. f_equal. lia.
Qed.

Lemma bytes_at_app f off a b : 0 <= a → 0 <= b →
  bytes_at f off (a + b) = bytes_at f off a ++ bytes_at f (off + a) b.
Proof.
  intros Ha Hb. unfold bytes_at. rewrite Z2Nat.inj_add, seq_app, fmap_app by lia. f_equal.
  rewrite <- (Nat.add_0_r (0 + Z.to_nat a)), <- fmap_add_seq, <- list_fmap_compose.
  apply list_fmap_ext. intros i x _. simpl. f_equal. lia.
Qed.

(** The blocks of a range. *)
Definition blocks_at (f : Z → Z) (off L : Z) (n : nat) : list (list Z) :=
  (λ j : nat, bytes_at f (off + Z.of_nat j * L) L) <$> seq 0 n.

Lemma blocks_at_S f off L n :
  blocks_at f off L (S n) = blocks_at f off L n ++ [bytes_at f (off + Z.of_nat n * L) L].
Proof. unfold blocks_at. by rewrite seq_S, fmap_app. Qed.

Lemma bytes_at_blocks f off L n : 0 <= L →
  bytes_at f off (Z.of_nat n * L) = concat (blocks_at f off L n).
Proof.
  intros HL. induction n as [|n IH]; [done|].
  rewrite blocks_at_S, concat_app, <- IH. cbn [concat]. rewrite app_nil_r.
  rewrite <- bytes_at_app by lia. f_equal. lia.
Qed.

(** Pieces of the same length. *)
Definition pieces (L : Z) (ls : list (list Z)) : Prop := Forall (λ l, Z.of_nat (length l) = L) ls.

Lemma length_concat_pieces L ls : pieces L ls → Z.of_nat (length (concat ls)) = Z.of_nat (length ls) * L.
Proof. induction 1 as [|l ls Hl _ IH]; simpl; [done|]. rewrite length_app. lia. Qed.

Lemma concat_pieces_inj L l1 l2 : pieces L l1 → pieces L l2 → length l1 = length l2 →
  concat l1 = concat l2 → l1 = l2.
Proof.
  intros H1. revert l2. induction H1 as [|x l1 Hx _ IH]; intros [|y l2] H2 Hlen E; try done.
  apply Forall_cons in H2 as [Hy H2]. injection Hlen as Hlen. simpl in E.
  apply app_inj_1 in E as [-> E]; [|lia]. f_equal. by apply IH.
Qed.

Lemma lookup_concat_pieces L ls (i k : nat) : pieces L ls → Z.of_nat k < L →
  concat ls !! (i * Z.to_nat L + k)%nat = ls !! i ≫= (.!! k).
Proof.
  intros Hp Hk. revert i. induction Hp as [|l ls Hl _ IH]; intros i; [by destruct i|].
  destruct i as [|i]; simpl.
  - by rewrite lookup_app_l by lia.
  - rewrite lookup_app_r by lia. rewrite <- IH. f_equal. lia.
Qed.

Lemma blocks_at_pieces f off L n : 0 <= L → pieces L (blocks_at f off L n).
Proof.
  intros HL. unfold pieces, blocks_at. rewrite Forall_fmap. apply Forall_forall. intros x _.
  simpl. by apply length_bytes_at.
Qed.

(** Storing blocks changes these blocks and no others. *)
Lemma put_blocks f s L ls b : 0 < L → pieces L ls →
  bytes_at (put_bytes f (s * L) (concat ls)) (b * L) L =
    default (bytes_at f (b * L) L) (if s <=? b then ls !! Z.to_nat (b - s) else None).
Proof.
  intros HL Hp. pose proof (length_concat_pieces L ls Hp) as Hlen.
  destruct (Z.leb_spec s b) as [Hle|Hlt]; [destruct (ls !! Z.to_nat (b - s)) as [l|] eqn:El|].
  - assert (Z.of_nat (length l) = L) as Hl.
    { unfold pieces in Hp. rewrite Forall_forall in Hp. apply Hp. by eapply list_elem_of_lookup_2. }
    pose proof (lookup_lt_Some _ _ _ El) as Hb. simpl. apply list_eq. intros k.
    destruct (decide (Z.of_nat k < L)) as [Hk|Hk].
    + rewrite lookup_bytes_at by done. rewrite put_bytes_in by nia.
      replace (Z.to_nat (b * L + Z.of_nat k - s * L)) with (Z.to_nat (b - s) * Z.to_nat L + k)%nat by nia.
      rewrite (lookup_concat_pieces L) by done. rewrite El. simpl.
      destruct (l !! k) as [z|] eqn:Ez; [done|]. apply lookup_ge_None_1 in Ez. lia.
    + pose proof (length_bytes_at (put_bytes f (s * L) (concat ls)) (b * L) L ltac:(lia)).
      rewrite !lookup_ge_None_2 by lia. done.
  - apply lookup_ge_None_1 in El. simpl. apply bytes_at_ext. intros k Hk. apply put_bytes_out. nia.
  - simpl. apply bytes_at_ext. intros k Hk. apply put_bytes_out. nia.
Qed.

(** The views of the blocks of ranges, one after the other. *)
Definition block_views (vm : mapping) (l : list ((Z * Z) * Z)) : list (list Z) :=
  (λ x, view_bytes vm x.1) <$> l.

Lemma block_views_eq vm l ps : Forall2 (λ x p, view_bytes vm x.1 = p) l ps → block_views vm l = ps.
Proof. induction 1 as [|x p l ps <- _ IH]; [done|]. unfold block_views in *. by rewrite fmap_cons, IH. Qed.

Definition whole_blocks (L : Z) (segs : list (Z * Z)) : Prop :=
  Forall (λ s : Z * Z, 0 <= s.2 ∧ s.2 mod L = 0) segs.

Lemma gather_blocks vm L k segs : 0 < L → whole_blocks L segs →
  gather vm segs = concat (block_views vm (blocks L k segs)).
Proof.
  intros HL Hs. revert k. induction Hs as [|[a m] l [H0 Hm] _ IH]; intros k; [done|].
  unfold gather. rewrite bind_cons. cbn [blocks]. unfold block_views in *. rewrite fmap_app, concat_app.
  f_equal; [|apply IH]. unfold view_bytes, seg_blocks. cbn [fst snd] in *.
  assert (0 <= m / L) by (apply Z.div_pos; lia).
  rewrite load_bytes_at. replace m with (Z.of_nat (Z.to_nat (m / L)) * L) at 1
    by (Z.div_mod_to_equations; nia).
  rewrite bytes_at_blocks by lia. unfold blocks_at. rewrite <- list_fmap_compose. f_equal.
  apply list_fmap_ext. intros i x _. simpl. by rewrite load_bytes_at.
Qed.

Lemma block_views_pieces vm L k segs : 0 < L → pieces L (block_views vm (blocks L k segs)).
Proof.
  intros HL. unfold pieces, block_views. rewrite Forall_fmap. revert k.
  induction segs as [|s segs IH]; intros k; [constructor|]. cbn [blocks]. apply Forall_app. split; [|apply IH].
  unfold seg_blocks. rewrite Forall_fmap. apply Forall_forall. intros j _. simpl.
  rewrite length_view_bytes. simpl. lia.
Qed.

(** A block is inside of one range. *)
Lemma blocks_within L k segs x : 0 < L → whole_blocks L segs → x ∈ blocks L k segs →
  ∃ s, s ∈ segs ∧ s.1 <= x.1.1 ∧ x.1.1 + x.1.2 <= s.1 + s.2.
Proof.
  intros HL Hs. revert k. induction Hs as [|s l [H0 Hm] _ IH]; intros k Hx; [by apply elem_of_nil in Hx|].
  cbn [blocks] in Hx. apply elem_of_app in Hx as [Hx|Hx].
  - exists s. split; [by left|]. unfold seg_blocks in Hx. apply list_elem_of_fmap in Hx as (j & -> & Hj).
    apply elem_of_seq in Hj. simpl. Z.div_mod_to_equations. nia.
  - destruct (IH _ Hx) as (s' & Hs' & ?). exists s'. split; [by right|done].
Qed.

Lemma blocks_apart_word L k segs w : 0 < L → whole_blocks L segs →
  Forall (λ y, apart y w) segs → Forall (λ x : (Z * Z) * Z, apart x.1 w) (blocks L k segs).
Proof.
  intros HL Hs Ha. apply Forall_forall. intros x Hx.
  destruct (blocks_within L k segs x HL Hs Hx) as (s & Hin & H1 & H2).
  rewrite Forall_forall in Ha. destruct (Ha s Hin); [left|right]; lia.
Qed.

Lemma StronglySorted_app {A} (R : A → A → Prop) l1 l2 : StronglySorted R l1 → StronglySorted R l2 →
  (∀ x y, x ∈ l1 → y ∈ l2 → R x y) → StronglySorted R (l1 ++ l2).
Proof.
  intros H1 H2. induction H1 as [|a l1 H1 IH Ha]; intros Hx; [done|]. simpl. constructor.
  - apply IH. intros x y ? ?. apply Hx; [by right|done].
  - apply Forall_app. split; [done|]. apply Forall_forall. intros y Hy. apply Hx; [by left|done].
Qed.

Lemma StronglySorted_seq {A} (R : A → A → Prop) (f : nat → A) n m :
  (∀ i j, (i < j)%nat → R (f i) (f j)) → StronglySorted R (f <$> seq n m).
Proof.
  intros H. revert n. induction m as [|m IH]; intros n; simpl; constructor; [apply IH|].
  rewrite Forall_fmap. apply Forall_forall. intros j Hj%elem_of_seq. apply H. lia.
Qed.

Lemma blocks_apart L k segs : 0 < L → whole_blocks L segs → StronglySorted apart segs →
  StronglySorted (λ x y : (Z * Z) * Z, apart x.1 y.1) (blocks L k segs).
Proof.
  intros HL Hs. revert k. induction Hs as [|s l [H0 Hm] Hl IH]; intros k Ha; [constructor|].
  apply StronglySorted_inv in Ha as [Ha Hhd]. cbn [blocks]. apply StronglySorted_app; [|by apply IH|].
  - unfold seg_blocks. apply StronglySorted_seq. intros i j Hij. left. simpl. nia.
  - intros x y Hx Hy. destruct (blocks_within L (k + s.2 / L) l y HL Hl Hy) as (t & Ht & T1 & T2).
    destruct (blocks_within L k [s] x HL ltac:(by repeat constructor)) as (s' & Hs'%list_elem_of_singleton & S1 & S2).
    { cbn [blocks]. by rewrite app_nil_r. }
    subst s'. rewrite Forall_forall in Hhd. destruct (Hhd t Ht); [left|right]; lia.
Qed.

Lemma blocks_size L k segs i x : blocks L k segs !! i = Some x → x.1.2 = L.
Proof.
  intros Hi. apply list_elem_of_lookup_2 in Hi. revert k Hi.
  induction segs as [|s segs IH]; intros k Hi; [by apply elem_of_nil in Hi|].
  cbn [blocks] in Hi. apply elem_of_app in Hi as [Hi|Hi]; [|by eapply IH].
  by apply list_elem_of_fmap in Hi as (j & -> & _).
Qed.

(** ** Requests a guest makes *)

(** Data is moved to and from pages of the layouts of the standard, which
    overlap neither each other nor the lists that name them. *)
Record transfer_request (nv : nvme) (ns : nvme_id_ns) (r : request) : Prop := {
  tr_ok : transfer_ok nv (rq_vm r) (rq_cmd r) ns (rq_pages r);
  tr_sgl : truthy (Z.land (flags (rq_cmd r)) NVME_CMD_SGL_ALL) = false;
  tr_pages : StronglySorted apart (rq_segs ns r);
  tr_words w : reads_word (rq_vm r)
      (PrpIter (CmdList (prp1 (rq_cmd r)) (prp2 (rq_cmd r))) 0 (rq_bytes ns r)) w →
    Forall (λ y, apart y (w, 8)) (rq_segs ns r);
}.

(** The blocks are on a disk of [nblks]. *)
Definition in_disk (nblks : Z) (r : request) : Prop :=
  0 <= slba (rq_cmd r) ∧ slba (rq_cmd r) + nblocks_of (rq_cmd r) <= nblks.

Inductive disk_request (nv : nvme) (ns : nvme_id_ns) (nblks : Z) (r : request) : Prop :=
  | request_transfer : opcode (rq_cmd r) = nvme_cmd_read ∨ opcode (rq_cmd r) = nvme_cmd_write →
      transfer_request nv ns r → in_disk nblks r → disk_request nv ns nblks r
  | request_zeroes : opcode (rq_cmd r) = nvme_cmd_write_zeroes →
      0 < nsid (rq_cmd r) < MAX_VIRTUAL_NAMESPACES → nv_idns nv !! nsid (rq_cmd r) = Some ns →
      in_disk nblks r → disk_request nv ns nblks r
  | request_flush : opcode (rq_cmd r) = nvme_cmd_flush → disk_request nv ns nblks r.

(** ** The device behind the kernel module

    It resolves the pages of a command itself, and does not fail. *)
Definition disk_does (ns : nvme_id_ns) (r : request) (cmd : nvme_command) (vm : mapping) (d : arr) :
    mapping * arr :=
  let off := Z.shiftl (slba cmd) (lba_shift ns) in
  if opcode cmd =? nvme_cmd_read
  then (dma vm (rq_segs ns r) (bytes_at (aget d) off (cmd_bytes cmd ns)), d)
  else if opcode cmd =? nvme_cmd_write then (vm, store_bytes d off (gather vm (rq_segs ns r)))
  else if opcode cmd =? nvme_cmd_write_zeroes
  then (vm, store_bytes d off (replicate (Z.to_nat (cmd_bytes cmd ns)) 0))
  else (vm, d).

Section transfer.
Context (nv : nvme) (ns : nvme_id_ns) (r : request) (Hr : transfer_request nv ns r).
Abbreviation cmd := (rq_cmd r).
Abbreviation L := (2 ^ lba_shift ns).
Abbreviation views vm := (block_views vm (cmd_blocks cmd ns (rq_pages r))).

Lemma rq_shift : 0 <= lba_shift ns <= 12.
Proof using Hr. apply (to_shift _ _ _ _ _ (tr_ok _ _ _ Hr)). Qed.
Lemma rq_block : 0 < L <= 4096.
Proof using Hr. apply L_pos, rq_shift. Qed.
Lemma rq_off_blocks : rq_off ns r = slba cmd * L.
Proof using Hr. unfold rq_off. pose proof rq_shift. by rewrite Z.shiftl_mul_pow2 by lia. Qed.

Lemma rq_whole : whole_blocks L (rq_segs ns r) ∧ Forall (λ x : Z * Z, 0 <= x.2) (rq_segs ns r) ∧
  total (rq_segs ns r) = rq_bytes ns r.
Proof using Hr.
  destruct (transfer_whole _ _ _ _ _ (tr_ok _ _ _ Hr)) as [Ht Hw].
  split_and!; [exact Hw| |exact Ht]. eapply Forall_impl; [exact Hw|]. by intros ? [].
Qed.

(** The data of a transfer, block by block. *)
Lemma rq_gather vm : gather vm (rq_segs ns r) = concat (views vm) ∧ pieces L (views vm) ∧
  Z.of_nat (length (views vm)) = nblocks_of cmd.
Proof using Hr.
  pose proof rq_block. destruct rq_whole as (Hw & _). split_and!.
  - apply gather_blocks; [lia|done].
  - apply block_views_pieces. lia.
  - unfold block_views. rewrite length_map.
    by destruct (transfer_walk (inl 0) (λ _, inl 0) _ _ _ _ _ (tr_ok _ _ _ Hr)) as (_ & _ & _ & _ & _ & _ & _ & Hl & _).
Qed.

(** Its blocks are numbered from 0 and do not meet. *)
Lemma rq_index (k : nat) x : cmd_blocks cmd ns (rq_pages r) !! k = Some x →
  x.2 = Z.of_nat k ∧ x.1.2 = L.
Proof using Hr.
  intros Hk. split; [|by eapply blocks_size].
  destruct (transfer_walk (inl 0) (λ _, inl 0) _ _ _ _ _ (tr_ok _ _ _ Hr)) as (_ & _ & _ & _ & _ & _ & _ & _ & Hi).
  by apply Hi.
Qed.

Lemma rq_apart : StronglySorted (λ x y : (Z * Z) * Z, apart x.1 y.1) (cmd_blocks cmd ns (rq_pages r)).
Proof using Hr.
  pose proof rq_block. apply blocks_apart; [lia|apply rq_whole|apply (tr_pages _ _ _ Hr)].
Qed.

(** Memory that differs in the pages has the same lists. *)
Lemma rq_same_words vm w : same_outside (rq_segs ns r) (rq_vm r) vm →
  reads_word (rq_vm r) (PrpIter (CmdList (prp1 cmd) (prp2 cmd)) 0 (rq_bytes ns r)) w →
  load64 vm w = load64 (rq_vm r) w.
Proof using Hr.
  intros [_ E] Hw%(tr_words _ _ _ Hr). destruct vm, (rq_vm r). apply load64_agree. intros i Hi.
  apply E. eapply Forall_impl; [exact Hw|]. intros y [Hy|Hy]; [left|right]; simpl in *; lia.
Qed.

Lemma rq_block_words w :
  reads_word (rq_vm r) (PrpIter (CmdList (prp1 cmd) (prp2 cmd)) 0 (rq_bytes ns r)) w →
  Forall (λ x : (Z * Z) * Z, apart x.1 (w, 8)) (cmd_blocks cmd ns (rq_pages r)).
Proof using Hr.
  intros Hw%(tr_words _ _ _ Hr). pose proof rq_block.
  apply blocks_apart_word; [lia|apply rq_whole|done].
Qed.

(** What a read leaves in the pages. *)
Lemma rq_read_dma vm f : gather (dma vm (rq_segs ns r) (bytes_at f (rq_off ns r) (rq_bytes ns r))) (rq_segs ns r) =
  bytes_at f (rq_off ns r) (rq_bytes ns r).
Proof using Hr.
  destruct rq_whole as (_ & Hs & Ht). apply gather_dma; [apply (tr_pages _ _ _ Hr)|done|].
  rewrite Ht. apply length_bytes_at. pose proof (cmd_bytes_range cmd ns rq_shift) as Hb.
  unfold rq_bytes. lia.
Qed.

Lemma rq_read_blocks f : bytes_at f (rq_off ns r) (rq_bytes ns r) =
  concat (blocks_at f (slba cmd * L) L (Z.to_nat (nblocks_of cmd))).
Proof using Hr.
  pose proof rq_block. pose proof (nblocks_range cmd). rewrite rq_off_blocks, <- bytes_at_blocks by lia.
  unfold rq_bytes, cmd_bytes. f_equal. lia.
Qed.
End transfer.

(** ** A guest with one page *)

(** A read or write of the page at 64 KiB, which has [b] and [b + 1] in its
    first two blocks. *)
Definition demo_page (b : Z) : mapping := Mapping {[0x10000 := b; 0x10200 := b + 1]} 262144.
Definition demo_rw (op cid lba len b : Z) : request :=
  Request (demo_page b) (NvmeCommand op 0 cid 1 0 0 0 0x10000 0 lba 0 len 0 0 0) [0x10000].

(** The walk of one page reads no list. *)
Ltac one_page := intros w Hr; exfalso;
  inversion Hr as [_ Hw|it' Hi Hr']; [by apply elem_of_nil in Hw|];
  vm_compute in Hi; injection Hi as <-; by inversion Hr' as [He|? Hi].
Ltac one_page_ok := split; try done;
  [by exists 5|by apply layout_one; vm_compute|repeat constructor; discriminate].

Lemma demo_rw_transfer op cid lba b : transfer_request demo_ctrl demo_ns (demo_rw op cid lba 1 b).
Proof.
  split; [one_page_ok|done| |one_page].
  change (rq_segs _ _) with [(0x10000, 1024)]. repeat constructor.
Qed.

(** It writes two blocks, zeroes one of them, flushes and reads both. *)
Definition demo_guest : list request :=
  [demo_rw nvme_cmd_write 1 130 1 7;
   Request (demo_page 0) (NvmeCommand nvme_cmd_write_zeroes 0 2 1 0 0 0 0 0 131 0 0 0 0 0) [];
   Request (demo_page 0) (NvmeCommand nvme_cmd_flush 0 3 1 0 0 0 0 0 0 0 0 0 0 0) [];
   demo_rw nvme_cmd_read 4 130 1 0].

Lemma demo_guest_ok : Forall (disk_request demo_ctrl demo_ns (2 ^ 20)) demo_guest.
Proof.
  repeat apply Forall_cons_2; [| | | |apply Forall_nil_2].
  - apply request_transfer; [by right|apply demo_rw_transfer|by vm_compute].
  - by apply request_zeroes.
  - by apply request_flush.
  - apply request_transfer; [by left|apply demo_rw_transfer|by vm_compute].
Qed.
