(* ===== verification/EncSystem.v ===== *)
(** * The encrypted disk as a whole

    The classifier of the encryptors ([nmbpf_encrypt] of file BpfSm), the kernel module that runs it, the
    controller of file Encryptor and the disk, put together the way a guest's
    command passes through them: a read is executed by the disk and then
    decrypted in the guest's pages, a write and a write of zeroes are executed
    by the controller, a flush by the disk. What the guest sees is compared
    with the plain disk of file Disk. *)
From Stdlib Require Import Sorting.Sorted.
From S2P Require Import Prelude Proto BpfSm Vm Prp NvmeBase Crypto Uring Aio Sender Encryptor Path Disk.

Section enc_system.
Context {E : Type} `{tweakable_block_cipher E} (engine : E).
Context (ioc : Z + Z) (iov : Z → Z + nvme_id_ns).
Context (pwrite : list pwrite_call → Z → list Z → Z) (ns : nvme_id_ns).

(** The controller, and the bytes of the disk behind both ways. *)
Record enc_system : Type := EncSystem {
  es_srv : encryptor;
  es_disk : arr;
}.

(** The controller on a command; its calls reach the disk. *)
Definition on_server (cmd : nvme_command) (vm : mapping) (s : enc_system) :
    option (Z * nmntfy_aux * mapping * enc_system) :=
  match receive engine ioc iov pwrite cmd (set_evm vm (es_srv s)) with
  | (Throw _, _) => None
  | (Ret st, e) =>
    let calls := drop (length (e_calls (es_srv s))) (e_calls e) in
    Some (st, no_aux, e_vm e, EncSystem e (dev_after (es_disk s) calls))
  end.

Definition on_disk (r : request) (cmd : nvme_command) (vm : mapping) (s : enc_system) :
    Z * mapping * enc_system :=
  let '(vm, d) := disk_does ns r cmd vm (es_disk s) in
  (NVME_SC_SUCCESS, vm, EncSystem (es_srv s) d).

Definition serve (r : request) (s : enc_system) : option (answer * enc_system) :=
  match run_command nmbpf_encrypt on_server (on_disk r) (rq_cmd r) (rq_vm r) tt s with
  | None => None
  | Some (st, vm, _, s) => Some (answer_of r st (gather vm (rq_segs ns r)), s)
  end.

Definition serve_all : list request → enc_system → option (list answer * enc_system) := serve_each serve.

(** ** What the disk holds *)

Context (nv : nvme) (nblks : Z).
Abbreviation L := (2 ^ lba_shift ns).

(** Each block is the encryption, under its number, of the block the guest
    sees. *)
Definition holds (V : Z → Z) (d : arr) : Prop := ∀ b, 0 <= b < nblks →
  encrypt engine L (bytes_at V (b * L) L) (u64 b) = Some (bytes_at (aget d) (b * L) L).

Record enc_view (V : Z → Z) (s : enc_system) : Prop := {
  ev_nv : e_nv (es_srv s) = nv;
  ev_zero : ∃ n, zerobuf (es_srv s) = replicate n 0;
  ev_holds : holds V (es_disk s);
}.
End enc_system.

Arguments EncSystem _ _.

(** ** Lemmas *)

Section laws.
Context {E : Type} `{engine_laws : CipherLaws E engine}.
Context (ioc : Z + Z) (iov : Z → Z + nvme_id_ns).
Context (pwrite : list pwrite_call → Z → list Z → Z) (ns : nvme_id_ns) (nv : nvme) (nblks : Z).
Abbreviation L := (2 ^ lba_shift ns).
Abbreviation serve := (serve engine ioc iov pwrite ns).
Abbreviation enc_view := (enc_view engine ns nv nblks).
Abbreviation holds := (holds engine ns nblks).
Context (Ht : takes_blocks (engine := engine) (lba_shift ns)) (Hp : progressing pwrite).
Context (Hsh : 0 <= lba_shift ns <= 12) (Hnb : nblks * L <= 2 ^ 64).

(** Storing encryptions of blocks under their numbers. *)
Lemma holds_put V d ls cs sb : pieces L ls → length cs = length ls → 0 <= sb →
  (∀ k p c, ls !! k = Some p → cs !! k = Some c →
    encrypt engine L p (u64 (sb + Z.of_nat k)) = Some c) →
  holds V d → holds (put_bytes V (sb * L) (concat ls)) (store_bytes d (sb * L) (concat cs)).
Proof using engine_laws Hsh.
  intros Hls Hlen Hsb Henc HV b Hb. pose proof (L_pos _ Hsh) as HL.
  assert (pieces L cs) as Hcs.
  { apply Forall_lookup. intros k c Hc. destruct (lookup_lt_is_Some_2 ls k) as [p Hpk].
    { rewrite <- Hlen. by eapply lookup_lt_Some. }
    pose proof (encrypt_length _ _ _ _ (Henc k p c Hpk Hc)) as El.
    rewrite El. by apply (Forall_lookup_1 _ _ _ _ Hls Hpk). }
  rewrite (bytes_at_ext (aget (store_bytes _ _ _)) (put_bytes (aget d) (sb * L) (concat cs)) _ (b * L))
    by (intros; apply aget_store_bytes).
  rewrite !put_blocks by (done || lia).
  destruct (Z.leb_spec sb b) as [Hle|_]; [|by apply HV].
  destruct (ls !! Z.to_nat (b - sb)) as [p|] eqn:Ep.
  - destruct (lookup_lt_is_Some_2 cs (Z.to_nat (b - sb))) as [c Ec].
    { rewrite Hlen. by eapply lookup_lt_Some. }
    rewrite Ec. simpl. pose proof (Henc _ p c Ep Ec) as He.
    replace (sb + Z.of_nat (Z.to_nat (b - sb))) with b in He by lia. exact He.
  - apply lookup_ge_None_1 in Ep. rewrite (lookup_ge_None_2 cs) by lia. by apply HV.
Qed.

Section command.
Context (r : request) (V : Z → Z) (s : enc_system) (Hv : enc_view V s).
Abbreviation cmd := (rq_cmd r).

(** The controller's call appended its calls to those before. *)
Lemma server_does vm st e calls : receive engine ioc iov pwrite cmd (set_evm vm (es_srv s)) = (Ret st, e) →
  e_calls e = e_calls (es_srv s) ++ calls →
  on_server engine ioc iov pwrite cmd vm s =
    Some (st, no_aux, e_vm e, EncSystem e (dev_after (es_disk s) calls)).
Proof. intros R Ec. unfold on_server. by rewrite R, Ec, drop_app_length. Qed.

Lemma serve_by_server vm e d : opcode cmd = nvme_cmd_write ∨ opcode cmd = nvme_cmd_write_zeroes →
  on_server engine ioc iov pwrite cmd (rq_vm r) s = Some (NVME_SC_SUCCESS, no_aux, vm, EncSystem e d) →
  serve r s = Some (Done [], EncSystem e d).
Proof.
  intros Hop R. unfold EncSystem.serve.
  assert (nmbpf_encrypt tt (BpfIoCtx cmd NMBPF_HOOK_VSQ 0 no_aux) =
    (only_fd, BpfIoCtx cmd NMBPF_HOOK_VSQ 0 no_aux, tt)) as Hvsq.
  { unfold nmbpf_encrypt, nmbpf_encrypt_vsq. cbn [current_hook ctx_cmd]. by destruct Hop as [-> | ->]. }
  rewrite (run_by_server _ _ _ _ _ _ _ _ _ _ Hvsq _ _ _ _ eq_refl R) by done.
  unfold answer_of. by destruct Hop as [-> | ->].
Qed.

Lemma serve_write : opcode cmd = nvme_cmd_write → transfer_request nv ns r → in_disk nblks r →
  ∃ s', serve r s = Some (Done [], s') ∧
    enc_view (put_bytes V (rq_off ns r) (gather (rq_vm r) (rq_segs ns r))) s'.
Proof using All.
  intros Hop Hr [Hi1 Hi2]. destruct Hv as [Env Ez Eh]. pose proof (L_pos _ Hsh) as HL.
  destruct (write_run (engine := engine) ioc iov pwrite (set_evm (rq_vm r) (es_srv s)) cmd ns (rq_pages r))
    as (b & cs & calls & R & Hcs & D); try done; [|apply Hr|unfold cmd_bytes; nia|].
  { simpl. rewrite Env. apply Hr. }
  eexists. split; [eapply serve_by_server; [by left|]; by eapply server_does with (calls := calls)|].
  split; [done|done|]. cbn [es_disk]. rewrite D, (rq_off_blocks nv) by done.
  destruct (rq_gather nv ns r Hr (rq_vm r)) as (-> & Hps & Hl).
  apply holds_put; try done.
  - unfold block_views. rewrite length_map. by apply Forall2_length in Hcs.
  - intros k p c Hk Hc. unfold block_views in Hk. rewrite list_lookup_fmap in Hk.
    apply fmap_Some in Hk as (x & Hx & ->). destruct (rq_index nv ns r Hr k x Hx) as [I1 I2].
    destruct (Forall2_lookup_l _ _ _ _ _ Hcs Hx) as (c' & Hc' & He). simplify_eq.
    unfold block_cipher in He. by rewrite I1, I2 in He.
Qed.

Lemma serve_zeroes : opcode cmd = nvme_cmd_write_zeroes → 0 < nsid cmd < MAX_VIRTUAL_NAMESPACES →
  nv_idns nv !! nsid cmd = Some ns → in_disk nblks r →
  ∃ s', serve r s = Some (Done [], s') ∧
    enc_view (put_bytes V (rq_off ns r) (replicate (Z.to_nat (rq_bytes ns r)) 0)) s'.
Proof using All.
  intros Hop Hn Hns [Hi1 Hi2]. destruct Hv as [Env Ez Eh]. pose proof (L_pos _ Hsh) as HL.
  pose proof (nblocks_range cmd) as Hb.
  destruct (zeroes_run (engine := engine) ioc iov pwrite (set_evm (rq_vm r) (es_srv s)) cmd ns)
    as (z & b & cs & calls & R & Hl & Hcs & D); try done; [by cbn; rewrite Env|unfold cmd_bytes; nia|].
  eexists. split; [eapply serve_by_server; [by right|]; by eapply server_does with (calls := calls)|].
  split; [done|by exists z|]. cbn [es_disk]. rewrite D. unfold rq_off. rewrite Z.shiftl_mul_pow2 by lia.
  set (ls := replicate (Z.to_nat (nblocks_of cmd)) (replicate (Z.to_nat L) 0)).
  assert (replicate (Z.to_nat (rq_bytes ns r)) 0 = concat ls) as ->.
  { unfold rq_bytes, cmd_bytes, ls. rewrite Z2Nat.inj_mul by lia. clear.
    induction (Z.to_nat (nblocks_of cmd)) as [|k IH]; simpl; [done|]. by rewrite replicate_add, IH. }
  apply holds_put; try done.
  - apply Forall_replicate. rewrite length_replicate. lia.
  - unfold ls. rewrite length_replicate. lia.
  - intros k p c Hk Hc. apply lookup_replicate in Hk as [-> _]. by apply Hcs.
Qed.

Lemma serve_read : opcode cmd = nvme_cmd_read → transfer_request nv ns r → in_disk nblks r →
  ∃ s', serve r s = Some (Done (bytes_at V (rq_off ns r) (rq_bytes ns r)), s') ∧ enc_view V s'.
Proof using All.
  intros Hop Hr [Hi1 Hi2]. destruct Hv as [Env Ez Eh]. pose proof (L_pos _ Hsh) as HL.
  set (f := aget (es_disk s)). set (vm1 := dma (rq_vm r) (rq_segs ns r) (bytes_at f (rq_off ns r) (rq_bytes ns r))).
  set (n := Z.to_nat (nblocks_of cmd)). set (ps := blocks_at V (slba cmd * L) L n).
  assert (same_outside (rq_segs ns r) (rq_vm r) vm1) as Hout by (apply dma_outside, (rq_whole nv ns r Hr)).
  destruct (rq_gather nv ns r Hr vm1) as (G & Gp & Gl).
  assert (block_views vm1 (cmd_blocks cmd ns (rq_pages r)) = blocks_at f (slba cmd * L) L n) as Hviews.
  { apply (concat_pieces_inj L); [done|apply blocks_at_pieces; lia| |].
    - unfold blocks_at. rewrite length_map, length_seq. lia.
    - rewrite <- G. unfold vm1. rewrite (rq_read_dma nv) by done. by apply (rq_read_blocks nv). }
  destruct (read_run (engine := engine) ioc iov pwrite (set_evm vm1 (es_srv s)) cmd ns (rq_vm r) (rq_pages r) ps)
    as (vm2 & R & Hvs & _); try done.
  { simpl. rewrite Env. apply Hr. }
  { apply Hr. }
  { apply Hout. }
  { intros w Hw. by apply (rq_same_words nv ns r Hr). }
  { by apply (rq_block_words nv). }
  { by apply (rq_apart nv). }
  { apply Forall2_same_length_lookup_2.
    - apply (f_equal length) in Hviews. unfold block_views, blocks_at in Hviews.
      rewrite !length_map in Hviews. unfold ps, blocks_at. by rewrite length_map.
    - intros k x p Hx Hpk. destruct (rq_index nv ns r Hr k x Hx) as [I1 I2].
      unfold holds_cipher. rewrite I1, I2. cbn [set_evm e_vm].
      apply (f_equal (.!! k)) in Hviews. unfold block_views, blocks_at in Hviews.
      unfold ps, blocks_at in Hpk. rewrite list_lookup_fmap in Hpk. apply fmap_Some in Hpk as (j & Hj & ->).
      rewrite !list_lookup_fmap, Hx, Hj in Hviews. injection Hviews as ->.
      apply lookup_seq in Hj as [-> Hj]. unfold n in Hj. pose proof (nblocks_range cmd).
      rewrite <- !Z.mul_add_distr_r, !Nat.add_0_l. apply Eh. lia. }
  assert (on_server engine ioc iov pwrite cmd vm1 s =
    Some (NVME_SC_SUCCESS, no_aux, vm2, EncSystem (set_evm vm2 (set_evm vm1 (es_srv s))) (es_disk s))) as Rs.
  { rewrite (server_does _ _ _ [] R); [done|]. simpl. by rewrite app_nil_r. }
  eexists. split.
  - unfold EncSystem.serve.
    assert (nmbpf_encrypt tt (BpfIoCtx cmd NMBPF_HOOK_VSQ 0 no_aux) =
      (hq_hooked, BpfIoCtx cmd NMBPF_HOOK_VSQ 0 no_aux, tt)) as Hvsq.
    { unfold nmbpf_encrypt, nmbpf_encrypt_vsq. cbn [current_hook ctx_cmd]. by rewrite Hop. }
    assert (on_disk ns r cmd (rq_vm r) s = (NVME_SC_SUCCESS, vm1, s)) as Rd.
    { unfold on_disk, disk_does. rewrite Hop. cbn. by destruct s. }
    rewrite (run_handed _ _ _ _ _ _ _ _ _ _ Hvsq _ _ _ _ _ _ eq_refl Rd eq_refl _ _ _ _ eq_refl Rs) by done.
    unfold answer_of. rewrite Hop. cbn [fst snd]. rewrite !Z.eqb_refl. do 3 f_equal.
    destruct (rq_gather nv ns r Hr vm2) as (-> & _). rewrite (rq_read_blocks nv) by done.
    f_equal. by apply block_views_eq.
  - by split.
Qed.
End command.

Lemma serve_encrypted r V s : disk_request nv ns nblks r → enc_view V s →
  ∃ a s' V', serve r s = Some (a, s') ∧ disk_step ns V r a V' ∧ enc_view V' s'.
Proof using All.
  intros [[Hop|Hop] Hr Hi|Hop Hn Hns Hi|Hop] Hv.
  - destruct (serve_read r V s Hv Hop Hr Hi) as (s' & R & Hv'). eexists _, _, _. split_and!; [done|by constructor|done].
  - destruct (serve_write r V s Hv Hop Hr Hi) as (s' & R & Hv'). eexists _, _, _. split_and!; [done|by constructor|done].
  - destruct (serve_zeroes r V s Hv Hop Hn Hns Hi) as (s' & R & Hv').
    eexists _, _, _. split_and!; [done|by constructor|done].
  - exists (Done []), s, V. split_and!; [|by constructor|done].
    unfold EncSystem.serve.
    assert (nmbpf_encrypt tt (BpfIoCtx (rq_cmd r) NMBPF_HOOK_VSQ 0 no_aux) =
      (only_hq, BpfIoCtx (rq_cmd r) NMBPF_HOOK_VSQ 0 no_aux, tt)) as Hvsq.
    { unfold nmbpf_encrypt, nmbpf_encrypt_vsq. cbn [current_hook ctx_cmd]. by rewrite Hop. }
    assert (on_disk ns r (rq_cmd r) (rq_vm r) s = (NVME_SC_SUCCESS, rq_vm r, s)) as Rd.
    { unfold on_disk, disk_does. rewrite Hop. cbn. by destruct s. }
    rewrite (run_by_disk _ _ _ _ _ _ _ _ _ _ Hvsq _ _ _ eq_refl Rd) by done.
    unfold answer_of. by rewrite Hop.
Qed.
End laws.

(** ** Properties *)

(** C2. The encrypted disk is a disk. Whatever reads, writes, writes of zeroes
    and flushes the guest sends, one after another, every command ends with
    "success"; a read returns the bytes that the writes before it left, a write
    changes exactly its bytes, and the disk behind the controller holds, for
    every block and after every command, the encryption under its number of
    the block the guest sees, and so no data in the clear. It is assumed that
    the engine takes blocks of this size, that [pwrite] makes progress and that
    the disk executes what it is sent. The theorem puts together the
    classifier, the kernel module, the controller and its walks of the PRP
    lists, and the disk that first leaves the encrypted blocks in the pages. *)
Theorem encrypted_disk_refines {E} `{!tweakable_block_cipher E} (engine : E) `{!CipherLaws E engine}
    ioc iov pwrite ns nv nblks V s rs :
  0 <= lba_shift ns <= 12 → nblks * 2 ^ lba_shift ns <= 2 ^ 64 →
  takes_blocks (engine := engine) (lba_shift ns) → progressing pwrite →
  enc_view engine ns nv nblks V s → Forall (disk_request nv ns nblks) rs →
  ∃ l s' V', serve_all engine ioc iov pwrite ns rs s = Some (l, s') ∧
    disk_run ns V rs l V' ∧ enc_view engine ns nv nblks V' s'.
Proof.
  intros Hsh Hnb Ht Hp Hv Hrs.
  apply (serve_each_run _ ns (enc_view engine ns nv nblks) (disk_request nv ns nblks)); [|done..].
  intros r V0 s0 Hr Hv0. by apply serve_encrypted.
Qed.

(** A disk of 2^20 blocks of zeros, which the guest sees as the decryption of
    zeros. *)
Definition demo_plain (i : Z) : Z := (i / 512) mod 256.
Definition demo_enc : enc_system := EncSystem demo_encryptor ∅.

Lemma demo_enc_view : enc_view demo_engine demo_ns demo_ctrl (2 ^ 20) demo_plain demo_enc.
Proof.
  split; [done|by exists 0%nat|]. intros b Hb. change (2 ^ lba_shift demo_ns) with 512.
  assert (bytes_at demo_plain (b * 512) 512 = replicate 512 (b mod 256)) as ->.
  { transitivity (bytes_at (λ _, b mod 256) 0 512); [|reflexivity].
    apply bytes_at_ext. intros k Hk. unfold demo_plain. f_equal. Z.div_mod_to_equations. lia. }
  cbn [encrypt demo_cipher ipp_cipher]. unfold ipp_crypt. rewrite length_replicate.
  change (512 <? Z.of_nat 512) with false. change (Z.of_nat 512 =? ipp_bs demo_engine) with true.
  cbn [orb negb]. unfold demo_xts. rewrite fmap_replicate. f_equal.
  transitivity (bytes_at (λ _, 0) 0 512); [|apply bytes_at_ext; intros; unfold demo_enc, aget; cbn [es_disk]; by rewrite lookup_empty].
  change (bytes_at (λ _, 0) 0 512) with (replicate 512 0). f_equal.
  rewrite u64_small by lia. simpl. apply Z.lxor_nilpotent.
Qed.

Lemma encrypted_disk_refines_witness : ∃ l s' V',
  serve_all demo_engine (inl 5) (λ _, inl 5) demo_pwrite demo_ns demo_guest demo_enc = Some (l, s') ∧
  disk_run demo_ns demo_plain demo_guest l V' ∧
  enc_view demo_engine demo_ns demo_ctrl (2 ^ 20) V' s'.
Proof.
  apply encrypted_disk_refines.
  - apply demo_laws.
  - by vm_compute.
  - by vm_compute.
  - apply demo_takes_blocks.
  - apply demo_progressing.
  - apply demo_enc_view.
  - apply demo_guest_ok.
Defined.
