(* ===== verification/ReplSystem.v ===== *)
(** * The replicated disk as a whole

    The classifier [nmbpf_replicate] (file BpfSm), the kernel module that runs
    it, the controller of file Sender with its replica, and the disk: a write
    goes to the disk and to the controller at the same time, everything else to
    the disk alone. Who answers first is left open. What the guest sees is
    compared with the plain disk of file Disk, and the replica with the disk. *)
From S2P Require Import Prelude Proto BpfSm Vm Prp NvmeBase Crypto Uring Aio Sender Encryptor Path Disk.

(** ** The replica *)

(** The bytes of a vector in guest memory, where the controller's vectors are. *)
Definition iov_bytes (vm : mapping) (v : list iovec) : list Z :=
  v ≫= λ x, match iov_base x with PVm o => view_bytes vm (o, iov_len x) | _ => [] end.

(** What a call leaves on the replica: the bytes the call says it took, a range
    of zeros unless it fails. *)
Definition repl_call (vm : mapping) (d : arr) (c : dev_call) (ret : Z) : arr :=
  match c with
  | DPwritev v off _ => store_bytes d off (take (Z.to_nat ret) (iov_bytes vm v))
  | DFallocate _ off len => if ret <? 0 then d else store_bytes d off (replicate (Z.to_nat len) 0)
  | DFdatasync => d
  end.

Section repl_system.
Context (ioc : Z + Z) (iov : Z → Z + nvme_id_ns).
Context (dev : list dev_call → dev_call → Z) (ns : nvme_id_ns).

Fixpoint repl_calls (vm : mapping) (d : arr) (before calls : list dev_call) : arr :=
  match calls with
  | [] => d
  | c :: calls => repl_calls vm (repl_call vm d c (dev before c)) (before ++ [c]) calls
  end.

Record repl_system : Type := ReplSystem {
  rs_srv : sender;
  rs_repl : arr;
  rs_disk : arr;
}.

Definition set_sdvm (vm : mapping) (s : sender) : sender := Sender (sd_nv s) vm (wvec s) (sd_calls s).

Definition on_server (cmd : nvme_command) (vm : mapping) (s : repl_system) :
    option (Z * nmntfy_aux * mapping * repl_system) :=
  match Sender.receive ioc iov dev cmd (set_sdvm vm (rs_srv s)) with
  | (Throw _, _) => None
  | (Ret st, e) =>
    let before := sd_calls (rs_srv s) in
    let repl := repl_calls vm (rs_repl s) before (drop (length before) (sd_calls e)) in
    Some (st, no_aux, sd_vm e, ReplSystem e repl (rs_disk s))
  end.

Definition on_disk (r : request) (cmd : nvme_command) (vm : mapping) (s : repl_system) :
    Z * mapping * repl_system :=
  let '(vm, d) := disk_does ns r cmd vm (rs_disk s) in
  (NVME_SC_SUCCESS, vm, ReplSystem (rs_srv s) (rs_repl s) d).

(** One order of the answers, and any order. *)
Definition serve (r : request) (s : repl_system) : option (answer * repl_system) :=
  match run_command nmbpf_replicate on_server (on_disk r) (rq_cmd r) (rq_vm r) tt s with
  | None => None
  | Some (st, vm, _, s) => Some (answer_of r st (gather vm (rq_segs ns r)), s)
  end.
Definition serves (r : request) (s : repl_system) (a : answer) (s' : repl_system) : Prop :=
  ∃ st vm, runs nmbpf_replicate on_server (on_disk r) (rq_cmd r) (rq_vm r) tt s (st, vm, tt, s') ∧
    a = answer_of r st (gather vm (rq_segs ns r)).

Inductive serves_all (s : repl_system) : list request → list answer → repl_system → Prop :=
  | serves_nil : serves_all s [] [] s
  | serves_cons r rs a l s1 s2 :
      serves r s a s1 → serves_all s1 rs l s2 → serves_all s (r :: rs) (a :: l) s2.

Lemma serve_serves r s a s' : serve r s = Some (a, s') → serves r s a s'.
Proof.
  unfold serve. destruct (run_command _ _ _ _ _ _ _) as [[[[st vm] []] s1]|] eqn:E; [|done].
  intros [= <- <-]. exists st, vm. split; [by apply run_command_runs|done].
Qed.

(** A device that takes what it is given. *)
Definition takes_all : Prop :=
  (∀ calls v off fl, dev calls (DPwritev v off fl) = iov_total v) ∧
  (∀ calls mode off len, 0 <= dev calls (DFallocate mode off len)).

Definition in_sync (s : repl_system) : Prop := ∀ i, aget (rs_repl s) i = aget (rs_disk s) i.

(** ** One command *)

Context (nv : nvme) (nblks : Z) (Hsh : 0 <= lba_shift ns <= 12) (Hnb : nblks * 2 ^ lba_shift ns <= 2 ^ 64).

Record repl_view (V : Z → Z) (s : repl_system) : Prop := {
  rv_nv : sd_nv (rs_srv s) = nv;
  rv_disk i : aget (rs_disk s) i = V i;
}.

Lemma iov_bytes_segs vm segs : iov_bytes vm (seg_iovec <$> segs) = gather vm segs.
Proof.
  unfold iov_bytes, gather. induction segs as [|[o n] segs IH]; [done|].
  rewrite fmap_cons, !bind_cons, IH. done.
Qed.

Lemma iov_total_segs segs : iov_total (seg_iovec <$> segs) = total segs.
Proof. induction segs as [|x segs IH]; [done|]. rewrite fmap_cons. simpl. by f_equal. Qed.

Lemma write_status (b : bool) : 0 <= (if b then NVME_SC_SUCCESS else sc_internal) < 2 ^ 16.
Proof. by destruct b. Qed.
Lemma success_status : 0 <= NVME_SC_SUCCESS < 2 ^ 16.
Proof. done. Qed.
Lemma zeroes_status_range ret : 0 <= zeroes_status ret < 2 ^ 16.
Proof.
  unfold zeroes_status. destruct (ret <? 0); [|done]. destruct (_ =? EFBIG); [done|].
  by destruct (_ =? EIO).
Qed.

(** What the server does with a write: its status is some status, the memory of
    the guest is not changed, and the replica gets what the device took. *)
Definition server_ok (cmd : nvme_command) (vm : mapping) (s : repl_system) (off : Z) (bs : list Z) : Prop :=
  ∃ st e repl, on_server cmd vm s = Some (st, no_aux, vm, ReplSystem e repl (rs_disk s)) ∧
    0 <= st < 2 ^ 16 ∧
    sd_nv e = sd_nv (rs_srv s) ∧ (∀ c, c ∈ sd_calls e → c ∈ sd_calls (rs_srv s) ∨ c ≠ DFdatasync) ∧
    (takes_all → repl = store_bytes (rs_repl s) off bs).

Section command.
Context (r : request) (s : repl_system) (V : Z → Z) (Hv : repl_view V s).
Abbreviation cmd := (rq_cmd r).

Lemma server_write d : opcode cmd = nvme_cmd_write → transfer_request nv ns r → in_disk nblks r →
  server_ok cmd (rq_vm r) (ReplSystem (rs_srv s) (rs_repl s) d) (rq_off ns r)
    (gather (rq_vm r) (rq_segs ns r)).
Proof using All.
  intros Hop Hr [Hi1 Hi2]. destruct Hv as [Env _]. pose proof (L_pos _ Hsh) as HL.
  pose proof (tr_ok _ _ _ Hr) as Hok. destruct (transfer_checks ioc iov _ _ _ _ _ Hok) as [E1 E2].
  destruct (transfer_segments _ _ _ _ _ Hok) as [Hw Hs].
  destruct (rq_whole nv ns r Hr) as (_ & Hpos & Htot). pose proof (nblocks_range cmd) as Hn.
  destruct (receive_write_run ioc iov _ _ cmd _ _ _ Hop (tr_sgl _ _ _ Hr) E1 E2 Hw
    ltac:(eapply Forall_impl; [exact Hs|by intros ? []]) dev (set_sdvm (rq_vm r) (rs_srv s)))
    as (e & R & Rc & Rn & Rv); [by rewrite <- Env|done|].
  eexists _, e, _. split; [|split; [|split; [|split]]].
  - unfold on_server. cbn [rs_srv]. rewrite R, Rv. reflexivity.
  - apply write_status.
  - by rewrite Rn, <- Env.
  - intros c Hc. rewrite Rc in Hc. apply elem_of_app in Hc as [Hc|Hc]; [by left|right].
    by apply list_elem_of_singleton in Hc as ->.
  - intros [Hp _]. rewrite Rc. cbn [set_sdvm sd_calls rs_repl rs_srv]. rewrite drop_app_length.
    cbn [repl_calls repl_call]. rewrite Hp, iov_bytes_segs.
    change (segments _ _) with (rq_segs ns r). unfold rq_off.
    rewrite Z.shiftl_mul_pow2 by lia. rewrite u64_small by nia.
    f_equal. apply take_ge. pose proof (length_gather (rq_vm r) (rq_segs ns r) Hpos) as Hl.
    rewrite iov_total_segs. lia.
Qed.

Lemma server_zeroes d : opcode cmd = nvme_cmd_write_zeroes → 0 < nsid cmd < MAX_VIRTUAL_NAMESPACES →
  nv_idns nv !! nsid cmd = Some ns → in_disk nblks r →
  server_ok cmd (rq_vm r) (ReplSystem (rs_srv s) (rs_repl s) d) (rq_off ns r)
    (replicate (Z.to_nat (rq_bytes ns r)) 0).
Proof using All.
  intros Hop Hn Hns [Hi1 Hi2]. destruct Hv as [Env _]. pose proof (L_pos _ Hsh) as HL.
  pose proof (nblocks_range cmd) as Hb.
  pose proof (receive_zeroes_run ioc iov dev cmd ns (set_sdvm (rq_vm r) (rs_srv s)) Hop Hn) as R.
  cbn [set_sdvm sd_nv] in R. rewrite Env in R. specialize (R Hns).
  eexists _, _, _. split; [|split; [|split; [|split]]].
  - unfold on_server. cbn [rs_srv]. rewrite <- Env in R. rewrite R. reflexivity.
  - apply zeroes_status_range.
  - done.
  - intros c Hc. cbn in Hc. apply elem_of_app in Hc as [Hc|Hc]; [by left|right].
    by apply list_elem_of_singleton in Hc as ->.
  - intros [_ Hp]. cbn [set_sdvm sd_calls rs_repl rs_srv]. rewrite drop_app_length.
    cbn [repl_calls repl_call]. rewrite !Z.shiftl_mul_pow2 by lia. rewrite !u64_small by nia.
    replace (_ <? 0) with false by (specialize (Hp (sd_calls (rs_srv s)) FALLOC_FL_ZERO_RANGE
      (slba cmd * 2 ^ lba_shift ns) (nblocks_of cmd * 2 ^ lba_shift ns)); lia).
    unfold rq_off, rq_bytes, cmd_bytes. by rewrite Z.shiftl_mul_pow2 by lia.
Qed.

(** The calls a step adds: none of them makes the replica's data durable. *)
Definition no_sync (s s' : repl_system) : Prop :=
  ∀ c, c ∈ sd_calls (rs_srv s') → c ∈ sd_calls (rs_srv s) ∨ c ≠ DFdatasync.

(** Every order of the answers ends the command as the plain disk does. *)
Definition stepped : Prop := (∃ a s', serve r s = Some (a, s')) ∧
  ∀ a s', serves r s a s' → ∃ V', disk_step ns V r a V' ∧ repl_view V' s' ∧ no_sync s s' ∧
    (takes_all → in_sync s → in_sync s').

Lemma vsq_both : opcode cmd = nvme_cmd_write ∨ opcode cmd = nvme_cmd_write_zeroes →
  nmbpf_replicate tt (BpfIoCtx cmd NMBPF_HOOK_VSQ 0 no_aux) = (both, BpfIoCtx cmd NMBPF_HOOK_VSQ 0 no_aux, tt).
Proof. unfold nmbpf_replicate. cbn [ctx_cmd]. by intros [-> | ->]. Qed.
Lemma vsq_disk : opcode cmd = nvme_cmd_read ∨ opcode cmd = nvme_cmd_flush →
  nmbpf_replicate tt (BpfIoCtx cmd NMBPF_HOOK_VSQ 0 no_aux) = (only_hq, BpfIoCtx cmd NMBPF_HOOK_VSQ 0 no_aux, tt).
Proof. unfold nmbpf_replicate. cbn [ctx_cmd]. by intros [-> | ->]. Qed.

Lemma serve_both bs : opcode cmd = nvme_cmd_write ∨ opcode cmd = nvme_cmd_write_zeroes →
  (∀ d, server_ok cmd (rq_vm r) (ReplSystem (rs_srv s) (rs_repl s) d) (rq_off ns r) bs) →
  (∀ e rp d, on_disk r cmd (rq_vm r) (ReplSystem e rp d) =
    (NVME_SC_SUCCESS, rq_vm r, ReplSystem e rp (store_bytes d (rq_off ns r) bs))) →
  disk_step ns V r (Done []) (put_bytes V (rq_off ns r) bs) → stepped.
Proof using Hv.
  intros Hop Hsrv Hdsk Hstep. set (d' := store_bytes (rs_disk s) (rq_off ns r) bs).
  destruct (Hsrv (rs_disk s)) as (st & e & rp & R1 & Hst & Hnv & Hsync & Hall). cbn [rs_srv rs_repl rs_disk] in *.
  assert (∀ d, on_server cmd (rq_vm r) (ReplSystem (rs_srv s) (rs_repl s) d) =
    Some (st, no_aux, rq_vm r, ReplSystem e rp d)) as R.
  { intros d. unfold on_server in R1 |- *. cbn [rs_srv rs_repl rs_disk] in *.
    destruct (Sender.receive _ _ _ _ _) as [[x|] e']; [|done]. injection R1 as <- Evm <- <-. by rewrite Evm. }
  assert (ReplSystem (rs_srv s) (rs_repl s) (rs_disk s) = s) as Es by by destruct s.
  pose proof (R (rs_disk s)) as R0. pose proof (Hdsk (rs_srv s) (rs_repl s) (rs_disk s)) as Hdsk0.
  rewrite Es in R0, Hdsk0.
  assert (∀ a s', serves r s a s' → a = Done [] ∧ s' = ReplSystem e rp d') as Hdet.
  { intros a s' (st' & vm & Hr & ->). apply (runs_submitted _ _ _ _ _ _ _ _ _ _ (vsq_both Hop)) in Hr.
    change (sends_of both _ ++ end_of both) with [ToFd cmd; ToHq cmd] in Hr.
    eapply (drives_both _ _ _ _ _ _ _ _ _ st NVME_SC_SUCCESS) in Hr;
      [|done|done|apply R0|apply Hdsk|apply Hdsk0|apply R].
    injection Hr as -> -> ->. split; [|done]. unfold answer_of. by destruct Hop as [-> | ->]. }
  split.
  - eexists _, _. unfold serve. rewrite (run_submitted _ _ _ _ _ _ _ _ _ _ (vsq_both Hop)).
    change (sends_of both _ ++ end_of both) with [ToFd cmd; ToHq cmd].
    rewrite (drive_both _ _ _ _ _ _ _ _ _ st NVME_SC_SUCCESS _ _ _ _ _ _ _ Hst success_status
      R0 (Hdsk _ _ _) Hdsk0 (R _)). done.
  - intros a s' (-> & ->)%Hdet. destruct Hv as [Env Hd].
    exists (put_bytes V (rq_off ns r) bs). split; [done|]. split; [split|split].
    + cbn. congruence.
    + intros i. cbn [rs_disk]. unfold d'. rewrite aget_store_bytes. by apply put_bytes_ext.
    + done.
    + intros Ht Hs i. cbn [rs_repl rs_disk]. unfold d'. rewrite (Hall Ht), !aget_store_bytes.
      by apply put_bytes_ext.
Qed.

(** The disk alone, whose state stays. *)
Lemma serve_alone vm : opcode cmd = nvme_cmd_read ∨ opcode cmd = nvme_cmd_flush →
  on_disk r cmd (rq_vm r) s = (NVME_SC_SUCCESS, vm, s) →
  disk_step ns V r (answer_of r NVME_SC_SUCCESS (gather vm (rq_segs ns r))) V → stepped.
Proof using Hv.
  intros Hop Hdsk Hstep. split.
  - eexists _, _. unfold serve.
    by rewrite (run_by_disk _ _ _ _ _ _ _ _ _ _ (vsq_disk Hop) _ _ _ eq_refl Hdsk) by done.
  - intros a s' (st' & vm' & Hr & ->). apply (runs_submitted _ _ _ _ _ _ _ _ _ _ (vsq_disk Hop)) in Hr.
    change (sends_of only_hq _ ++ end_of only_hq) with [ToHq cmd] in Hr.
    eapply drives_only_hq in Hr; [|exact Hdsk|done]. injection Hr as -> -> ->.
    exists V. split; [done|]. split; [done|]. split; [by left|done].
Qed.

Lemma serve_replicated : disk_request nv ns nblks r → stepped.
Proof using All.
  intros [[Hop|Hop] Hr Hi|Hop Hn Hns Hi|Hop].
  - set (f := aget (rs_disk s)).
    apply (serve_alone (dma (rq_vm r) (rq_segs ns r) (bytes_at f (rq_off ns r) (rq_bytes ns r)))); [by left| |].
    + unfold on_disk, disk_does. rewrite Hop. cbn. by destruct s.
    + unfold answer_of. rewrite (rq_read_dma nv) by done. rewrite Hop, !Z.eqb_refl.
      rewrite (bytes_at_ext f V (rq_off ns r) (rq_off ns r)) by (intros; apply (rv_disk _ _ Hv)).
      by constructor.
  - apply (serve_both (gather (rq_vm r) (rq_segs ns r))); [by left|by intros; apply server_write| |by constructor].
    intros e rp d. unfold on_disk, disk_does. by rewrite Hop.
  - apply (serve_both (replicate (Z.to_nat (rq_bytes ns r)) 0)); [by right|by intros; apply server_zeroes| |by constructor].
    intros e rp d. unfold on_disk, disk_does. by rewrite Hop.
  - apply (serve_alone (rq_vm r)); [by right| |].
    + unfold on_disk, disk_does. rewrite Hop. cbn. by destruct s.
    + unfold answer_of. rewrite Hop. by constructor.
Qed.
End command.

Lemma serves_all_run rs : Forall (disk_request nv ns nblks) rs → ∀ V s, repl_view V s →
  (∃ l s', serves_all s rs l s') ∧
  ∀ l s', serves_all s rs l s' → ∃ V', disk_run ns V rs l V' ∧ repl_view V' s' ∧ no_sync s s' ∧
    (takes_all → in_sync s → in_sync s').
Proof using Hsh Hnb.
  induction 1 as [|r rs Hr _ IH]; intros V s Hv.
  { split; [exists [], s; constructor|]. intros l s' Hs. inversion Hs; subst.
    exists V. split; [constructor|]. split; [done|]. split; [by left|done]. }
  destruct (serve_replicated r s V Hv Hr) as [(a & s1 & E) Hall]. split.
  - apply serve_serves in E as Es. destruct (Hall _ _ Es) as (V1 & _ & Hv1 & _).
    destruct (IH V1 s1 Hv1) as [(l & s2 & Hl) _]. exists (a :: l), s2. by econstructor.
  - intros l s' Hs. inversion Hs as [|? ? a' l' s1' s2' Hs1 Hs2]; subst.
    destruct (Hall _ _ Hs1) as (V1 & D1 & Hv1 & N1 & S1). destruct (IH V1 s1' Hv1) as [_ IH1].
    destruct (IH1 _ _ Hs2) as (V2 & D2 & Hv2 & N2 & S2).
    exists V2. split; [by econstructor|]. split; [done|]. split; [|by eauto].
    intros c Hc. destruct (N2 c Hc) as [Hc1|]; [by apply N1|by right].
Qed.
End repl_system.

(** ** Properties *)

(** C3. The replicated disk is a disk, and its replica a copy. Whatever reads,
    writes, writes of zeroes and flushes the guest sends, one after another,
    and whoever of disk and controller answers first: every command ends, and
    what the guest reads is what a plain disk returns, whatever the calls on
    the replica return. When the replica takes what it is given, it has the
    bytes of the disk after every command if it had them at the start. And no
    call ever asks the replica to make its data durable: the guest's flushes
    are answered by the disk alone. *)
Theorem replicated_disk_refines ioc iov dev ns nv nblks V s rs :
  0 <= lba_shift ns <= 12 → nblks * 2 ^ lba_shift ns <= 2 ^ 64 →
  repl_view nv V s → Forall (disk_request nv ns nblks) rs →
  (∃ l s', serves_all ioc iov dev ns s rs l s') ∧
  ∀ l s', serves_all ioc iov dev ns s rs l s' → ∃ V', disk_run ns V rs l V' ∧
    repl_view nv V' s' ∧ no_sync s s' ∧ (takes_all dev → in_sync s → in_sync s').
Proof. intros. by apply (serves_all_run ioc iov dev ns nv nblks). Qed.

Definition demo_repl : repl_system := ReplSystem (Sender demo_ctrl (Mapping ∅ 262144) [] []) ∅ ∅.
Definition demo_dev (_ : list dev_call) (c : dev_call) : Z :=
  match c with DPwritev v _ _ => iov_total v | _ => 0 end.

Lemma replicated_disk_refines_witness : takes_all demo_dev ∧ in_sync demo_repl ∧
  (∃ l s', serves_all (inl 5) (λ _, inl 5) demo_dev demo_ns demo_repl demo_guest l s') ∧
  ∀ l s', serves_all (inl 5) (λ _, inl 5) demo_dev demo_ns demo_repl demo_guest l s' →
    ∃ V', disk_run demo_ns (λ _, 0) demo_guest l V' ∧ repl_view demo_ctrl V' s' ∧
      no_sync demo_repl s' ∧ (takes_all demo_dev → in_sync demo_repl → in_sync s').
Proof.
  split; [split; [done|]|split; [done|]].
  - intros. by unfold demo_dev.
  - apply (replicated_disk_refines (inl 5) (λ _, inl 5) demo_dev demo_ns demo_ctrl (2 ^ 20)).
    + by vm_compute.
    + by vm_compute.
    + split; [done|]. intros i. unfold demo_repl, aget. cbn [rs_disk]. by rewrite lookup_empty.
    + apply demo_guest_ok.
Defined.

(** A replica that fails every call: the guest is told that its write
    succeeded, and the replica does not have it. *)
Example failed_replica_unnoticed :
  match serve (inl 5) (λ _, inl 5) (λ _ _, -5) demo_ns (demo_rw nvme_cmd_write 1 130 1 7) demo_repl with
  | Some (a, s) => (a, aget (rs_disk s) (130 * 512), aget (rs_repl s) (130 * 512)) = (Done [], 7, 0)
  | None => False
  end.
Proof. vm_compute. reflexivity. Qed.
