(* ===== verification/CowSystem.v ===== *)
(** * The copy-on-write disk as a whole

    The classifier (file LbaCache), the kernel module that runs it (file BpfSm),
    the server with its controller and image (files XcowSrv, NvmeXcow, Xcow) and
    the data disk, put together the way a guest's command passes through them.
    What the guest sees is compared with a plain disk. *)
From S2P Require Import Prelude Proto BpfSm LbaCache Vm Prp NvmeBase Xcow XcowInv XcowOps XcowSnaps.
From S2P Require Import XcowFormat XcowReads XcowTx BlkIter Uring Sender Encryptor NvmeXcow XcowSrv CowRuns Path Disk.

(** ** The data disk

    The disk and the kernel's ring in front of it are not part of the program;
    this interface is what the program relies on. *)

Class Device (D : Type) := {
  dev_byte : D → Z → Z;
  dev_write : D → Z → list Z → D;
  (** the effect of a batch of ring entries, and their completions *)
  dev_ring : list io_uring_sqe → D → D * list io_uring_cqe;
}.

(** What completes an entry of ticket [p] without an error. *)
Definition done_for (p : Z) (c : io_uring_cqe) : Prop := cq_data c = p ∧ 0 <= cq_res c.

(** A disk that stores what it is given, and a ring that zeroes ranges and
    copies them by a linked read and write; nothing fails. *)
Class DeviceLaws (D : Type) `{Device D} : Prop := {
  dev_write_byte d off bs i : dev_byte (dev_write d off bs) i = put_bytes (dev_byte d) off bs i;
  dev_zero p off n d : 0 < n < 2 ^ 32 → 0 <= off → ∃ d' c,
    dev_ring [Sqe (IoFallocate FALLOC_FL_ZERO_RANGE off n) 0 true false p] d = (d', [c]) ∧
    done_for p c ∧
    ∀ i, dev_byte d' i = if (off <=? i) && (i <? off + n) then 0 else dev_byte d i;
  dev_copy p src dst n d : 0 < n < 2 ^ 32 → 0 <= src → 0 <= dst → ∃ d' c1 c2,
    dev_ring [Sqe (IoRead (PBuf p 0) n src) 0 true true p;
              Sqe (IoWrite (PBuf p 0) n dst) 0 true false p] d = (d', [c1; c2]) ∧
    done_for p c1 ∧ done_for p c2 ∧
    ∀ i, dev_byte d' i =
      if (dst <=? i) && (i <? dst + n) then dev_byte d (src + (i - dst)) else dev_byte d i;
}.

(** ** The path of a command *)

Section cow_system.
Context {D : Type} `{Device D}.
Context (h : helper) (ioc : Z + Z) (iov : Z → Z + nvme_id_ns) (room : list io_uring_sqe → bool).
Context (extract : Z → list (Z * work) → option (work * list (Z * work))).
Context (ns : nvme_id_ns) (sq : Z).

Record cow_system : Type := CowSystem {
  cs_cache : cache;
  cs_srv : server;
  cs_disk : D;
}.

Abbreviation rq_bytes := (rq_bytes ns).
Abbreviation rq_segs := (rq_segs ns).
Abbreviation rq_off := (rq_off ns).

(** The disk executes a command: what is then in the guest's pages, which had
    [data], and the disk. *)
Definition direct (cmd : nvme_command) (r : request) (data : list Z) (d : D) : list Z * D :=
  let off := Z.shiftl (slba cmd) (lba_shift ns) in
  if opcode cmd =? nvme_cmd_read then (bytes_at (dev_byte d) off (rq_bytes r), d)
  else if opcode cmd =? nvme_cmd_write then (data, dev_write d off data)
  else (data, d).

(** The server runs passes, and the kernel the entries it is given in between,
    until there is a response. *)
Fixpoint await (fuel : nat) (sv : server) (d : D) : option (response * server * D) :=
  match fuel with
  | O => None
  | S fuel =>
    match run_pass ioc iov room extract [sq] sv with
    | (Throw _, _) => None
    | (Ret _, sv) =>
      match sv_ncq sv with
      | (_, rsp) :: rest =>
        Some (rsp, Server (sv_ctl sv) (sv_flight sv) (sv_cqes sv) (sv_nsq sv) (sv_adm sv) rest, d)
      | [] =>
        let '(d, cqes) := dev_ring (sv_flight sv) d in
        await fuel (Server (sv_ctl sv) [] (sv_cqes sv ++ cqes) (sv_nsq sv) (sv_adm sv) []) d
      end
    end
  end.

Definition submit_to (cmd : nvme_command) (r : request) (sv : server) : server :=
  Server (set_xvm (rq_vm r) (sv_ctl sv)) (sv_flight sv) (sv_cqes sv) [[cmd]] (sv_adm sv) (sv_ncq sv).

(** Passes of the server a command takes at most. *)
Definition await_fuel : nat := 2.

(** Server and disk on the way of a command; the disk never fails. *)
Definition on_server (r : request) (cmd : nvme_command) (data : list Z) (s : server * D) :
    option (Z * nmntfy_aux * list Z * (server * D)) :=
  match await await_fuel (submit_to cmd r s.1) s.2 with
  | None => None
  | Some (rsp, sv, d) =>
    Some (xr_status rsp, xr_aux rsp, gather (x_vm (sv_ctl sv)) (rq_segs r), (sv, d))
  end.
Definition on_disk (r : request) (cmd : nvme_command) (data : list Z) (s : server * D) :
    Z * list Z * (server * D) :=
  let '(data, d) := direct cmd r data s.2 in (NVME_SC_SUCCESS, data, (s.1, d)).

Definition serve (r : request) (s : cow_system) : option (answer * cow_system) :=
  match run_command (nvme_run_bpf h) (on_server r) (on_disk r) (rq_cmd r) (gather (rq_vm r) (rq_segs r))
          (cs_cache s) (cs_srv s, cs_disk s) with
  | None => None
  | Some (st, data, c, (sv, d)) => Some (answer_of r st data, CowSystem c sv d)
  end.

Definition serve_all : list request → cow_system → option (list answer * cow_system) := serve_each serve.

(** ** Specification: a plain disk *)

(** The image has no cluster left for a table, or none for data. *)
Definition refuses {A} (m : xeff A) (f : xfile) : bool :=
  match m f with (Throw _, _) => true | _ => false end.
Definition image_full (x : nvme_xcow) : bool :=
  refuses (alloc_meta_clusters 1) (x_file x) || refuses (alloc_data_clusters (x_snap x) 1) (x_file x).

(** A read returns the bytes of its range, a write replaces them, a snapshot
    changes nothing the guest reads. When the image is full a snapshot may be
    refused, and a write may be acknowledged and lost. With the helper of the
    kernel the classifier refuses every snapshot (see [snapshot_verdict]). *)
Inductive spec_step (full : bool) (V : Z → Z) (r : request) : answer → (Z → Z) → Prop :=
  | step_read : opcode (rq_cmd r) = nvme_cmd_read →
      spec_step full V r (Done (bytes_at V (rq_off r) (rq_bytes r))) V
  | step_write : opcode (rq_cmd r) = nvme_cmd_write →
      spec_step full V r (Done []) (put_bytes V (rq_off r) (gather (rq_vm r) (rq_segs r)))
  | step_snapshot : h = Polyfill → opcode (rq_cmd r) = nvme_cmd_snapshot →
      spec_step full V r (Done []) V
  | step_lost : full = true → opcode (rq_cmd r) = nvme_cmd_write → spec_step full V r (Done []) V
  | step_refused : h = Polyfill → full = true → opcode (rq_cmd r) = nvme_cmd_snapshot →
      spec_step full V r (Failed sc_cap_exceeded) V
  | step_kernel : h = Kernel → opcode (rq_cmd r) = nvme_cmd_snapshot →
      spec_step full V r (Failed NVME_SC_INTERNAL) V.

(** A run of the plain disk; whether the image is full when each request comes
    is given. *)
Inductive spec_run (V : Z → Z) : list request → list bool → list answer → (Z → Z) → Prop :=
  | run_nil : spec_run V [] [] [] V
  | run_cons r rs full fulls a l V1 V2 :
      spec_step full V r a V1 → spec_run V1 rs fulls l V2 →
      spec_run V (r :: rs) (full :: fulls) (a :: l) V2.

(** The image before each request of a run. *)
Fixpoint fulls_of (rs : list request) (s : cow_system) : list bool :=
  match rs with
  | [] => []
  | r :: rs =>
    image_full (sv_ctl (cs_srv s)) ::
    match serve r s with None => [] | Some (_, s) => fulls_of rs s end
  end.

End cow_system.

Arguments cow_system D : clear implicits.
Arguments CowSystem {D} _ _ _.
Arguments cs_cache {D} _.
Arguments cs_srv {D} _.
Arguments cs_disk {D} _.
