(* ===== verification/CowPaths.v ===== *)
(** * The paths of a command

    What [serve] of file CowSystem comes to on each path a command of the guest
    can take: to the disk, to the server and back, to the server and then to
    the disk. *)
From S2P Require Import Prelude Proto BpfSm LbaCache Vm Prp NvmeBase Xcow XcowInv XcowOps XcowSnaps.
From S2P Require Import XcowFormat XcowReads XcowTx BlkIter Uring Sender Encryptor NvmeXcow XcowSrv CowRuns Path Disk CowSystem.

Section paths.
Context {D : Type} `{Device D}.
Context (h : helper) (ioc : Z + Z) (iov : Z → Z + nvme_id_ns) (room : list io_uring_sqe → bool).
Context (extract : Z → list (Z * work) → option (work * list (Z * work))).
Context (ns : nvme_id_ns) (sq : Z).

Abbreviation serve := (serve h ioc iov room extract ns sq).
Abbreviation await := (await ioc iov room extract sq).

(** The answer and the state after the disk has executed a command. *)
Definition by_disk (cmd : nvme_command) (r : request) (data : list Z) (c : cache) (sv : server) (d : D) :
    option (answer * cow_system D) :=
  let '(data, d) := direct ns cmd r data d in
  Some (answer_of r NVME_SC_SUCCESS data, CowSystem c sv d).

(** The classifier sends the command to the disk. *)
Lemma serve_direct r s ctx c :
  nvme_run_bpf h (cs_cache s) (BpfIoCtx (rq_cmd r) NMBPF_HOOK_VSQ 0 no_aux) = (to_hq, ctx, c) →
  serve r s = by_disk (ctx_cmd ctx) r (gather (rq_vm r) (rq_segs ns r)) c (cs_srv s) (cs_disk s).
Proof.
  intros E. unfold CowSystem.serve, by_disk.
  destruct (direct ns (ctx_cmd ctx) r (gather (rq_vm r) (rq_segs ns r)) (cs_disk s)) as [data d] eqn:Ed.
  by rewrite (run_by_disk _ _ _ _ _ _ _ _ _ _ E NVME_SC_SUCCESS data (cs_srv s, d))
    by (done || (unfold on_disk; cbn [fst snd]; by rewrite Ed)).
Qed.

(** The classifier ends the command with a status. *)
Lemma serve_refused r s ctx c st :
  nvme_run_bpf h (cs_cache s) (BpfIoCtx (rq_cmd r) NMBPF_HOOK_VSQ 0 no_aux) = (st, ctx, c) →
  end_of st = [Completed st] → sends_of st (ctx_cmd ctx) = [] →
  serve r s = Some (answer_of r st (gather (rq_vm r) (rq_segs ns r)), CowSystem c (cs_srv s) (cs_disk s)).
Proof.
  intros E He Hn. unfold CowSystem.serve.
  rewrite (run_submitted _ _ _ _ _ _ _ _ _ _ E), Hn, He. reflexivity.
Qed.

Section by_server.
Context (r : request) (s : cow_system D) (ctx : bpf_io_ctx) (c : cache).
Context (rsp : response) (sv : server) (d : D).
Context (Hctx : ctx_cmd ctx = rq_cmd r).
Context (Haw : await await_fuel (submit_to (rq_cmd r) r (cs_srv s)) (cs_disk s) = Some (rsp, sv, d)).
Abbreviation data := (gather (x_vm (sv_ctl sv)) (rq_segs ns r)).

Lemma server_answers m : on_server ioc iov room extract ns sq r (ctx_cmd ctx) m (cs_srv s, cs_disk s) =
  Some (xr_status rsp, xr_aux rsp, data, (sv, d)).
Proof using Hctx Haw. unfold on_server. cbn [fst snd]. by rewrite Hctx, Haw. Qed.

(** The classifier sends the command to the server, and its hook runs for the
    response. *)
Section hooked.
Context (Hvsq : nvme_run_bpf h (cs_cache s) (BpfIoCtx (rq_cmd r) NMBPF_HOOK_VSQ 0 no_aux) = (to_server, ctx, c)).
Context (act : Z) (ctx2 : bpf_io_ctx) (c2 : cache).
Context (Hnfd : nvme_run_bpf h c (BpfIoCtx (rq_cmd r) NMBPF_HOOK_NFD_WRITE (xr_status rsp) (xr_aux rsp)) =
  (act, ctx2, c2)).

(** It forwards the command to the disk. *)
Lemma serve_forwarded : act = to_hq → serve r s = by_disk (ctx_cmd ctx2) r data c2 sv d.
Proof using All.
  intros E. unfold CowSystem.serve, by_disk. pose proof Hnfd as Hnfd'. rewrite <- Hctx in Hnfd'.
  destruct (direct ns (ctx_cmd ctx2) r data d) as [data' d'] eqn:Ed.
  by rewrite (run_forwarded _ _ _ _ _ _ _ _ _ _ Hvsq _ _ _ _ _ _ _ eq_refl (server_answers _) Hnfd'
    NVME_SC_SUCCESS data' (sv, d')) by (done || (unfold on_disk; cbn [fst snd]; by rewrite Ed)).
Qed.

(** It ends the command with a status, which the kernel module drops. *)
Lemma serve_ended : 0 <= act < 2 ^ 16 →
  serve r s = Some (answer_of r NVME_SC_SUCCESS data, CowSystem c2 sv d).
Proof using All.
  intros Ha. unfold CowSystem.serve. pose proof Hnfd as Hnfd'. rewrite <- Hctx in Hnfd'.
  by rewrite (run_fd_dropped _ _ _ _ _ _ _ _ _ _ Hvsq _ _ _ _ _ _ _ eq_refl (server_answers _) Hnfd').
Qed.
End hooked.

(** The classifier sends the command to the server, whose response ends it. *)
Lemma serve_told :
  nvme_run_bpf h (cs_cache s) (BpfIoCtx (rq_cmd r) NMBPF_HOOK_VSQ 0 no_aux) =
    (Z.lor NMBPF_SEND_FD NMBPF_WILL_COMPLETE_FD, ctx, c) →
  0 <= xr_status rsp < 2 ^ 16 →
  serve r s = Some (answer_of r (xr_status rsp) data, CowSystem c sv d).
Proof using All.
  intros Hvsq Hst. unfold CowSystem.serve.
  by rewrite (run_by_server _ _ _ _ _ _ _ _ _ _ Hvsq _ _ _ _ eq_refl (server_answers _)).
Qed.
End by_server.
End paths.
