(* ===== verification/CowSystemInv.v ===== *)
(** * Why the parts fit together

    The invariant between the classifier's cache, the image and the data disk
    (file CowSystem), and what each part of a command's path does to it. *)
From S2P Require Import Prelude Proto LbaCache Vm Prp NvmeBase Xcow XcowInv XcowOps XcowSnaps.
From S2P Require Import XcowFormat XcowReads XcowTx BlkIter Uring Sender Encryptor NvmeXcow XcowSrv CowRuns Path Disk CowSystem.

(** The server's clusters are the classifier's. *)
Abbreviation CB := 16.
Lemma CS16 : CS CB = 65536. Proof. done. Qed.
Lemma ADDR16 : ENTS CB * COVER CB = 2 ^ 42. Proof. done. Qed.

(** The leaf of cluster [v] of the active snapshot. *)
Definition clus_leaf (f : xfile) (ly : layout) (v : Z) : Z :=
  act_leaf f ly (i1 CB (v * CS CB)) (i0 CB (v * CS CB)).

(** ** Bytes *)

(** Memory that reads as zero everywhere in its ranges. *)
Lemma gather_zero vm segs n : Forall (λ x : Z * Z, 0 <= x.2) segs → total segs = n →
  (∀ i, covers segs i = true → aget (vm_bytes vm) i = 0) →
  gather vm segs = bytes_at (λ _, 0) 0 n.
Proof.
  intros Hs <- Hz. rewrite bytes_at_zero. revert Hz.
  induction Hs as [|[a m] l Hm Hl IH]; intros Hz; [done|]. simpl in Hm.
  pose proof (length_gather vm l Hl) as Hlen.
  change (total ((a, m) :: l)) with (m + total l).
  assert (0 <= total l) by lia. rewrite Z2Nat.inj_add by lia. rewrite replicate_add.
  unfold gather. rewrite bind_cons. f_equal.
  - unfold view_bytes. cbn [fst snd]. rewrite load_bytes_at, <- (bytes_at_zero 0).
    apply bytes_at_ext. intros k Hk. apply Hz. unfold covers. cbn [existsb fst snd]. lia.
  - apply IH. intros i Hi. apply Hz. unfold covers in *. cbn [existsb]. rewrite Hi. apply orb_true_r.
Qed.

(** ** The relation between cache, image and disk *)

Section views.
Context {D : Type} `{HD : Device D} `{!DeviceLaws D}.
Context (nclus : Z) (Hnclus : nclus * CS CB <= ENTS CB * COVER CB).

Record disk_view (V : Z → Z) (d : D) (f : xfile) (ly : layout) : Prop := {
  dv_zero k : 0 <= k < CS CB → dev_byte d k = 0;
  dv_byte v k : 0 <= v < nclus → 0 <= k < CS CB →
    V (v * CS CB + k) =
      if nt_valid (clus_leaf f ly v) then dev_byte d (nt_decode (clus_leaf f ly v) + k) else 0;
}.

(** What the classifier may have cached: the address of the leaf, or cluster 0
    of the disk for a cluster without data, which it may not write. *)
Definition entry_ok (f : xfile) (ly : layout) (v : Z) (e : Z * Z) : Prop :=
  if nt_valid (clus_leaf f ly v) then e.1 * LBA_SIZE = nt_decode (clus_leaf f ly v)
  else e.1 = 0 ∧ truthy (Z.land e.2 AUXBITS_WRITABLE) = false.
Definition coherent (w : view_t) (f : xfile) (ly : layout) : Prop :=
  ∀ v e, 0 <= v < nclus → w v = Some e → entry_ok f ly v e.

Lemma clus_in v k : 0 <= v < nclus → 0 <= k < CS CB → addr_in CB (v * CS CB + k).
Proof using Hnclus. intros. unfold addr_in. rewrite CS16, ADDR16 in *. lia. Qed.

Lemma clus_idx f ly hat st n v : image CB f ly hat st n → 0 <= v < nclus →
  idx_ok CB (i1 CB (v * CS CB)) ∧ idx_ok CB (i0 CB (v * CS CB)).
Proof using Hnclus.
  intros [Hx _] Hv. pose proof (clus_in v 0 Hv ltac:(rewrite CS16; lia)) as Ha.
  rewrite Z.add_0_r in Ha. split; [by apply (i1_ok CB f ly hat)|by apply (i0_ok CB f ly hat)].
Qed.

(** Every address of a cluster has the cluster's leaf. *)
Lemma clus_same addr v : v = addr / CS CB →
  i1 CB addr = i1 CB (v * CS CB) ∧ i0 CB addr = i0 CB (v * CS CB).
Proof. intros ->. apply same_cluster; [lia|]. by rewrite Z.div_mul by (rewrite CS16; lia). Qed.

Lemma clus_apart v w : v ≠ w →
  (i1 CB (v * CS CB), i0 CB (v * CS CB)) ≠ (i1 CB (w * CS CB), i0 CB (w * CS CB)).
Proof.
  intros Hne [= E1 E2]. apply Hne.
  assert (v * CS CB / CS CB = w * CS CB / CS CB) as E by (apply same_cluster; [lia|done]).
  by rewrite !Z.div_mul in E by (rewrite CS16; lia).
Qed.

(** Different clusters do not overlap on the disk, nor with cluster 0. *)
Lemma leaf_apart f ly hat st n v w : image CB f ly hat st n → data_ok CB f ly hat →
  0 <= v < nclus → 0 <= w < nclus → v ≠ w →
  nt_valid (clus_leaf f ly v) = true → nt_valid (clus_leaf f ly w) = true →
  nt_decode (clus_leaf f ly v) + CS CB <= nt_decode (clus_leaf f ly w) ∨
  nt_decode (clus_leaf f ly w) + CS CB <= nt_decode (clus_leaf f ly v).
Proof using Hnclus.
  intros Him Hd Hv Hw Hne Vv Vw.
  destruct (clus_idx _ _ _ _ _ v Him Hv) as [Hi Hj], (clus_idx _ _ _ _ _ w Him Hw) as [Hk Hl].
  destruct (da_cluster _ _ _ _ Hd _ _ Hi Hj Vv) as [A1 A2].
  destruct (da_cluster _ _ _ _ Hd _ _ Hk Hl Vw) as [B1 B2].
  fold (clus_leaf f ly v) in A1. fold (clus_leaf f ly w) in B1.
  assert (nt_decode (clus_leaf f ly v) ≠ nt_decode (clus_leaf f ly w)).
  { intros E. destruct (da_inj _ _ _ _ Hd _ _ _ _ Hi Hj Hk Hl Vv Vw E) as [E1 E2].
    apply (clus_apart v w Hne). congruence. }
  rewrite CS16 in *. Z.div_mod_to_equations. lia.
Qed.

Lemma leaf_high f ly hat st n v : image CB f ly hat st n → data_ok CB f ly hat →
  0 <= v < nclus → nt_valid (clus_leaf f ly v) = true →
  nt_decode (clus_leaf f ly v) mod CS CB = 0 ∧
  CS CB <= nt_decode (clus_leaf f ly v) < W f hat * CS CB.
Proof using Hnclus.
  intros Him Hd Hv Vv. destruct (clus_idx _ _ _ _ _ v Him Hv) as [Hi Hj].
  destruct (da_cluster _ _ _ _ Hd _ _ Hi Hj Vv) as [A1 A2].
  destruct (leaf_below _ _ _ _ _ _ (proj1 Him) Hi Hj Vv) as [_ B]. by repeat split.
Qed.

(** *** Reading through an entry of the cache *)

Lemma entry_reads V d f ly v e k : disk_view V d f ly → entry_ok f ly v e →
  0 <= v < nclus → 0 <= k < CS CB → dev_byte d (e.1 * LBA_SIZE + k) = V (v * CS CB + k).
Proof.
  intros Hd He Hv Hk. rewrite (dv_byte _ _ _ _ Hd) by done. unfold entry_ok in He.
  destruct (nt_valid (clus_leaf f ly v)); [by rewrite He|].
  destruct He as [-> _]. rewrite Z.mul_0_l, Z.add_0_l. by apply (dv_zero _ _ _ _ Hd).
Qed.

(** *** Writing to the disk at the address of a leaf *)

Lemma view_write V d f ly hat st n v o bs : image CB f ly hat st n → data_ok CB f ly hat →
  disk_view V d f ly → 0 <= v < nclus → nt_valid (clus_leaf f ly v) = true →
  0 <= o → o + Z.of_nat (length bs) <= CS CB →
  disk_view (put_bytes V (v * CS CB + o) bs)
    (dev_write d (nt_decode (clus_leaf f ly v) + o) bs) f ly.
Proof using All.
  intros Him Hdo Hd Hv Vv Ho Hlen. set (x := nt_decode (clus_leaf f ly v)).
  destruct (leaf_high _ _ _ _ _ _ Him Hdo Hv Vv) as (Hm & Hlo & _). fold x in Hm, Hlo.
  split.
  - intros k Hk. rewrite dev_write_byte, put_bytes_out by lia. by apply (dv_zero _ _ _ _ Hd).
  - intros w k Hw Hk. rewrite dev_write_byte. destruct (decide (w = v)) as [->|Hne].
    + rewrite Vv. fold x. destruct (decide (o <= k < o + Z.of_nat (length bs))) as [Hin|Hout].
      * rewrite !put_bytes_in by lia. do 3 f_equal. lia.
      * rewrite !put_bytes_out by lia. rewrite (dv_byte _ _ _ _ Hd) by done. by rewrite Vv.
    + assert (v * CS CB + CS CB <= w * CS CB ∨ w * CS CB + CS CB <= v * CS CB)
        by (rewrite CS16 in *; lia).
      rewrite (put_bytes_out V) by lia. rewrite (dv_byte _ _ _ _ Hd) by done.
      destruct (nt_valid (clus_leaf f ly w)) eqn:Vw; [|done].
      destruct (leaf_apart _ _ _ _ _ v w Him Hdo Hv Hw (not_eq_sym Hne) Vv Vw);
        rewrite put_bytes_out; [done|fold x in H; lia|done|fold x in H; lia].
Qed.

(** *** Files whose leaves have the same addresses *)

Definition same_leaves (f f' : xfile) (ly ly' : layout) : Prop := ∀ v, 0 <= v < nclus →
  nt_valid (clus_leaf f' ly' v) = nt_valid (clus_leaf f ly v) ∧
  nt_decode (clus_leaf f' ly' v) = nt_decode (clus_leaf f ly v).

Lemma view_same V d f ly f' ly' : same_leaves f f' ly ly' → disk_view V d f ly →
  disk_view V d f' ly'.
Proof.
  intros E [H1 H2]. split; [done|]. intros v k Hv Hk. destruct (E v Hv) as [-> ->]. auto.
Qed.

Lemma coherent_same w f ly f' ly' : same_leaves f f' ly ly' → coherent w f ly →
  coherent w f' ly'.
Proof.
  intros E Hc v e Hv He. specialize (Hc v e Hv He). unfold entry_ok in *.
  by destruct (E v Hv) as [-> ->].
Qed.

Lemma same_leaves_prep f ly hat st n addr p f1 ly1 : image CB f ly hat st n → addr_in CB addr →
  prepared CB f ly hat st n addr p f1 ly1 → same_leaves f f1 ly ly1.
Proof using Hnclus.
  intros Him Ha Hp v Hv. destruct (clus_idx _ _ _ _ _ v Him Hv) as [Hi Hj].
  unfold clus_leaf, act_leaf. rewrite (pr_active _ _ _ _ _ _ _ _ _ _ Hp).
  destruct Him as [Hx _]. apply (l0_step_decode CB f ly hat Hx f1 (i1 CB addr)); try done.
  - apply (pr_step _ _ _ _ _ _ _ _ _ _ Hp).
  - by apply (i1_ok CB f ly hat).
Qed.

(** *** A new cluster *)

(** The write of cluster [v] gave it the new data cluster, which the ring has
    filled with what the old one held. *)
Lemma view_alloc V d f ly hat st n v tl prev f' ly' d' : image CB f ly hat st n →
  data_ok CB f ly hat → disk_view V d f ly → 0 <= v < nclus →
  ly_active ly' = ly_active ly →
  write_step CB f ly hat f' (i1 CB (v * CS CB)) (i0 CB (v * CS CB)) tl prev →
  eff_writable (W f) (ly_active ly) (i1 CB (v * CS CB)) (i0 CB (v * CS CB)) = false →
  (∀ i, dev_byte d' i =
     if (W f hat * CS CB <=? i) && (i <? W f hat * CS CB + CS CB)
     then if nt_valid (clus_leaf f ly v)
          then dev_byte d (nt_decode (clus_leaf f ly v) + (i - W f hat * CS CB)) else 0
     else dev_byte d i) →
  disk_view V d' f' ly' ∧ nt_valid (clus_leaf f' ly' v) = true ∧
  nt_decode (clus_leaf f' ly' v) = W f hat * CS CB ∧
  ∀ w, 0 <= w < nclus → w ≠ v →
    nt_valid (clus_leaf f' ly' w) = nt_valid (clus_leaf f ly w) ∧
    nt_decode (clus_leaf f' ly' w) = nt_decode (clus_leaf f ly w).
Proof using Hnclus.
  intros Him Hdo Hd Hv EA Hw He Hb.
  destruct (clus_idx _ _ _ _ _ v Him Hv) as [Hi Hj].
  pose proof (ws_addr _ _ _ _ _ _ _ _ _ Hw) as Ha. rewrite He in Ha.
  pose proof (ws_leaf _ _ _ _ _ _ _ _ _ Hw) as Hl. pose proof (ws_eff _ _ _ _ _ _ _ _ _ Hw) as Hef.
  assert (nt_valid (clus_leaf f' ly' v) = true) as Vv.
  { unfold clus_leaf, act_leaf. rewrite EA. unfold eff_writable in Hef.
    by apply andb_prop in Hef as [[_ ?]%andb_prop _]. }
  assert (nt_decode (clus_leaf f' ly' v) = W f hat * CS CB) as Dv
    by (unfold clus_leaf, act_leaf; by rewrite EA, Hl).
  assert (∀ w, 0 <= w < nclus → w ≠ v →
    nt_valid (clus_leaf f' ly' w) = nt_valid (clus_leaf f ly w) ∧
    nt_decode (clus_leaf f' ly' w) = nt_decode (clus_leaf f ly w)) as Ho.
  { intros w Hww Hne. destruct (clus_idx _ _ _ _ _ w Him Hww) as [Hk Hl2].
    unfold clus_leaf, act_leaf. rewrite EA.
    destruct (ws_active _ _ _ _ _ _ _ _ _ Hw _ _ Hk Hl2 (clus_apart w v Hne)) as (? & ? & _). done. }
  pose proof (da_mark _ _ _ _ Hdo) as Hmark. split_and!; [|done|done|done].
  split.
  - intros k Hk. rewrite Hb. replace (_ && _) with false by (rewrite CS16 in *; lia).
    by apply (dv_zero _ _ _ _ Hd).
  - intros w k Hww Hk. rewrite (dv_byte _ _ _ _ Hd) by done.
    destruct (decide (w = v)) as [->|Hne].
    + rewrite Vv, Dv, Hb. replace (_ && _) with true by lia.
      destruct (nt_valid (clus_leaf f ly v)); [|done]. f_equal. lia.
    + destruct (Ho w Hww Hne) as [-> ->]. destruct (nt_valid (clus_leaf f ly w)) eqn:Vw; [|done].
      destruct (leaf_high _ _ _ _ _ _ Him Hdo Hww Vw) as (Hm & Hlo & Hhi).
      rewrite Hb. replace (_ && _) with false; [done|]. rewrite CS16 in *.
      Z.div_mod_to_equations. lia.
Qed.
End views.

(** ** Answers *)

(** The words of a response. *)
Definition aux_ok (a : nmntfy_aux) : Prop := 0 <= aux1 a < 2 ^ 32 ∧ 0 <= aux2 a < 2 ^ 32.

Lemma aux_ok_paddr p a0 : aux_ok (set_aux_paddr p a0).
Proof.
  split; simpl; [|apply u32_range]. rewrite land_ones32. apply u32_range.
Qed.

(** The answer for a leaf names its data cluster. *)
Lemma paddr_plba p a0 : 0 <= p < 2 ^ 63 → p mod CS CB = 0 →
  response_plba (set_aux_paddr p a0) * LBA_SIZE = p.
Proof.
  intros Hp Hm. unfold response_plba. rewrite set_aux_paddr_val by lia. rewrite CS16 in Hm.
  change CLUSTER_SIZE with 65536. change CLUSTER_LBAS with 128. change LBA_SIZE with 512.
  Z.div_mod_to_equations. lia.
Qed.

Lemma nt_decode_range e : 0 <= nt_decode e < 2 ^ 63.
Proof.
  unfold nt_decode. assert (0 <= Z.land e XB_decode_mask) as H by (apply Z.land_nonneg; by right).
  split; [done|]. apply range_of_bits; [done|lia|]. intros k Hk. rewrite Z.land_spec.
  rewrite (testbit_above XB_decode_mask 63); [apply andb_false_r|by unfold XB_decode_mask|lia].
Qed.

Lemma leaf_aux tl : nt_valid tl = true → nt_decode tl mod CS CB = 0 →
  let a := set_aux_leaf tl AUXCMD_FORWARD in
  aux_ok a ∧ truthy (Z.land (aux0 a) AUXBITS_VALID) = true ∧
  truthy (Z.land (aux0 a) AUXCMD_FORWARD) = true ∧ response_plba a * LBA_SIZE = nt_decode tl.
Proof.
  intros Hv Hm a. unfold a, set_aux_leaf. rewrite Hv. split_and!.
  - apply aux_ok_paddr.
  - by destruct (xb_writable tl).
  - by destruct (xb_writable tl).
  - apply paddr_plba; [apply nt_decode_range|done].
Qed.
