(* ===== verification/CowSystemRuns.v ===== *)
(** * The copy-on-write disk is a disk

    Every command of the guest, on whatever path it takes (file CowSystem),
    has the effect and the answer of a plain disk. *)
From S2P Require Import Prelude Proto LbaCache Vm Prp NvmeBase Xcow XcowInv XcowOps XcowSnaps.
From S2P Require Import XcowFormat XcowReads XcowTx BlkIter Uring Sender Encryptor NvmeXcow XcowSrv CowRuns Path Disk CowSystem CowPaths CowSystemInv.

Section system.
Context {D : Type} `{HD : Device D} `{HL : !DeviceLaws D}.
Context (ioc : Z + Z) (iov : Z → Z + nvme_id_ns) (room : list io_uring_sqe → bool).
Context (extract : Z → list (Z * work) → option (work * list (Z * work))).
Context (ns : nvme_id_ns) (sq : Z) (nclus : Z) (nv : nvme).
Context (Hroom : ∀ q, room q = true) (Hex : extract_ok extract) (Hsq : sq ≠ 0).
Context (Hns : lba_shift ns = 9) (Hnclus : nclus * CS CB <= ENTS CB * COVER CB).

Abbreviation serve := (serve ioc iov room extract ns sq).
Abbreviation await := (await ioc iov room extract sq).

(** A server that has nothing to do, with no cluster locked. *)
Record idle (sv : server) : Prop := {
  id_flight : sv_flight sv = [];
  id_cqes : sv_cqes sv = [];
  id_nsq : sv_nsq sv = [[]];
  id_adm : sv_adm sv = None;
  id_ncq : sv_ncq sv = [];
  id_nv : x_nv (sv_ctl sv) = nv;
  id_sq : x_sq (sv_ctl sv) = [];
  id_tickets : x_tickets (sv_ctl sv) = ∅;
  id_wq : x_wq (sv_ctl sv) = [];
  id_clock v : 0 <= v < nclus → x_clock (sv_ctl sv) !! Z.to_nat v = Some false;
}.

(** The idle server around a controller. *)
Definition around (x : nvme_xcow) : server := Server x [] [] [[]] None [].

(** ** Responses *)

(** The server answers at once. *)
Lemma await_reply r sv d rp x :
  idle sv →
  submit_async ioc iov room sq (rq_cmd r) (make_tag 0 (command_id (rq_cmd r)))
    (set_xvm (rq_vm r) (sv_ctl sv)) = (Ret (Replied rp), x) →
  await await_fuel (submit_to (rq_cmd r) r sv) d =
    Some (Response (command_id (rq_cmd r)) (rp_status rp) (rp_aux rp), around x, d).
Proof using.
  intros [Hf Hc Hn Ha Hq _ _ _ _ _] Hs. unfold await_fuel. cbn [CowSystem.await].
  rewrite (pass_submit ioc iov room extract sq (submit_to (rq_cmd r) r sv) (rq_cmd r) (Replied rp) x); try done.
  cbn [after_submit submit_to sv_ncq]. rewrite Hq. cbn [app sv_ctl sv_flight sv_cqes sv_nsq sv_adm].
  change (sv_flight (submit_to (rq_cmd r) r sv)) with (sv_flight sv). by rewrite Hf.
Qed.

(** The server allocates a cluster, which the ring fills. *)
Lemma ring_alloc p tl outoff cs d : 0 < cs < 2 ^ 32 → 0 <= outoff →
  ∃ d' cqes, dev_ring (alloc_entries p tl outoff cs) d = (d', cqes) ∧
    Forall (done_for p) cqes ∧ length cqes = length (alloc_entries p tl outoff cs) ∧
    ∀ i, dev_byte d' i = if (outoff <=? i) && (i <? outoff + cs)
      then if nt_valid tl then dev_byte d (nt_decode tl + (i - outoff)) else 0
      else dev_byte d i.
Proof using HL.
  intros Hcs Ho. unfold alloc_entries. rewrite is_empty_valid.
  destruct (nt_valid tl); cbn [negb].
  - assert (0 <= decode_leaf tl) by (apply Z.land_nonneg; by right).
    destruct (dev_copy p (decode_leaf tl) outoff cs d Hcs H Ho) as (d' & c1 & c2 & E & D1 & D2 & Hb).
    rewrite (u32_small cs) by lia. exists d', [c1; c2]. split_and!; [done|by auto|done|].
    intros i. by rewrite Hb.
  - destruct (dev_zero p outoff cs d Hcs Ho) as (d' & c & E & D1 & Hb).
    exists d', [c]. split_and!; [done|by auto|done|]. intros i. by rewrite Hb.
Qed.

(** The last of the completions. *)
Lemma ring_last p tl outoff cs cqes : length cqes = length (alloc_entries p tl outoff cs) →
  Forall (done_for p) cqes → ∃ us, 0 <= us ∧ cq_res <$> last cqes = Some us.
Proof using.
  intros Hl Hf. destruct (last cqes) as [c|] eqn:E.
  - exists (cq_res c). split; [|done]. rewrite Forall_forall in Hf.
    by apply Hf, last_Some_elem_of.
  - apply last_None in E as ->. unfold alloc_entries in Hl. by destruct (is_empty tl).
Qed.

Section alloc.
Context (r : request) (sv : server) (d d' : D) (cqes : list io_uring_cqe).
Context (v entry tl outoff cs us : Z) (f2 f3 : xfile).
Let x := set_xvm (rq_vm r) (sv_ctl sv).
Let cid := command_id (rq_cmd r).
Context (Hid : idle sv) (Hcid : 0 <= cid < 2 ^ 16) (Hv : 0 <= v < nclus) (Hv64 : nclus < 2 ^ 64).
Context (Hcl : cluster_of (rq_cmd r) ns CB = v).
Context (Hsub : submit_async ioc iov room sq (rq_cmd r) (make_tag 0 cid) x =
  (Ret (Submitted (x_next x)),
   alloc_begun x (rq_cmd r) (make_tag 0 cid) ns CB entry tl outoff cs f2)).
Context (Hring : dev_ring (alloc_entries (x_next x) tl outoff cs) d = (d', cqes)).
Context (Hdata : Forall (λ c, cq_data c = x_next x) cqes) (Hlast : cq_res <$> last cqes = Some us).
Context (Hlen : length cqes = length (alloc_entries (x_next x) tl outoff cs)).
Context (Hneg : us < 0 → f3 = f2).
Context (Hpos : 0 <= us → ∃ rc, tx_write_commit entry (encode_leaf outoff true) f2 = (Ret rc, f3)).
Abbreviation rsp := (Response cid (translate_uring_status us) (alloc_answer outoff)).

Abbreviation t := (alloc_ticket (make_tag 0 cid) v entry tl outoff cs (alloc_answer outoff)).
(** After the first pass and the kernel's work. *)
Let s1 : server :=
  Server (NvmeXcow nv (rq_vm r) f2 (x_snap x) [] {[x_next x := t]} (x_next x + 1)
            (<[Z.to_nat v := true]> (x_clock x)) []) [] cqes [[]] None [].
(** After the second one. *)
Definition alloc_final : nvme_xcow :=
  NvmeXcow nv (rq_vm r) f3 (x_snap (sv_ctl sv)) [] ∅ (x_next (sv_ctl sv) + 1) (x_clock (sv_ctl sv)) [].

(** The last completion. *)
Lemma alloc_last s c : cq_data c = x_next x → cq_res c = us →
  sv_ctl s = NvmeXcow nv (rq_vm r) f2 (x_snap x) []
    {[x_next x := set_count 1 t]} (x_next x + 1)
    (<[Z.to_nat v := true]> (x_clock x)) [] →
  sv_flight s = [] → sv_nsq s = [[]] → sv_adm s = None → sv_ncq s = [] →
  complete room extract c s =
    (Ret false, Server alloc_final [] (sv_cqes s) [[]] None [(0, rsp)]).
Proof using Hid Hcid Hv Hv64 Hex Hneg Hpos.
  clear Hlen Hdata Hlast Hring s1.
  intros Hd Hr Hctl Hfl Hnq Had Hnc. pose proof (id_clock _ Hid v Hv) as Hck.
  assert (x_clock x !! Z.to_nat v = Some false) as Hck' by done.
  rewrite (complete_last room extract s c (set_count 1 t)) with (entry := entry)
    (tl := encode_leaf outoff true) (f := f3) (qi := 0) (ucid := cid).
  - assert (locked_cluster (set_count 1 t) = v) as -> by (unfold alloc_ticket; by destruct (is_empty tl)).
    rewrite (drain_none room extract _ v _ _ Hex) by (intros w; simpl; rewrite Hctl; apply not_elem_of_nil).
    f_equal. unfold alloc_ended. rewrite Hctl, Hd, Hfl, Hnq, Had, Hnc. cbn [app x_nv x_vm x_snap x_sq x_tickets x_next x_clock x_wq].
    assert (locked_cluster (set_count 1 t) = v) as -> by (unfold alloc_ticket; by destruct (is_empty tl)).
    assert (xt_aux (set_count 1 t) = alloc_answer outoff) as -> by (unfold alloc_ticket; by destruct (is_empty tl)).
    rewrite Hr. unfold alloc_final. f_equal. rewrite delete_singleton_eq, list_insert_insert_eq.
    rewrite (list_insert_id (x_clock x)) by done. done.
  - rewrite Hctl, Hd. apply lookup_singleton_eq.
  - done.
  - unfold alloc_ticket. by destruct (is_empty tl).
  - unfold alloc_ticket. destruct (is_empty tl); simpl; change U64_MAX with (2 ^ 64 - 1); lia.
  - rewrite Hctl. unfold alloc_ticket. destruct (is_empty tl); simpl;
      rewrite list_lookup_insert_eq; eauto using lookup_lt_Some.
  - unfold alloc_ticket. destruct (is_empty tl); simpl; by apply unmake_make_tag.
  - unfold has_queue. by rewrite Hnq.
  - done.
  - rewrite Hr, Hctl. apply Hneg.
  - rewrite Hr, Hctl. apply Hpos.
Qed.

Lemma alloc_completes : complete_all room extract cqes s1 = (Ret false,
  Server alloc_final [] cqes [[]] None [(0, rsp)]).
Proof using Hid Hcid Hv Hv64 Hex Hneg Hpos Hdata Hlast Hlen.
  clear Hring Hsub.
  destruct (is_empty tl) eqn:He; unfold alloc_entries in Hlen; rewrite He in Hlen.
  - destruct cqes as [|c []] eqn:Ec; try done. apply Forall_cons in Hdata as [Hc _].
    injection Hlast as Hc2. cbn [complete_all]. erewrite (bind_Ret (complete _ _ _)).
    2:{ apply (alloc_last s1 c); try done. unfold s1. simpl. unfold alloc_ticket. by rewrite He. }
    done.
  - destruct cqes as [|c1 [|c2 []]] eqn:Ec; try done.
    apply Forall_cons in Hdata as [Hc1 Hdata']. apply Forall_cons in Hdata' as [Hc2 _].
    injection Hlast as Hus.
    set (s2 := set_ctl (set_xtickets (<[cq_data c1 := set_count (xt_count t - 1) t]>
      (x_tickets (sv_ctl s1))) (sv_ctl s1)) s1).
    assert (complete room extract c1 s1 = (Ret false, s2)) as E1.
    { apply (complete_more room extract s1 c1 t).
      - rewrite Hc1. apply lookup_singleton_eq.
      - unfold alloc_ticket. by rewrite He. }
    assert (complete_all room extract [c2] s2 = (Ret false, Server alloc_final [] [c1; c2] [[]] None [(0, rsp)])) as E2.
    { cbn [complete_all]. rewrite (bind_Ret (complete room extract c2) _ s2 false
        (Server alloc_final [] [c1; c2] [[]] None [(0, rsp)])); [done|].
      apply (alloc_last s2 c2); try done. unfold s2, s1. simpl. rewrite Hc1.
      rewrite insert_singleton_eq. unfold alloc_ticket. by rewrite He. }
    change (complete_all room extract [c1; c2] s1) with
      ((a ← complete room extract c1; a' ← complete_all room extract [c2]; mret (a || a')) s1).
    rewrite (bind_Ret _ _ _ _ _ E1). by rewrite (bind_Ret _ _ _ _ _ E2).
Qed.

Lemma await_alloc : await await_fuel (submit_to (rq_cmd r) r sv) d =
  Some (rsp, around alloc_final, d').
Proof using Hid Hcid Hv Hv64 Hcl Hsub Hring Hex Hneg Hpos Hdata Hlast Hlen.
  destruct Hid as [Hf Hc Hn Ha Hq Hnv Hsqe Htk Hwq Hck]. unfold await_fuel. cbn [CowSystem.await].
  rewrite (pass_submit ioc iov room extract sq (submit_to (rq_cmd r) r sv) (rq_cmd r) _ _ eq_refl Hc Ha Hsub).
  assert (x_sq x = []) as Hsqx by done.
  cbn [after_submit submit_to sv_ncq sv_flight sv_ctl alloc_begun x_sq]. rewrite Hq, Hf, Hsqx.
  cbn [app]. rewrite Hring. cbn [sv_cqes sv_nsq sv_adm sv_ctl].
  assert (Server (set_xsq [] (alloc_begun x (rq_cmd r) (make_tag 0 cid) ns CB entry tl outoff cs f2))
    [] ([] ++ cqes) [[]] None [] = s1) as ->.
  { unfold s1, alloc_begun, set_xsq. cbn [x_nv x_vm x_file x_snap x_sq x_tickets x_next x_clock x_wq].
    rewrite Hcl. assert (x_nv x = nv) as -> by done. assert (x_tickets x = ∅) as -> by done.
    assert (x_wq x = []) as -> by done. done. }
  rewrite (pass_complete ioc iov room extract sq s1
    (Server alloc_final [] cqes [[]] None [(0, rsp)]));
    try done; [|apply alloc_completes].
  simpl. rewrite Hlen. unfold alloc_entries, COMPLETION_BURST. destruct (is_empty tl); simpl; lia.
Qed.
End alloc.

(** ** Requests *)

(** A read or write inside of one cluster of the disk, whose pages do not
    overlap the lists that name them. *)
Record rw_ok (r : request) : Prop := {
  ro_cmd : command_ok (rq_cmd r);
  ro_sgl : truthy (Z.land (flags (rq_cmd r)) NVME_CMD_SGL_ALL) = false;
  ro_op : opcode (rq_cmd r) = nvme_cmd_read ∨ opcode (rq_cmd r) = nvme_cmd_write;
  ro_transfer : transfer_ok nv (rq_vm r) (rq_cmd r) ns (rq_pages r);
  ro_one : crossing (slba (rq_cmd r)) (length0 (rq_cmd r)) = false;
  ro_in : vblk_of (slba (rq_cmd r)) < nclus;
  ro_apart w : reads_word (rq_vm r)
      (PrpIter (CmdList (prp1 (rq_cmd r)) (prp2 (rq_cmd r))) 0 (rq_bytes ns r)) w →
    Forall (λ y, apart y (w, 8)) (rq_segs ns r);
}.

Section request.
Context (r : request) (Hr : rw_ok r).
Abbreviation cmd := (rq_cmd r).
Abbreviation v := (vblk_of (slba cmd)).
Abbreviation o := (off_of (slba cmd)).

Lemma rq_geometry : slba cmd = v * 128 + o ∧ 0 <= o ∧ 0 <= v < nclus ∧ nclus <= 2 ^ 26 ∧
  1 <= nblocks_of cmd ∧ o + nblocks_of cmd <= 128 ∧ rq_bytes ns r = nblocks_of cmd * 512.
Proof using Hr Hns Hnclus.
  clear iov. pose proof (slba_range _ (ro_cmd _ Hr)). pose proof (length0_range cmd).
  pose proof (ro_one _ Hr) as Hc. pose proof (ro_in _ Hr) as Hv.
  assert (nclus <= 2 ^ 26) as Hn by (rewrite CS16, ADDR16 in Hnclus; lia).
  unfold crossing, vblk_of, off_of, rq_bytes, cmd_bytes, nblocks_of in Hc, Hv |- *. rewrite Hns.
  change CLUSTER_LBAS with 128 in Hc, Hv |- *. change (2 ^ 9) with 512.
  apply negb_false_iff in Hc. apply Z.eqb_eq in Hc.
  rewrite u64_small in Hc by (Z.div_mod_to_equations; lia).
  Z.div_mod_to_equations. lia.
Qed.

Lemma rq_off_eq : rq_off ns r = v * CS CB + o * 512.
Proof using Hr Hns Hnclus.
  destruct rq_geometry as (E & _). unfold rq_off. rewrite Hns, Z.shiftl_mul_pow2 by lia.
  rewrite CS16, E at 1. change (2 ^ 9) with 512. lia.
Qed.

Lemma rq_addr : addr_of cmd ns = v * CS CB + o * 512 ∧ addr_in CB (addr_of cmd ns) ∧
  addr_of cmd ns / CS CB = v ∧ cluster_of cmd ns CB = v ∧ 0 <= slba cmd.
Proof using Hr Hns Hnclus.
  clear iov. destruct rq_geometry as (E & Ho & Hv & Hn & Hb & Hob & _).
  assert (addr_of cmd ns = v * CS CB + o * 512) as Ea.
  { unfold addr_of. rewrite Hns, Z.shiftl_mul_pow2 by lia. change (2 ^ 9) with 512.
    rewrite CS16. rewrite u64_small; lia. }
  split_and!; [done| | | |lia].
  - rewrite Ea. apply (clus_in nclus); [done|done|]. rewrite CS16. lia.
  - rewrite Ea, CS16. Z.div_mod_to_equations. lia.
  - unfold cluster_of. rewrite Hns, Z.shiftr_div_pow2 by lia. done.
Qed.

Lemma rq_one_cluster x ly hat st n : x_nv x = nv → image CB (x_file x) ly hat st n →
  one_cluster x cmd ns CB.
Proof using Hr Hns Hnclus.
  clear iov. intros Hx [Him _]. destruct (ro_transfer _ Hr) as [H1 H2 H3 H4 H5 H6 H7 H8].
  split; try done; try (rewrite Hns; lia).
  - by rewrite Hx.
  - by apply (cluster_bits_eq CB _ ly hat).
  - pose proof (ro_one _ Hr) as Hc. unfold crossing in Hc. apply negb_false_iff, Z.eqb_eq in Hc.
    unfold multi_cluster. rewrite Hns, !Z.shiftr_div_pow2 by lia.
    apply negb_false_iff, Z.eqb_eq. exact Hc.
Qed.

(** The ranges of a transfer cover its bytes. *)
Lemma rq_total : Forall (λ x : Z * Z, 0 <= x.2) (rq_segs ns r) ∧
  total (rq_segs ns r) = rq_bytes ns r ∧
  ∀ vm, Z.of_nat (length (gather vm (rq_segs ns r))) = rq_bytes ns r.
Proof using Hr Hns Hnclus.
  clear iov. destruct rq_geometry as (_ & Ho & _ & _ & Hb & Hob & Eb).
  destruct (transfer_whole _ _ _ _ _ (ro_transfer _ Hr)) as [Ht Hs].
  assert (Forall (λ x : Z * Z, 0 <= x.2) (rq_segs ns r)) as Hpos
    by (eapply Forall_impl; [exact Hs|by intros ? []]).
  split_and!; [done|done|]. intros vm. by rewrite length_gather.
Qed.

(** *** The classifier *)

Definition sub_view (w w' : view_t) : Prop := ∀ u e, w' u = Some e → w u = Some e.

Lemma vsq_rw h c : cache_inv c → ∃ act ctx c',
  nvme_run_bpf h c (BpfIoCtx cmd NMBPF_HOOK_VSQ 0 no_aux) = (act, ctx, c') ∧ cache_inv c' ∧
  sub_view (cache_view c) (cache_view c') ∧
  ((∃ e, cache_view c v = Some e ∧ permits cmd e.2 = true ∧ act = to_hq ∧
      ctx_cmd ctx = set_slba (e.1 + o) cmd ∧ 0 <= e.1 < 2 ^ 55) ∨
   (act = to_server ∧ ctx_cmd ctx = cmd ∧ usable (cache_view c) cmd = None)).
Proof using Hr.
  intros Hc. set (x := BpfIoCtx cmd NMBPF_HOOK_VSQ 0 no_aux).
  assert (ctx_ok x) as Hok by (split; [apply (ro_cmd _ Hr)|done|done]).
  assert (is_rw cmd = true) as Hrw by (unfold is_rw; destruct (ro_op _ Hr) as [-> | ->]; done).
  pose proof (nvme_run_bpf_step h c x Hc Hok) as Hs.
  destruct (nvme_run_bpf h c x) as [[act ctx] c']. destruct Hs as [Hc' Hs].
  exists act, ctx, c'. split; [done|]. split; [done|].
  inversion Hs as [? Hf|? a _ _ Hu Hv'|? _ _ Hu Hv'|? _ _ _ Hu Hv'|? ? ? _ Hh|? _ Hh|? Ho|? Ho]; subst.
  - cbn [x ctx_cmd] in Hf. by rewrite (ro_sgl _ Hr) in Hf.
  - split; [intros u e; by rewrite Hv'|]. left. unfold usable in Hu. simpl in Hu.
    destruct (crossing _ _); [done|]. destruct (cache_view c v) as [[p a']|] eqn:E; [|done].
    destruct (permits cmd a') eqn:Hp; [|done]. injection Hu as <-.
    exists (p, a'). split_and!; try done; by apply (proj2 Hc _ _ _ E).
  - split; [intros u e; by rewrite Hv'|]. by right.
  - split; [|by right]. intros u e. destruct (crossing _ _); [by rewrite Hv'|].
    rewrite Hv'. by case_decide.
  - done.
  - done.
  - simpl in Ho. destruct (ro_op _ Hr) as [E|E]; rewrite E in Ho; done.
  - destruct Ho as [Ho|[Ho _]]; [|done]. simpl in Ho. congruence.
Qed.

Lemma nfd_rw h c status a : cache_inv c → aux_ok a → ∃ act ctx c',
  nvme_run_bpf h c (BpfIoCtx cmd NMBPF_HOOK_NFD_WRITE status a) = (act, ctx, c') ∧ cache_inv c' ∧
  (∀ u e, u ≠ v → cache_view c' u = Some e → cache_view c u = Some e) ∧
  if truthy (Z.land (aux0 a) AUXBITS_VALID) then
    cache_view c' v = Some (response_plba a, Z.land (aux0 a) AUX_MASK) ∧
    (if truthy (Z.land (aux0 a) AUXCMD_FORWARD)
     then act = to_hq ∧ ctx_cmd ctx = set_slba (response_plba a + o) cmd else act = status)
  else act = status ∧ sub_view (cache_view c) (cache_view c').
Proof using Hr.
  intros Hc [A1 A2]. set (x := BpfIoCtx cmd NMBPF_HOOK_NFD_WRITE status a).
  assert (ctx_ok x) as Hok by (split; [apply (ro_cmd _ Hr)|done|done]).
  pose proof (nvme_run_bpf_step h c x Hc Hok) as Hs.
  destruct (nvme_run_bpf h c x) as [[act ctx] c']. destruct Hs as [Hc' Hs].
  exists act, ctx, c'. split; [done|]. split; [done|].
  inversion Hs as [? Hf|? a' _ Hh|? _ Hh|? _ _ Hh|act' ctx' ? _ _ Ha Hi Hx|? _ _ Ha Hv'|? Ho|? Ho]; subst.
  - cbn [x ctx_cmd] in Hf. by rewrite (ro_sgl _ Hr) in Hf.
  - done.
  - done.
  - done.
  - cbn [ctx_aux x] in Ha, Hi, Hx. rewrite Ha. destruct Hi as [Hself [victim Hoth] _]. split.
    + intros u e Hne. rewrite Hoth by done. by case_decide.
    + split; [done|]. destruct (truthy (Z.land (aux0 a) AUXCMD_FORWARD));
        injection Hx as -> ->; done.
  - cbn [ctx_aux x] in Ha, Hv'. rewrite Ha.
    assert (sub_view (cache_view c) (cache_view c')) as Hsub.
    { intros u e. destruct (_ || _); [by rewrite Hv'|]. rewrite Hv'. by case_decide. }
    split; [|done]. intros u e _. apply Hsub.
  - simpl in Ho. destruct (ro_op _ Hr) as [E|E]; rewrite E in Ho; done.
  - destruct Ho as [Ho|[_ Ho]]; [|done]. unfold is_rw in Ho. simpl in Ho.
    destruct (ro_op _ Hr) as [E|E]; rewrite E in Ho; done.
Qed.
(** *** The server *)

(** When the allocators find no cluster. *)
Lemma image_full_meta x ly hat st n : image CB (x_file x) ly hat st n →
  lo32 (W (x_file x) 24) <= hi32 (W (x_file x) 24) → image_full x = true.
Proof using.
  intros [Hx _] Hge. unfold image_full. fold alloc_meta_cluster. unfold refuses at 1.
  rewrite (alloc_meta_eq CB _ ly hat Hx). by replace (_ <? _) with false by lia.
Qed.
Lemma image_full_data x ly hat st n : image CB (x_file x) ly hat st n →
  x_snap x = active_snap CB ly hat → W (x_file x) 32 <= W (x_file x) hat → image_full x = true.
Proof using.
  intros [Hx _] Hs Hge. unfold image_full. apply orb_true_intro. right.
  unfold refuses. rewrite Hs. unfold active_snap. by rewrite (alloc_data_full CB _ ly hat Hx).
Qed.

Lemma idle_around sv x : idle sv → x_nv x = x_nv (sv_ctl sv) → x_sq x = x_sq (sv_ctl sv) →
  x_tickets x = x_tickets (sv_ctl sv) → x_wq x = x_wq (sv_ctl sv) →
  x_clock x = x_clock (sv_ctl sv) → idle (around x).
Proof using.
  intros [_ _ _ _ _ H1 H2 H3 H4 H5] E1 E2 E3 E4 E5. split; try done; simpl; try congruence.
  intros w Hw. rewrite E5. auto.
Qed.

Section served.
Context (V : Z → Z) (d : D) (sv : server) (ly : layout) (hat st n : Z).
Abbreviation f := (x_file (sv_ctl sv)).
Context (Hid : idle sv) (Him : image CB f ly hat st n).
Context (Hsn : x_snap (sv_ctl sv) = active_snap CB ly hat).
Context (Hdo : data_ok CB f ly hat) (Hdv : disk_view nclus V d f ly).

(** What the classifier is told is so when it is told. *)
Definition answer_ok (rsp : response) (x : nvme_xcow) (ly' : layout) : Prop :=
  if truthy (Z.land (aux0 (xr_aux rsp)) AUXBITS_VALID) then
    entry_ok (x_file x) ly' v (response_plba (xr_aux rsp), Z.land (aux0 (xr_aux rsp)) AUX_MASK) ∧
    if truthy (Z.land (aux0 (xr_aux rsp)) AUXCMD_FORWARD)
    then opcode cmd = nvme_cmd_write → nt_valid (clus_leaf (x_file x) ly' v) = true ∧ x_vm x = rq_vm r
    else opcode cmd = nvme_cmd_read ∧ xr_status rsp = NVME_SC_SUCCESS ∧
      gather (x_vm x) (rq_segs ns r) = bytes_at V (rq_off ns r) (rq_bytes ns r)
  else opcode cmd = nvme_cmd_write ∧ xr_status rsp = sc_cap_exceeded ∧
    image_full (sv_ctl sv) = true ∧ same_leaves nclus f (x_file x) ly ly'.

Record served (rsp : response) (sv' : server) (d' : D) (ly' : layout) : Prop := {
  sd_idle : idle sv';
  sd_image : image CB (x_file (sv_ctl sv')) ly' hat st n;
  sd_snap : x_snap (sv_ctl sv') = active_snap CB ly' hat;
  sd_data : data_ok CB (x_file (sv_ctl sv')) ly' hat;
  sd_view : disk_view nclus V d' (x_file (sv_ctl sv')) ly';
  sd_aux : aux_ok (xr_aux rsp);
  sd_others w e : 0 <= w < nclus → w ≠ v → entry_ok f ly w e →
    entry_ok (x_file (sv_ctl sv')) ly' w e;
  sd_answer : answer_ok rsp (sv_ctl sv') ly';
}.
Definition await_served : Prop := ∃ rsp sv' d' ly',
  await await_fuel (submit_to (rq_cmd r) r sv) d = Some (rsp, sv', d') ∧ served rsp sv' d' ly'.

(** A reply that comes at once, with the image unchanged. *)
Lemma served_at_once rp x :
  submit_async ioc iov room sq cmd (make_tag 0 (command_id cmd)) (set_xvm (rq_vm r) (sv_ctl sv)) =
    (Ret (Replied rp), x) →
  (∃ vm, x = set_xvm vm (sv_ctl sv)) → aux_ok (rp_aux rp) →
  answer_ok (Response (command_id cmd) (rp_status rp) (rp_aux rp)) x ly → await_served.
Proof using Hid Him Hsn Hdo Hdv.
  intros Hs [vm ->] Ha Hok. eexists _, _, _, ly. split; [by apply await_reply|].
  split; try done. by apply (idle_around sv).
Qed.

Abbreviation x0 := (set_xvm (rq_vm r) (sv_ctl sv)).

(** The leaf of the request. *)
Lemma rq_leaf : leaf_at (W f) (ly_active ly) (i1 CB (addr_of cmd ns)) (i0 CB (addr_of cmd ns)) =
  clus_leaf f ly v.
Proof using Hr Hns Hnclus.
  destruct rq_addr as (_ & _ & Ev & _).
  destruct (clus_same (addr_of cmd ns) v (eq_sym Ev)) as [E1 E2].
  unfold clus_leaf, act_leaf. by rewrite E1, E2.
Qed.

Lemma rq_oc : one_cluster x0 cmd ns CB.
Proof using Hr Hns Hnclus Hid Him. apply (rq_one_cluster _ ly hat st n); [apply (id_nv _ Hid)|done]. Qed.

Lemma rq_transfer : transfer_ok (x_nv x0) (x_vm x0) cmd ns (rq_pages r).
Proof using Hr Hid. pose proof (ro_transfer _ Hr) as H. by rewrite <- (id_nv _ Hid) in H. Qed.

Lemma leaf_entry a : nt_valid (clus_leaf f ly v) = true →
  entry_ok f ly v (response_plba (set_aux_leaf (clus_leaf f ly v) AUXCMD_FORWARD), a).
Proof using Hr Hns Hnclus Him Hdo.
  intros Vv. destruct rq_geometry as (_ & _ & Hv & _).
  destruct (leaf_high nclus Hnclus _ _ _ _ _ _ Him Hdo Hv Vv) as [Hm _].
  unfold entry_ok. rewrite Vv. by apply leaf_aux.
Qed.

(** Reads. *)
Lemma served_read : opcode cmd = nvme_cmd_read → await_served.
Proof using All.
  intros Ho. destruct rq_addr as (_ & Ha & _). destruct rq_geometry as (_ & Hoo & Hv & _ & Hb & Hob & Eb).
  destruct rq_total as (Hpos & Htot & _).
  assert (translate_read (x_snap x0) (addr_of cmd ns) (x_file x0) =
    (Ret (clus_leaf f ly v), x_file x0)) as Htr.
  { cbn [x_snap x_file set_xvm]. rewrite Hsn. rewrite <- rq_leaf.
    apply (translate_read_eq CB f ly hat (proj1 Him)); [|done]. apply (active_root _ _ _ _ (proj1 Him)). }
  destruct (nt_valid (clus_leaf f ly v)) eqn:Vv.
  - destruct (leaf_high nclus Hnclus _ _ _ _ _ _ Him Hdo Hv Vv) as [Hm _].
    destruct (leaf_aux _ Vv Hm) as (A1 & A2 & A3 & _).
    eapply served_at_once.
    + apply (read_present ioc iov room x0 sq cmd _ Hsq ns CB rq_oc _ (rq_pages r) rq_transfer Ho Htr).
      by rewrite is_empty_valid, Vv.
    + by eexists.
    + exact A1.
    + unfold answer_ok. cbn [xr_aux rp_aux reply_leaf]. rewrite A2, A3.
      split; [by apply leaf_entry|]. rewrite Ho. done.
  - destruct (read_absent ioc iov room x0 sq cmd (make_tag 0 (command_id cmd)) Hsq ns CB rq_oc _
      (rq_pages r) rq_transfer Ho Htr) as (vm1 & E & Z1).
    { by rewrite is_empty_valid, Vv. }
    { apply (ro_apart _ Hr). }
    eapply served_at_once; [exact E|by exists vm1|apply aux_ok_paddr|].
    unfold answer_ok. cbn [xr_aux rp_aux reply_paddr].
    split; [unfold entry_ok; cbn [x_file set_xvm]; by rewrite Vv|].
    split; [done|]. split; [done|]. cbn [x_vm set_xvm].
    rewrite (gather_zero vm1 _ _ Hpos Htot).
    + apply bytes_at_ext. intros k Hk. rewrite rq_off_eq, <- Z.add_assoc.
      rewrite (dv_byte _ _ _ _ _ Hdv) by (rewrite ?CS16; lia). by rewrite Vv.
    + intros i Hi. rewrite Z1. unfold rq_segs, rq_bytes in Hi. by rewrite Hi.
Qed.

(** Writes that are refused: the server replies that there is no space. *)
Definition refusal : response := Response (command_id cmd) sc_cap_exceeded no_aux.
Definition refused_run : Prop := ∃ p f1 ly1 e,
  (prepared CB f ly hat st n (addr_of cmd ns) p f1 ly1 ∨ (f1 = f ∧ ly1 = ly)) ∧
  (e = Ehwm ∨ e = Edisk_hwm) ∧
  submit_async ioc iov room sq cmd (make_tag 0 (command_id cmd)) x0 =
    on_hwm (make_tag 0 (command_id cmd)) e (set_file f1 x0).

Lemma served_refused : opcode cmd = nvme_cmd_write → image_full (sv_ctl sv) = true → refused_run →
  ∃ sv' ly', await await_fuel (submit_to (rq_cmd r) r sv) d = Some (refusal, sv', d) ∧
    served refusal sv' d ly'.
Proof using All.
  intros Ho Hfull (p & f1 & ly1 & e & Hf & He & Hs). destruct rq_addr as (_ & Ha & _).
  assert (same_leaves nclus f f1 ly ly1) as Hsame.
  { destruct Hf as [Hp|[-> ->]]; [|done]. by apply (same_leaves_prep nclus Hnclus _ _ _ _ _ _ _ _ _ Him Ha Hp). }
  assert (ly_active ly1 = ly_active ly) as HA
    by (destruct Hf as [Hp|[-> ->]]; [apply (pr_active _ _ _ _ _ _ _ _ _ _ Hp)|done]).
  eexists _, ly1. split.
  - apply (await_reply r sv d (reply (make_tag 0 (command_id cmd)) sc_cap_exceeded) (set_file f1 x0) Hid).
    rewrite Hs. by destruct He as [-> | ->].
  - split; cbn [sv_ctl around x_file set_file].
    + by apply (idle_around sv).
    + destruct Hf as [Hp|[-> ->]]; [apply (pr_image _ _ _ _ _ _ _ _ _ _ Hp)|done].
    + cbn [x_snap set_file set_xvm]. rewrite Hsn. unfold active_snap. by rewrite HA.
    + destruct Hf as [Hp|[-> ->]]; [|done]. by apply (data_ok_prep _ _ _ _ _ _ _ _ _ _ Him Hdo Ha Hp).
    + by apply (view_same _ _ _ _ _ _ _ Hsame).
    + done.
    + intros w e' Hw _. unfold entry_ok. by destruct (Hsame w Hw) as [-> ->].
    + done.
Qed.

(** A write is refused, or its address is prepared and there is room for the
    cluster it needs. *)
Lemma write_cases : opcode cmd = nvme_cmd_write →
  refused_run ∧ image_full (sv_ctl sv) = true ∨
  ∃ p f1 ly1, prepared CB f ly hat st n (addr_of cmd ns) p f1 ly1 ∧
    (needs_alloc (leaf_at (W f1) (ly_active ly) (i1 CB (addr_of cmd ns)) (i0 CB (addr_of cmd ns))) = true →
     W f hat < W f 32).
Proof using All.
  intros Ho. destruct rq_addr as (_ & Ha & _ & Ecl & Hsl). destruct rq_geometry as (_ & _ & Hv & _).
  destruct (tx_prep_cases _ _ _ _ _ _ Him _ Ha) as [[E Hge]|(p & f1 & ly1 & Hp)].
  { left. split; [|by apply (image_full_meta _ _ _ _ _ Him)].
    exists 0, f, ly, Ehwm. split; [by right|]. split; [by left|].
    apply (write_prep_fails ioc iov room x0 sq cmd (make_tag 0 (command_id cmd)) Hsq ns CB rq_oc Ho).
    cbn [x_snap x_file set_xvm]. by rewrite Hsn. }
  destruct (needs_alloc (leaf_at (W f1) (ly_active ly) (i1 CB (addr_of cmd ns)) (i0 CB (addr_of cmd ns)))) eqn:Hn;
    [|by right; exists p, f1, ly1; rewrite Hn].
  destruct (Z.lt_ge_cases (W f hat) (W f 32)) as [Hlt|Hge]; [by right; exists p, f1, ly1|].
  left. split; [|by apply (image_full_data _ _ _ _ _ Him)].
  exists p, f1, ly1, Edisk_hwm. split; [by left|]. split; [by right|].
  pose proof (pr_run _ _ _ _ _ _ _ _ _ _ Hp) as E.
  eapply (write_alloc_fails ioc iov room x0 sq cmd (make_tag 0 (command_id cmd)) Hsq ns CB rq_oc Ho Hsl p _ f1);
    [by rewrite <- Hsn in E|apply (pr_leaf _ _ _ _ _ _ _ _ _ _ Hp)|done| |].
  - rewrite Ecl. by apply (id_clock _ Hid).
  - cbn [x_snap set_xvm]. rewrite Hsn. by apply (tx_full _ _ _ _ _ _ _ _ _ _ Hp).
Qed.

(** A write of a cluster of the snapshot's own. *)
Lemma served_ready p f1 ly1 : opcode cmd = nvme_cmd_write →
  prepared CB f ly hat st n (addr_of cmd ns) p f1 ly1 →
  needs_alloc (leaf_at (W f1) (ly_active ly) (i1 CB (addr_of cmd ns)) (i0 CB (addr_of cmd ns))) = false →
  await_served.
Proof using All.
  intros Ho Hp Hn. destruct rq_addr as (_ & Ha & _ & Ecl & Hsl). destruct rq_geometry as (_ & _ & Hv & _).
  pose proof (tx_kept _ _ _ _ _ _ Him _ _ _ _ Ha Hp Hn) as ->.
  rewrite rq_leaf in Hn. pose proof (pr_run _ _ _ _ _ _ _ _ _ _ Hp) as Er.
  pose proof (pr_leaf _ _ _ _ _ _ _ _ _ _ Hp) as El. rewrite rq_leaf in El.
  assert (nt_valid (clus_leaf f ly v) = true) as Vv.
  { rewrite needs_alloc_eq in Hn. by destruct (nt_valid (clus_leaf f ly v)). }
  destruct (leaf_high nclus Hnclus _ _ _ _ _ _ Him Hdo Hv Vv) as [Hm _].
  destruct (leaf_aux _ Vv Hm) as (A1 & A2 & A3 & _). eapply served_at_once.
  - pose proof (write_ready ioc iov room x0 sq cmd (make_tag 0 (command_id cmd)) Hsq ns CB rq_oc Ho Hsl p _ f ltac:(by rewrite <- Hsn in Er) El Hn) as E.
    apply E. rewrite Ecl. by apply (id_clock _ Hid).
  - exists (rq_vm r). by destruct (sv_ctl sv).
  - exact A1.
  - unfold answer_ok. cbn [xr_aux rp_aux reply_leaf]. rewrite A2, A3.
    split; [by apply leaf_entry|done].
Qed.

(** A write that needs a cluster: the ring fills it, and the leaf is committed
    unless the ring failed. *)
Section alloc_write.
Context (p : Z) (f1 : xfile) (ly1 : layout) (Ho : opcode cmd = nvme_cmd_write).
Context (Hp : prepared CB f ly hat st n (addr_of cmd ns) p f1 ly1).
Abbreviation tl := (leaf_at (W f1) (ly_active ly) (i1 CB (addr_of cmd ns)) (i0 CB (addr_of cmd ns))).
Context (Hn : needs_alloc tl = true) (Hroom' : W f hat < W f 32).

Lemma write_filled : ∃ f2 f3 ly3 rc,
  alloc_data_clusters (active_snap CB ly hat) 1 f1 = (Ret (W f hat * CS CB, CS CB), f2) ∧
  image CB f3 ly3 hat st n ∧ ly_active ly3 = ly_active ly ∧
  write_step CB f ly hat f3 (i1 CB (v * CS CB)) (i0 CB (v * CS CB)) (fst rc) (snd rc) ∧
  ∀ d' cqes us,
    dev_ring (alloc_entries (x_next (sv_ctl sv)) tl (W f hat * CS CB) (CS CB)) d = (d', cqes) →
    Forall (λ c, cq_data c = x_next (sv_ctl sv)) cqes → cq_res <$> last cqes = Some us →
    length cqes = length (alloc_entries (x_next (sv_ctl sv)) tl (W f hat * CS CB) (CS CB)) →
    await await_fuel (submit_to (rq_cmd r) r sv) d =
      Some (Response (command_id cmd) (translate_uring_status us) (alloc_answer (W f hat * CS CB)),
            around (alloc_final r sv (if us <? 0 then f2 else f3)), d').
Proof using Hr Hns Hnclus Hid Him Hsn Ho Hp Hn Hroom Hroom' Hex Hsq.
  destruct rq_addr as (_ & Ha & Ev & Ecl & Hsl). destruct rq_geometry as (_ & _ & Hv & Hn26 & _).
  destruct (tx_commit _ _ _ _ _ _ Him _ _ _ _ Ha Hp Hn Hroom')
    as (f2 & f3 & ly3 & rc & Eal & Er2 & Ecs & _ & Ec & Him3 & _ & A3 & _ & Hws).
  exists f2, f3, ly3, rc. split; [done|]. split; [done|]. split; [done|]. split.
  { destruct (clus_same (addr_of cmd ns) v (eq_sym Ev)) as [E1 E2]. by rewrite <- E1, <- E2. }
  intros d' cqes us Er Hdata Hlast Hlen.
  apply (await_alloc r sv d d' cqes v p tl (W f hat * CS CB) (CS CB) us f2 _ Hid
    (ok_cid _ (ro_cmd _ Hr)) Hv ltac:(clear iov; lia) Ecl); try done.
  - apply (write_begins ioc iov room x0 sq cmd _ Hsq ns CB rq_oc Ho Hsl p tl f1 _ (CS CB) f2 (CS CB) Hroom).
    + pose proof (pr_run _ _ _ _ _ _ _ _ _ _ Hp) as E. by rewrite <- Hsn in E.
    + apply (pr_leaf _ _ _ _ _ _ _ _ _ _ Hp).
    + done.
    + rewrite Ecl. by apply (id_clock _ Hid).
    + cbn [x_snap set_xvm]. by rewrite Hsn.
    + done.
    + done.
  - intros Hneg. by replace (us <? 0) with true by lia.
  - intros Hpos. exists rc. by replace (us <? 0) with false by lia.
Qed.

Lemma served_alloc : await_served.
Proof using All.
  destruct rq_addr as (_ & Ha & Ev & _). destruct rq_geometry as (_ & _ & Hv & Hn26 & _).
  destruct (tx_leaf _ _ _ _ _ _ Him _ _ _ _ Ha Hp) as (Lv & Ld & Le). rewrite Hn in Le.
  rewrite rq_leaf in Lv, Ld. symmetry in Le. apply negb_true_iff in Le.
  destruct (clus_same (addr_of cmd ns) v (eq_sym Ev)) as [E1 E2]. rewrite E1, E2 in Le.
  pose proof (da_mark _ _ _ _ Hdo) as Hmark. destruct (x_dlimit _ _ _ _ (proj1 Him)) as [Hmr Hlim].
  destruct write_filled as (f2 & f3 & ly3 & rc & _ & Him3 & A3 & Hws & Haw).
  destruct (ring_alloc (x_next x0) tl (W f hat * CS CB) (CS CB) d
    ltac:(rewrite CS16; lia) ltac:(rewrite CS16; lia)) as (d' & cqes & Er & Hdone & Hlen & Hb).
  destruct (ring_last _ _ _ _ _ Hlen Hdone) as (us & Hus & Hlast).
  specialize (Haw d' cqes us Er ltac:(eapply Forall_impl; [exact Hdone|by intros c []]) Hlast Hlen).
  unfold translate_uring_status in Haw. replace (us <? 0) with false in Haw by lia.
  destruct (view_alloc nclus Hnclus V d f ly hat st n v rc.1 rc.2 f3 ly3 d' Him Hdo Hdv Hv A3 Hws Le)
    as (Hdv3 & Vv3 & Dv3 & Hoth).
  { intros i. rewrite Hb. by rewrite <- Lv, <- Ld. }
  exists (Response (command_id cmd) NVME_SC_SUCCESS (alloc_answer (W f hat * CS CB))),
    (around (alloc_final r sv f3)), d', ly3. split; [exact Haw|].
  rewrite <- E1, <- E2 in Hws. split; cbn [sv_ctl around alloc_final x_file xr_aux]; try done.
  - by destruct Hid.
  - change (x_snap (sv_ctl sv) = active_snap CB ly3 hat). rewrite Hsn. unfold active_snap. by rewrite A3.
  - by apply (data_ok_write _ _ _ _ _ _ _ _ _ _ _ Him Hdo Ha A3 Hws).
  - apply aux_ok_paddr.
  - intros w e Hw Hne. unfold entry_ok. by destruct (Hoth w Hw Hne) as [-> ->].
  - unfold answer_ok. change (x_file (alloc_final r sv f3)) with f3.
    cbn [xr_aux]. split; [|by intros _]. unfold entry_ok. rewrite Vv3, Dv3.
    apply paddr_plba; [rewrite CS16 in Hlim |- *; lia|]. apply Z.mod_mul. rewrite CS16. lia.
Qed.
End alloc_write.

Lemma served_write : opcode cmd = nvme_cmd_write → await_served.
Proof using All.
  intros Ho. destruct (write_cases Ho) as [[Href Hfull]|(p & f1 & ly1 & Hp & Hroom')].
  { destruct (served_refused Ho Hfull Href) as (sv' & ly' & E & Hs). by exists refusal, sv', d, ly'. }
  destruct (needs_alloc (leaf_at (W f1) (ly_active ly) (i1 CB (addr_of cmd ns)) (i0 CB (addr_of cmd ns)))) eqn:Hn.
  - eapply served_alloc; [done|done|done|by apply Hroom'].
  - by eapply served_ready.
Qed.

Lemma served_rw : await_served.
Proof using All. destruct (ro_op _ Hr); [by apply served_read|by apply served_write]. Qed.
End served.
End request.
End system.
