(* ===== verification/CowSystemSteps.v ===== *)
(** * Commands of the guest, one by one

    Every read, write and snapshot command, on whatever path it takes (files
    CowSystem and CowSystemRuns), is a step of a plain disk and keeps the
    invariant of the system. *)
From S2P Require Import Prelude Proto BpfSm LbaCache Vm Prp NvmeBase Xcow XcowInv XcowOps XcowSnaps.
From S2P Require Import XcowFormat XcowReads XcowTx BlkIter Uring Sender Encryptor NvmeXcow XcowSrv CowRuns Path Disk CowSystem CowPaths CowSystemInv CowSystemRuns.

Section system.
Context {D : Type} `{HD : Device D} `{HL : !DeviceLaws D}.
Context (h : helper) (ioc : Z + Z) (iov : Z → Z + nvme_id_ns) (room : list io_uring_sqe → bool).
Context (extract : Z → list (Z * work) → option (work * list (Z * work))).
Context (ns : nvme_id_ns) (sq : Z) (nclus : Z) (nv : nvme).
Context (Hroom : ∀ q, room q = true) (Hex : extract_ok extract) (Hsq : sq ≠ 0).
Context (Hns : lba_shift ns = 9) (Hnclus : nclus * CS CB <= ENTS CB * COVER CB).

Abbreviation serve := (serve h ioc iov room extract ns sq).
Abbreviation rw_ok := (rw_ok ns nclus nv).

(** A snapshot command: only its opcode, its number and its namespace. *)
Record snap_ok (r : request) : Prop := {
  so_cmd : command_ok (rq_cmd r);
  so_sgl : truthy (Z.land (flags (rq_cmd r)) NVME_CMD_SGL_ALL) = false;
  so_op : opcode (rq_cmd r) = nvme_cmd_snapshot;
  so_nsid : 0 < nsid (rq_cmd r) < MAX_VIRTUAL_NAMESPACES;
  so_ns : nv_idns nv !! nsid (rq_cmd r) = Some ns;
  so_zero : let cmd := rq_cmd r in
    existsb truthy [cdw2_0 cmd; cdw2_1 cmd; metadata cmd; prp1 cmd; prp2 cmd; cdw10 cmd;
                    cdw11 cmd; cdw12 cmd; cdw13 cmd; cdw14 cmd; cdw15 cmd] = false;
}.

(** The disk the guest sees is [V], and the image has [n] snapshots. *)
Record sys_at (V : Z → Z) (n : Z) (s : cow_system D) (ly : layout) (hat st : Z) : Prop := {
  sy_cache : cache_inv (cs_cache s);
  sy_idle : idle nclus nv (cs_srv s);
  sy_image : image CB (x_file (sv_ctl (cs_srv s))) ly hat st n;
  sy_snap : x_snap (sv_ctl (cs_srv s)) = active_snap CB ly hat;
  sy_data : data_ok CB (x_file (sv_ctl (cs_srv s))) ly hat;
  sy_view : disk_view nclus V (cs_disk s) (x_file (sv_ctl (cs_srv s))) ly;
  sy_coherent : coherent nclus (cache_view (cs_cache s)) (x_file (sv_ctl (cs_srv s))) ly;
}.
Definition sys_inv (V : Z → Z) (n : Z) (s : cow_system D) : Prop :=
  ∃ ly hat st, sys_at V n s ly hat st.

(** Snapshots the commands can take: with the kernel's helper, none. *)
Definition snaps_of (rs : list request) : Z :=
  match h with
  | Polyfill => Z.of_nat (length (filter (λ r, opcode (rq_cmd r) = nvme_cmd_snapshot) rs))
  | Kernel => 0
  end.

Lemma snaps_of_cons r rs : snaps_of (r :: rs) = snaps_of [r] + snaps_of rs.
Proof. unfold snaps_of. destruct h; [|done]. rewrite !filter_cons. by case_decide; cbn [length filter list_filter]; lia. Qed.
Lemma snaps_of_nonneg rs : 0 <= snaps_of rs.
Proof. unfold snaps_of. destruct h; lia. Qed.

(** What serving a request does: a step of the plain disk. *)
Definition stepped (V : Z → Z) (n : Z) (s : cow_system D) (r : request) : Prop :=
  ∃ a s' V' n', serve r s = Some (a, s') ∧
    spec_step h ns (image_full (sv_ctl (cs_srv s))) V r a V' ∧ sys_inv V' n' s' ∧
    n <= n' <= n + snaps_of [r].

(** ** Reads and writes *)

Section rw.
Context (r : request) (Hr : rw_ok r).
Abbreviation cmd := (rq_cmd r).
Abbreviation v := (vblk_of (slba cmd)).
Abbreviation o := (off_of (slba cmd)).

(** The disk executes the command at the address of an entry. *)
Lemma direct_off p : 0 <= p < 2 ^ 55 →
  Z.shiftl (slba (set_slba (p + o) cmd)) (lba_shift ns) = p * LBA_SIZE + o * 512.
Proof using Hr Hns Hnclus.
  clear iov. intros Hp. destruct (rq_geometry ns nclus nv Hns Hnclus r Hr) as (_ & Ho & _ & _ & Hb & Hob & _).
  rewrite set_slba_slba by lia. rewrite Hns, Z.shiftl_mul_pow2 by lia. change LBA_SIZE with 512. lia.
Qed.

Lemma direct_read V d f ly p a data : disk_view nclus V d f ly → entry_ok f ly v (p, a) →
  0 <= p < 2 ^ 55 → opcode cmd = nvme_cmd_read →
  direct ns (set_slba (p + o) cmd) r data d = (bytes_at V (rq_off ns r) (rq_bytes ns r), d).
Proof using Hr Hns Hnclus.
  clear iov. intros Hdv He Hp Hop. unfold direct. rewrite direct_off by done.
  change (opcode (set_slba (p + o) cmd)) with (opcode cmd). rewrite Hop, Z.eqb_refl. f_equal.
  destruct (rq_geometry ns nclus nv Hns Hnclus r Hr) as (_ & Ho & Hv & _ & Hb & Hob & Eb).
  apply bytes_at_ext. intros k Hk. rewrite (rq_off_eq ns nclus nv Hns Hnclus r Hr), <- !Z.add_assoc.
  apply (entry_reads nclus V d f ly v (p, a)); try done. rewrite CS16. lia.
Qed.

Lemma direct_write d p data : 0 <= p < 2 ^ 55 → opcode cmd = nvme_cmd_write →
  direct ns (set_slba (p + o) cmd) r data d =
    (data, dev_write d (p * LBA_SIZE + o * 512) data).
Proof using Hr Hns Hnclus.
  intros Hp Hop. unfold direct. rewrite direct_off by done.
  change (opcode (set_slba (p + o) cmd)) with (opcode cmd). by rewrite Hop.
Qed.

(** When the entry is right this is a step of the plain disk. *)
Lemma direct_ok full V d f ly hat st n p a vm c sv : image CB f ly hat st n → data_ok CB f ly hat →
  disk_view nclus V d f ly → entry_ok f ly v (p, a) → 0 <= p < 2 ^ 55 →
  (opcode cmd = nvme_cmd_write → nt_valid (clus_leaf f ly v) = true ∧ vm = rq_vm r) →
  ∃ ans d' V', by_disk ns (set_slba (p + o) cmd) r (gather vm (rq_segs ns r)) c sv d =
      Some (ans, CowSystem c sv d') ∧
    spec_step h ns full V r ans V' ∧ disk_view nclus V' d' f ly.
Proof using All.
  clear iov. intros Him Hdo Hdv He Hp Hw. unfold by_disk. destruct (ro_op _ _ _ _ Hr) as [Hop|Hop].
  - rewrite (direct_read V d f ly p a) by done. do 3 eexists. split; [done|].
    unfold answer_of. rewrite Hop. split; [by constructor|done].
  - rewrite direct_write by done. destruct (Hw Hop) as [Vv ->].
    destruct (rq_geometry ns nclus nv Hns Hnclus r Hr) as (_ & Ho & Hv & _ & Hb & Hob & Eb).
    destruct (rq_total ns nclus nv Hns Hnclus r Hr) as (_ & _ & Hlen).
    unfold entry_ok in He. rewrite Vv in He. cbn [fst] in He. rewrite He.
    do 3 eexists. split; [done|]. unfold answer_of. rewrite Hop. split; [by constructor|].
    rewrite (rq_off_eq ns nclus nv Hns Hnclus r Hr).
    apply (view_write nclus Hnclus V d f ly hat st n); try done; [lia|].
    rewrite Hlen, CS16. lia.
Qed.

Lemma coherent_sub w w' f ly : sub_view w w' → coherent nclus w f ly → coherent nclus w' f ly.
Proof. intros Hs Hc u e Hu He. apply Hc; [done|by apply Hs]. Qed.

(** The answer of the server goes through the hook of responses. *)
Lemma respond_ok V n s ly hat st rsp sv' d' ly' ctx c : sys_at V n s ly hat st →
  nvme_run_bpf h (cs_cache s) (BpfIoCtx cmd NMBPF_HOOK_VSQ 0 no_aux) = (to_server, ctx, c) →
  ctx_cmd ctx = cmd →
  await ioc iov room extract sq await_fuel (submit_to cmd r (cs_srv s)) (cs_disk s) = Some (rsp, sv', d') →
  served ns nclus nv r V (cs_srv s) ly hat st n rsp sv' d' ly' → cache_inv c →
  coherent nclus (cache_view c) (x_file (sv_ctl (cs_srv s))) ly →
  ∃ a s' V', serve r s = Some (a, s') ∧
    spec_step h ns (image_full (sv_ctl (cs_srv s))) V r a V' ∧ sys_inv V' n s' ∧
    (truthy (Z.land (aux0 (xr_aux rsp)) AUXBITS_VALID) = false → a = Done [] ∧ V' = V ∧ cs_disk s' = d').
Proof using All.
  intros Hs Hvsq Hctx Haw [Hid Him Hsn Hdo Hdv Hax Hoth Hans] Hci Hco.
  pose proof (rq_geometry ns nclus nv Hns Hnclus r Hr) as (_ & _ & Hv & _).
  destruct (nfd_rw ns nclus nv r Hr h c (xr_status rsp) (xr_aux rsp) Hci Hax)
    as (act & ctx2 & c' & Hnfd & Hci' & Hw & Hcase).
  pose proof (serve_forwarded h ioc iov room extract ns sq r s ctx c rsp sv' d' Hctx Haw Hvsq act ctx2 c' Hnfd) as Hfw.
  pose proof (serve_ended h ioc iov room extract ns sq r s ctx c rsp sv' d' Hctx Haw Hvsq act ctx2 c' Hnfd) as Hend.
  unfold answer_ok in Hans. set (f' := x_file (sv_ctl sv')) in *.
  destruct (truthy (Z.land (aux0 (xr_aux rsp)) AUXBITS_VALID)).
  - destruct Hcase as [Hself Hact], Hans as [Hent Hans].
    assert (coherent nclus (cache_view c') f' ly') as Hco'.
    { intros u e Hu He. destruct (decide (u = v)) as [->|Hne]; [congruence|].
      apply Hoth; [done|done|]. apply Hco; [done|by apply Hw]. }
    destruct (truthy (Z.land (aux0 (xr_aux rsp)) AUXCMD_FORWARD)).
    + destruct Hact as [-> Ectx]. rewrite (Hfw eq_refl), Ectx.
      destruct (direct_ok (image_full (sv_ctl (cs_srv s))) V d' f' ly' hat st n _ _ (x_vm (sv_ctl sv')) c' sv'
        Him Hdo Hdv Hent (proj2 Hci' _ _ _ Hself) Hans) as (ans & d2 & V' & E & Hsp & Hdv').
      exists ans, (CowSystem c' sv' d2), V'. split; [exact E|]. split; [done|].
      split; [|done]. exists ly', hat, st. by split.
    + destruct Hans as (Hop & Hst & Hg). subst act. rewrite Hst in Hend.
      rewrite Hend by done. eexists _, _, V. split; [done|]. split; [|split].
      * unfold answer_of. rewrite Hop, Hg. by constructor.
      * exists ly', hat, st. by split.
      * done.
  - destruct Hcase as [-> Hsub], Hans as (Hop & Hst & Hfull & Hsame). rewrite Hst in Hend.
    rewrite Hend by done. eexists _, _, V. split; [done|]. split; [|split].
    + unfold answer_of. rewrite Hop. by apply step_lost.
    + exists ly', hat, st. split; try done.
      apply (coherent_sub _ _ _ _ Hsub). by apply (coherent_same nclus _ _ _ _ _ Hsame).
    + intros _. unfold answer_of. by rewrite Hop.
Qed.

Lemma serve_rw V n s : sys_inv V n s → stepped V n s r.
Proof using All.
  intros (ly & hat & st & Hs). pose proof Hs as [Hci Hid Him Hsn Hdo Hdv Hco].
  pose proof (rq_geometry ns nclus nv Hns Hnclus r Hr) as (_ & _ & Hv & _).
  assert (∀ a s' V', serve r s = Some (a, s') →
    spec_step h ns (image_full (sv_ctl (cs_srv s))) V r a V' → sys_inv V' n s' → stepped V n s r) as Hst.
  { intros a s' V' H1 H2 H3. exists a, s', V', n. do 3 (split; [done|]). pose proof (snaps_of_nonneg [r]). lia. }
  destruct (vsq_rw ns nclus nv r Hr h (cs_cache s) Hci) as (act & ctx & c' & Eb & Hci' & Hsub & Hact).
  pose proof (coherent_sub _ _ _ _ Hsub Hco) as Hco'.
  destruct Hact as [([p a] & Hin & Hperm & -> & Ectx & Hp)|(-> & Ectx & _)].
  - destruct (direct_ok (image_full (sv_ctl (cs_srv s))) V (cs_disk s) _ ly hat st n p a (rq_vm r) c' (cs_srv s)
      Him Hdo Hdv (Hco _ _ Hv Hin) Hp) as (ans & d' & V' & Ed & Hsp & Hdv').
    { clear Hst. intros Hop. specialize (Hco _ _ Hv Hin). unfold entry_ok in Hco.
      destruct (nt_valid _); [done|]. destruct Hco as [_ Hco]. unfold permits in Hperm.
      rewrite Hop in Hperm. cbn [snd] in Hco, Hperm. by rewrite Hco in Hperm. }
    eapply Hst; [by rewrite (serve_direct _ _ _ _ _ _ _ _ _ _ _ Eb), Ectx|done|]. exists ly, hat, st. by split.
  - destruct (served_rw ioc iov room extract ns sq nclus nv Hroom Hex Hsq Hns Hnclus r Hr V
      (cs_disk s) (cs_srv s) ly hat st n Hid Him Hsn Hdo Hdv) as (rsp & sv' & d' & ly' & E & Hserved).
    destruct (respond_ok V n s ly hat st rsp sv' d' ly' ctx c' Hs Eb Ectx E Hserved Hci' Hco')
      as (a & s' & V' & E2 & H1 & H2 & _).
    by apply (Hst a s' V' E2).
Qed.
End rw.

(** ** Snapshots *)

(** Snapshots the image has room for in its table. *)
Definition snap_capacity : Z := (CS CB - 16) / 16.

Lemma coherent_downgrades w w' f ly : downgrades w w' → coherent nclus w f ly →
  coherent nclus w' f ly.
Proof.
  intros Hd Hc u e Hu He. rewrite Hd in He. destruct (w u) as [e0|] eqn:E; [|done].
  injection He as <-. specialize (Hc u e0 Hu E). unfold entry_ok in *.
  destruct (nt_valid (clus_leaf f ly u)); [done|]. destruct Hc as [-> _]. split; [done|].
  cbn [snd]. rewrite <- Z.land_assoc. change (Z.land AUXBITS_VALID AUXBITS_WRITABLE) with 0.
  by rewrite Z.land_0_r.
Qed.

Lemma vsq_snapshot c r : cache_inv c → snap_ok r → ∃ ctx c',
  nvme_run_bpf h c (BpfIoCtx (rq_cmd r) NMBPF_HOOK_VSQ 0 no_aux) = (snapshot_verdict h, ctx, c') ∧
  ctx_cmd ctx = rq_cmd r ∧ cache_inv c' ∧ downgrades (cache_view c) (cache_view c').
Proof.
  intros Hc Hr. set (x := BpfIoCtx (rq_cmd r) NMBPF_HOOK_VSQ 0 no_aux).
  assert (ctx_ok x) as Hok by (split; [apply (so_cmd _ Hr)|done|done]).
  pose proof (so_op _ Hr) as Hop.
  assert (is_rw (rq_cmd r) = false) as Hrw by (unfold is_rw; by rewrite Hop).
  pose proof (nvme_run_bpf_step h c x Hc Hok) as Hs.
  destruct (nvme_run_bpf h c x) as [[act ctx] c']. destruct Hs as [Hc' Hs].
  inversion Hs as [? Hf|? a H|? H|? H|? ? ? H|? H|? _ Hd|? _ H]; subst;
    cbn [x ctx_cmd] in *; try congruence.
  - by rewrite (so_sgl _ Hr) in Hf.
  - by rewrite Hop in H.
  - by exists x, c'.
Qed.

(** A snapshot is taken of an image that the system is in: the disk the guest
    sees and the entries of the cache are what they were, for any cache that
    holds at most what the one before held, without its writable bits. *)
Lemma snapped V n s ly hat st hw : n < snap_capacity → sys_at V n s ly hat st →
  let f := x_file (sv_ctl (cs_srv s)) in
  hi32 (W f 24) < lo32 (W f 24) →
  ∃ f' ly', snap_create (Snap (Span (ly_active ly) (CS CB)) hw) f =
      (Ret (active_snap CB ly' (hat + 16), Snap (Span (ly_active ly) (CS CB)) None), f') ∧
    image CB f' ly' (hat + 16) st (n + 1) ∧ data_ok CB f' ly' (hat + 16) ∧
    disk_view nclus V (cs_disk s) f' ly' ∧
    (∀ v, 0 <= v < nclus → clus_leaf f' ly' v = clus_leaf f ly v) ∧
    same_leaves nclus f f' ly ly' ∧ ly_active ly ∈ ly_roots ly' ∧
    ∀ i j, idx_ok CB i → idx_ok CB j →
      leaf_at (W f') (ly_active ly) i j = leaf_at (W f) (ly_active ly) i j.
Proof using Hnclus.
  clear Hroom Hex ioc iov room extract.
  intros Hn [Hci Hid Him Hsn Hdo Hdv Hco] f Hlt. fold f in Him, Hdo, Hdv.
  pose proof (snap_create_eq CB f ly hat st n (proj1 Him) (proj2 Him) Hlt Hn) as Es.
  pose proof (Es (Some hat)) as Es'. fold (active_snap CB ly hat) in Es'.
  destruct (snap_image _ _ _ _ _ _ _ _ _ Him Hn Es') as (ly' & Him' & Esn & Hne & Er & Hp & Hl & _).
  specialize (Es hw). rewrite Esn in Es. set (f' := snap_state _ _ _ _ _ _) in *.
  assert (∀ v, 0 <= v < nclus → clus_leaf f' ly' v = clus_leaf f ly v) as Hleaf.
  { intros v Hv. destruct (clus_idx nclus Hnclus _ _ _ _ _ v Him Hv) as [Hi Hj].
    unfold clus_leaf, act_leaf. by destruct (Hl _ _ Hi Hj) as [-> _]. }
  assert (same_leaves nclus f f' ly ly') as Hsame by (intros v Hv; by rewrite Hleaf).
  pose proof (active_root _ _ _ _ (proj1 Him)) as Har.
  exists f', ly'. split; [exact Es|]. split; [exact Him'|].
  split; [by apply (data_ok_snap CB _ ly hat st n _ _ _ _ Him Hdo Hn Es')|].
  split; [by apply (view_same _ _ _ _ _ _ _ Hsame)|]. split; [exact Hleaf|]. split; [exact Hsame|].
  split; [rewrite Er; by right|]. intros i j. by apply Hp.
Qed.

(** With the kernel's helper the classifier answers a snapshot command. *)
Lemma snapshot_denied V n s r ly hat st : h = Kernel → snap_ok r → sys_at V n s ly hat st →
  ∃ s', serve r s = Some (Failed NVME_SC_INTERNAL, s') ∧ cs_srv s' = cs_srv s ∧ sys_at V n s' ly hat st.
Proof using All.
  intros Hk Hr [Hci Hid Him Hsn Hdo Hdv Hco].
  destruct (vsq_snapshot (cs_cache s) r Hci Hr) as (ctx & c' & Eb & Ectx & Hci' & Hdg).
  rewrite Hk in Eb. eexists. split.
  - rewrite Hk. rewrite (serve_refused Kernel ioc iov room extract ns sq r s ctx c' _ Eb) by done.
    unfold answer_of. reflexivity.
  - split; [done|]. split; try done. by apply (coherent_downgrades _ _ _ _ Hdg).
Qed.

(** The server answers a snapshot command at once. *)
Lemma snapshot_run_at V n s r ly hat st : h = Polyfill → snap_ok r → sys_at V n s ly hat st →
  let sv := cs_srv s in let x := set_xvm (rq_vm r) (sv_ctl sv) in
  ∃ c', cache_inv c' ∧ downgrades (cache_view (cs_cache s)) (cache_view c') ∧
    serve r s = match snap_create (active_snap CB ly hat) (x_file (sv_ctl sv)) with
      | (Ret (sn, _), f) => Some (Done [], CowSystem c' (around (set_snap sn (set_file f x))) (cs_disk s))
      | (Throw Ehwm, f) =>
          Some (Failed sc_cap_exceeded, CowSystem c' (around (set_file f x)) (cs_disk s))
      | _ => serve r s
      end.
Proof using Hsq.
  intros Hpf Hr [Hci Hid Him Hsn Hdo Hdv Hco] sv x. pose proof (so_op _ Hr) as Hop.
  destruct (vsq_snapshot (cs_cache s) r Hci Hr) as (ctx & c' & Eb & Ectx & Hci' & Hdg).
  exists c'. split; [done|]. split; [done|]. subst h.
  assert (nv_idns (x_nv x) !! nsid (rq_cmd r) = Some ns) as Hidns
    by (cbn [x x_nv set_xvm]; unfold sv; rewrite (id_nv _ _ _ Hid); apply (so_ns _ Hr)).
  pose proof (snapshot_run ioc iov room x sq (rq_cmd r) (make_tag 0 (command_id (rq_cmd r))) Hsq ns Hop
    (so_nsid _ Hr) Hidns (so_zero _ Hr)) as Hrun.
  cbn [x x_snap x_file set_xvm] in Hrun. fold sv in Hsn. rewrite Hsn in Hrun. fold x in Hrun.
  destruct (snap_create _ _) as [[[sn' sn0]|[]] f']; try done;
    rewrite (serve_told Polyfill ioc iov room extract ns sq r s ctx c' _ _ _ Ectx
      (await_reply ioc iov room extract sq nclus nv r sv (cs_disk s) _ _ Hid Hrun) Eb) by done; [|done].
  cbn [xr_status reply rp_status]. unfold answer_of. by rewrite Hop.
Qed.

Lemma snapshot_done V n s r ly hat st : h = Polyfill → snap_ok r → n < snap_capacity →
  sys_at V n s ly hat st →
  let f := x_file (sv_ctl (cs_srv s)) in hi32 (W f 24) < lo32 (W f 24) →
  ∃ s' ly', serve r s = Some (Done [], s') ∧ sys_at V (n + 1) s' ly' (hat + 16) st.
Proof using Hsq Hnclus.
  intros Hpf Hr Hn Hs f Hlt. destruct (snapshot_run_at V n s r ly hat st Hpf Hr Hs) as (c' & Hci' & Hdg & E).
  destruct (snapped V n s ly hat st (Some hat) Hn Hs Hlt)
    as (f' & ly' & Es & Him' & Hdo' & Hdv' & _ & Hsame & _).
  destruct Hs as [Hci Hid Him Hsn Hdo Hdv Hco]. fold (active_snap CB ly hat) in Es. rewrite Es in E.
  pose proof (coherent_downgrades _ _ _ _ Hdg Hco) as Hco'.
  eexists _, ly'. split; [exact E|].
  split; cbn [cs_cache cs_srv cs_disk around sv_ctl x_file x_snap set_snap set_file set_xvm]; try done.
  - by apply (idle_around nclus nv (cs_srv s)).
  - by apply (coherent_same _ _ _ _ _ _ Hsame).
Qed.

Lemma snapshot_no_room V n s r ly hat st : h = Polyfill → snap_ok r → sys_at V n s ly hat st →
  let f := x_file (sv_ctl (cs_srv s)) in lo32 (W f 24) <= hi32 (W f 24) →
  ∃ s', serve r s = Some (Failed sc_cap_exceeded, s') ∧ sys_at V n s' ly hat st.
Proof using Hsq Hnclus.
  intros Hpf Hr Hs f Hge. destruct (snapshot_run_at V n s r ly hat st Hpf Hr Hs) as (c' & Hci' & Hdg & E).
  destruct Hs as [Hci Hid Him Hsn Hdo Hdv Hco]. fold f in Him, E.
  pose proof (snap_create_full CB f ly hat st n (Some hat) (proj1 Him) (proj2 Him) Hge) as Es.
  fold (active_snap CB ly hat) in Es. rewrite Es in E.
  eexists. split; [exact E|]. split; try done; [by apply (idle_around nclus nv (cs_srv s))|].
  by apply (coherent_downgrades _ _ _ _ Hdg).
Qed.

Lemma serve_snapshot V n s r : snap_ok r → n + snaps_of [r] <= snap_capacity → sys_inv V n s →
  stepped V n s r.
Proof using All.
  intros Hr Hn (ly & hat & st & Hs). pose proof (so_op _ Hr) as Hop.
  pose proof (snaps_of_nonneg [r]) as Hnn. unfold stepped.
  assert (h = Polyfill ∨ h = Kernel) as [Eh|Eh] by (destruct h; by auto).
  - assert (snaps_of [r] = 1) as E1 by (unfold snaps_of; rewrite Eh, filter_cons, Hop; done).
    destruct (Z.lt_ge_cases (hi32 (W (x_file (sv_ctl (cs_srv s))) 24))
      (lo32 (W (x_file (sv_ctl (cs_srv s))) 24))) as [Hlt|Hge].
    + destruct (snapshot_done V n s r ly hat st Eh Hr ltac:(lia) Hs Hlt) as (s' & ly' & E & Hs').
      exists (Done []), s', V, (n + 1). split_and!; [done|by apply step_snapshot| |lia|lia].
      by exists ly', (hat + 16), st.
    + destruct (snapshot_no_room V n s r ly hat st Eh Hr Hs Hge) as (s' & E & Hs').
      exists (Failed sc_cap_exceeded), s', V, n. split; [exact E|].
      split; [apply step_refused; [done|by apply (image_full_meta _ _ _ _ _ (sy_image _ _ _ _ _ _ Hs))|done]|].
      split; [by exists ly, hat, st|lia].
  - destruct (snapshot_denied V n s r ly hat st Eh Hr Hs) as (s' & E & _ & Hs').
    exists (Failed NVME_SC_INTERNAL), s', V, n. split; [exact E|]. split; [by apply step_kernel|].
    split; [by exists ly, hat, st|lia].
Qed.

(** ** Any sequence of requests *)

Definition request_ok (r : request) : Prop := rw_ok r ∨ snap_ok r.
Lemma serve_all_ok rs : ∀ V n s, sys_inv V n s → Forall request_ok rs →
  n + snaps_of rs <= snap_capacity →
  ∃ l s' V' n', serve_all h ioc iov room extract ns sq rs s = Some (l, s') ∧
    spec_run h ns V rs (fulls_of h ioc iov room extract ns sq rs s) l V' ∧ sys_inv V' n' s' ∧ n <= n' <= n + snaps_of rs.
Proof using All.
  induction rs as [|r rs IH]; intros V n s Hs Hrs Hn.
  - exists [], s, V, n. split; [done|]. split; [constructor|]. split; [done|].
    unfold snaps_of. destruct h; simpl; lia.
  - apply Forall_cons in Hrs as [Hr Hrs]. rewrite snaps_of_cons in Hn |- *.
    pose proof (snaps_of_nonneg rs) as Hnn.
    assert (stepped V n s r) as (a & s1 & V1 & n1 & E1 & Sp1 & I1 & N1).
    { destruct Hr as [Hr|Hr]; [by apply serve_rw|]. apply serve_snapshot; [done|lia|done]. }
    destruct (IH V1 n1 s1 I1 Hrs ltac:(lia)) as (l & s2 & V2 & n2 & E2 & Sp2 & I2 & N2).
    exists (a :: l), s2, V2, n2. unfold serve_all in *. cbn [serve_each fulls_of]. rewrite E1, E2. split; [done|].
    split; [by econstructor|]. split; [done|]. lia.
Qed.
End system.
