(* ===== verification/CowSystemThms.v ===== *)
(** * The copy-on-write disk is a disk

    The theorems about the whole system of file CowSystem, a concrete disk, and
    the system right after its image was formatted. *)
From S2P Require Import Prelude Proto BpfSm LbaCache Vm Prp NvmeBase Xcow XcowInv XcowOps XcowSnaps.
From S2P Require Import XcowFormat XcowReads XcowTx BlkIter Uring Sender Encryptor NvmeXcow XcowSrv CowRuns Path Disk CowSystem CowPaths CowSystemInv CowSystemRuns CowSystemSteps.

(** ** A disk of bytes

    The ring executes its entries in order; a linked read and write share a
    buffer. *)

Definition mem_step (x : (Z → Z) * list Z) (e : io_uring_sqe) : (Z → Z) * list Z * io_uring_cqe :=
  match sq_op e with
  | IoRead _ n off => (x.1, bytes_at x.1 off n, Cqe (sq_data e) n)
  | IoWrite _ n off => (put_bytes x.1 off x.2, x.2, Cqe (sq_data e) n)
  | IoFallocate _ off n => (put_bytes x.1 off (replicate (Z.to_nat n) 0), x.2, Cqe (sq_data e) 0)
  | _ => (x, Cqe (sq_data e) (-22))
  end.
Fixpoint mem_ring (es : list io_uring_sqe) (x : (Z → Z) * list Z) : (Z → Z) * list io_uring_cqe :=
  match es with
  | [] => (x.1, [])
  | e :: es => let '(x, c) := mem_step x e in let '(d, cs) := mem_ring es x in (d, c :: cs)
  end.

#[export] Instance mem_device : Device (Z → Z) := {
  dev_byte d i := d i;
  dev_write d off bs := put_bytes d off bs;
  dev_ring es d := mem_ring es (d, []);
}.

Lemma put_bytes_at f off g a n i : 0 <= n →
  put_bytes f off (bytes_at g a n) i =
    if (off <=? i) && (i <? off + n) then g (a + (i - off)) else f i.
Proof.
  intros Hn. unfold put_bytes. rewrite length_bytes_at by done.
  destruct (_ && _) eqn:E; [|done]. unfold bytes_at.
  rewrite list_lookup_fmap, lookup_seq_lt by lia. simpl. f_equal. lia.
Qed.

#[export] Instance mem_device_laws : DeviceLaws (Z → Z).
Proof.
  split.
  - done.
  - intros p off n d Hn Ho. exists (put_bytes d off (replicate (Z.to_nat n) 0)), (Cqe p 0).
    split; [done|]. split; [done|]. intros i.
    cbn [dev_byte mem_device]. rewrite <- (bytes_at_zero 0 n). by rewrite put_bytes_at by lia.
  - intros p src dst n d Hn Hs Hd.
    exists (put_bytes d dst (bytes_at d src n)), (Cqe p n), (Cqe p n). split; [done|].
    do 2 (split; [split; [done|simpl; lia]|]). intros i.
    cbn [dev_byte mem_device]. by rewrite put_bytes_at by lia.
Qed.

(** ** A new disk

    The system around an image that [format] has just written, with an empty
    cache and an empty data disk. *)

Section formatted.
Context {D : Type} `{HD : Device D}.
Context (fsize hl dl : Z) (s0 : xfile) (nclus : Z) (nv : nvme) (vm : mapping) (d : D).
Context (Hhl : 4 <= hl < 2 ^ 32) (Hdl : 1 <= dl) (Hdl2 : dl * CS CB < 2 ^ 63).
Context (Hfs : 0 < fsize <= ENTS CB * COVER CB).
Context (Hfb : hl * CS CB <= fbytes s0) (Hfb2 : fbytes s0 <= 2 ^ 32) (Hr : arr_range (words s0)).
Context (Hnclus : nclus * CS CB <= ENTS CB * COVER CB) (Hzero : ∀ i, dev_byte d i = 0).

Definition new_file : xfile := (format fsize CB hl dl s0).2.
Definition new_ctl : nvme_xcow :=
  NvmeXcow nv vm new_file (active_snap CB (f_layout CB) (CS CB + 24)) [] ∅ 0
    (replicate (Z.to_nat nclus) false) [].
Definition new_system : cow_system D := CowSystem empty_cache (around new_ctl) d.

Lemma new_sys_at : sys_at nclus nv (λ _, 0) 1 new_system (f_layout CB) (CS CB + 24) (CS CB).
Proof using All.
  assert (new_file = f_state CB fsize hl dl s0) as Ef by (unfold new_file; by rewrite format_eq).
  assert (∀ v, 0 <= v < nclus → nt_valid (clus_leaf new_file (f_layout CB) v) = false) as Hl.
  { intros v Hv. rewrite Ef. unfold clus_leaf, act_leaf.
    assert (image CB (f_state CB fsize hl dl s0) (f_layout CB) (CS CB + 24) (CS CB) 1) as Him by by apply f_image.
    destruct (clus_idx nclus Hnclus _ _ _ _ _ v Him Hv) as [Hi _].
    change (ly_active (f_layout CB)) with (3 * CS CB). rewrite f_leaf by done.
    unfold empty_leaf. by rewrite nt_valid_bit. }
  split; cbn [new_system cs_cache cs_srv cs_disk around sv_ctl new_ctl x_file x_snap].
  - apply empty_cache_inv.
  - split; [done..|]. intros v Hv. cbn [around sv_ctl new_ctl x_clock]. apply lookup_replicate_2. lia.
  - rewrite Ef. by apply f_image.
  - done.
  - rewrite Ef. by apply (data_ok_format CB fsize hl dl s0).
  - split; [by intros|]. intros v k Hv Hk. by rewrite Hl.
  - intros v e _ He. rewrite empty_cache_view in He. discriminate He.
Qed.
End formatted.

(** ** The whole disk *)


(** A disk of 64 clusters, and a guest that writes two blocks of cluster 1,
    takes a snapshot, writes one of the blocks again and reads both. *)
Definition demo_blank16 : xfile := XFile ∅ (16 * 65536) (Span 0 0) (Span 0 0).
Definition demo_snap (cid : Z) : request :=
  Request (demo_page 0) (NvmeCommand nvme_cmd_snapshot 0 cid 1 0 0 0 0 0 0 0 0 0 0 0) [].
Definition demo_requests : list request :=
  [demo_rw nvme_cmd_write 1 130 1 7; demo_snap 2; demo_rw nvme_cmd_write 3 131 0 9;
   demo_rw nvme_cmd_read 4 130 1 0].
Definition demo_system : cow_system (Z → Z) :=
  new_system (64 * 65536) 16 1000 demo_blank16 64 demo_ctrl (Mapping ∅ 262144) (λ _, 0).

Lemma demo_blank16_range : arr_range (words demo_blank16).
Proof. intros x. unfold demo_blank16, aget; cbn [words]. rewrite lookup_empty. simpl. lia. Qed.

Lemma demo_system_at : sys_at 64 demo_ctrl (λ _, 0) 1 demo_system (f_layout CB) (CS CB + 24) (CS CB).
Proof.
  apply (new_sys_at (64 * 65536) 16 1000 demo_blank16 64 demo_ctrl); try done;
    try apply demo_blank16_range; rewrite ?CS16, ?ADDR16; simpl; lia.
Qed.

(** The requests are in one page and one cluster. *)
Ltac demo_request := split;
  [split; vm_compute; split; congruence|reflexivity|by (left + right)|one_page_ok|reflexivity|reflexivity|one_page].

Lemma demo_write2_ok : rw_ok demo_ns 64 demo_ctrl (demo_rw nvme_cmd_write 1 130 1 7).
Proof. demo_request. Qed.
Lemma demo_write1_ok : rw_ok demo_ns 64 demo_ctrl (demo_rw nvme_cmd_write 3 131 0 9).
Proof. demo_request. Qed.
Lemma demo_read2_ok : rw_ok demo_ns 64 demo_ctrl (demo_rw nvme_cmd_read 4 130 1 0).
Proof. demo_request. Qed.
Lemma demo_snap_ok : snap_ok demo_ns demo_ctrl (demo_snap 2).
Proof. by split. Qed.

Lemma demo_requests_ok : Forall (request_ok demo_ns 64 demo_ctrl) demo_requests.
Proof.
  repeat apply Forall_cons_2; [left; apply demo_write2_ok|right; apply demo_snap_ok|
    left; apply demo_write1_ok|left; apply demo_read2_ok|apply Forall_nil_2].
Qed.

