(* ===== verification/CowSystemGaps.v ===== *)
(** * What the copy-on-write disk does not keep

    The guest's disk is a disk (file CowSystemThms), but a snapshot is not
    isolated from it, and a write whose cluster could not be filled is
    answered as if it had been. *)
From S2P Require Import Prelude Proto BpfSm LbaCache Vm Prp NvmeBase Xcow XcowInv XcowOps XcowSnaps.
From S2P Require Import XcowFormat XcowReads XcowTx BlkIter Uring Sender Encryptor NvmeXcow XcowSrv CowRuns Path Disk CowSystem CowPaths CowSystemInv CowSystemRuns CowSystemSteps CowSystemThms XcowThms XcowCtl.

Section gaps.
Context {D : Type} `{HD : Device D} `{HL : !DeviceLaws D}.
Context (h : helper) (ioc : Z + Z) (iov : Z → Z + nvme_id_ns) (room : list io_uring_sqe → bool).
Context (extract : Z → list (Z * work) → option (work * list (Z * work))).
Context (ns : nvme_id_ns) (sq : Z) (nclus : Z) (nv : nvme).
Context (Hroom : ∀ q, room q = true) (Hex : extract_ok extract) (Hsq : sq ≠ 0).
Context (Hns : lba_shift ns = 9) (Hnclus : nclus * CS CB <= ENTS CB * COVER CB).

Abbreviation serve := (serve h ioc iov room extract ns sq).
Abbreviation rw_ok := (rw_ok ns nclus nv).
Abbreviation sys_at := (sys_at nclus nv).
Abbreviation file s := (x_file (sv_ctl (cs_srv s))).
Abbreviation clus r := (vblk_of (slba (rq_cmd r))).

(** A read of a cluster that is not cached and has data: the leaf goes into the
    cache with the writable bit it has in its table. *)
Lemma read_fetches V n s ly hat st r : sys_at V n s ly hat st → rw_ok r →
  opcode (rq_cmd r) = nvme_cmd_read → cache_view (cs_cache s) (clus r) = None →
  nt_valid (clus_leaf (file s) ly (clus r)) = true →
  ∃ s' p a, serve r s = Some (Done (bytes_at V (rq_off ns r) (rq_bytes ns r)), s') ∧
    cache_inv (cs_cache s') ∧ cs_disk s' = cs_disk s ∧ file s' = file s ∧
    cache_view (cs_cache s') (clus r) = Some (p, a) ∧
    p * LBA_SIZE = nt_decode (clus_leaf (file s) ly (clus r)) ∧
    (xb_writable (clus_leaf (file s) ly (clus r)) = true → truthy (Z.land a AUXBITS_WRITABLE) = true).
Proof using All.
  intros [Hci Hid Him Hsn Hdo Hdv Hco] Hr Hop Hnone Vv. set (tl := clus_leaf _ _ _) in *.
  destruct (rq_geometry ns nclus nv Hns Hnclus r Hr) as (_ & _ & Hv & _).
  destruct (rq_addr ns nclus nv Hns Hnclus r Hr) as (_ & Ha & _).
  destruct (leaf_high nclus Hnclus _ _ _ _ _ _ Him Hdo Hv Vv) as [Hm _]. fold tl in Hm.
  destruct (leaf_aux _ Vv Hm) as (A1 & A2 & A3 & A4).
  destruct (vsq_rw ns nclus nv r Hr h (cs_cache s) Hci) as (act & ctx & c & Eb & Hci1 & Hsub & Hact).
  destruct Hact as [(e & He & _)|(-> & Ectx & _)]; [congruence|].
  set (x := set_xvm (rq_vm r) (sv_ctl (cs_srv s))).
  assert (submit_async ioc iov room sq (rq_cmd r) (make_tag 0 (command_id (rq_cmd r))) x =
    (Ret (Replied (reply_leaf (make_tag 0 (command_id (rq_cmd r))) NVME_SC_SUCCESS tl AUXCMD_FORWARD)), x)) as Hrun.
  { apply (read_present ioc iov room x sq (rq_cmd r) _ Hsq ns CB
      (rq_oc ns nclus nv Hns Hnclus r Hr _ _ _ _ _ Hid Him) tl (rq_pages r)
      (rq_transfer ns nclus nv r Hr _ Hid) Hop); [|by rewrite is_empty_valid, Vv].
    cbn [x x_snap x_file set_xvm]. rewrite Hsn. unfold active_snap.
    rewrite (translate_read_eq CB _ ly hat (proj1 Him)); [|apply (active_root _ _ _ _ (proj1 Him))|done].
    by rewrite (rq_leaf ns nclus nv Hns Hnclus r Hr). }
  pose proof (await_reply ioc iov room extract sq nclus nv r _ (cs_disk s) _ _ Hid Hrun) as Haw.
  destruct (nfd_rw ns nclus nv r Hr h c NVME_SC_SUCCESS (set_aux_leaf tl AUXCMD_FORWARD) Hci1 A1)
    as (act2 & ctx2 & c2 & Hnfd & Hci2 & _ & Hc2). rewrite A2, A3 in Hc2. destruct Hc2 as (Hself & -> & E2).
  rewrite (serve_forwarded h ioc iov room extract ns sq r s ctx c _ _ _ Ectx Haw Eb to_hq ctx2 c2 Hnfd eq_refl).
  unfold by_disk. rewrite E2.
  rewrite (direct_read ns nclus nv Hns Hnclus r Hr V (cs_disk s) _ ly _ (Z.land (aux0 (set_aux_leaf tl AUXCMD_FORWARD)) AUX_MASK) _ Hdv).
  - unfold answer_of. rewrite Hop. change (nvme_cmd_read =? nvme_cmd_read) with true.
    change (NVME_SC_SUCCESS =? NVME_SC_SUCCESS) with true. cbv iota.
    eexists _, _, _. split; [reflexivity|]. split; [exact Hci2|]. split; [reflexivity|].
    split; [reflexivity|]. split; [exact Hself|]. split; [exact A4|].
    intros Hw. unfold set_aux_leaf. rewrite Vv, Hw. reflexivity.
  - unfold entry_ok. fold tl. rewrite Vv. exact A4.
  - apply (proj2 Hci2 _ _ _ Hself).
  - exact Hop.
Qed.

(** A write of a cluster the cache lets the guest write: the server is not
    asked. *)
Lemma write_bypasses s r p a : cache_inv (cs_cache s) → rw_ok r →
  opcode (rq_cmd r) = nvme_cmd_write → cache_view (cs_cache s) (clus r) = Some (p, a) →
  truthy (Z.land a AUXBITS_WRITABLE) = true →
  ∃ c, serve r s = Some (Done [], CowSystem c (cs_srv s)
    (dev_write (cs_disk s) (p * LBA_SIZE + off_of (slba (rq_cmd r)) * 512)
      (gather (rq_vm r) (rq_segs ns r)))).
Proof using All.
  intros Hci Hr Hop Hin Hw.
  destruct (vsq_rw ns nclus nv r Hr h (cs_cache s) Hci) as (act & ctx & c & Eb & _ & _ & Hact).
  destruct Hact as [([p' a'] & He & _ & -> & Ectx & Hp)|(_ & _ & Hu)].
  - rewrite Hin in He. injection He as <- <-. exists c.
    rewrite (serve_direct _ _ _ _ _ _ _ _ _ _ _ Eb), Ectx. cbn [fst] in Hp |- *. unfold by_disk.
    rewrite (direct_write ns nclus nv Hns Hnclus r Hr) by done. unfold answer_of. by rewrite Hop.
  - exfalso. unfold usable in Hu. rewrite (ro_one _ _ _ _ Hr), Hin in Hu. unfold permits in Hu.
    by rewrite Hw, orb_true_r in Hu.
Qed.
End gaps.

(** ** A snapshot made by xcowctl

    The server is stopped, xcowctl makes a snapshot of the newest one, and the
    server and the classifier are started again: a new controller on the file
    as xcowctl left it, with what [open_write] opens, and empty maps. *)

Definition restarted {D} (nclus : Z) (f : xfile) (sn : XcowSnap) (s : cow_system D) : cow_system D :=
  let c := sv_ctl (cs_srv s) in
  CowSystem empty_cache (around (NvmeXcow (x_nv c) (x_vm c) f sn [] ∅ 0
    (replicate (Z.to_nat nclus) false) [])) (cs_disk s).

Lemma restarted_at {D} `{Device D} nclus nv V n (s : cow_system D) ly hat st
    metasize disksize fallocate fuel f1 sn1 :
  let f := x_file (sv_ctl (cs_srv s)) in
  nclus * CS CB <= ENTS CB * COVER CB → sys_at nclus nv V n s ly hat st → opened CB f →
  n < snap_capacity → (0 < fuel)%nat →
  ctl_main metasize disksize fallocate fuel (CtlSnapCreate None) f = (Ret CtlNothing, f1) →
  open_write f1 = (Ret sn1, f1) →
  ∃ ly1, sys_at nclus nv V (n + 1) (restarted nclus f1 sn1 s) ly1 (hat + 16) st ∧
    (∀ v, 0 <= v < nclus → clus_leaf f1 ly1 v = clus_leaf f ly v) ∧
    ly_active ly ∈ ly_roots ly1 ∧
    ∀ i j, idx_ok CB i → idx_ok CB j →
      leaf_at (W f1) (ly_active ly) i j = leaf_at (W f) (ly_active ly) i j.
Proof.
  intros f Hnclus Hs Hop Hn Hfuel Ec Eo. pose proof Hs as [_ Hid Him _ _ _ _]. fold f in Him.
  assert (ctl_main metasize disksize fallocate fuel (CtlSnapCreate None) f =
    ('_ ← snap_create (Snap (Span (ly_active ly) (CS CB)) None); mret CtlNothing) f) as E.
  { unfold ctl_main. step (opened_open CB f Hop). unfold mbind, eff_bind.
    by rewrite (create_newest fuel CB f ly hat st n Him Hfuel). }
  rewrite E in Ec. destruct (Z.lt_ge_cases (hi32 (W f 24)) (lo32 (W f 24))) as [Hlt|Hge].
  2:{ unfold mbind, eff_bind in Ec.
      by rewrite (snap_create_full CB f ly hat st n None (proj1 Him) (proj2 Him) Hge) in Ec. }
  destruct (snapped nclus nv Hnclus V n s ly hat st None Hn Hs Hlt)
    as (f' & ly' & Es & Him' & Hdo' & Hdv' & Hleaf & _ & Hroot & Hold).
  fold f in Es. unfold mbind, eff_bind in Ec. rewrite Es in Ec. injection Ec as <-.
  rewrite (open_write_eq CB f' ly' (hat + 16) st (n + 1) (proj1 Him') (proj2 Him')) in Eo. injection Eo as <-.
  exists ly'. split; [|done].
  split; cbn [restarted cs_cache cs_srv cs_disk around sv_ctl x_file x_snap]; try done.
  - apply empty_cache_inv.
  - split; try done; [apply (id_nv _ _ _ Hid)|].
    intros v Hv. cbn [around sv_ctl x_clock]. apply lookup_replicate_2. lia.
Qed.

(** C4. A snapshot is not isolated from the disk it was taken of. The server is
    stopped, xcowctl makes a snapshot of the newest one (in the kernel a
    snapshot command of the guest never reaches the server, so this is how one
    is made), and the server and the classifier are started again. Then the
    guest reads a cluster that was written before the snapshot, and writes it.
    The read is answered with the leaf as it is in the table that the snapshots
    share, writable bit included; the classifier caches it and sends the write
    to the old cluster without asking the server. Both commands are answered
    with success, the snapshot still refers to the cluster, and the cluster
    holds the new bytes. *)
Theorem snapshot_not_isolated {D} `{Device D} `{!DeviceLaws D} h ioc iov room extract ns sq nclus nv
    V n (s : cow_system D) ly hat st rd wr metasize disksize fallocate fuel f1 sn1 :
  let f := x_file (sv_ctl (cs_srv s)) in
  let v := vblk_of (slba (rq_cmd rd)) in
  let tl := clus_leaf f ly v in
  (∀ q, room q = true) → extract_ok extract → sq ≠ 0 → lba_shift ns = 9 →
  nclus * CS CB <= ENTS CB * COVER CB → sys_at nclus nv V n s ly hat st → opened CB f →
  n < snap_capacity → (0 < fuel)%nat →
  ctl_main metasize disksize fallocate fuel (CtlSnapCreate None) f = (Ret CtlNothing, f1) →
  open_write f1 = (Ret sn1, f1) →
  rw_ok ns nclus nv rd → opcode (rq_cmd rd) = nvme_cmd_read →
  rw_ok ns nclus nv wr → opcode (rq_cmd wr) = nvme_cmd_write →
  vblk_of (slba (rq_cmd wr)) = v → nt_valid tl = true → xb_writable tl = true →
  ∃ s', serve_all h ioc iov room extract ns sq [rd; wr] (restarted nclus f1 sn1 s) =
      Some ([Done (bytes_at V (rq_off ns rd) (rq_bytes ns rd)); Done []], s') ∧
    translate_read (Snap (Span (ly_active ly) (CS CB)) None) (v * CS CB) (x_file (sv_ctl (cs_srv s'))) =
      (Ret tl, x_file (sv_ctl (cs_srv s'))) ∧
    ∀ k, 0 <= k < rq_bytes ns wr →
      let a := nt_decode tl + off_of (slba (rq_cmd wr)) * 512 + k in
      dev_byte (cs_disk s) a = V (rq_off ns wr + k) ∧
      dev_byte (cs_disk s') a = default 0 (gather (rq_vm wr) (rq_segs ns wr) !! Z.to_nat k).
Proof.
  intros f v tl Hroom Hex Hsq Hns Hnclus Hs Hop Hn Hfuel Ec Eo Hrd Hord Hwr Howr Hv Vv Vw.
  pose proof (rq_geometry ns nclus nv Hns Hnclus rd Hrd) as (_ & _ & Hvr & _).
  destruct (restarted_at nclus nv V n s ly hat st _ _ _ _ f1 sn1 Hnclus Hs Hop Hn Hfuel Ec Eo)
    as (ly1 & Hs1 & Hleaf & Hroot & Hold). fold f in Hleaf, Hold.
  set (s1 := restarted nclus f1 sn1 s) in *.
  assert (clus_leaf f1 ly1 v = tl) as Etl by by apply Hleaf.
  destruct (read_fetches h ioc iov room extract ns sq nclus nv Hroom Hex Hsq Hns Hnclus V (n + 1) s1 ly1 (hat + 16) st rd
    Hs1 Hrd Hord (empty_cache_view v)) as (s2 & p & a & E2 & Hci2 & Ed2 & Ef2 & Hin & Hp & Ha).
  { change (x_file (sv_ctl (cs_srv s1))) with f1. by rewrite <- Etl in Vv. }
  change (x_file (sv_ctl (cs_srv s1))) with f1 in Hp, Ha, Ef2.
  fold v in Hin, Hp, Ha. rewrite Etl in Hp, Ha. specialize (Ha Vw). rewrite <- Hv in Hin.
  destruct (write_bypasses h ioc iov room extract ns sq nclus nv Hroom Hex Hsq Hns Hnclus s2 wr p a Hci2 Hwr Howr Hin Ha) as [c E3].
  eexists. unfold serve_all. cbn [serve_each]. rewrite E2, E3. split; [done|]. cbn [cs_srv cs_disk]. rewrite Hp, Ef2, Ed2.
  destruct Hs as [_ _ Him _ Hdo Hdv _], Hs1 as [_ _ [Hx1 _] _ _ _ _].
  destruct (clus_idx nclus Hnclus _ _ _ _ _ v Him Hvr) as [Hi Hj]. split.
  - rewrite (translate_read_eq CB f1 ly1 (hat + 16) Hx1 _ None (v * CS CB) Hroot).
    + by rewrite Hold.
    + rewrite <- (Z.add_0_r (v * CS CB)). apply (clus_in nclus Hnclus v 0 Hvr). rewrite CS16. lia.
  - intros k Hk. change (cs_disk s1) with (cs_disk s).
    destruct (rq_geometry ns nclus nv Hns Hnclus wr Hwr) as (_ & Ho & _ & _ & Hb & Hob & Eb).
    destruct (rq_total ns nclus nv Hns Hnclus wr Hwr) as (_ & _ & Hlen). rewrite Hv in *. split.
    + rewrite (rq_off_eq ns nclus nv Hns Hnclus wr Hwr), Hv, <- (Z.add_assoc (v * CS CB)).
      rewrite (dv_byte _ _ _ _ _ Hdv v) by (done || (rewrite CS16; lia)). fold f tl. rewrite Vv.
      f_equal. lia.
    + rewrite dev_write_byte, put_bytes_in by (rewrite Hlen; lia).
      do 3 f_equal. lia.
Qed.

(** C5. A write whose cluster could not be filled is answered with success and
    lost. The write needs a cluster, the server allocates one and the ring
    fails to zero or copy it: the leaf is not committed and the server's
    response carries an error, but also the address of the cluster and the
    bits for a valid, writable address to forward to. The classifier looks at
    these and not at the status: it caches the address, sends the write to the
    cluster and the guest is told that it succeeded. The image still refers to
    what the address had before, so the data is gone when the entry leaves the
    cache. *)
Theorem failed_fill_acknowledged {D} `{Device D} h ioc iov room extract ns sq nclus nv
    V n (s : cow_system D) ly hat st wr entry tl f1 d' cqes us :
  let f := x_file (sv_ctl (cs_srv s)) in
  let cmd := rq_cmd wr in
  let p0 := W f hat * CS CB in
  (∀ q, room q = true) → extract_ok extract → sq ≠ 0 → lba_shift ns = 9 →
  nclus * CS CB <= ENTS CB * COVER CB → sys_at nclus nv V n s ly hat st →
  rw_ok ns nclus nv wr → opcode cmd = nvme_cmd_write →
  cache_view (cs_cache s) (vblk_of (slba cmd)) = None →
  tx_write_prep (x_snap (sv_ctl (cs_srv s))) (addr_of cmd ns) f = (Ret entry, f1) →
  rd64 entry f1 = (Ret tl, f1) → needs_alloc tl = true → W f hat < W f 32 →
  let es := alloc_entries (x_next (sv_ctl (cs_srv s))) tl p0 (CS CB) in
  dev_ring es (cs_disk s) = (d', cqes) → length cqes = length es →
  Forall (λ c, cq_data c = x_next (sv_ctl (cs_srv s))) cqes →
  cq_res <$> last cqes = Some us → us < 0 →
  ∃ c sv, serve h ioc iov room extract ns sq wr s = Some (Done [], CowSystem c sv
      (dev_write d' (p0 + off_of (slba cmd) * 512) (gather (rq_vm wr) (rq_segs ns wr)))) ∧
    (∃ a, cache_view c (vblk_of (slba cmd)) = Some (p0 / LBA_SIZE, a) ∧
      truthy (Z.land a AUXBITS_WRITABLE) = true) ∧
    translate_read (x_snap (sv_ctl sv)) (addr_of cmd ns) (x_file (sv_ctl sv)) =
      (Ret tl, x_file (sv_ctl sv)) ∧
    (nt_valid tl = true → nt_decode tl ≠ p0).
Proof.
  intros f cmd p0 Hroom Hex Hsq Hns Hnclus [Hci Hid Him Hsn Hdo Hdv Hco] Hwr Hop Hnone Hprep Hrd Hna Hlt
    es Hring Hlen Hdata Hlast Hus. fold f in Him, Hdo.
  destruct (rq_geometry ns nclus nv Hns Hnclus wr Hwr) as (_ & Ho & Hv & _ & Hb & Hob & _).
  destruct (rq_addr ns nclus nv Hns Hnclus wr Hwr) as (_ & Ha & _). fold cmd in Ha. rewrite Hsn in Hprep.
  destruct (tx_prep_cases CB f ly hat st n Him _ Ha) as [[E _]|(p & f1' & ly1 & Hp)]; [congruence|].
  assert (p = entry ∧ f1' = f1) as [-> ->]
    by (pose proof (pr_run _ _ _ _ _ _ _ _ _ _ Hp) as E; split; congruence).
  assert (leaf_at (W f1) (ly_active ly) (i1 CB (addr_of cmd ns)) (i0 CB (addr_of cmd ns)) = tl) as Etl
    by (pose proof (pr_leaf _ _ _ _ _ _ _ _ _ _ Hp) as E; congruence).
  destruct (tx_leaf _ _ _ _ _ _ Him _ _ _ _ Ha Hp) as (Lv & Ld & _). rewrite Etl in Lv, Ld.
  pose proof (da_mark _ _ _ _ Hdo) as Hmark. destruct (x_dlimit _ _ _ _ (proj1 Him)) as [Hmr Hlim].
  destruct (write_filled ioc iov room extract ns sq nclus nv Hroom Hex Hsq Hns Hnclus wr Hwr (cs_disk s)
    (cs_srv s) ly hat st n Hid Him Hsn entry f1 ly1 Hop Hp ltac:(fold cmd f; by rewrite Etl) Hlt)
    as (f2 & f3 & ly3 & rc & Eal & _ & _ & _ & Haw).
  fold cmd f p0 in Haw. rewrite Etl in Haw. specialize (Haw d' cqes us Hring Hdata Hlast Hlen).
  destruct (tx_uncommitted _ _ _ _ _ _ _ _ _ _ Hp _ _ Hlt Eal) as [Him2 Hleaf].
  replace (us <? 0) with true in Haw by lia.
  unfold translate_uring_status in Haw. replace (us <? 0) with true in Haw by lia.
  destruct (vsq_rw ns nclus nv wr Hwr h (cs_cache s) Hci) as (act & ctx & c1 & Eb & Hci1 & _ & Hact).
  destruct Hact as [(e & He & _)|(-> & Ectx & _)]; [unfold cmd in Hnone; congruence|].
  set (ans := alloc_answer p0) in *.
  destruct (nfd_rw ns nclus nv wr Hwr h c1 (Z.lor NVME_SC_DNR NVME_SC_INTERNAL) ans Hci1 (aux_ok_paddr _ _))
    as (act2 & ctx2 & c2 & Er & Hci2 & _ & Hc2).
  change (truthy (Z.land (aux0 ans) AUXBITS_VALID)) with true in Hc2.
  change (truthy (Z.land (aux0 ans) AUXCMD_FORWARD)) with true in Hc2. cbv iota in Hc2.
  destruct Hc2 as (Hself & -> & Ectx2).
  assert (response_plba ans * LBA_SIZE = p0) as Hpl.
  { apply paddr_plba; [unfold p0; rewrite CS16 in Hlim |- *; lia|]. apply Z.mod_mul. rewrite CS16. lia. }
  exists c2, (around (alloc_final nv wr (cs_srv s) f2)). split; [|split; [|split]].
  - rewrite (serve_forwarded h ioc iov room extract ns sq wr s ctx c1 _ _ _ Ectx Haw Eb to_hq ctx2 c2 Er eq_refl).
    unfold by_disk. rewrite Ectx2.
    rewrite (direct_write ns nclus nv Hns Hnclus wr Hwr); [|apply (proj2 Hci2 _ _ _ Hself)|done].
    rewrite Hpl. unfold answer_of. fold cmd. by rewrite Hop.
  - exists (Z.land (aux0 ans) AUX_MASK). split; [|reflexivity]. unfold cmd. rewrite Hself.
    do 2 f_equal. rewrite <- Hpl. by rewrite Z.div_mul.
  - change (x_snap (sv_ctl (around (alloc_final nv wr (cs_srv s) f2)))) with (x_snap (sv_ctl (cs_srv s))).
    change (x_file (sv_ctl (around (alloc_final nv wr (cs_srv s) f2)))) with f2.
    rewrite Hsn. unfold active_snap. rewrite <- (pr_active _ _ _ _ _ _ _ _ _ _ Hp).
    pose proof (active_root _ _ _ _ (proj1 Him2)) as Hroot.
    rewrite (translate_read_eq CB f2 ly1 hat (proj1 Him2)) by done. do 2 f_equal.
    rewrite Hleaf; [|done|by apply (i1_ok CB f2 ly1 hat (proj1 Him2))|by apply (i0_ok CB f2 ly1 hat (proj1 Him2))].
    by rewrite (pr_active _ _ _ _ _ _ _ _ _ _ Hp).
  - rewrite Lv, Ld. intros Vv E.
    pose proof (leaf_below CB f ly hat _ _ (proj1 Him) (i1_ok CB f ly hat (proj1 Him) _ Ha)
      (i0_ok CB f ly hat (proj1 Him) (addr_of cmd ns)) Vv) as Hb2. unfold act_leaf in Hb2.
    rewrite E in Hb2. unfold p0 in Hb2. lia.
Qed.

(** The state of a system after cluster [v], which had no data, was written and
    the classifier was loaded again. *)
Lemma reloaded_at {D} `{Device D} nclus nv V n (s : cow_system D) ly hat st v tl prev f' :
  let f := x_file (sv_ctl (cs_srv s)) in
  nclus * CS CB <= ENTS CB * COVER CB → sys_at nclus nv V n s ly hat st → 0 <= v < nclus →
  nt_valid (clus_leaf f ly v) = false → (∀ i, dev_byte (cs_disk s) i = 0) →
  translate_write (active_snap CB ly hat) (v * CS CB) f = (Ret (tl, prev), f') →
  ∃ ly', sys_at nclus nv V n (CowSystem empty_cache (around (set_file f' (sv_ctl (cs_srv s))))
      (cs_disk s)) ly' hat st ∧ clus_leaf f' ly' v = tl ∧ image CB f' ly' hat st n.
Proof.
  intros f Hnclus [Hci Hid Him Hsn Hdo Hdv _] Hv Vv Hz E. fold f in Him, Hdo, Hdv.
  assert (addr_in CB (v * CS CB)) as Ha.
  { rewrite <- (Z.add_0_r (v * CS CB)). apply (clus_in nclus Hnclus v 0 Hv). rewrite CS16. lia. }
  destruct (write_image _ _ _ _ _ _ _ _ _ _ Him Ha E) as (ly' & Him' & _ & EA & _ & Hws).
  pose proof (ws_leaf _ _ _ _ _ _ _ _ _ Hws) as Hl. rewrite <- EA in Hl.
  assert (eff_writable (W f) (ly_active ly) (i1 CB (v * CS CB)) (i0 CB (v * CS CB)) = false) as He.
  { unfold eff_writable. unfold clus_leaf, act_leaf in Vv. rewrite Vv. by rewrite andb_false_r. }
  exists ly'. split; [|by split]. split; cbn [cs_cache cs_srv cs_disk around sv_ctl x_file x_snap set_file].
  - apply empty_cache_inv.
  - by apply (idle_around nclus nv (cs_srv s)).
  - exact Him'.
  - rewrite Hsn. unfold active_snap. by rewrite EA.
  - by apply (data_ok_write CB f ly hat st n f' ly' _ _ _ Him Hdo Ha EA Hws).
  - apply (view_alloc nclus Hnclus V (cs_disk s) f ly hat st n v _ _ f' ly' (cs_disk s) Him Hdo Hdv Hv EA Hws He).
    intros i. rewrite Vv. destruct (_ && _); [apply Hz|done].
  - intros w e _ Hw. rewrite empty_cache_view in Hw. discriminate Hw.
Qed.

(** The disk of 64 clusters. *)
Abbreviation demo_file16 := (x_file (sv_ctl (cs_srv demo_system))).
Abbreviation demo_sn16 := (active_snap CB (f_layout CB) (CS CB + 24)).
Definition demo_written : outcome (Z * Z) * xfile := translate_write demo_sn16 (1 * CS CB) demo_file16.
Definition demo_reloaded : cow_system (Z → Z) :=
  CowSystem empty_cache (around (set_file demo_written.2 (sv_ctl (cs_srv demo_system))))
    (cs_disk demo_system).

Lemma demo_written_eq : translate_write demo_sn16 (1 * CS CB) demo_file16 =
  (Ret (0x8000000000010002, 0), demo_written.2).
Proof.
  unfold demo_written. apply ret_val.
  vm_cast_no_check (eq_refl (@Ret (Z * Z) (0x8000000000010002, 0))).
Qed.

Lemma demo_unwritten : nt_valid (clus_leaf demo_file16 (f_layout CB) 1) = false.
Proof. vm_cast_no_check (eq_refl false). Qed.

Lemma demo_reloaded_at : ∃ ly, sys_at 64 demo_ctrl (λ _, 0) 1 demo_reloaded ly (CS CB + 24) (CS CB) ∧
  clus_leaf demo_written.2 ly 1 = 0x8000000000010002 ∧ image CB demo_written.2 ly (CS CB + 24) (CS CB) 1.
Proof.
  apply (reloaded_at 64 demo_ctrl (λ _, 0) 1 demo_system (f_layout CB) (CS CB + 24) (CS CB) 1 _ 0 demo_written.2).
  - rewrite CS16, ADDR16. lia.
  - apply demo_system_at.
  - lia.
  - apply demo_unwritten.
  - reflexivity.
  - apply demo_written_eq.
Qed.

Lemma demo_written_room : (hi32 (W demo_written.2 24) <? lo32 (W demo_written.2 24)) = true.
Proof. vm_cast_no_check (eq_refl true). Qed.

Definition openedb (cb : Z) (s : xfile) : bool :=
  (12 <=? cb) && (cb <=? 24) && (lo32 (W s 16) =? cb) && (W s 0 =? XCOW_MAGIC) && (HDR_BYTES <=? fbytes s) &&
  (0 <=? lt_decode (W s 40)) && (lt_decode (W s 40) + CS cb <=? fbytes s) &&
  (0 <=? lt_decode (W s 48)) && (lt_decode (W s 48) + CS cb <=? fbytes s) &&
  bool_decide (snaps_tbl s = Span (lt_decode (W s 40)) (CS cb) ∧
               flist_tbl s = Span (lt_decode (W s 48)) (CS cb)).

Lemma openedb_opened cb s : openedb cb s = true → opened cb s.
Proof.
  unfold openedb. intros H. repeat (apply andb_prop in H as [H ?]). to_prop.
  split; [by repeat split|by apply bool_decide_eq_true in H0].
Qed.

Lemma demo_written_opened : openedb CB demo_written.2 = true.
Proof. vm_cast_no_check (eq_refl true). Qed.

(** The snapshot of the demo image. *)
Abbreviation demo_create := (ctl_main 0 0 (λ _, 0) 1 (CtlSnapCreate None) demo_written.2).
Abbreviation demo_created_snap := (result_of demo_sn16 (open_write demo_create.2)).
Lemma demo_create_eq : demo_create = (Ret CtlNothing, demo_create.2) ∧
  open_write demo_create.2 = (Ret demo_created_snap, demo_create.2).
Proof.
  destruct demo_reloaded_at as (ly & _ & _ & Him).
  destruct (ctl_create 0 0 (λ _, 0) 1 CB demo_written.2 ly (CS CB + 24) (CS CB) 1 Him
    (openedb_opened _ _ demo_written_opened)) as [Ec Eo].
  - reflexivity.
  - lia.
  - apply Z.ltb_lt, demo_written_room.
  - rewrite Ec. cbn [snd]. rewrite Eo. split; reflexivity.
Qed.

Abbreviation demo_rd := (demo_rw nvme_cmd_read 4 130 1 0).
Abbreviation demo_wr := (demo_rw nvme_cmd_write 3 131 0 9).
Abbreviation demo_restarted := (restarted 64 demo_create.2 demo_created_snap demo_reloaded).
Lemma snapshot_not_isolated_witness : ∃ ly s',
  let tl := clus_leaf (x_file (sv_ctl (cs_srv demo_reloaded))) ly (vblk_of (slba (rq_cmd demo_rd))) in
  serve_all Kernel (inl 5) (λ _, inl 5) (λ _, true) extract_first demo_ns 1 [demo_rd; demo_wr]
    demo_restarted =
    Some ([Done (bytes_at (λ _, 0) (rq_off demo_ns demo_rd) (rq_bytes demo_ns demo_rd)); Done []], s') ∧
  translate_read (Snap (Span (ly_active ly) (CS CB)) None) (vblk_of (slba (rq_cmd demo_rd)) * CS CB)
    (x_file (sv_ctl (cs_srv s'))) = (Ret tl, x_file (sv_ctl (cs_srv s'))) ∧
  ∀ k, 0 <= k < rq_bytes demo_ns demo_wr →
    let a := nt_decode tl + off_of (slba (rq_cmd demo_wr)) * 512 + k in
    dev_byte (cs_disk demo_reloaded) a = 0 ∧
    dev_byte (cs_disk s') a = default 0 (gather (rq_vm demo_wr) (rq_segs demo_ns demo_wr) !! Z.to_nat k).
Proof.
  destruct demo_reloaded_at as (ly & Hs & El & _). exists ly.
  assert (clus_leaf (x_file (sv_ctl (cs_srv demo_reloaded))) ly (vblk_of (slba (rq_cmd demo_rd))) =
    0x8000000000010002) as Etl by exact El.
  apply (snapshot_not_isolated Kernel (inl 5) (λ _, inl 5) (λ _, true) extract_first demo_ns 1 64 demo_ctrl
    (λ _, 0) 1 demo_reloaded ly (CS CB + 24) (CS CB) demo_rd demo_wr 0 0 (λ _, 0) 1 demo_create.2 demo_created_snap).
  - done.
  - apply extract_first_ok.
  - discriminate.
  - reflexivity.
  - rewrite CS16, ADDR16. lia.
  - exact Hs.
  - exact (openedb_opened _ _ demo_written_opened).
  - by vm_compute.
  - lia.
  - exact (proj1 demo_create_eq).
  - exact (proj2 demo_create_eq).
  - apply demo_read2_ok.
  - reflexivity.
  - apply demo_write1_ok.
  - reflexivity.
  - reflexivity.
  - by rewrite Etl.
  - by rewrite Etl.
Defined.

(** A disk whose ring cannot zero a range (EOPNOTSUPP). *)
Record plain_disk : Type := PlainDisk { pd_byte : Z → Z }.
#[export] Instance plain_device : Device plain_disk := {
  dev_byte := pd_byte;
  dev_write d off bs := PlainDisk (put_bytes (pd_byte d) off bs);
  dev_ring es d := (d, (λ e, Cqe (sq_data e) (-95)) <$> es);
}.
Definition demo_plain : cow_system plain_disk :=
  new_system (64 * 65536) 16 1000 demo_blank16 64 demo_ctrl (Mapping ∅ 262144) (PlainDisk (λ _, 0)).
Abbreviation demo_plain_ctl := (sv_ctl (cs_srv demo_plain)).
Abbreviation demo_wr2 := (demo_rw nvme_cmd_write 1 130 1 7).
Definition demo_prep16 : outcome Z * xfile :=
  tx_write_prep (x_snap demo_plain_ctl) (addr_of (rq_cmd demo_wr2) demo_ns) (x_file demo_plain_ctl).

Lemma demo_plain_at : sys_at 64 demo_ctrl (λ _, 0) 1 demo_plain (f_layout CB) (CS CB + 24) (CS CB).
Proof.
  apply (new_sys_at (64 * 65536) 16 1000 demo_blank16 64 demo_ctrl); try done;
    try apply demo_blank16_range; rewrite ?CS16, ?ADDR16; simpl; lia.
Qed.
Lemma demo_prep16_run : tx_write_prep (x_snap demo_plain_ctl) (addr_of (rq_cmd demo_wr2) demo_ns)
  (x_file demo_plain_ctl) = (Ret 262152, demo_prep16.2).
Proof. unfold demo_prep16. apply ret_val. vm_cast_no_check (eq_refl (@Ret Z 262152)). Qed.
Lemma demo_prep16_word : word_ok demo_prep16.2 262152 = true.
Proof. vm_cast_no_check (eq_refl true). Qed.
Lemma demo_prep16_zero : W demo_prep16.2 262152 = 0.
Proof. vm_cast_no_check (eq_refl 0). Qed.
Lemma demo_prep16_leaf : rd64 262152 demo_prep16.2 = (Ret 0, demo_prep16.2).
Proof. rewrite (rd64_Ret _ _ demo_prep16_word), demo_prep16_zero. reflexivity. Qed.
Lemma demo_plain_room : (W (x_file demo_plain_ctl) (CS CB + 24) <? W (x_file demo_plain_ctl) 32) = true.
Proof. vm_cast_no_check (eq_refl true). Qed.

Lemma failed_fill_acknowledged_witness :
  let p0 := W (x_file demo_plain_ctl) (CS CB + 24) * CS CB in
  ∃ c sv, serve Polyfill (inl 5) (λ _, inl 5) (λ _, true) extract_first demo_ns 1 demo_wr2 demo_plain =
      Some (Done [], CowSystem c sv (dev_write (PlainDisk (λ _, 0)) (p0 + off_of (slba (rq_cmd demo_wr2)) * 512)
        (gather (rq_vm demo_wr2) (rq_segs demo_ns demo_wr2)))) ∧
    (∃ a, cache_view c (vblk_of (slba (rq_cmd demo_wr2))) = Some (p0 / LBA_SIZE, a) ∧
      truthy (Z.land a AUXBITS_WRITABLE) = true) ∧
    translate_read (x_snap (sv_ctl sv)) (addr_of (rq_cmd demo_wr2) demo_ns) (x_file (sv_ctl sv)) =
      (Ret 0, x_file (sv_ctl sv)) ∧
    (nt_valid 0 = true → nt_decode 0 ≠ p0).
Proof.
  apply (failed_fill_acknowledged Polyfill (inl 5) (λ _, inl 5) (λ _, true) extract_first demo_ns 1 64 demo_ctrl
    (λ _, 0) 1 demo_plain (f_layout CB) (CS CB + 24) (CS CB) demo_wr2 262152 0 demo_prep16.2
    (PlainDisk (λ _, 0)) [Cqe 0 (-95)] (-95)).
  - done.
  - apply extract_first_ok.
  - discriminate.
  - reflexivity.
  - rewrite CS16, ADDR16. lia.
  - apply demo_plain_at.
  - apply demo_write2_ok.
  - reflexivity.
  - apply empty_cache_view.
  - apply demo_prep16_run.
  - apply demo_prep16_leaf.
  - reflexivity.
  - apply Z.ltb_lt, demo_plain_room.
  - reflexivity.
  - reflexivity.
  - by constructor.
  - reflexivity.
  - reflexivity.
Defined.
(** C6. A write that finds the image full is answered with success and lost.
    The guest writes a cluster that the snapshot may not write yet, whose
    address is not cached, when no data cluster is left: the server refuses the
    command, the classifier answers its status, the kernel module drops it. The
    guest is told that the write succeeded, nothing was written, and every
    later read inside of a cluster returns what was there before. *)
Theorem full_image_loses_writes {D} `{Device D} `{!DeviceLaws D} h ioc iov room extract ns sq nclus nv
    V n (s : cow_system D) ly hat st wr rd :
  let f := x_file (sv_ctl (cs_srv s)) in
  let cmd := rq_cmd wr in
  (∀ q, room q = true) → extract_ok extract → sq ≠ 0 → lba_shift ns = 9 →
  nclus * CS CB <= ENTS CB * COVER CB → sys_at nclus nv V n s ly hat st →
  rw_ok ns nclus nv wr → opcode cmd = nvme_cmd_write →
  rw_ok ns nclus nv rd → opcode (rq_cmd rd) = nvme_cmd_read →
  cache_view (cs_cache s) (vblk_of (slba cmd)) = None →
  eff_writable (W f) (ly_active ly) (i1 CB (addr_of cmd ns)) (i0 CB (addr_of cmd ns)) = false →
  W f 32 <= W f hat →
  ∃ s1 s2, serve h ioc iov room extract ns sq wr s = Some (Done [], s1) ∧ cs_disk s1 = cs_disk s ∧
    serve h ioc iov room extract ns sq rd s1 = Some (Done (bytes_at V (rq_off ns rd) (rq_bytes ns rd)), s2).
Proof.
  intros f cmd Hroom Hex Hsq Hns Hnclus Hs Hwr Hop Hrd Hord Hnone Heff Hfull.
  pose proof Hs as [Hci Hid Him Hsn Hdo Hdv Hco]. fold f in Him, Hdo.
  destruct (rq_addr ns nclus nv Hns Hnclus wr Hwr) as (_ & Ha & _). fold cmd in Ha.
  destruct (vsq_rw ns nclus nv wr Hwr h (cs_cache s) Hci) as (act & ctx & c1 & Eb & Hci1 & Hsub & Hact).
  destruct Hact as [(e & He & _)|(-> & Ectx & _)]; [unfold cmd in Hnone; congruence|].
  pose proof (coherent_sub nclus _ _ _ _ Hsub Hco) as Hco1.
  destruct (write_cases ioc iov room extract ns sq nclus nv Hroom Hex Hsq Hns Hnclus wr Hwr V (cs_disk s) (cs_srv s)
    ly hat st n Hid Him Hsn Hdo Hdv Hop) as [[Href Hif]|(p & f1 & ly1 & Hp & Hlt)].
  2:{ destruct (tx_leaf _ _ _ _ _ _ Him _ _ _ _ Ha Hp) as (_ & _ & Hn). rewrite Heff in Hn.
      specialize (Hlt Hn). unfold f in Hfull. lia. }
  destruct (served_refused ioc iov room extract ns sq nclus nv Hroom Hex Hsq Hns Hnclus wr Hwr V (cs_disk s)
    (cs_srv s) ly hat st n Hid Him Hsn Hdo Hdv Hop Hif Href) as (sv' & ly' & Haw & Hserved).
  destruct (respond_ok h ioc iov room extract ns sq nclus nv Hroom Hex Hsq Hns Hnclus wr Hwr V n s ly hat st _ _ _ _
    ctx c1 Hs Eb Ectx Haw Hserved Hci1 Hco1) as (a & s1 & V' & E1 & _ & Hs1 & Hlost).
  destruct (Hlost eq_refl) as (-> & -> & Ed).
  destruct (serve_rw h ioc iov room extract ns sq nclus nv Hroom Hex Hsq Hns Hnclus rd Hrd V n s1 Hs1)
    as (a2 & s2 & V2 & n2 & E2 & Hsp & _).
  exists s1, s2. split; [exact E1|]. split; [exact Ed|]. rewrite E2.
  inversion Hsp as [Ho|Ho|? Ho|? Ho|? ? Ho|? Ho]; subst; [done|..]; rewrite Hord in Ho; discriminate Ho.
Qed.

(** A disk of 64 clusters whose image holds no data. *)
Definition demo_full : cow_system (Z → Z) :=
  new_system (64 * 65536) 16 1 demo_blank16 64 demo_ctrl (Mapping ∅ 262144) (λ _, 0).
Abbreviation demo_full_file := (x_file (sv_ctl (cs_srv demo_full))).
Lemma demo_full_at : sys_at 64 demo_ctrl (λ _, 0) 1 demo_full (f_layout CB) (CS CB + 24) (CS CB).
Proof.
  apply (new_sys_at (64 * 65536) 16 1 demo_blank16 64 demo_ctrl); try done;
    try apply demo_blank16_range; rewrite ?CS16, ?ADDR16; simpl; lia.
Qed.
Lemma demo_full_eff : eff_writable (W demo_full_file) (ly_active (f_layout CB))
  (i1 CB (addr_of (rq_cmd (demo_rw nvme_cmd_write 1 130 1 7)) demo_ns))
  (i0 CB (addr_of (rq_cmd (demo_rw nvme_cmd_write 1 130 1 7)) demo_ns)) = false.
Proof. vm_cast_no_check (eq_refl false). Qed.
Lemma demo_full_data : (W demo_full_file 32 <=? W demo_full_file (CS CB + 24)) = true.
Proof. vm_cast_no_check (eq_refl true). Qed.

Lemma full_image_loses_writes_witness : ∃ s1 s2,
  serve Polyfill (inl 5) (λ _, inl 5) (λ _, true) extract_first demo_ns 1 (demo_rw nvme_cmd_write 1 130 1 7) demo_full =
    Some (Done [], s1) ∧
  cs_disk s1 = cs_disk demo_full ∧
  serve Polyfill (inl 5) (λ _, inl 5) (λ _, true) extract_first demo_ns 1 (demo_rw nvme_cmd_read 4 130 1 0) s1 =
    Some (Done (bytes_at (λ _, 0) (rq_off demo_ns (demo_rw nvme_cmd_read 4 130 1 0))
      (rq_bytes demo_ns (demo_rw nvme_cmd_read 4 130 1 0))), s2).
Proof.
  apply (full_image_loses_writes Polyfill (inl 5) (λ _, inl 5) (λ _, true) extract_first demo_ns 1 64 demo_ctrl
    (λ _, 0) 1 demo_full (f_layout CB) (CS CB + 24) (CS CB)).
  - done.
  - apply extract_first_ok.
  - discriminate.
  - reflexivity.
  - rewrite CS16, ADDR16. lia.
  - apply demo_full_at.
  - apply demo_write2_ok.
  - reflexivity.
  - apply demo_read2_ok.
  - reflexivity.
  - apply empty_cache_view.
  - apply demo_full_eff.
  - apply Z.leb_le, demo_full_data.
Defined.
