(* ===== verification/XcowMain.v ===== *)
(** * Setting the copy-on-write server up

    The constructor of the controller (nvme/nvme_xcow.cpp), and how main of
    xcowsrv.cpp deals the active queues out to workers. *)
From S2P Require Import Prelude Proto Vm Prp NvmeBase Xcow BlkIter Uring Aio Sender.
From S2P Require Import Encryptor EncryptorAio Worker NvmeXcow.

(** ** The controller's constructor *)

(** The fields of the namespace's identification that it sets. *)
Record vns : Type := Vns {
  nsze : Z;
  ncap : Z;
  nuse : Z;
  nvmcap : Z;
  noiob : Z;
  nsfeat : Z;
  npwg : Z;
  npwa : Z;
  nows : Z;
}.

(** The values for an image of [fsize] bytes in clusters of [cs]; [feat] are
    the features the device reported. *)
Definition new_vns (fsize cs lbas feat : Z) : vns :=
  let n := Z.shiftr fsize lbas in
  let ob := u16 (cs / s32 (Z.shiftl 1 lbas)) in
  Vns n n 0 0 ob (Z.lor feat (Z.shiftl 1 4)) (u16 (ob - 1)) (u16 (ob - 1)) (u16 (ob - 1)).

(** [_clock->resize(n)]. *)
Definition resize (n : Z) (l : list bool) : list bool :=
  take (Z.to_nat n) l ++ replicate (Z.to_nat n - length l) false.

Section setup.
Context (iov : Z → Z + nvme_id_ns).
(** The features reported for namespace 1, and the result of
    NVME_MDEV_NOTIFYFD_SET_ID_VNS. *)
Context (features : Z) (ioctl_set_id_vns : vns → Z).

Definition nvme_xcow_init : xceff vns :=
  sn ← x_in_file open_write;
  _ ← modify (set_snap sn);
  fsize ← x_in_file hdr_fsize;
  ns ← x_in_nv (id_vns iov 1);
  match ns with
  | None => throw Eub
  | Some ns =>
    cs ← x_in_file cluster_size;
    let idns := new_vns fsize cs (lba_shift ns) features in
    _ ← ensure (0 <=? ioctl_set_id_vns idns) Esystem;
    cb ← x_in_file cluster_bits;
    _ ← modify (λ s, set_clocks (resize (Z.shiftr fsize cb) (x_clock s)) s);
    mret idns
  end.
End setup.

(** ** Dealing the queues out (main)

    Queues that could not be opened have a negative descriptor and are left
    out; the others go round the threads. *)
Fixpoint assign_active_loop (i active : nat) (sqfds : list Z) (nthreads : nat)
    (ws : list (list (nat * Z))) : list (list (nat * Z)) :=
  match sqfds with
  | [] => ws
  | fd :: sqfds =>
    if 0 <=? fd
    then assign_active_loop (S i) (S active) sqfds nthreads
           (push_at (active mod nthreads) (i, fd) ws)
    else assign_active_loop (S i) active sqfds nthreads ws
  end.
Definition assign_active (nthreads : nat) (sqfds : list Z) : list (list (nat * Z)) :=
  let nthreads := clamp_threads nthreads (length sqfds) in
  assign_active_loop 1 0 (tail sqfds) nthreads (replicate nthreads []).

(** [struct worker_arg] of thread [tid]: its queues, and the admin queue for
    the first one. *)
Definition adm_sqfd (tid : nat) (sqfds : list Z) : Z :=
  if decide (tid = 0%nat) then default (-1) (sqfds !! 0%nat) else -1.
(** What the constructor of [worker] checks first; it throws out of the thread
    otherwise. *)
Definition worker_arg_ok (pvm_size : Z) (sqids : list (nat * Z)) : bool :=
  truthy pvm_size && negb (bool_decide (sqids = [])).

(** ** Lemmas *)

Lemma length_resize n l : 0 <= n → Z.of_nat (length (resize n l)) = n.
Proof. intros Hn. unfold resize. rewrite length_app, length_take, length_replicate. lia. Qed.

Lemma clock_get_past v s : Z.of_nat (length (x_clock s)) <= v → clock_get v s = (Throw Eub, s).
Proof.
  intros Hv. unfold clock_get, mbind, eff_bind, get. destruct (Z.ltb_spec v 0); [done|].
  by rewrite lookup_ge_None_2 by lia.
Qed.

(** The lock bits cover the whole clusters of the image only: the last block of
    an image whose size is not a multiple of the cluster size is inside of the
    namespace, but its cluster has no lock bit. *)
Lemma last_cluster_has_no_lock fsize cb lbas s :
  0 <= lbas <= cb → 0 <= fsize → 2 ^ lbas <= fsize mod 2 ^ cb →
  x_clock s = resize (Z.shiftr fsize cb) [] →
  let slba := Z.shiftr fsize lbas - 1 in
  0 <= slba < nsze (new_vns fsize (2 ^ cb) lbas 0) ∧
  clock_get (Z.shiftr slba (cb - lbas)) s = (Throw Eub, s).
Proof.
  intros Hl Hf Hm Hc slba.
  assert (0 < 2 ^ lbas) as HL by (apply Z.pow_pos_nonneg; lia).
  assert (0 < 2 ^ (cb - lbas)) as HD by (apply Z.pow_pos_nonneg; lia).
  assert (2 ^ cb = 2 ^ (cb - lbas) * 2 ^ lbas) as HC
    by (rewrite <- Z.pow_add_r by lia; f_equal; lia).
  pose proof (Z.mod_bound_pos fsize (2 ^ cb) Hf ltac:(nia)) as Hr.
  pose proof (Z.div_mod fsize (2 ^ cb) ltac:(nia)) as Hd.
  set (q := fsize / 2 ^ cb) in *. set (r := fsize mod 2 ^ cb) in *.
  assert (0 <= q) as Hq by (apply Z.div_pos; nia).
  assert (Z.shiftr fsize lbas = q * 2 ^ (cb - lbas) + r / 2 ^ lbas) as Hn.
  { rewrite Z.shiftr_div_pow2 by lia. rewrite Hd, HC.
    replace (2 ^ (cb - lbas) * 2 ^ lbas * q + r) with (r + q * 2 ^ (cb - lbas) * 2 ^ lbas) by ring.
    rewrite Z.div_add by lia. ring. }
  assert (1 <= r / 2 ^ lbas < 2 ^ (cb - lbas)) as Hb.
  { split; [by apply Z.div_le_lower_bound; lia|apply Z.div_lt_upper_bound; nia]. }
  unfold slba. rewrite Hn. split; [unfold new_vns; simpl; rewrite Hn; nia|].
  apply clock_get_past. rewrite Hc, length_resize by (rewrite Z.shiftr_div_pow2; lia).
  rewrite !Z.shiftr_div_pow2 by lia. fold q.
  apply Z.div_le_lower_bound; [done|]. nia.
Qed.

(** Every active queue has one worker. *)
Lemma assign_active_perm nt : (0 < nt)%nat → ∀ sqfds i active ws, length ws = nt →
  length (assign_active_loop i active sqfds nt ws) = nt ∧
  concat (assign_active_loop i active sqfds nt ws) ≡ₚ
    concat ws ++ filter (λ x : nat * Z, 0 <= x.2) (zip (seq i (length sqfds)) sqfds).
Proof.
  intros Hnt. induction sqfds as [|fd sqfds IH]; intros i active ws Hl; simpl.
  { by rewrite app_nil_r. }
  destruct (Z.leb_spec 0 fd).
  - destruct (IH (S i) (S active) (push_at (active mod nt) (i, fd) ws)) as [L P].
    { unfold push_at. by rewrite length_alter. }
    split; [done|]. rewrite P, concat_push_at by (rewrite Hl; apply Nat.mod_upper_bound; lia).
    rewrite filter_cons_True by done. simpl. by rewrite Permutation_middle.
  - destruct (IH (S i) active ws Hl) as [L P]. split; [done|].
    rewrite P, filter_cons_False by (simpl; lia). done.
Qed.

(** Asked for one worker per queue ([-j 0]) the program starts one more than
    there are I/O queues, and that one's constructor throws. *)
Lemma idle_worker nthreads sqfds pvm_size : sqfds ≠ [] →
  nthreads = 0%nat ∨ (length sqfds <= nthreads)%nat →
  let ws := assign_active nthreads sqfds in
  ∃ t, ws !! t = Some [] ∧ worker_arg_ok pvm_size [] = false.
Proof.
  intros Hne Hj ws.
  assert (clamp_threads nthreads (length sqfds) = length sqfds) as Hc.
  { unfold clamp_threads. destruct (Nat.eqb_spec nthreads 0); simpl; [done|].
    destruct (Nat.ltb_spec (length sqfds) nthreads); lia. }
  assert (0 < length sqfds)%nat as Hpos by (destruct sqfds; simpl; [done|lia]).
  destruct (assign_active_perm (length sqfds) Hpos (tail sqfds) 1 0 (replicate (length sqfds) []))
    as [L P]; [apply length_replicate|].
  unfold ws, assign_active. rewrite Hc. set (w := assign_active_loop _ _ _ _ _) in *.
  assert (concat (replicate (length sqfds) ([] : list (nat * Z))) = []) as E.
  { clear. induction (length sqfds); simpl; congruence. }
  rewrite E in P. simpl in P. apply Permutation_length in P.
  assert (length (concat w) < length w)%nat as Hlt.
  { rewrite P, L. eapply Nat.le_lt_trans; [apply length_filter|].
    rewrite length_zip_with, length_seq. destruct sqfds; simpl in *; [done|lia]. }
  clearbody w. clear -Hlt. assert (∃ t, w !! t = Some []) as [t Ht].
  { induction w as [|x w IH]; simpl in Hlt; [lia|]. destruct x as [|y x]; [by exists 0%nat|].
    simpl in Hlt. rewrite length_app in Hlt. destruct IH as [t Ht]; [lia|]. by exists (S t). }
  exists t. split; [done|]. unfold worker_arg_ok. by rewrite andb_false_r.
Qed.
