(* ===== verification/RepoTests.v ===== *)
(** * The repository's tests on the model

    test-lbacache.cpp and test-xcow.cpp: every section of the two test programs
    is run on the definitions of this development. A section that passes
    returns; a failed REQUIRE throws. *)
From S2P Require Import Prelude Proto LbaCache Xcow BlkIter.

(** ** test-lbacache.cpp *)

Record test_state : Type := TestState { ts_cache : cache; ts_ctx : bpf_io_ctx }.
Abbreviation teff := (eff test_state).

Definition REQUIRE {S} (b : bool) : eff S unit := ensure b Eassert.

Definition clear_cache : teff unit := modify (λ s, TestState empty_cache (ts_ctx s)).
(** [bpf_io_ctx ctx{}]. *)
Definition new_ctx : teff unit :=
  modify (λ s, TestState (ts_cache s)
    (BpfIoCtx (NvmeCommand 0 0 0 0 0 0 0 0 0 0 0 0 0 0 0) 0 0 no_aux)).

(** The assignments to the context. *)
Definition on_cmd (f : nvme_command → nvme_command) : teff unit :=
  modify (λ s, TestState (ts_cache s) (set_ctx_cmd (f (ctx_cmd (ts_ctx s))) (ts_ctx s))).
Definition set_opcode (op : Z) : teff unit := on_cmd (λ c,
  NvmeCommand op (flags c) (command_id c) (nsid c) (cdw2_0 c) (cdw2_1 c) (metadata c)
    (prp1 c) (prp2 c) (cdw10 c) (cdw11 c) (cdw12 c) (cdw13 c) (cdw14 c) (cdw15 c)).
Definition set_lba (v : Z) : teff unit := on_cmd (set_slba v).
Definition set_length (n : Z) : teff unit := on_cmd (λ c,
  NvmeCommand (opcode c) (flags c) (command_id c) (nsid c) (cdw2_0 c) (cdw2_1 c) (metadata c)
    (prp1 c) (prp2 c) (cdw10 c) (cdw11 c) (Z.lor (Z.land (cdw12 c) 0xffff0000) n)
    (cdw13 c) (cdw14 c) (cdw15 c)).
Definition set_hook (h : Z) : teff unit := modify (λ s, TestState (ts_cache s)
  (BpfIoCtx (ctx_cmd (ts_ctx s)) h (ctx_data (ts_ctx s)) (ctx_aux (ts_ctx s)))).
Definition set_ctx_aux (a0 a1 a2 : Z) : teff unit := modify (λ s, TestState (ts_cache s)
  (BpfIoCtx (ctx_cmd (ts_ctx s)) (current_hook (ts_ctx s)) (ctx_data (ts_ctx s))
     (NmntfyAux a0 a1 a2))).

(** [REQUIRE(nvme_run_bpf(&ctx) & mask)] and [REQUIRE(ctx.cmd.rw.slba == v)]. *)
Definition require_bpf (mask : Z) : teff unit :=
  s ← get;
  let '(r, ctx, c) := nvme_run_bpf Polyfill (ts_cache s) (ts_ctx s) in
  _ ← put (TestState c ctx);
  REQUIRE (truthy (Z.land r mask)).
Definition require_slba (v : Z) : teff unit :=
  s ← get; REQUIRE (slba (ctx_cmd (ts_ctx s)) =? v).

Definition rw_first (op : Z) (lba n : Z) : teff unit :=
  _ ← set_opcode op;
  _ ← set_lba lba;
  _ ← set_length n;
  _ ← set_hook NMBPF_HOOK_VSQ;
  require_bpf NMBPF_SEND_FD.
(** The server's answer for cluster [plba], and the command it forwards. *)
Definition answered (bits plba lba : Z) : teff unit :=
  _ ← set_ctx_aux (Z.lor bits AUXCMD_FORWARD) (plba * CLUSTER_SIZE) 0;
  _ ← set_hook NMBPF_HOOK_NFD_WRITE;
  _ ← require_bpf NMBPF_SEND_HQ;
  require_slba (plba * CLUSTER_LBAS + lba mod CLUSTER_LBAS).
(** A command the cache sends to the device by itself. *)
Definition translated (plba lba : Z) : teff unit :=
  _ ← set_hook NMBPF_HOOK_VSQ;
  _ ← require_bpf NMBPF_SEND_HQ;
  require_slba (plba * CLUSTER_LBAS + lba mod CLUSTER_LBAS).

Definition AUXBITS_RW : Z := Z.lor AUXBITS_VALID AUXBITS_WRITABLE.

Definition section_rr : teff unit :=
  _ ← clear_cache; _ ← new_ctx;
  _ ← rw_first nvme_cmd_read 555 3;
  _ ← answered AUXBITS_VALID 768 555;
  _ ← set_lba 559;
  translated 768 559.

Definition section_rw : teff unit :=
  _ ← clear_cache; _ ← new_ctx;
  _ ← rw_first nvme_cmd_read 555 3;
  _ ← answered AUXBITS_RW 1280 555;
  _ ← set_opcode nvme_cmd_write; _ ← set_lba 559;
  translated 1280 559.

Definition section_wr : teff unit :=
  _ ← clear_cache; _ ← new_ctx;
  _ ← rw_first nvme_cmd_write 555 3;
  _ ← answered AUXBITS_RW 1280 555;
  _ ← set_opcode nvme_cmd_read; _ ← set_lba 559;
  translated 1280 559.

Definition section_ww : teff unit :=
  _ ← clear_cache; _ ← new_ctx;
  _ ← rw_first nvme_cmd_write 555 3;
  _ ← answered AUXBITS_RW 1280 555;
  _ ← set_opcode nvme_cmd_write; _ ← set_lba 559;
  translated 1280 559.

Definition section_cow : teff unit :=
  _ ← clear_cache; _ ← new_ctx;
  _ ← rw_first nvme_cmd_write 555 3;
  _ ← answered AUXBITS_VALID 768 555;
  _ ← set_opcode nvme_cmd_write; _ ← set_lba 559;
  _ ← set_hook NMBPF_HOOK_VSQ;
  _ ← require_bpf NMBPF_SEND_FD;
  answered AUXBITS_RW 1280 559.

Definition section_r4 : teff unit :=
  _ ← clear_cache; _ ← new_ctx;
  _ ← rw_first nvme_cmd_read 555 3;
  _ ← answered AUXBITS_VALID 768 555;
  _ ← rw_first nvme_cmd_read 8389163 3;
  _ ← answered AUXBITS_VALID 896 8389163;
  _ ← rw_first nvme_cmd_read 16777771 3;
  _ ← answered AUXBITS_VALID 1024 16777771;
  _ ← rw_first nvme_cmd_read 25166379 3;
  _ ← answered AUXBITS_VALID 1280 25166379;
  _ ← set_opcode nvme_cmd_read; _ ← set_lba 25166379; _ ← set_length 3;
  _ ← translated 1280 25166379;
  _ ← set_opcode nvme_cmd_read; _ ← set_lba 16777771; _ ← set_length 3;
  _ ← translated 1024 16777771;
  _ ← set_opcode nvme_cmd_read; _ ← set_lba 8389163; _ ← set_length 3;
  _ ← translated 896 8389163;
  _ ← set_opcode nvme_cmd_read; _ ← set_lba 555; _ ← set_length 3;
  translated 768 555.

(** The cache may hold anything before a section. *)
Definition passes (m : teff unit) : Prop := ∀ s, (m s).1 = Ret tt.

Example lbacache_tests :
  Forall passes [section_rr; section_rw; section_wr; section_ww; section_cow; section_r4].
Proof.
  repeat (apply Forall_cons_2; [intros s; vm_compute; reflexivity|]). apply Forall_nil_2.
Qed.

(** ** test-xcow.cpp *)

Definition memsize : Z := Z.shiftl 1 30.
(** Fresh anonymous memory: all zeros. *)
Definition mem : xfile := XFile ∅ memsize (Span 0 0) (Span 0 0).

Definition report_read (s : XcowSnap) (lba : Z) : xeff Z := translate_read s (lba * 512).
Definition report_write (s : XcowSnap) (lba : Z) : xeff (Z * Z) := translate_write s (lba * 512).

Definition xcow_fixture : xeff XcowSnap :=
  _ ← format (Z.shiftl 50 30) 16 (2 ^ 32 - 1) U64_MAX; open_write.

Definition section_writability : xeff unit :=
  s1 ← xcow_fixture;
  '(a, _) ← report_write s1 0x12349876;
  REQUIRE (xb_writable a).

Definition section_repeatable : xeff unit :=
  s1 ← xcow_fixture;
  '(a, _) ← report_write s1 0x12349876;
  b ← report_read s1 0x12349876;
  _ ← REQUIRE (a =? b);
  '(c, _) ← report_write s1 0x12349876;
  REQUIRE (a =? c).

Definition section_same_block : xeff unit :=
  s1 ← xcow_fixture;
  '(a, _) ← report_write s1 0x12349876;
  '(b, _) ← report_write s1 0x1234987f;
  REQUIRE (a =? b).

Definition section_begin_end : xeff unit :=
  s1 ← xcow_fixture;
  '(a, _) ← report_write s1 0x12349880;
  b ← report_read s1 (0x12349880 + 127);
  REQUIRE (a =? b).

Definition section_child_snapshot : xeff unit :=
  s1 ← xcow_fixture;
  '(orig, _) ← report_write s1 0x12349880;
  '(s2, _) ← snap_create s1;
  a ← report_read s2 0x12349880;
  _ ← REQUIRE (nt_valid a);
  _ ← REQUIRE (decode_leaf a =? decode_leaf orig);
  '(cowdest, prev) ← report_write s2 0x12349880;
  _ ← REQUIRE (decode_leaf prev =? decode_leaf a);
  _ ← REQUIRE (negb (decode_leaf cowdest =? decode_leaf a));
  _ ← REQUIRE (xb_writable cowdest);
  _ ← REQUIRE (negb (xb_writable prev));
  b ← report_read s2 0x12349880;
  _ ← REQUIRE (cowdest =? b);
  '(c, _) ← report_write s2 0x12349880;
  REQUIRE (cowdest =? c).

Definition section_reopen : xeff unit :=
  _ ← format (Z.shiftl 50 30) 16 (2 ^ 32 - 1) U64_MAX;
  _ ← xcow_open;
  _ ← xcow_open;
  fs ← hdr_fsize;
  _ ← REQUIRE (fs =? Z.shiftl 50 30);
  cb ← cluster_bits;
  REQUIRE (cb =? 16).

Definition xcow_sections : list (xeff unit) :=
  [section_writability; section_repeatable; section_same_block; section_begin_end;
   section_child_snapshot; section_reopen].

Example xcow_tests : (λ m : xeff unit, (m mem).1) <$> xcow_sections = replicate 6 (Ret tt).
Proof. vm_compute. reflexivity. Qed.

(** The sections on the block iterator: the address, size and "last" of every
    piece, and the address after the end. *)
Definition piece_is (bi : blk_iter) (addr size : Z) (last : bool) : bool :=
  negb (blk_at_end bi) && (bi_addr bi =? addr) && (blk_size bi =? size) &&
  bool_decide (blk_is_last bi = last).
Definition ended (bi : blk_iter) (addr : Z) : bool :=
  blk_at_end bi && (bi_addr bi =? addr) && (blk_size bi =? 0).

Definition section_blk_iter_1 : bool :=
  let bi := blk_begin 215 1 7 in
  piece_is bi 215 1 true && ended (blk_incr bi) 216.
Definition section_blk_iter_2 : bool :=
  let bi := blk_begin 215 128 7 in
  let bi' := blk_incr bi in
  piece_is bi 215 41 false && piece_is bi' 256 87 true &&
  blk_at_end (blk_incr bi') && (blk_size (blk_incr bi') =? 0).
Definition section_blk_iter_3 : bool :=
  let bi := blk_begin 384 128 7 in
  piece_is bi 384 128 true && ended (blk_incr bi) 512.
Definition section_blk_iter_4 : bool :=
  let bi := blk_begin 215 41 7 in
  piece_is bi 215 41 true && ended (blk_incr bi) 256.
Definition section_blk_iter_5 : bool :=
  let bi := blk_begin 384 52 7 in
  piece_is bi 384 52 true && ended (blk_incr bi) 436.
Definition section_blk_iter_6 : bool :=
  let bi := blk_begin 384 256 7 in
  let bi' := blk_incr bi in
  piece_is bi 384 128 false && piece_is bi' 512 128 true && ended (blk_incr bi') 640.

Example blk_iter_tests : forallb id
  [section_blk_iter_1; section_blk_iter_2; section_blk_iter_3; section_blk_iter_4;
   section_blk_iter_5; section_blk_iter_6] = true.
Proof. reflexivity. Qed.
