(* ===== verification/Machine.v ===== *)
(** * The memory of the virtual machine

    util/mdev.cpp: how guest memory, a file with a hole below 4 GiB, is mapped
    into the process, and how a list of host memory buffer descriptors is. The
    system calls are listed in order; whether each succeeds is a parameter. *)
From S2P Require Import Prelude Proto Sender.

Definition GiB4 : Z := Z.shiftl 4 30.

(** The system calls of the two functions that change mappings; [file] is an
    offset in the memory file, [None] an anonymous mapping. *)
Inductive syscall : Type :=
  | SysFstat
  | SysMmap (addr len : Z) (file : option Z)
  | SysMadvise (addr len : Z)
  | SysMunmap (addr len : Z).

Abbreviation sys := (eff (list syscall)).

Section machine.
(** Whether a call succeeds after the calls before it, and the address of a
    new anonymous mapping of a size. *)
Context (ok : list syscall → syscall → bool) (place : Z → Z).

Definition try_call (c : syscall) : sys bool :=
  s ← get; _ ← put (s ++ [c]); mret (ok s c).
Definition call (c : syscall) : sys unit :=
  r ← try_call c; ensure r Esystem.

(** [mdev_vm_mmap]: the address and the size of the mapping. [st_size] is what
    [fstat] reports. *)
Definition mdev_vm_mmap (below_4g_mem_size st_size : Z) : sys (Z * Z) :=
  if truthy (Z.land below_4g_mem_size (NVME_PAGE_SIZE - 1)) then throw Einvalid_argument else
  _ ← call SysFstat;
  let '(pvm_size, below) :=
    if st_size <=? below_4g_mem_size then (st_size, st_size)
    else (u64 (GiB4 + st_size - below_4g_mem_size), below_4g_mem_size) in
  let pvm := place pvm_size in
  _ ← call (SysMmap pvm pvm_size None);
  _ ← call (SysMadvise pvm pvm_size);
  _ ← call (SysMmap pvm below (Some 0));
  _ ← call (SysMadvise pvm below);
  let pvm_hi := pvm + GiB4 in
  let pvm_hisize := u64 (st_size - below) in
  _ ← (if 0 <? pvm_hisize then
         _ ← call (SysMmap pvm_hi pvm_hisize (Some below));
         call (SysMadvise pvm_hi pvm_hisize)
       else mret tt);
  mret (pvm, pvm_size).

Definition fileoff_to_vaddr (off below_4g_mem_size : Z) : Z :=
  if off <? below_4g_mem_size then off else u64 (GiB4 + off - below_4g_mem_size).
Definition vaddr_to_fileoff (addr below_4g_mem_size : Z) : Z :=
  if addr <? below_4g_mem_size then addr
  else if addr <? GiB4 then U64_MAX
  else u64 (addr - GiB4 + below_4g_mem_size).

(** [struct hmb_dl_entry]. *)
Record hmb_dl_entry : Type := HmbEntry { badd : Z; bpages : Z }.

(** The loop over the descriptors: [mapped] pages so far, the next at [begin].
    [None] is a failed mapping. *)
Fixpoint hmb_loop (buf below hmb_pages : Z) (hmdl : list hmb_dl_entry) (mapped begin : Z) :
    sys (option Z) :=
  match hmdl with
  | [] => mret (Some mapped)
  | entry :: hmdl =>
    let add := Z.land (badd entry) (not64 (NVME_PAGE_SIZE - 1)) in
    let foff := vaddr_to_fileoff add below in
    let count := bpages entry in
    let out := mapped + count in
    if (2 ^ 32 <=? out) || (hmb_pages <? out) || (foff =? U64_MAX) then mret (Some mapped) else
    r ← try_call (SysMmap begin (u32 (Z.shiftl count NVME_PAGE_SHIFT)) (Some foff));
    if negb r then
      _ ← try_call (SysMunmap buf (u32 (Z.shiftl hmb_pages NVME_PAGE_SHIFT)));
      mret None
    else
      hmb_loop buf below hmb_pages hmdl (u32 (mapped + count))
        (begin + u32 (Z.shiftl count NVME_PAGE_SHIFT))
  end.

(** The address of the buffer, if every mapping succeeds, and the pages mapped. *)
Definition mdev_vm_mmap_hmb (below_4g_mem_size hmb_pages : Z) (hmdl : list hmb_dl_entry) :
    sys (option (Z * Z)) :=
  let len := u32 (Z.shiftl hmb_pages NVME_PAGE_SHIFT) in
  let buf := place len in
  _ ← call (SysMmap buf len None);
  _ ← call (SysMadvise buf len);
  r ← hmb_loop buf below_4g_mem_size hmb_pages hmdl 0 buf;
  mret (match r with Some mapped => Some (buf, mapped) | None => None end).

End machine.

(** ** Specification *)

(** What backs an address after some calls: the last mapping that covers it,
    with the offset in the memory file if it is of the file. *)
Definition backing_step (a : Z) (b : option (option Z)) (c : syscall) : option (option Z) :=
  match c with
  | SysMmap addr len file =>
    if (addr <=? a) && (a <? addr + len) then Some ((λ off, off + (a - addr)) <$> file) else b
  | _ => b
  end.
Definition backing (cs : list syscall) (a : Z) : option (option Z) := foldl (backing_step a) None cs.

(** ** Lemmas *)

Lemma try_call_run ok c s : try_call ok c s = (Ret (ok s c), s ++ [c]).
Proof. done. Qed.

Lemma call_bind {A} ok c (f : unit → sys A) s :
  (call ok c ≫= f) s = if ok s c then f tt (s ++ [c]) else (Throw Esystem, s ++ [c]).
Proof.
  unfold call, try_call, mbind, eff_bind, get, put, mret, eff_ret, ensure. by destruct (ok s c).
Qed.

(** The two address functions are inverse on the file. *)
Lemma vaddr_fileoff_roundtrip below off : 0 <= below <= GiB4 → 0 <= off → off + GiB4 < 2 ^ 64 →
  vaddr_to_fileoff (fileoff_to_vaddr off below) below = off.
Proof.
  unfold vaddr_to_fileoff, fileoff_to_vaddr. intros Hb H0 H1.
  change GiB4 with (2 ^ 32) in *. destruct (Z.ltb_spec off below).
  - by replace (off <? below) with true by lia.
  - rewrite u64_small by lia. replace (2 ^ 32 + off - below <? below) with false by lia.
    replace (2 ^ 32 + off - below <? 2 ^ 32) with false by lia.
    replace (2 ^ 32 + off - below - 2 ^ 32 + below) with off by lia. by apply u64_small; lia.
Qed.

(** Guest memory as the guest numbers it: every address of the machine is
    backed by the byte of the file that [vaddr_to_fileoff] gives, and the hole
    by no file. *)
Lemma mdev_vm_mmap_exact place below st_size :
  0 <= below <= GiB4 → below mod 4096 = 0 → below < st_size → st_size + GiB4 < 2 ^ 63 →
  let pvm_size := GiB4 + st_size - below in
  ∃ cs, mdev_vm_mmap (λ _ _, true) place below st_size [] = (Ret (place pvm_size, pvm_size), cs) ∧
    ∀ a, 0 <= a < pvm_size → backing cs (place pvm_size + a) =
      Some (if vaddr_to_fileoff a below =? U64_MAX then None else Some (vaddr_to_fileoff a below)).
Proof.
  intros Hb Hm Hs Hl pvm_size. unfold mdev_vm_mmap.
  assert (truthy (Z.land below (NVME_PAGE_SIZE - 1)) = false) as ->.
  { unfold truthy. change (NVME_PAGE_SIZE - 1) with (Z.ones 12).
    rewrite Z.land_ones by lia. change (2 ^ 12) with 4096. by rewrite Hm. }
  replace (st_size <=? below) with false by lia.
  change GiB4 with (2 ^ 32) in *. rewrite (u64_small (2 ^ 32 + st_size - below)) by lia.
  fold pvm_size. rewrite (u64_small (st_size - below)) by lia.
  replace (0 <? st_size - below) with true by lia.
  eexists. split; [reflexivity|]. intros a Ha. set (p := place pvm_size).
  unfold backing. cbn [app foldl backing_step]. change GiB4 with (2 ^ 32). unfold vaddr_to_fileoff.
  change GiB4 with (2 ^ 32). unfold pvm_size in Ha.
  assert (0 <= pvm_size ∧ U64_MAX = 2 ^ 64 - 1) as [Hp HM] by (unfold pvm_size; split; [lia|done]).
  destruct (Z.ltb_spec a below); [|destruct (Z.ltb_spec a (2 ^ 32))].
  - replace ((p + 2 ^ 32 <=? p + a) && (p + a <? p + 2 ^ 32 + (st_size - below))) with false by lia.
    replace ((p <=? p + a) && (p + a <? p + below)) with true by lia.
    replace (a =? U64_MAX) with false by lia. simpl. do 2 f_equal. lia.
  - replace ((p + 2 ^ 32 <=? p + a) && (p + a <? p + 2 ^ 32 + (st_size - below))) with false by lia.
    replace ((p <=? p + a) && (p + a <? p + below)) with false by lia.
    rewrite Z.eqb_refl. replace ((p <=? p + a) && (p + a <? p + pvm_size)) with true by lia. done.
  - replace ((p + 2 ^ 32 <=? p + a) && (p + a <? p + 2 ^ 32 + (st_size - below))) with true by lia.
    rewrite u64_small by lia. replace (a - 2 ^ 32 + below =? U64_MAX) with false by lia.
    simpl. do 2 f_equal. lia.
Qed.

(** The addresses a file mapping of the loop covers. *)
Definition file_mmaps_within (lo hi : Z) (cs : list syscall) : Prop :=
  ∀ addr len off, SysMmap addr len (Some off) ∈ cs → lo <= addr ∧ addr + len <= hi.

Lemma hmb_loop_within ok buf below hmb_pages hmdl : 0 <= hmb_pages < 2 ^ 20 →
  Forall (λ e, 0 <= bpages e < 2 ^ 32) hmdl → ∀ mapped begin s,
  0 <= mapped <= hmb_pages → begin = buf + 4096 * mapped →
  file_mmaps_within buf (buf + 4096 * hmb_pages) s →
  file_mmaps_within buf (buf + 4096 * hmb_pages) (hmb_loop ok buf below hmb_pages hmdl mapped begin s).2.
Proof.
  intros Hh. induction hmdl as [|[ba bp] hmdl IH]; intros Hf mapped begin s Hm Hb Hs; simpl; [done|].
  apply Forall_cons in Hf as [Hp Hf]. simpl in Hp.
  destruct (Z.leb_spec (2 ^ 32) (mapped + bp)); [done|].
  destruct (Z.ltb_spec hmb_pages (mapped + bp)); [done|]. cbn [orb].
  destruct (vaddr_to_fileoff _ below =? U64_MAX); [done|].
  change NVME_PAGE_SHIFT with 12. rewrite (Z.shiftl_mul_pow2 bp 12) by lia. change (2 ^ 12) with 4096.
  rewrite (u32_small (bp * 4096)) by lia.
  set (foff := vaddr_to_fileoff _ below). set (c := SysMmap begin (bp * 4096) (Some foff)).
  rewrite (bind_Ret _ _ _ _ _ (try_call_run ok c s)).
  assert (file_mmaps_within buf (buf + 4096 * hmb_pages) (s ++ [c])) as Hs'.
  { intros addr len off [Hin|Hin]%elem_of_app; [by eapply Hs|].
    apply list_elem_of_singleton in Hin as [= -> -> _]. lia. }
  destruct (ok s c); cbn [negb].
  - apply IH; [done| | |done]; rewrite u32_small by lia; lia.
  - intros addr len off Hin. simpl in Hin. rewrite elem_of_app in Hin.
    destruct Hin as [Hin|Hin]; [by eapply Hs'|]. by apply list_elem_of_singleton in Hin.
Qed.

(** With a buffer below 4 GiB no descriptor of the guest makes the process map
    anything outside of it. *)
Lemma mdev_vm_mmap_hmb_within ok place below hmb_pages hmdl :
  0 <= hmb_pages < 2 ^ 20 → Forall (λ e, 0 <= bpages e < 2 ^ 32) hmdl →
  let buf := place (4096 * hmb_pages) in
  file_mmaps_within buf (buf + 4096 * hmb_pages)
    (mdev_vm_mmap_hmb ok place below hmb_pages hmdl []).2.
Proof.
  intros Hh Hf buf. unfold mdev_vm_mmap_hmb. change NVME_PAGE_SHIFT with 12.
  rewrite Z.shiftl_mul_pow2 by lia. change (2 ^ 12) with 4096.
  rewrite u32_small by lia. rewrite (Z.mul_comm hmb_pages). fold buf.
  set (c1 := SysMmap buf _ None). set (c2 := SysMadvise buf _).
  assert (∀ cs, (∀ x, x ∈ cs → x = c1 ∨ x = c2) →
    file_mmaps_within buf (buf + 4096 * hmb_pages) cs) as Hcs.
  { intros cs Hx addr len off Hin. by destruct (Hx _ Hin). }
  rewrite call_bind. destruct (ok [] c1); [|by apply Hcs; set_solver].
  rewrite call_bind. destruct (ok _ c2); [|by apply Hcs; set_solver].
  assert (file_mmaps_within buf (buf + 4096 * hmb_pages)
    (hmb_loop ok buf below hmb_pages hmdl 0 buf ([c1] ++ [c2])).2) as Hl.
  { apply hmb_loop_within; try done; [lia|lia|]. apply Hcs. set_solver. }
  unfold mbind, eff_bind. by destruct (hmb_loop _ _ _ _ _ _ _ _) as [[[m|]|e] s].
Qed.

(** ** Observations

    Page counts are shifted in 32 bits: with a buffer of 2^20 + 1 pages, one
    page is reserved, and a descriptor of two pages is mapped over whatever
    follows it. *)
Example hmb_overruns :
  (mdev_vm_mmap_hmb (λ _ _, true) (λ _, 0x10000) 0 (2 ^ 20 + 1) [HmbEntry GiB4 2] []).2 =
    [SysMmap 0x10000 4096 None; SysMadvise 0x10000 4096; SysMmap 0x10000 8192 (Some 0)].
Proof. reflexivity. Qed.
