(* ===== verification/Writerand.v ===== *)
(** * The tool that fills a disk

    writerand.cpp: threads that take chunks of a disk from a shared counter and
    write encrypted zeroes to them, or skip them at random. A turn of a thread
    is its step up to the next access to what the threads share: it takes a
    chunk, or it writes one. *)
From S2P Require Import Prelude Proto Crypto.
From Stdlib Require Import QArith.
#[local] Open Scope Z_scope.

(** ** Configuration and state *)

Record writerand_arg : Type := WriterandArg { blksize : Z; fsize : Z; nslices : Z; nskips : Z; pct : Q; nblocks : Z }.

(** What [main] makes of the options; a double is the rational it denotes. *)
Definition clamp01 (x : Q) : Q := if negb (Qle_bool 0 x) then 0%Q else if negb (Qle_bool x 1) then 1%Q else x.
Definition writerand_options (block_size fsz slices skips nthreads : Z) (p : Q) : outcome writerand_arg :=
  if block_size =? 0 then Throw Eub else
  let n := fsz / block_size in
  if (n =? 0) || (slices =? 0) then Throw Eruntime else
  if nthreads =? 0 then Throw Eruntime else
  Ret (WriterandArg block_size fsz slices skips (clamp01 p) n).

(** Where a thread is: before the counter, with a chunk to write, or after its
    loop. *)
Inductive wthread : Type := WTake | WWrite (idx : Z) | WEnd.
#[export] Instance wthread_eq_dec : EqDecision wthread.
Proof. solve_decision. Defined.

(** The two counters, what was written (offset and bytes), and the threads. *)
Record wsys : Type := WSys { ws_idx : Z; ws_written : Z; ws_log : list (Z * list Z); ws_threads : list wthread }.
Definition set_idx (i : Z) (s : wsys) : wsys := WSys i (ws_written s) (ws_log s) (ws_threads s).
Definition set_wthread (t : nat) (x : wthread) (s : wsys) : wsys :=
  WSys (ws_idx s) (ws_written s) (ws_log s) (<[t := x]> (ws_threads s)).
Definition log_write (off : Z) (d : list Z) (ret : Z) (s : wsys) : wsys :=
  WSys (ws_idx s) (u64 (ws_written s + ret)) (ws_log s ++ [(off, d)]) (ws_threads s).
Definition wsys_start (nthreads : nat) : wsys := WSys 0 0 [] (replicate nthreads WTake).

Section worker.
Context {E : Type} {cls : tweakable_block_cipher E} (engine : E) (arg : writerand_arg).

Definition zero_block : list Z := replicate (Z.to_nat (blksize arg)) 0.

(** The loop over the slices: all of them under one number. *)
Fixpoint encrypt_slices (n : nat) (lba : Z) : option (list (list Z)) :=
  match n with
  | O => Some []
  | S n =>
    match encrypt engine (blksize arg) zero_block lba with
    | None => None
    | Some c => match encrypt_slices n lba with None => None | Some cs => Some (c :: cs) end
    end
  end.

Definition chunk_len (idx : Z) : Z := Z.min (nslices arg) (nblocks arg - idx).
Definition chunk_off (idx : Z) : Z := u64 (idx * blksize arg).

(** One turn: [draw] is the random number, [ret] what [pwritev] returns. *)
Definition worker_turn (t : nat) (draw : Q) (ret : Z) : eff wsys unit :=
  s ← get;
  match ws_threads s !! t with
  | Some WTake =>
    let idx := ws_idx s in
    _ ← modify (set_idx (u64 (idx + u64 (nslices arg + nskips arg))));
    if nblocks arg <=? idx then modify (set_wthread t WEnd)
    else if negb (Qle_bool (pct arg) draw) then mret tt
    else modify (set_wthread t (WWrite idx))
  | Some (WWrite idx) =>
    match encrypt_slices (Z.to_nat (chunk_len idx)) (u64 (idx + chunk_len idx)) with
    | None => throw Eruntime
    | Some slices =>
      if ret <? 0 then throw Esystem else
      _ ← modify (log_write (chunk_off idx) (take (Z.to_nat ret) (mjoin slices)) ret);
      modify (set_wthread t WTake)
    end
  | _ => mret tt
  end.

(** The threads in any order; what a thread throws ends the program. *)
Record turn : Type := Turn { tn_thread : nat; tn_draw : Q; tn_ret : Z }.
Fixpoint run_turns (l : list turn) : eff wsys unit :=
  match l with
  | [] => mret tt
  | x :: l => _ ← worker_turn (tn_thread x) (tn_draw x) (tn_ret x); run_turns l
  end.

(** ** The chunks *)

Abbreviation stride := (nslices arg + nskips arg).
Definition nchunks : nat := Z.to_nat ((nblocks arg + stride - 1) / stride).
Definition chunks (m : nat) : list Z := (λ i : nat, Z.of_nat i * stride) <$> seq 0 m.

Definition held (t : wthread) : option Z := match t with WWrite i => Some i | _ => None end.
Definition pending (s : wsys) : list Z :=
  omap held (ws_threads s).
Definition ended (s : wsys) : nat := length (filter (λ t, t = WEnd) (ws_threads s)).

(** What a chunk is written with: the encryption of zeroes under the number of
    the first block after it, in each of its blocks; or a part of that. *)
Definition chunk_data (idx : Z) (d : list Z) : Prop :=
  ∃ c ret, encrypt engine (blksize arg) zero_block (u64 (idx + chunk_len idx)) = Some c ∧
    d = take ret (mjoin (replicate (Z.to_nat (chunk_len idx)) c)).

Record wconf (n : nat) : Prop := {
  wc_slices : 0 < nslices arg; wc_skips : 0 <= nskips arg; wc_blocks : 0 < nblocks arg;
  wc_room : (Z.of_nat nchunks + Z.of_nat n) * stride < 2 ^ 64;
}.

Lemma chunk_iff n i : wconf n → 0 <= i → i * stride < nblocks arg ↔ i < Z.of_nat nchunks.
Proof.
  intros [H1 H2 H3 _] Hi. unfold nchunks. rewrite Z2Nat.id by (apply Z.div_pos; lia).
  pose proof (Z.div_mod (nblocks arg + stride - 1) stride ltac:(lia)) as Hd.
  pose proof (Z.mod_pos_bound (nblocks arg + stride - 1) stride ltac:(lia)).
  split; intros; nia.
Qed.

Lemma chunks_S m : chunks (S m) = chunks m ++ [Z.of_nat m * stride].
Proof. unfold chunks. by rewrite seq_S, fmap_app. Qed.

Lemma encrypt_slices_eq n lba cs : (0 < n)%nat → encrypt_slices n lba = Some cs →
  ∃ c, encrypt engine (blksize arg) zero_block lba = Some c ∧ cs = replicate n c.
Proof.
  intros Hn. revert cs. induction n as [|n IH]; intros cs H; [lia|]. cbn in H.
  destruct (encrypt engine (blksize arg) zero_block lba) as [c|] eqn:Ec; [|done].
  exists c. split; [done|]. destruct n as [|n]; [by injection H as <-|].
  destruct (encrypt_slices (S n) lba) as [cs'|]; [|done]. injection H as <-.
  destruct (IH ltac:(lia) _ eq_refl) as (c' & [= <-] & ->). done.
Qed.

Lemma set_wthread_perm (ts : list wthread) t x y : ts !! t = Some x → ∃ r, ts ≡ₚ x :: r ∧ <[t := y]> ts ≡ₚ y :: r.
Proof.
  intros H. exists (take t ts ++ drop (S t) ts). split.
  - rewrite <- (take_drop_middle ts t x H) at 1. symmetry. apply Permutation_middle.
  - rewrite insert_take_drop by (by eapply lookup_lt_Some). symmetry. apply Permutation_middle.
Qed.

(** ** The invariant

    [k] chunks were taken: written ([ws], in the order of the writes), held by
    a thread, or skipped ([sk]). *)
Record winv (n : nat) (ws sk : list Z) (k : nat) (s : wsys) : Prop := {
  wi_idx : ws_idx s = Z.of_nat (k + ended s) * stride;
  wi_k : (k <= nchunks)%nat;
  wi_end : (0 < ended s)%nat → k = nchunks;
  wi_threads : length (ws_threads s) = n;
  wi_log : Forall2 (λ i e, (0 <= i < nblocks arg ∧ e.1 = chunk_off i) ∧ chunk_data i e.2) ws (ws_log s);
  wi_perm : ws ++ pending s ++ sk ≡ₚ chunks k;
}.

Lemma ended_bound s n : length (ws_threads s) = n → (ended s <= n)%nat.
Proof. intros <-. apply length_filter. Qed.

Definition ends (t : wthread) : nat := match t with WEnd => 1 | _ => 0 end.
(** A thread moves from [x] to [y]. *)
Lemma move_wthread s t x y : ws_threads s !! t = Some x →
  (ended (set_wthread t y s) + ends x = ended s + ends y)%nat ∧
  option_list (held x) ++ pending (set_wthread t y s) ≡ₚ option_list (held y) ++ pending s.
Proof.
  intros H. destruct (set_wthread_perm (ws_threads s) t x y H) as (r & E1 & E2).
  unfold ended, pending, set_wthread. cbn [ws_threads]. rewrite E2, E1.
  rewrite !filter_cons. cbn [omap list_omap]. split.
  - destruct x, y; repeat case_decide; try discriminate; try congruence; cbn; lia.
  - destruct x, y; cbn; try done. apply perm_swap.
Qed.

Lemma winv_pending n ws sk k s i : winv n ws sk k s → wconf n → i ∈ pending s → 0 <= i < nblocks arg.
Proof.
  intros Hi Hc Hin. assert (i ∈ chunks k) as (j & -> & Hj)%list_elem_of_fmap.
  { rewrite <- (wi_perm _ _ _ _ _ Hi), !elem_of_app. auto. }
  rewrite elem_of_seq in Hj. pose proof (wi_k _ _ _ _ _ Hi). pose proof Hc as [H1 H2 H3 _].
  split; [nia|]. apply (chunk_iff n (Z.of_nat j) Hc); lia.
Qed.

(** The counter never wraps, so a thread finds the chunk that is next. *)
Lemma winv_next n ws sk k s t : winv n ws sk k s → wconf n → ws_threads s !! t = Some WTake →
  (ended s < n)%nat ∧ u64 (ws_idx s + u64 stride) = Z.of_nat (S (k + ended s)) * stride ∧
  (nblocks arg <=? ws_idx s = false → (k < nchunks ∧ ended s = 0)%nat) ∧
  (nblocks arg <=? ws_idx s = true → k = nchunks).
Proof.
  intros Hi Hc Ht. pose proof Hc as [H1 H2 H3 H4]. pose proof (wi_k _ _ _ _ _ Hi) as Hk.
  assert (ended s < n)%nat as He.
  { rewrite <- (wi_threads _ _ _ _ _ Hi). apply (length_filter_lt _ _ WTake); [|done].
    by eapply list_elem_of_lookup_2. }
  rewrite (wi_idx _ _ _ _ _ Hi). split; [done|]. split; [|split].
  - rewrite (u64_small stride), u64_small by nia. lia.
  - intros Hb%Z.leb_gt. apply (chunk_iff n _ Hc) in Hb; [|lia].
    destruct (ended s) as [|e] eqn:Ee; [lia|]. pose proof (wi_end _ _ _ _ _ Hi ltac:(lia)). lia.
  - intros Hb%Z.leb_le. destruct (ended s) as [|e] eqn:Ee; [|apply (wi_end _ _ _ _ _ Hi); lia].
    pose proof (chunk_iff n (Z.of_nat (k + 0)) Hc ltac:(lia)). lia.
Qed.

(** How many turns are left at most. *)
Definition turns_left (n k : nat) (s : wsys) : nat :=
  (2 * (nchunks - k) + length (pending s) + (n - ended s))%nat.
Definition active (t : nat) (s : wsys) : bool :=
  match ws_threads s !! t with Some WTake | Some (WWrite _) => true | _ => false end.

(** What a turn does to the account: it goes on, one turn less is left, and the
    chunk it takes is skipped or held as the draw says. *)
Definition advances (n : nat) (ws sk : list Z) (k : nat) (s : wsys) (draw : Q) (act : bool) (s' : wsys) : Prop :=
  ∃ ws' sk' k', winv n ws' sk' k' s' ∧
    (if act then turns_left n k' s' < turns_left n k s else s' = s ∧ k' = k)%nat ∧
    (if Qle_bool (pct arg) draw then sk' = sk else ws' ++ pending s' ≡ₚ ws ++ pending s).

Section turn.
Context (n : nat) (ws sk : list Z) (k : nat) (s : wsys) (t : nat) (draw : Q).
Context (Hi : winv n ws sk k s) (Hc : wconf n).

Lemma idle_advances : advances n ws sk k s draw false s.
Proof using Hi. exists ws, sk, k. split_and!; try done. by case_match. Qed.

Section take.
Context (Ht : ws_threads s !! t = Some WTake).
Abbreviation taken := (set_idx (u64 (ws_idx s + u64 stride)) s).

Lemma end_advances : nblocks arg <=? ws_idx s = true →
  advances n ws sk k s draw true (set_wthread t WEnd taken).
Proof using All.
  intros Hb. destruct (winv_next _ _ _ _ _ _ Hi Hc Ht) as (He & Eu & _ & Hge). specialize (Hge Hb).
  pose proof Hi as [I1 I2 I3 I4 I5 I6]. destruct (move_wthread s t WTake WEnd Ht) as [Em Pm].
  cbn [ends] in Em. cbn [held option_list option_rect app] in Pm. rewrite Eu. set (s2 := set_wthread _ _ _).
  assert (ended s2 = S (ended s)) as E2 by (change (ended s2) with (ended (set_wthread t WEnd s)); lia).
  assert (pending s2 ≡ₚ pending s) as P2 by exact Pm.
  exists ws, sk, k. unfold turns_left. split_and!; [split| |].
  - rewrite E2. cbn. f_equal. lia.
  - done.
  - done.
  - unfold s2. cbn. by rewrite length_insert.
  - done.
  - by rewrite P2.
  - rewrite E2, P2. lia.
  - case_match; [done|by rewrite P2].
Qed.

Lemma hold_advances : nblocks arg <=? ws_idx s = false → Qle_bool (pct arg) draw = true →
  advances n ws sk k s draw true (set_wthread t (WWrite (ws_idx s)) taken).
Proof using All.
  intros Hb Hd. destruct (winv_next _ _ _ _ _ _ Hi Hc Ht) as (He & Eu & Hlt & _).
  destruct (Hlt Hb) as [Hk He0]. pose proof Hi as [I1 I2 I3 I4 I5 I6].
  destruct (move_wthread s t WTake (WWrite (ws_idx s)) Ht) as [Em Pm].
  cbn [ends] in Em. cbn [held option_list option_rect app] in Pm. rewrite Eu. set (s2 := set_wthread _ _ _).
  assert (ended s2 = ended s) as E2
    by (change (ended s2) with (ended (set_wthread t (WWrite (ws_idx s)) s)); lia).
  assert (pending s2 ≡ₚ ws_idx s :: pending s) as P2 by exact Pm.
  assert (ws_idx s = Z.of_nat k * stride) as Ei by (rewrite I1, He0; f_equal; lia).
  exists ws, sk, (S k). unfold turns_left. rewrite Hd. split_and!; [split| |done].
  - rewrite E2. done.
  - lia.
  - lia.
  - unfold s2. cbn. by rewrite length_insert.
  - done.
  - rewrite P2, chunks_S, <- I6, Ei. cbn [app]. rewrite <- Permutation_middle. apply Permutation_cons_append.
  - rewrite E2, P2. cbn [length]. lia.
Qed.

Lemma skip_advances : nblocks arg <=? ws_idx s = false → Qle_bool (pct arg) draw = false →
  advances n ws sk k s draw true taken.
Proof using All.
  intros Hb Hd. destruct (winv_next _ _ _ _ _ _ Hi Hc Ht) as (He & Eu & Hlt & _).
  destruct (Hlt Hb) as [Hk He0]. pose proof Hi as [I1 I2 I3 I4 I5 I6].
  rewrite Eu. set (s2 := set_idx _ _).
  assert (ended s2 = ended s ∧ pending s2 = pending s) as [E2 P2] by done.
  assert (ws_idx s = Z.of_nat k * stride) as Ei by (rewrite I1, He0; f_equal; lia).
  exists ws, (ws_idx s :: sk), (S k). unfold turns_left. rewrite Hd, P2, E2. split_and!; [split| |done]; try done.
  - lia.
  - rewrite P2, chunks_S, <- I6, Ei, app_assoc, (app_assoc ws), <- Permutation_middle.
    apply Permutation_cons_append.
  - lia.
Qed.
End take.

Lemma write_advances i cs ret : ws_threads s !! t = Some (WWrite i) →
  encrypt_slices (Z.to_nat (chunk_len i)) (u64 (i + chunk_len i)) = Some cs →
  advances n ws sk k s draw true
    (set_wthread t WTake (log_write (chunk_off i) (take (Z.to_nat ret) (mjoin cs)) ret s)).
Proof using All.
  intros Ht Ecs. destruct (move_wthread s t (WWrite i) WTake Ht) as [Em Pm].
  cbn [ends] in Em. cbn [held option_list option_rect app] in Pm.
  assert (0 <= i < nblocks arg) as Hin by (apply (winv_pending _ _ _ _ _ i Hi Hc); rewrite <- Pm; by left).
  pose proof (wc_slices n Hc). pose proof Hi as [I1 I2 I3 I4 I5 I6].
  apply encrypt_slices_eq in Ecs as (c & Ec & ->); [|unfold chunk_len; lia].
  set (s2 := set_wthread _ _ _).
  assert (ended s2 = ended s) as E2 by (change (ended s2) with (ended (set_wthread t WTake s)); lia).
  assert (pending s ≡ₚ i :: pending s2) as P2 by (symmetry; exact Pm).
  exists (ws ++ [i]), sk, k. unfold turns_left. split_and!; [split| | ].
  - by rewrite E2.
  - done.
  - by rewrite E2.
  - unfold s2. cbn. by rewrite length_insert.
  - apply Forall2_app; [done|]. constructor; [|done]. split; [done|]. by exists c, (Z.to_nat ret).
  - by rewrite <- I6, P2, <- app_assoc.
  - rewrite E2, P2. cbn [length]. lia.
  - case_match; [done|]. by rewrite P2, <- app_assoc.
Qed.

Lemma turn_advances ret u s' : worker_turn t draw ret s = (Ret u, s') →
  advances n ws sk k s draw (active t s) s'.
Proof using All.
  unfold worker_turn, active. rewrite (bind_Ret _ _ s s s) by done.
  destruct (ws_threads s !! t) as [[|i|]|] eqn:Ht.
  - rewrite (bind_Ret _ _ s tt (set_idx (u64 (ws_idx s + u64 stride)) s)) by done.
    destruct (nblocks arg <=? ws_idx s) eqn:Hb; [|destruct (Qle_bool (pct arg) draw) eqn:Hd];
      intros [= <- <-]; [by apply end_advances|by apply hold_advances|by apply skip_advances].
  - destruct (encrypt_slices _ _) as [cs|] eqn:Ecs; [|done]. destruct (ret <? 0); [done|].
    intros [= <- <-]. by apply write_advances.
  - intros [= <- <-]. apply idle_advances.
  - intros [= <- <-]. apply idle_advances.
Qed.
End turn.

(** ** Runs *)

Fixpoint active_turns (l : list turn) (s : wsys) : nat :=
  match l with
  | [] => 0
  | x :: l => (if active (tn_thread x) s then 1 else 0) +
      active_turns l (worker_turn (tn_thread x) (tn_draw x) (tn_ret x) s).2
  end.
Definition writes (x : turn) : Prop := Qle_bool (pct arg) (tn_draw x) = true.
Definition skips (x : turn) : Prop := Qle_bool (pct arg) (tn_draw x) = false.

Lemma start_inv n : winv n [] [] 0 (wsys_start n).
Proof.
  assert (ended (wsys_start n) = 0%nat ∧ pending (wsys_start n) = []) as [E1 E2].
  { unfold ended, pending, wsys_start. cbn [ws_threads].
    induction n as [|n [IH1 IH2]]; [done|]. cbn [replicate]. split; [|exact IH2].
    by rewrite filter_cons_False. }
  split; rewrite ?E1, ?E2; try done; [lia|lia|apply length_replicate].
Qed.

Lemma run_inv n l : wconf n → ∀ ws sk k s u s', winv n ws sk k s → run_turns l s = (Ret u, s') →
  ∃ ws' sk' k', winv n ws' sk' k' s' ∧
    (active_turns l s + turns_left n k' s' <= turns_left n k s)%nat ∧
    (Forall writes l → sk' = sk) ∧ (Forall skips l → ws' ++ pending s' ≡ₚ ws ++ pending s).
Proof.
  intros Hc. induction l as [|[t d r] l IH]; intros ws sk k s u s' Hi Er.
  { injection Er as <- <-. exists ws, sk, k. split_and!; [done|cbn; lia|done..]. }
  apply bind_inv in Er as ([] & s1 & E1 & Er). cbn [tn_thread tn_draw tn_ret] in E1.
  destruct (turn_advances n ws sk k s t d Hi Hc r tt s1 E1) as (ws1 & sk1 & k1 & Hi1 & Hn1 & Hd1).
  destruct (IH ws1 sk1 k1 s1 u s' Hi1 Er) as (ws2 & sk2 & k2 & Hi2 & Hn2 & Hw2 & Hs2).
  exists ws2, sk2, k2. split; [done|]. split; [|split].
  - cbn [active_turns tn_thread tn_draw tn_ret]. rewrite E1. cbn [snd].
    destruct (active t s); [lia|]. destruct Hn1 as [-> ->]. lia.
  - intros Hf. inversion Hf as [|x y Hx Hy]; subst. rewrite Hw2 by done.
    unfold writes in Hx. cbn [tn_draw] in Hx. by rewrite Hx in Hd1.
  - intros Hf. inversion Hf as [|x y Hx Hy]; subst. rewrite Hs2 by done.
    unfold skips in Hx. cbn [tn_draw] in Hx. by rewrite Hx in Hd1.
Qed.

Lemma run_returns l : (∀ lba, is_Some (encrypt engine (blksize arg) zero_block lba)) →
  Forall (λ x, 0 <= tn_ret x) l → ∀ s, ∃ s', run_turns l s = (Ret tt, s').
Proof.
  intros He Hl. assert (∀ n lba, is_Some (encrypt_slices n lba)) as Hes.
  { intros n lba. induction n as [|n [cs IH]]; [by eexists|]. destruct (He lba) as [c Ec].
    cbn. rewrite Ec, IH. by eexists. }
  induction Hl as [|[t d r] l Hr Hl IH]; intros s; [by eexists|]. cbn [run_turns tn_thread tn_draw tn_ret] in *.
  assert (∃ s1, worker_turn t d r s = (Ret tt, s1)) as [s1 E1].
  { unfold worker_turn. rewrite (bind_Ret _ _ s s s) by done.
    destruct (ws_threads s !! t) as [[|i|]|]; [|destruct (Hes (Z.to_nat (chunk_len i)) (u64 (i + chunk_len i))) as [cs ->]|by eexists..].
    - repeat case_match; by eexists.
    - rewrite (proj2 (Z.ltb_ge r 0)) by done. by eexists. }
  by rewrite (bind_Ret _ _ s tt s1 E1).
Qed.

Lemma start_pending n : pending (wsys_start n) = [].
Proof. unfold pending, wsys_start. cbn [ws_threads]. by induction n. Qed.

Lemma draw_skips x : (1 <= pct arg)%Q → (tn_draw x < 1)%Q → skips x.
Proof.
  intros H1 H2. unfold skips. destruct (Qle_bool (pct arg) (tn_draw x)) eqn:Hd; [|done].
  apply Qle_bool_iff in Hd. destruct (Qlt_not_le _ _ H2). by apply (Qle_trans _ (pct arg)).
Qed.

(** All threads are through their loop. *)
Definition all_ended (s : wsys) : Prop := Forall (λ t, t = WEnd) (ws_threads s).

Lemma all_ended_inv n ws sk k s : winv n ws sk k s → (0 < n)%nat → all_ended s → k = nchunks ∧ pending s = [].
Proof.
  intros Hi Hn Ha. split.
  - apply (wi_end _ _ _ _ _ Hi). unfold ended. unfold all_ended in Ha.
    rewrite <- (wi_threads _ _ _ _ _ Hi) in Hn. destruct Ha as [|x l -> Ha]; [done|].
    rewrite filter_cons_True by done. cbn. lia.
  - unfold pending. unfold all_ended in Ha. induction Ha as [|x l -> Hl IH]; [done|exact IH].
Qed.
End worker.

(** Threads in any order take each chunk of the disk once: when no thread
    throws, what was written, is held, and was skipped are together the chunks
    the counter has passed, and when all threads have ended that is all of
    them. Each write is at its chunk's place, and its bytes are the encryption
    of zeroes. The threads end: there are at most two turns for a chunk and one
    for a thread. *)
Theorem writerand_exact {E} {cls : tweakable_block_cipher E} (engine : E) arg n l s :
  wconf arg n → (0 < n)%nat → 0 < blksize arg → nblocks arg * blksize arg < 2 ^ 64 →
  run_turns engine arg l (wsys_start n) = (Ret tt, s) →
  ∃ ws sk k, ws ++ pending s ++ sk ≡ₚ chunks arg k ∧ (all_ended s → pending s = [] ∧ k = nchunks arg) ∧
    Forall2 (λ i e, e.1 = i * blksize arg ∧ chunk_data engine arg i e.2) ws (ws_log s) ∧
    (Forall (writes arg) l → sk = []) ∧
    (active_turns engine arg l (wsys_start n) <= 2 * nchunks arg + n)%nat.
Proof.
  intros Hc Hn Hb Hsz E1.
  destruct (run_inv engine arg n l Hc [] [] 0 _ _ _ (start_inv engine arg n) E1) as (ws & sk & k & Hi & Ht & Hw & _).
  exists ws, sk, k. split; [apply Hi|]. split; [|split; [|split; [done|]]].
  - intros Ha. destruct (all_ended_inv _ _ _ _ _ _ _ Hi Hn Ha). done.
  - eapply Forall2_impl; [apply (wi_log _ _ _ _ _ _ _ Hi)|]. intros i e [[Hi1 ->] He]. split; [|done].
    unfold chunk_off. apply u64_small. nia.
  - unfold turns_left in Ht. destruct (start_inv engine arg n) as [I1 _ _ _ _ _].
    rewrite start_pending in Ht. cbn [length] in Ht. lia.
Qed.

(** The option is documented as the proportion of written blocks, and is one
    when it is not given: then nothing is written at all, since a number drawn
    from [0,1) is always below it and a chunk is skipped when it is. *)
Theorem default_writes_nothing {E} {cls : tweakable_block_cipher E} (engine : E) arg n l s :
  wconf arg n → (1 <= pct arg)%Q → Forall (λ x, (tn_draw x < 1)%Q) l →
  run_turns engine arg l (wsys_start n) = (Ret tt, s) → ws_log s = [] ∧ pending s = [].
Proof.
  intros Hc Hp Hl Er.
  destruct (run_inv engine arg n l Hc [] [] 0 _ _ _ (start_inv engine arg n) Er) as (ws & sk & k & Hi & _ & _ & Hs).
  rewrite start_pending in Hs.
  specialize (Hs ltac:(eapply Forall_impl; [exact Hl|intros x; by apply draw_skips])).
  apply Permutation_nil_r in Hs. apply app_eq_nil in Hs as [-> Hs].
  split; [|done]. pose proof (wi_log _ _ _ _ _ _ _ Hi) as Hf. by inversion Hf.
Qed.

(** ** An example: six blocks of four bytes, two threads *)

Definition demo_arg (p : Q) : writerand_arg := WriterandArg 4 24 2 1 p 6.
Definition demo_turns : list turn :=
  [Turn 0 0 0; Turn 1 0 0; Turn 1 0 8; Turn 0 0 5; Turn 1 0 0; Turn 0 0 0].
Abbreviation demo_engine := (AesXtsIpp 4).
Abbreviation demo_done := (run_turns demo_engine (demo_arg 0) demo_turns (wsys_start 2)).

Example demo_options : writerand_options 4 24 2 1 2 0 = Ret (demo_arg 0).
Proof. reflexivity. Qed.
Example demo_conf : wconf (demo_arg 0) 2.
Proof. split; by vm_compute. Qed.
Example demo_done_eq : demo_done = (Ret tt, WSys 12 13 [(12, [5; 5; 5; 5; 5; 5; 5; 5]); (0, [2; 2; 2; 2; 2])] [WEnd; WEnd]).
Proof. reflexivity. Qed.

(** Both blocks of a chunk are encrypted under the number of the block after
    them, so the disk reads back as something else than zeroes. *)
Example chunk_reads_back_wrong : head demo_done.2.(ws_log) = Some (12, [5; 5; 5; 5] ++ [5; 5; 5; 5]) ∧
  decrypt demo_engine 4 [5; 5; 5; 5] 3 = Some [6; 6; 6; 6] ∧
  decrypt demo_engine 4 [5; 5; 5; 5] 4 = Some [1; 1; 1; 1].
Proof. split_and!; reflexivity. Qed.
